(* ===== verification/_CoqProject ===== *)
-Q . S2P
Prelude.v
GoStrings.v
GoText.v
StringOrder.v
Handshake.v
Paths.v
FileSystem.v
Json.v
Manifest.v
Base64.v
Signing.v
Verifier.v
Weaveboot.v
Store.v
EventBus.v
Policy.v
HostServ.v
LogStream.v
ModuleSdk.v
HvChannel.v
Transport.v
HvPeer.v
Launch.v
TestKit.v
Supervisor.v
Shutdown.v
Lifecycle.v
Concurrency.v
Identity.v
Core.v
HostClient.v
Streams.v
Host.v
Agent.v
Sysinfo.v
Control.v
Windows.v
Commands.v
Operator.v
GateWeave.v
AptRepo.v
Tools.v
Fixtures.v
