(* ===== verification/Prelude.v ===== *)
(** * Weave platform agent: a verification development

    The program (src/) is a device agent.  A small boot supervisor, weaveboot,
    runs the agent core; core supervises modules, separate processes that talk
    to it over gRPC on a local socket.  Core gives each module a store, an event
    bus, policy delivery and message channels to the management plane
    ("gateweave") and to the hypervisor.  It installs modules from signed
    channel manifests, and refuses to execute a binary it has not verified.
    The development models these parts in the order in which a fault would hurt:
    what may run, what stays on disk when something fails, what one module can
    do to another, what is delivered; then how core puts the parts together at
    start-up, the module side of the interfaces, and the tools around them.

    ** Files and what they model

    Shared material:
    - [Prelude]: results and their notation, tactics, the hint databases [go],
      [gostr] and [go_simp], reachability for step relations, list lemmas.
    - [GoStrings], [GoText], [StringOrder], [Paths], [Base64], [Json]: what the
      code uses of [strings], [strconv], [sort.Strings], [path/filepath],
      [encoding/base64], [encoding/hex] and [encoding/json].  JSON is the class
      [JSON] with the round-trip law [JSONLaws]; [binary_JSON] is an instance.
    - [FileSystem] (module [os]): files and directories with the calls the agent
      makes.  Each call asks an oracle whether it works, fails with partial
      progress, or is where the machine stops; a theorem for every oracle covers
      every I/O error and every crash point.

    Components, one module each, named after its Go package:
    - [Handshake.handshake]: sdk/handshake ([Line], [Parse], [Format], [Window]).
    - [Manifest.manifest]: sdk/manifest/manifest.go and channel.go ([Validate],
      [Expired], look-ups).
    - [Signing.signing]: sdk/manifest/sig.go, internal/manifestverify and the
      tool cmd/weavemanifest.
    - [Verifier.verify]: internal/verify (channel, Linux and macOS verifiers).
    - [Weaveboot.weaveboot]: internal/weaveboot ([promoteStaged], [revert], the
      supervising [loop]).
    - [Store.store]: internal/store and the in-memory store of
      internal/hostserv/memory.go behind the interface [StoreBackend] /
      [StoreLaws]; the key file and its protector.
    - [EventBus.eventbus]: internal/eventbus.
    - [Policy.policy]: internal/policy and the watch loop hostserv runs over it.
    - [HostServ.werror], [HostServ.hostserv]: sdk/werror, the error mapping on
      both sides of gRPC, internal/hostserv.
    - [ModuleSdk.modulesdk]: sdk/modulesdk (lifecycle server, store client,
      start-up, the end of the process).
    - [HostClient.hostclient]: sdk/modulesdk/hostclient.go (the other clients, the
      stream pumps, surfaces, jobs, the watchdog ping loop).
    - [Streams]: the server side of the streaming calls at the grain of their
      goroutines.  [inbound]: [Mux.Receive], [Mux.deliver] and
      [transportServer.Receive] interleaved; [watching]: [policyServer.Watch] over
      the interface [PolicyBackend]; [memory]: internal/hostserv/memory.go;
      [hearing]: an event's way from the bus to a module.
    - [LogStream.wlog], [LogStream.loghandler]: sdk/wlog and
      sdk/modulesdk/loghandler.go, composed with hostserv's log server.
    - [TestKit.testkit]: sdk/modulesdk/testkit (the in-memory host services, the
      launch of the stub core, driving and ending what it launched).
    - [HvChannel.hvchannel]: sdk/hvchannel, and the gate and the decisions of the
      read loop in internal/transport/hypervisor*.go.
    - [HvPeer.hvpeer]: the peer itself, beside its mux: opening the device,
      [ConnectHypervisor], [Send], the read loop with its effects.
    - [Transport.transport]: internal/transport/transport.go (mux, persistent
      offline queue, HTTP peer).
    - [Launch.launch]: internal/supervise/launch.go, spawn_unix.go and
      spawn_pdeathsig_*.go.
    - [Supervisor.retry], [Supervisor.supervise]: sdk/retry,
      internal/supervise/supervisor.go and status.go.
    - [Shutdown.stopping]: the time limits of a stop, from weaveboot's signal through
      [proc.stop] to the SDK's [Stop] and [Shutdown].
    - [Lifecycle.lifecycle]: internal/lifecycle.
    - [Concurrency]: overlapping control calls.  [locks]: [lockModule] and the
      operations under it, interleaved step by step; [mark]: the read and the write of
      the highest accepted sequence in [fetchChannel].
    - [Identity.url], [Identity.identity]: what the code asks of [net/url], and
      internal/identity (device key, enrolment, persistence).
    - [Core.layout], [Core.core]: internal/layout, and the part of internal/core
      that works on the disk ([discoverModules], [signalReady], [SweepOrphans]).
    - [Host.platform], [Host.capability]: sdk/platform and internal/capability on
      Linux and macOS.
    - [Agent.agent]: internal/core [Run], which composes all of the above.
    - [Sysinfo.config], [Sysinfo.sysinfo]: sdk/config and modules/sysinfo.
    - [Control.ipc], [Control.controlsock], [Control.weavectl]: sdk/ipc on unix,
      internal/controlsock, the requests of cmd/weavectl.
    - [Windows]: the Windows builds.  [authenticode] (internal/verify), [winproc]
      (tokens, job objects and the launch of internal/supervise), [dpapi]
      (internal/store/keyprotect), [winhost] (sdk/platform, internal/capability and
      the sysinfo collector), [winipc] (named pipes).
    - [Commands]: the programs.  [flag] is what they use of package flag,
      [verifiers] the choice in internal/verify/verify.go, [weaveagent]
      cmd/weave-agent, [programs] cmd/weaveboot and the start of cmd/weavectl,
      [lifetime] core from its arguments to its end.
    - [Operator]: [operator] is a whole run of weavectl against core's control service,
      to the text it prints and its exit code; [duration] is [time.Duration.String].
    - [GateWeave.query], [GateWeave.gateweave]: query strings, and the server of
      test/stubgateweave, composed with [Identity] and [Transport].
    - [AptRepo.aptrepo]: packaging/apt/aptrepo.
    - [Tools]: [health] (a module's health up to the supervisor), [policyfeed] (the
      policy stream up to the module), [tools] (the [main] functions of
      cmd/weavemanifest and packaging/apt/aptrepo).
    - [Fixtures]: the modules the tests launch, [toymodule]
      (sdk/modulesdk/testkit/testdata) and [testmodule] (internal/supervise/testdata).

    ** How state and effects are modelled

    A Go struct is a record with the struct's field names (prefixed where two
    records would clash); a method is a function from the receiver's state to a
    result and the new state.  [(T, error)] is [result E T].  Code under a mutex
    is one step; goroutines that share state are step relations or sequences of
    such steps ([EventBus], [Policy], [Transport]); where two pieces of code take a
    lock more than once, each locked part is a step of its own ([Streams.inbound]), and
    where the lock itself is the subject every step under it is ([Concurrency]).  What the outside world
    answers (a system call, a child process, a clock reading, a server) is an
    argument: an oracle, a field of a record such as [launch_env] or [round], or
    a function.  Integers are [Z] or [nat] where the code cannot overflow them
    and keep their width where it matters (frame lengths, protocol numbers).

    The components meet at interfaces: [StoreBackend]/[StoreLaws] (hostserv,
    policy, transport and lifecycle are proved against it; the in-memory and the
    encrypted store discharge it), [Bolt]/[BoltLaws] and [AEAD] (bbolt and
    AES-GCM), [Protector], [TransportBackend], [Peer]/[PeerLaws] ([HTTPPeer]
    discharges it over [HTTPClient]/[HTTPLaws]), [PolicyBackend]/[PolicyLaws] (the
    policy stream is proved against it; the manager and [MemPolicy] discharge it),
    [JSON]/[JSONLaws].  Ed25519,
    SHA-256, RFC 3339 parsing, codesign, WinVerifyTrust, DPAPI, the registry and the
    HTTP client are parameters; the
    theorems that need them take the documented property as a hypothesis and a
    witness instantiates it.

    ** What the theorems show

    - What may run.  [launch_verified]: no launch executes an unverified binary;
      [launch_privilege] and [launch_admission] say with which credentials and
      under which protocol and capabilities.  [channel_verifier_sound] and
      [Verify_sound]: what is accepted carries the grants and digest that the
      endorsed key signed.  [promoteStaged_verified]: the same for core itself.
      [authenticode_sound], [windows_contained], [windows_handles]: the same on
      Windows, in a job object, without a leaked handle.  [agent_verifier_sound]:
      which verifier the flags of core select and what it stands for;
      [release_never_promotes]: a release build has no identity for core.
    - What stays on disk.  [install_local_safe], [revert_safe],
      [loadOrCreateKey_safe]: after any error or crash the [current] marker
      names a complete, admissible version, and a key file is absent or whole.
      [install_signed], [channel_no_rollback], [prune_retains] describe a
      successful install; [same_version_reinstall] the case the roll-back does
      not cover.
    - Supervision.  [run_no_leak], [start_limit_trips], [start_limit_sound],
      [health_strikes_exact], [health_end_to_end], [watchdog_exact], [crash_loop_reverts],
      [lifecycle_discipline]; [watchdog_alive] composes the module's ping loop with
      the supervisor's watchdog, [watchdog_subsecond] is where they disagree.
      [ready_crash_never_reverts] is what a core that signals readiness too early
      gets.
    - The end.  [core_ends_clean]: core waits for every module;
      [control_failure_abandons]: the exit that does not.  [module_exit]: what a
      module's process leaves behind.  [shutdown_fits] and [core_stop_bounded]: a stop
      is over in time; [hung_stop_kills_core]: when it is not.
    - Overlap.  [control_serializable], [control_preserves], [control_no_deadlock]:
      operations on one module take effect one after the other, so what holds of each
      holds of any schedule.  [mark_bounded]: how far the recorded sequence can go
      wrong; [late_install_downgrades] and [mark_falls] are schedules in which the
      order is not the one asked for.
    - The operator.  [session_exit], [install_reported]: what an exit code of weavectl
      says about core; [uptime_reads_back].
    - Start-up.  [boot_after_install]: what was installed and verified is what the
      next start launches.  [boot_trust], [boot_identity]: the trust anchor of a
      release build is fixed, a saved identity comes back.  [boot_core_layout],
      [operator_socket], [modules_dir_only]: which directories and which socket the
      three programs agree on.
    - Identity.  [enroll_authentic], [identity_restart], [enroll_unsaved];
      [stub_enrols] and [enrolments_bounded] run the client against the stub server.
    - Isolation.  [serve_isolated], [subscribe_authorized], [module_hears] (from the
      declared topics to what the module's channel carries), [readLoop_gated],
      [hv_inbound_gated], [response_single_use], [relocated_value_refused], [control_authorized] (who
      may drive the agent).
    - Delivery.  [offline_fifo], [flush_no_loss], [bus_delivery],
      [bus_gap_detection], [watch_no_lost_update], [stream_catches_up],
      [policy_reaches_module],
      [apply_delivers], [cache_restart], [hv_forward], [message_arrives],
      [connect_drain_gated] (the drain that does not happen), [inbound_in_order] and
      [undisturbed_safe] with [deliver_close_race] (the interleaving that takes core
      down), and for the sysinfo module [report_complete],
      [interval_bounds], [collection_continues]; for logs [log_never_lost] and
      [stream_attrs_equiv].
    - Refinements, round trips and totality.  [encrypted_refines_memory] and
      [store_client_map] (a backend is a namespaced map), [deliver_refines] and
      [run_loop_refines] (steps of goroutines against whole calls), [itoa_format],
      [Parse_sound] and
      [Parse_Format], [frames_roundtrip], [weavemanifest_chain], [negotiation],
      [capture_first_line]; [kit_simulates_core], [kit_watch_current],
      [kit_launch], [kit_drive], [toy_deployed] and [testmod_breaker] (what a test
      against the kit or the supervisor says about core);
      [build_verifies], [verifyRepo_sound],
      [control_of_archive] and [control_of_total] for the package repository tool,
      [stale_signature_accepted] for what its verification does not cover.

    ** Bounds

    Loops over data are structural.  Loops that wait for the outside world (the
    weaveboot loop, a runner, a monitor, the health gate, a read loop) recurse
    on the list of what the outside world does; the theorems hold for every
    list, so no run is cut short.  A few helpers carry a fuel: trimming a string
    (its length), printing an integer (one more than its binary logarithm), reading
    frames until the stream ends (more than the frames there are), splitting a
    string at a separator or into words (its length) and the member loop of the archive reader (the length of
    the file).  Each is shown sufficient where it is used ([trim_left_n_stop],
    [log2_fuel], [read_all] in [frames_roundtrip], [split_on_n_pieces],
    [fields_n_enough], [members_total]).

    ** What is not modelled

    Generated protobuf code (sdk/gen) and the compatibility test of its definitions
    (test/protocompat, built against a published release of the SDK that is not part of
    the repository); internal/version, a constant set by the linker.  The JSON handler
    of a logger, the gRPC transport below a client or a server, quoting with [%q] and
    the alignment of [text/tabwriter] are libraries: the model stops at what the code
    hands them.  Permission bits, file ownership changes and fsync are not part of the
    file system state.  Times are integers read from an arbitrary clock; where a
    duration can overflow ([Sysinfo], [Operator], [Fixtures]) it is a wrapped 64-bit
    integer. *)

From stdpp Require Import base list strings gmap.
From Stdlib Require Import ZArith Lia.

(** ** Results: fallible Go code returns [(T, error)] *)

(** A Go function returning [(T, error)] is modelled as [result E T]: the
    error value and the payload are never both meaningful in this code base. *)
Inductive result (E A : Type) : Type :=
| Ok (a : A)
| Err (e : E).
Arguments Ok {E A} a.
Arguments Err {E A} e.

Declare Scope go_scope.
Delimit Scope go_scope with go.

Definition rbind {E A B} (m : result E A) (k : A -> result E B) : result E B :=
  match m with Ok a => k a | Err e => Err e end.

Definition rmap_err {E F A} (f : E -> F) (m : result E A) : result F A :=
  match m with Ok a => Ok a | Err e => Err (f e) end.

Definition of_option {E A} (e : E) (o : option A) : result E A :=
  match o with Some a => Ok a | None => Err e end.

(** [if cond { return err }] *)
Definition guard {E} (refuse : bool) (e : E) : result E unit :=
  if refuse then Err e else Ok tt.

Definition is_ok {E A} (m : result E A) : bool :=
  match m with Ok _ => true | Err _ => false end.

Notation "x <-? c1 ;; c2" := (rbind c1 (fun x => c2))
  (at level 60, c1 at next level, right associativity) : go_scope.
Notation "'do?' c1 ;; c2" := (rbind c1 (fun _ => c2))
  (at level 60, c1 at next level, right associativity) : go_scope.

(** ** Tactics *)

(** Destructs the scrutinee of one [match]/[if] found in hypothesis [H],
    keeping the equation. *)
Ltac split_match H :=
  match type of H with
  | context [match ?x with _ => _ end] =>
      lazymatch x with
      | context [match _ with _ => _ end] => fail
      | _ => let E := fresh "E" in destruct x eqn:E
      end
  end.

(** Case analysis on every [match] of [H], dropping the impossible branches. *)
Ltac go_inv H :=
  repeat (split_match H; simplify_eq; try congruence).

Ltac split_goal_match :=
  match goal with
  | |- context [match ?x with _ => _ end] =>
      lazymatch x with
      | context [match _ with _ => _ end] => fail
      | _ => let E := fresh "E" in destruct x eqn:E
      end
  end.

(** Turns the boolean tests of the code into propositions. *)
Ltac bool_to_prop :=
  repeat match goal with
  | H : andb _ _ = true |- _ => apply andb_true_iff in H as [? ?]
  | H : orb _ _ = false |- _ => apply orb_false_iff in H as [? ?]
  | H : negb _ = true |- _ => apply negb_true_iff in H
  | H : negb _ = false |- _ => apply negb_false_iff in H
  | H : bool_decide _ = true |- _ => apply bool_decide_eq_true in H
  | H : bool_decide _ = false |- _ => apply bool_decide_eq_false in H
  | H : Z.eqb _ _ = true |- _ => apply Z.eqb_eq in H
  | H : Z.eqb _ _ = false |- _ => apply Z.eqb_neq in H
  | H : Z.ltb _ _ = true |- _ => apply Z.ltb_lt in H
  | H : Z.ltb _ _ = false |- _ => apply Z.ltb_ge in H
  | H : Z.leb _ _ = true |- _ => apply Z.leb_le in H
  | H : Z.leb _ _ = false |- _ => apply Z.leb_gt in H
  | H : String.eqb _ _ = true |- _ => apply String.eqb_eq in H
  | H : String.eqb _ _ = false |- _ => apply String.eqb_neq in H
  end.

(** Goals [Forall P [x1; ..; xn]] element by element. *)
Ltac solve_Forall :=
  repeat first [assumption | apply Forall_nil_2 | apply Forall_cons_2]; try done.

(** A closed decidable goal, by evaluation. *)
Ltac decide_now := apply (bool_decide_eq_true_1 _); vm_compute; reflexivity.

(** ** Hint databases *)

Create HintDb go.
Create HintDb gostr.
Create Rewrite HintDb go_simp.

(** ** Reachability: the closure of a step relation *)

Section Reach.
Context {St : Type} (step : St -> St -> Prop).

Inductive steps : St -> St -> Prop :=
| steps_refl s : steps s s
| steps_step s1 s2 s3 : step s1 s2 -> steps s2 s3 -> steps s1 s3.

Lemma steps_one s1 s2 : step s1 s2 -> steps s1 s2.
Proof. intros H. eapply steps_step; [exact H | apply steps_refl]. Qed.

Lemma steps_trans s1 s2 s3 : steps s1 s2 -> steps s2 s3 -> steps s1 s3.
Proof. induction 1; eauto using steps_step. Qed.

(** An inductive invariant holds in every reachable state. *)
Lemma steps_invariant (I : St -> Prop) :
  (forall s s', I s -> step s s' -> I s') ->
  forall s s', I s -> steps s s' -> I s'.
Proof. intros Hstep s s' Hs Hr. induction Hr; eauto. Qed.
End Reach.

(** ** Generic list lemmas *)

(** The first element satisfying a test, as the [for ... range] loops with an
    early return do it. *)
Fixpoint find_first {A} (f : A -> bool) (l : list A) : option A :=
  match l with
  | [] => None
  | x :: xs => if f x then Some x else find_first f xs
  end.

Lemma find_first_Some {A} (f : A -> bool) l x :
  find_first f l = Some x -> x ∈ l /\ f x = true.
Proof.
  induction l as [|y l IH]; simpl; [done|].
  destruct (f y) eqn:E; intros H; simplify_eq.
  - split; [left|done].
  - destruct (IH H). split; [by right | done].
Qed.

Lemma find_first_None {A} (f : A -> bool) l :
  find_first f l = None <-> Forall (fun x => f x = false) l.
Proof.
  induction l as [|y l IH]; simpl; [by split|].
  destruct (f y) eqn:E; split; intros H; try done.
  - inversion H; congruence.
  - constructor; [done | by apply IH].
  - apply IH. by inversion H.
Qed.

Lemma rbind_Ok {E A B} (m : result E A) (k : A -> result E B) b :
  rbind m k = Ok b -> exists a, m = Ok a /\ k a = Ok b.
Proof. destruct m; simpl; [eauto | done]. Qed.

Lemma guard_Ok {E} (c : bool) (e : E) u : guard c e = Ok u -> c = false.
Proof. by destruct c. Qed.

Lemma of_option_Ok {E A} (e : E) (o : option A) a : of_option e o = Ok a -> o = Some a.
Proof. destruct o; simpl; congruence. Qed.

(** Splits a chain of binds that succeeded into its successful parts. *)
Ltac bind_inv H :=
  repeat match type of H with
  | rbind _ _ = Ok _ =>
      let a := fresh "a" in let H1 := fresh "Hb" in
      apply rbind_Ok in H as (a & H1 & H); try (apply guard_Ok in H1)
  end.
