(* ===== verification/GoStrings.v ===== *)
(** * Go's [strings] and [strconv], as the agent uses them

    A Go string is a byte sequence: [String.string] is a list of 8-bit
    characters, so the model is exact.  [[]byte] values whose nil-ness does not
    matter use the same type. *)

From stdpp Require Import base list strings sets.
From Stdlib Require Import ZArith Lia Ascii.
From S2P Require Import Prelude.
Open Scope Z_scope.

Local Infix "+++" := String.append (at level 60, right associativity).

(** stdpp blocks the reduction of append; the proofs here compute with it. *)
#[global] Arguments String.append !_ _ : simpl nomatch.

(** ** Reversal and prefixes *)

Fixpoint srev_app (s acc : string) : string :=
  match s with
  | EmptyString => acc
  | String c s' => srev_app s' (String c acc)
  end.
Definition srev (s : string) : string := srev_app s "".

(** [strings.CutPrefix(s, p)] *)
Fixpoint cut_prefix (p s : string) : option string :=
  match p, s with
  | EmptyString, _ => Some s
  | String a p', String b s' => if Ascii.eqb a b then cut_prefix p' s' else None
  | String _ _, EmptyString => None
  end.

(** [strings.HasPrefix(s, p)] *)
Definition has_prefix (p s : string) : bool :=
  match cut_prefix p s with Some _ => true | None => false end.

(** [strings.CutSuffix(s, p)] *)
Definition cut_suffix (p s : string) : option string :=
  srev <$> cut_prefix (srev p) (srev s).

(** [strings.TrimPrefix], [strings.TrimSuffix] *)
Definition trim_prefix (p s : string) : string := default s (cut_prefix p s).
Definition trim_suffix (p s : string) : string := default s (cut_suffix p s).

(** ** [strings.TrimSpace] *)


Definition byte_str (l : list nat) : string := String.string_of_list_ascii (ascii_of_nat <$> l).

(** The UTF-8 encodings of the code points [unicode.IsSpace] accepts: the ASCII
    ones, U+0085, U+00A0, U+1680, U+2000..U+200A, U+2028, U+2029, U+202F,
    U+205F and U+3000. *)
Definition space_encodings : list string := byte_str <$>
  [[9]; [10]; [11]; [12]; [13]; [32]; [194;133]; [194;160]; [225;154;128];
   [226;128;128]; [226;128;129]; [226;128;130]; [226;128;131]; [226;128;132];
   [226;128;133]; [226;128;134]; [226;128;135]; [226;128;136]; [226;128;137];
   [226;128;138]; [226;128;168]; [226;128;169]; [226;128;175]; [226;129;159];
   [227;128;128]]%nat.

(** The same encodings read from the end of a string. *)
Definition space_suffixes : list string := srev <$> space_encodings.

(** Drops one leading member of [encs], if there is one. *)
Fixpoint strip_one (encs : list string) (s : string) : option string :=
  match encs with
  | [] => None
  | e :: es => match cut_prefix e s with Some r => Some r | None => strip_one es s end
  end.

Fixpoint trim_left_n (fuel : nat) (encs : list string) (s : string) : string :=
  match fuel with
  | O => s
  | S n => match strip_one encs s with Some r => trim_left_n n encs r | None => s end
  end.

Definition trim_left (encs : list string) (s : string) : string :=
  trim_left_n (String.length s) encs s.

(** [strings.TrimSpace(s)] *)
Definition trim_space (s : string) : string :=
  srev (trim_left space_suffixes (srev (trim_left space_encodings s))).

(** ** [strings.Split] with a one-byte separator *)

Fixpoint split (sep : ascii) (s : string) : list string :=
  match s with
  | EmptyString => [""]
  | String c s' =>
      if Ascii.eqb c sep then "" :: split sep s'
      else match split sep s' with
           | [] => [String c ""]
           | w :: ws => String c w :: ws
           end
  end.

(** [strings.Join] *)
Fixpoint join (sep : string) (l : list string) : string :=
  match l with
  | [] => ""
  | [w] => w
  | w :: ws => w +++ sep +++ join sep ws
  end.

(** [strings.Contains(s, c)] for one byte. *)
Fixpoint contains (c : ascii) (s : string) : bool :=
  match s with
  | EmptyString => false
  | String d s' => Ascii.eqb d c || contains c s'
  end.

Fixpoint all_chars (p : ascii -> bool) (s : string) : bool :=
  match s with
  | EmptyString => true
  | String d s' => p d && all_chars p s'
  end.

(** ** [strconv] *)

Definition in_range (lo hi c : ascii) : bool :=
  (N_of_ascii lo <=? N_of_ascii c)%N && (N_of_ascii c <=? N_of_ascii hi)%N.
Definition is_digit (c : ascii) : bool := in_range "0" "9" c.
Definition digit_val (c : ascii) : Z := Z.of_N (N_of_ascii c) - 48.
Definition digit_char (n : Z) : ascii := ascii_of_N (Z.to_N (n + 48)).

Fixpoint parse_digits (s : string) (acc : Z) : option Z :=
  match s with
  | EmptyString => Some acc
  | String c s' => if is_digit c then parse_digits s' (acc * 10 + digit_val c) else None
  end.

(** [strconv.ParseUint(s, 10, bits)]: the syntax and the range error are one. *)
Definition parse_uint (bits : Z) (s : string) : option Z :=
  match s with
  | EmptyString => None
  | _ => match parse_digits s 0 with
         | Some n => if n <? 2 ^ bits then Some n else None
         | None => None
         end
  end.

(** [strconv.Atoi(s)] on a 64-bit [int]. *)
Definition atoi (s : string) : option Z :=
  let unsigned (neg : bool) (r : string) :=
    match r with
    | EmptyString => None
    | _ => match parse_digits r 0 with
           | Some n =>
               if neg then (if n <=? 2 ^ 63 then Some (- n) else None)
               else (if n <? 2 ^ 63 then Some n else None)
           | None => None
           end
    end in
  match s with
  | String c r => if Ascii.eqb c "+" then unsigned false r
                  else if Ascii.eqb c "-" then unsigned true r
                  else unsigned false s
  | EmptyString => None
  end.

Fixpoint digits_n (fuel : nat) (n : Z) (acc : string) : string :=
  match fuel with
  | O => acc
  | S k => let acc' := String (digit_char (n mod 10)) acc in
           if n <? 10 then acc' else digits_n k (n / 10) acc'
  end.

(** [strconv.FormatUint(n, 10)], [fmt.Sprintf("%d", n)] on an unsigned value. *)
Definition format_uint (n : Z) : string := digits_n (S (Z.to_nat (Z.log2 n))) n "".

Fixpoint repeat_char (k : nat) (c : ascii) : string :=
  match k with O => "" | S k' => String c (repeat_char k' c) end.

(** [fmt.Sprintf("%0<w>d", n)] *)
Definition zero_padded (w : nat) (n : Z) : string :=
  let d := format_uint n in
  repeat_char (w - String.length d) "0" +++ d.

(** ** Lemmas: append, reversal, prefixes *)

Lemma repeat_char_length k c : String.length (repeat_char k c) = k.
Proof. induction k; simpl; congruence. Qed.

Lemma sapp_assoc (a c d : string) : (a +++ c) +++ d = a +++ (c +++ d).
Proof. induction a as [|x a IH]; simpl; [done|]. by rewrite IH. Qed.

Lemma sapp_nil_r (a : string) : a +++ "" = a.
Proof. induction a as [|x a IH]; simpl; [done|]. by rewrite IH. Qed.

Lemma sapp_inv_l (a c d : string) : a +++ c = a +++ d -> c = d.
Proof. induction a as [|x a IH]; simpl; [done|]. intros H; simplify_eq. by apply IH. Qed.

Lemma slength_app (a c : string) :
  String.length (a +++ c) = (String.length a + String.length c)%nat.
Proof. induction a as [|x a IH]; simpl; [done|]. by rewrite IH. Qed.

Lemma srev_app_spec s acc : srev_app s acc = srev s +++ acc.
Proof.
  revert acc. unfold srev. induction s as [|c s IH]; intros acc; simpl; [done|].
  rewrite (IH (String c acc)), (IH (String c "")), sapp_assoc. done.
Qed.

Lemma srev_cons c s : srev (String c s) = srev s +++ String c "".
Proof. exact (srev_app_spec s (String c "")). Qed.

Lemma srev_sapp a c : srev (a +++ c) = srev c +++ srev a.
Proof.
  induction a as [|x a IH]; simpl.
  - by rewrite sapp_nil_r.
  - rewrite !srev_cons, IH, sapp_assoc. done.
Qed.

Lemma srev_involutive s : srev (srev s) = s.
Proof.
  induction s as [|c s IH]; [done|].
  by rewrite srev_cons, srev_sapp, IH.
Qed.

Lemma slength_srev s : String.length (srev s) = String.length s.
Proof.
  induction s as [|c s IH]; [done|].
  rewrite srev_cons, slength_app, IH; simpl; lia.
Qed.

Lemma srev_inj a c : srev a = srev c -> a = c.
Proof. intros H. by rewrite <-(srev_involutive a), H, srev_involutive. Qed.

Lemma cut_prefix_Some p s r : cut_prefix p s = Some r <-> s = p +++ r.
Proof.
  revert s. induction p as [|a p IH]; intros s; simpl; [by split; congruence|].
  destruct s as [|c s]; [done|].
  destruct (Ascii.eqb_spec a c) as [->|Hne].
  - rewrite IH. split; congruence.
  - split; congruence.
Qed.

Lemma cut_prefix_None p s : cut_prefix p s = None <-> forall r, s <> p +++ r.
Proof.
  split.
  - intros H r Hr. apply cut_prefix_Some in Hr. congruence.
  - intros H. destruct (cut_prefix p s) as [r|] eqn:E; [|done].
    apply cut_prefix_Some in E. by destruct (H r).
Qed.

Lemma has_prefix_true p s : has_prefix p s = true <-> exists r, s = p +++ r.
Proof.
  unfold has_prefix. destruct (cut_prefix p s) eqn:E; split; try done.
  - apply cut_prefix_Some in E. eauto.
  - intros [r Hr]. apply cut_prefix_Some in Hr. congruence.
Qed.

Lemma cut_suffix_Some p s r : cut_suffix p s = Some r <-> s = r +++ p.
Proof.
  unfold cut_suffix. destruct (cut_prefix (srev p) (srev s)) as [q|] eqn:E; simpl.
  - apply cut_prefix_Some in E.
    rewrite <-(srev_involutive q), <-srev_sapp in E. apply srev_inj in E. subst s.
    split; intros H; simplify_eq; [done|].
    apply (f_equal srev) in H. rewrite !srev_sapp in H.
    apply sapp_inv_l, srev_inj in H. by subst.
  - split; [done|]. intros ->. rewrite srev_sapp in E.
    destruct (proj1 (cut_prefix_None _ _) E (srev r)). done.
Qed.

(** ** Lemmas: [trim_space] *)

Lemma strip_one_Some encs s r :
  strip_one encs s = Some r -> exists e, e ∈ encs /\ s = e +++ r.
Proof.
  induction encs as [|e es IH]; simpl; [done|].
  destruct (cut_prefix e s) eqn:E; intros H; simplify_eq.
  - apply cut_prefix_Some in E. exists e. split; [left|done].
  - destruct (IH H) as (e' & ? & ?). exists e'. split; [by right|done].
Qed.

Lemma strip_one_None encs s :
  strip_one encs s = None <-> forall e r, e ∈ encs -> s <> e +++ r.
Proof.
  induction encs as [|e es IH]; simpl; [split; [set_solver|done]|].
  destruct (cut_prefix e s) eqn:E.
  - apply cut_prefix_Some in E. split; [done|].
    intros H. edestruct (H e); [left|eauto].
  - rewrite IH. setoid_rewrite elem_of_cons. split.
    + intros H e' r [->|Hin]; [by apply (cut_prefix_None e s) | by apply H].
    + intros H e' r Hin. apply H. by right.
Qed.

Definition nonempty_all (encs : list string) : Prop :=
  Forall (fun e => (1 <= String.length e)%nat) encs.

Lemma trim_left_n_stop encs fuel s :
  nonempty_all encs -> (String.length s <= fuel)%nat ->
  strip_one encs (trim_left_n fuel encs s) = None.
Proof.
  intros Hne. revert s. induction fuel as [|n IH]; intros s Hs; simpl.
  - destruct (strip_one encs s) as [r|] eqn:E; [|done].
    apply strip_one_Some in E as (e & Hin & ->).
    rewrite slength_app in Hs. apply (proj1 (Forall_forall _ _) Hne) in Hin. lia.
  - destruct (strip_one encs s) as [r|] eqn:E; [|done].
    apply IH. apply strip_one_Some in E as (e & Hin & ->).
    rewrite slength_app in Hs. apply (proj1 (Forall_forall _ _) Hne) in Hin. lia.
Qed.

Lemma trim_left_stop encs s :
  nonempty_all encs -> strip_one encs (trim_left encs s) = None.
Proof. intros H. by apply trim_left_n_stop. Qed.

Lemma trim_left_id encs s : strip_one encs s = None -> trim_left encs s = s.
Proof. unfold trim_left. intros H. destruct (String.length s); simpl; [done|]. by rewrite H. Qed.

Lemma trim_left_suffix encs s : exists p, s = p +++ trim_left encs s.
Proof.
  unfold trim_left. generalize (String.length s) as n. intros n.
  revert s. induction n as [|n IH]; intros s; simpl; [by exists ""|].
  destruct (strip_one encs s) as [r|] eqn:E; [|by exists ""].
  apply strip_one_Some in E as (e & _ & ->).
  destruct (IH r) as [p Hp]. exists (e +++ p). by rewrite sapp_assoc, <-Hp.
Qed.

Lemma space_encodings_nonempty : nonempty_all space_encodings.
Proof. repeat constructor. Qed.

Lemma space_encodings_rev_nonempty : nonempty_all space_suffixes.
Proof. repeat constructor. Qed.

(** A string that neither starts nor ends with a space is what [trim_space]
    leaves alone. *)
Definition trimmed (s : string) : Prop :=
  strip_one space_encodings s = None /\
  strip_one space_suffixes (srev s) = None.

Lemma trim_space_trimmed_id s : trimmed s -> trim_space s = s.
Proof.
  intros [H1 H2]. unfold trim_space. rewrite (trim_left_id _ s H1).
  rewrite (trim_left_id _ _ H2). apply srev_involutive.
Qed.

(** [trim_space] cuts a piece off each end. *)
Lemma trim_space_infix s : exists p q, s = p +++ trim_space s +++ q.
Proof.
  unfold trim_space. destruct (trim_left_suffix space_encodings s) as [p Hp].
  set (t := trim_left space_encodings s) in *.
  destruct (trim_left_suffix space_suffixes (srev t)) as [q Hq].
  exists p, (srev q). rewrite Hp. f_equal.
  apply srev_inj. by rewrite srev_sapp, !srev_involutive.
Qed.

Lemma strip_one_prefix_None encs s t :
  strip_one encs (s +++ t) = None -> strip_one encs s = None.
Proof.
  rewrite !strip_one_None. intros H e r Hin ->. apply (H e (r +++ t) Hin).
  apply sapp_assoc.
Qed.

Lemma trim_space_is_trimmed s : trimmed (trim_space s).
Proof.
  split.
  - unfold trim_space.
    pose proof (trim_left_stop space_encodings s space_encodings_nonempty) as H.
    set (t := trim_left space_encodings s) in *.
    destruct (trim_left_suffix space_suffixes (srev t)) as [q Hq].
    assert (t = srev (trim_left space_suffixes (srev t)) +++ srev q) as Ht.
    { apply srev_inj. by rewrite srev_sapp, !srev_involutive. }
    rewrite Ht in H. by eapply strip_one_prefix_None.
  - unfold trim_space. rewrite srev_involutive.
    apply trim_left_stop, space_encodings_rev_nonempty.
Qed.

(** A separator none of the encodings holds shields what follows it. *)
Lemma sapp_sep_prefix sep s t e r :
  s +++ String sep t = e +++ r -> contains sep e = false -> exists q, s = e +++ q.
Proof.
  revert e. induction s as [|c s IH]; intros [|d e]; simpl; intros H Hc; simplify_eq.
  - by exists "".
  - by rewrite Ascii.eqb_refl in Hc.
  - eauto.
  - apply orb_false_iff in Hc as [_ Hc].
    match goal with H : _ +++ _ = _ +++ _ |- _ => destruct (IH e H Hc) as [q ->] end.
    by exists q.
Qed.

Lemma strip_one_sep encs sep s t :
  Forall (fun e => contains sep e = false) encs ->
  strip_one encs s = None -> strip_one encs (s +++ String sep t) = None.
Proof.
  rewrite !strip_one_None, Forall_forall. intros Hall H e r Hin Heq.
  destruct (sapp_sep_prefix _ _ _ _ _ Heq (Hall e Hin)) as [q ->].
  by apply (H e q).
Qed.

(** A separator neither prefix holds splits a string in one way. *)
Lemma sapp_sep_inj sep c1 c2 d1 d2 :
  contains sep c1 = false -> contains sep c2 = false ->
  c1 +++ String sep d1 = c2 +++ String sep d2 -> c1 = c2 /\ d1 = d2.
Proof.
  revert c2. induction c1 as [|x c1 IH]; intros [|y c2] H1 H2 H; simpl in *; simplify_eq.
  - done.
  - by rewrite Ascii.eqb_refl in H2.
  - by rewrite Ascii.eqb_refl in H1.
  - apply orb_false_iff in H1 as [_ H1]. apply orb_false_iff in H2 as [_ H2].
    match goal with H : _ +++ _ = _ +++ _ |- _ => by destruct (IH c2 H1 H2 H) as [-> ->] end.
Qed.

(** A marker file: one trimmed word and a newline. *)
Lemma trim_space_newline s :
  trimmed s -> s <> "" -> trim_space (s +++ String (ascii_of_nat 10) "") = s.
Proof.
  intros [H1 H2] Hne. unfold trim_space.
  assert (strip_one space_encodings (s +++ String (ascii_of_nat 10) "") = None) as Hl.
  { rewrite strip_one_None in *. intros e r Hin Heq.
    assert (Forall (fun e => contains (ascii_of_nat 10) e = false \/
                             e = String (ascii_of_nat 10) "") space_encodings) as Hall.
    { unfold space_encodings. rewrite Forall_fmap.
      repeat (apply Forall_cons_2; [first [by left | by right]|]). apply Forall_nil_2. }
    apply (proj1 (Forall_forall _ _) Hall) in Hin as Hc. destruct Hc as [Hc| ->].
    - destruct (sapp_sep_prefix _ _ _ _ _ Heq Hc) as [q ->]. by apply (H1 e q).
    - destruct s as [|c s]; [done|]. simpl in Heq. simplify_eq.
      by apply (H1 (String (ascii_of_nat 10) "") s). }
  rewrite (trim_left_id _ _ Hl), srev_sapp. unfold trim_left.
  change (srev (String (ascii_of_nat 10) "") +++ srev s)
    with (String (ascii_of_nat 10) (srev s)).
  cbn [String.length trim_left_n].
  change (strip_one space_suffixes (String (ascii_of_nat 10) (srev s))) with (Some (srev s)).
  cbv iota. fold (trim_left space_suffixes (srev s)).
  rewrite (trim_left_id _ _ H2). apply srev_involutive.
Qed.

(** ** Lemmas: [split] and [join] *)

Lemma contains_app c s t : contains c (s +++ t) = contains c s || contains c t.
Proof. induction s as [|d s IH]; simpl; [done|]. by rewrite IH, orb_assoc. Qed.

Lemma split_no_sep sep s : contains sep s = false -> split sep s = [s].
Proof.
  induction s as [|c s IH]; simpl; [done|].
  destruct (Ascii.eqb c sep) eqn:E; simpl; [done|]. intros H. by rewrite IH.
Qed.

Lemma split_not_nil sep s : split sep s <> [].
Proof.
  destruct s as [|c s]; simpl; [done|].
  destruct (Ascii.eqb c sep); [done|]. by destruct (split sep s).
Qed.

Lemma split_app sep s t :
  contains sep s = false -> split sep (s +++ String sep t) = s :: split sep t.
Proof.
  induction s as [|c s IH]; simpl.
  - by rewrite Ascii.eqb_refl.
  - intros H. apply orb_false_iff in H as [H1 H2]. rewrite H1, IH; done.
Qed.

(** Splitting what was joined gives the fields back. *)
Lemma split_join sep l :
  l <> [] -> Forall (fun w => contains sep w = false) l ->
  split sep (join (String sep "") l) = l.
Proof.
  induction l as [|w [|w' l] IH]; intros Hne Hall; [done| |].
  - inversion Hall; subst. by apply split_no_sep.
  - inversion Hall; subst.
    change (split sep (w +++ String sep (join (String sep "") (w' :: l))) = w :: w' :: l).
    rewrite split_app by done. f_equal. by apply IH.
Qed.

(** The last field is a suffix of the joined string. *)
Lemma join_last sep l w : exists q, join sep (l ++ [w]) = q +++ w.
Proof.
  induction l as [|v l IH]; [by exists ""|]. destruct IH as [q Hq].
  exists (v +++ sep +++ q). rewrite !sapp_assoc, <-Hq.
  by destruct l.
Qed.

(** No field of a split holds the separator, and joining restores the string. *)
Lemma split_fields sep s : Forall (fun w => contains sep w = false) (split sep s).
Proof.
  induction s as [|c s IH]; simpl; [by repeat constructor|].
  destruct (Ascii.eqb c sep) eqn:E; [by constructor|].
  destruct (split sep s) as [|w ws]; inversion IH; subst; constructor; try done;
    simpl; by rewrite E.
Qed.

Lemma join_split sep s : join (String sep "") (split sep s) = s.
Proof.
  induction s as [|c s IH]; simpl; [done|].
  destruct (Ascii.eqb_spec c sep) as [->|Hne].
  - pose proof (split_not_nil sep s). destruct (split sep s) as [|w ws]; [done|].
    simpl in *. by rewrite IH.
  - pose proof (split_not_nil sep s). destruct (split sep s) as [|w ws]; [done|].
    destruct ws; simpl in *; by rewrite <-IH.
Qed.

(** ** Lemmas: decimal numbers *)

Lemma digit_char_is_digit n : 0 <= n < 10 -> is_digit (digit_char n) = true.
Proof.
  intros H. unfold is_digit, in_range, digit_char. rewrite N_ascii_embedding by lia.
  change (N_of_ascii "0") with 48%N. change (N_of_ascii "9") with 57%N.
  apply andb_true_intro; split; apply N.leb_le; lia.
Qed.

Lemma digit_val_char n : 0 <= n < 10 -> digit_val (digit_char n) = n.
Proof.
  intros H. unfold digit_val, digit_char. rewrite N_ascii_embedding by lia. lia.
Qed.

Lemma is_digit_val c : is_digit c = true -> 0 <= digit_val c < 10.
Proof.
  unfold is_digit, in_range, digit_val. intros H. apply andb_true_iff in H as [H1 H2].
  apply N.leb_le in H1, H2. change (N_of_ascii "0") with 48%N in H1.
  change (N_of_ascii "9") with 57%N in H2. lia.
Qed.

Lemma parse_digits_app s t acc :
  parse_digits (s +++ t) acc =
  match parse_digits s acc with Some n => parse_digits t n | None => None end.
Proof.
  revert acc. induction s as [|c s IH]; intros acc; simpl; [done|].
  destruct (is_digit c); [apply IH | done].
Qed.

Lemma digits_n_app fuel n acc : digits_n fuel n acc = digits_n fuel n "" +++ acc.
Proof.
  revert n acc. induction fuel as [|k IH]; intros n acc; simpl; [done|].
  destruct (n <? 10); [done|].
  rewrite (IH _ (String _ acc)), (IH _ (String _ "")), sapp_assoc. done.
Qed.

Lemma parse_digits_n fuel n acc :
  0 <= n < 2 ^ Z.of_nat fuel -> (0 < fuel)%nat ->
  exists w, parse_digits (digits_n fuel n "") acc = Some (acc * 10 ^ w + n) /\ 0 <= w.
Proof.
  revert n acc. induction fuel as [|k IH]; intros n acc Hn Hf; [lia|]. simpl.
  rewrite Nat2Z.inj_succ, Z.pow_succ_r in Hn by lia.
  destruct (Z.ltb_spec n 10).
  - exists 1. simpl. rewrite Z.mod_small, digit_char_is_digit, digit_val_char by lia.
    split; [f_equal; lia | lia].
  - assert (0 < k)%nat as Hk by (destruct k; [simpl in Hn; lia | lia]).
    assert (0 <= n / 10 < 2 ^ Z.of_nat k) as Hd.
    { split; [apply Z.div_pos; lia|]. apply Z.div_lt_upper_bound; lia. }
    rewrite digits_n_app, parse_digits_app.
    destruct (IH (n / 10) acc Hd Hk) as (w & -> & Hw). simpl.
    pose proof (Z.mod_pos_bound n 10 ltac:(lia)).
    rewrite digit_char_is_digit, digit_val_char by lia.
    exists (w + 1). split; [|lia]. f_equal.
    rewrite Z.pow_add_r by lia. pose proof (Z.div_mod n 10 ltac:(lia)). lia.
Qed.

Lemma log2_fuel n : 0 <= n -> n < 2 ^ Z.of_nat (S (Z.to_nat (Z.log2 n))).
Proof.
  intros Hn. rewrite Nat2Z.inj_succ, Z2Nat.id by apply Z.log2_nonneg.
  destruct (Z.eq_dec n 0) as [->|]; [done|]. apply Z.log2_spec; lia.
Qed.

Lemma parse_digits_format n : 0 <= n -> parse_digits (format_uint n) 0 = Some n.
Proof.
  intros Hn. pose proof (log2_fuel n Hn).
  destruct (parse_digits_n (S (Z.to_nat (Z.log2 n))) n 0) as (w & Hw & _); [lia|lia|].
  unfold format_uint. rewrite Hw. f_equal; lia.
Qed.

Lemma format_uint_not_nil n : format_uint n <> "".
Proof.
  unfold format_uint. simpl. destruct (n <? 10); [done|].
  rewrite digits_n_app. by destruct (digits_n _ _ _).
Qed.

(** [ParseUint] inverts [%d] on every value of its width. *)
Lemma parse_uint_format bits n :
  0 <= n < 2 ^ bits -> parse_uint bits (format_uint n) = Some n.
Proof.
  intros Hn. unfold parse_uint. rewrite parse_digits_format by lia.
  pose proof (format_uint_not_nil n). destruct (format_uint n); [done|].
  destruct (Z.ltb_spec n (2 ^ bits)); [done | lia].
Qed.

Lemma parse_digits_nonneg s acc n : 0 <= acc -> parse_digits s acc = Some n -> 0 <= n.
Proof.
  revert acc. induction s as [|c s IH]; intros acc Ha; simpl; [congruence|].
  destruct (is_digit c) eqn:E; [|done]. apply IH. apply is_digit_val in E. lia.
Qed.

Lemma parse_uint_range bits s n : parse_uint bits s = Some n -> 0 <= n < 2 ^ bits.
Proof.
  unfold parse_uint. destruct s as [|c s]; [done|].
  destruct (parse_digits _ _) as [m|] eqn:E; [|done].
  destruct (Z.ltb_spec m (2 ^ bits)); intros; simplify_eq.
  split; [|done]. by apply (parse_digits_nonneg _ 0 n) in E.
Qed.

Lemma digits_n_all fuel n acc :
  0 <= n -> all_chars is_digit acc = true ->
  all_chars is_digit (digits_n fuel n acc) = true.
Proof.
  revert n acc. induction fuel as [|k IH]; intros n acc Hn Ha; simpl; [done|].
  pose proof (Z.mod_pos_bound n 10 ltac:(lia)).
  assert (all_chars is_digit (String (digit_char (n mod 10)) acc) = true) as Ha'.
  { simpl. by rewrite digit_char_is_digit, Ha by lia. }
  destruct (n <? 10); [done|]. apply IH; [|done]. apply Z.div_pos; lia.
Qed.

Lemma format_uint_digits n : 0 <= n -> all_chars is_digit (format_uint n) = true.
Proof. intros Hn. by apply digits_n_all. Qed.

Lemma all_chars_contains p s c :
  all_chars p s = true -> p c = false -> contains c s = false.
Proof.
  intros Hs Hc. induction s as [|d s IH]; simpl in *; [done|].
  apply andb_true_iff in Hs as [Hd Hs]. rewrite IH by done.
  destruct (Ascii.eqb_spec d c); [congruence | done].
Qed.

Lemma all_chars_app p s t : all_chars p (s +++ t) = all_chars p s && all_chars p t.
Proof. induction s as [|c s IH]; simpl; [done|]. by rewrite IH, andb_assoc. Qed.

(** Text made of characters that no white space starts or ends with. *)
Definition avoids (f : ascii -> bool) (e : string) : bool :=
  match e with String d _ => negb (f d) | "" => false end.
Lemma chars_trimmed f s :
  Forall (fun e => avoids f e = true) space_encodings -> Forall (fun e => avoids f e = true) space_suffixes ->
  all_chars f s = true -> trimmed s.
Proof.
  intros H1 H2 H.
  assert (forall encs t, Forall (fun e => avoids f e = true) encs -> all_chars f t = true -> strip_one encs t = None) as Hs.
  { intros encs t He Ht. apply strip_one_None. intros e r Hin ->. rewrite Forall_forall in He. specialize (He _ Hin).
    destruct e as [|d e]; [done|]. simpl in *. apply andb_true_iff in Ht as [Ht _]. by rewrite Ht in He. }
  assert (all_chars f (srev s) = true) as Hr.
  { clear -H. induction s as [|c s IH]; [done|]. rewrite srev_cons, all_chars_app. simpl in *.
    apply andb_true_iff in H as [-> H]. by rewrite IH. }
  split; by apply Hs.
Qed.

#[export] Hint Resolve format_uint_not_nil format_uint_digits trim_space_is_trimmed
  split_not_nil split_fields : gostr.

#[global] Arguments strip_one : simpl never.
#[global] Arguments trim_space : simpl never.
#[global] Arguments format_uint : simpl never.
#[global] Arguments parse_uint : simpl never.
