(* ===== verification/GoText.v ===== *)
(** * More of package [strings], and [bufio.Scanner]

    The searching, slicing and splitting routines the inventory collectors and the
    repository tool use, with their reference equations. *)

From stdpp Require Import base list strings.
From Stdlib Require Import ZArith Lia Ascii.
From S2P Require Import Prelude.
From S2P Require Import GoStrings.
Open Scope Z_scope.

Local Infix "+++" := String.append (at level 60, right associativity).

Definition nl : ascii := ascii_of_nat 10.
Definition lf : string := String nl "".

(** ** Slices: [None] is the run-time panic *)

Fixpoint stake (n : nat) (s : string) : string :=
  match n, s with S n', String c r => String c (stake n' r) | _, _ => "" end.
Fixpoint sdrop (n : nat) (s : string) : string :=
  match n, s with S n', String _ r => sdrop n' r | _, _ => s end.

(** [s[i:j]] *)
Definition slice (i j : nat) (s : string) : option string :=
  if (i <=? j)%nat && (j <=? String.length s)%nat then Some (stake (j - i) (sdrop i s)) else None.

(** ** Searching *)

(** [strings.Index] *)
Fixpoint index (p s : string) : option nat :=
  if has_prefix p s then Some O
  else match s with "" => None | String _ r => S <$> index p r end.

(** [strings.Split] with a separator that is not empty; each round consumes the
    separator, so the length of the string is enough fuel. *)
Fixpoint split_on_n (fuel : nat) (sep s : string) : list string :=
  match fuel with
  | O => [s]
  | S f =>
      match index sep s with
      | None => [s]
      | Some i => stake i s :: split_on_n f sep (sdrop (i + String.length sep) s)
      end
  end.
Definition split_on (sep s : string) : list string := split_on_n (String.length s) sep s.

(** [strings.TrimRight] with a cut set of one character. *)
Fixpoint drop_char (c : ascii) (s : string) : string :=
  match s with String d r => if Ascii.eqb d c then drop_char c r else s | "" => "" end.
Definition trim_right (c : ascii) (s : string) : string := srev (drop_char c (srev s)).

(** [strings.Fields]: [word] is the text up to the first white space. *)
Fixpoint word (s : string) : string * string :=
  match strip_one space_encodings s, s with
  | None, String c r => let (w, t) := word r in (String c w, t)
  | _, _ => ("", s)
  end.
Fixpoint fields_n (fuel : nat) (s : string) : list string :=
  match fuel with
  | O => []
  | S f =>
      let s := trim_left space_encodings s in
      match s with
      | "" => []
      | _ => let (w, r) := word s in w :: fields_n f r
      end
  end.
Definition fields (s : string) : list string := fields_n (S (String.length s)) s.

(** [bufio.Scanner] over lines: a last empty line is none, a carriage return before
    the end of a line is dropped, a line of 64 KiB or more ends the scan. *)
Definition MaxScanTokenSize : nat := 64 * 1024.
Definition drop_cr (s : string) : string := trim_suffix (String (ascii_of_nat 13) "") s.
Fixpoint scan (ls : list string) : list string :=
  match ls with
  | [] => []
  | [l] => if String.eqb l "" then [] else if (MaxScanTokenSize <=? String.length l)%nat then [] else [drop_cr l]
  | l :: ls' => if (MaxScanTokenSize <=? String.length l)%nat then [] else drop_cr l :: scan ls'
  end.
Definition scan_lines (s : string) : list string := scan (split nl s).

(** [%d] and [strconv.ParseInt(s, 10, 64)] *)
Definition format_int (n : Z) : string := if n <? 0 then "-" +++ format_uint (- n) else format_uint n.
Definition parse_int (s : string) : option Z :=
  let neg := has_prefix "-" s in
  let body := if neg || has_prefix "+" s then sdrop 1 s else s in
  match body with
  | "" => None
  | _ =>
      n ← parse_digits body 0;
      if neg then if n <=? 2 ^ 63 then Some (- n) else None
      else if n <? 2 ^ 63 then Some n else None
  end.

(** ** Lemmas *)

Lemma stake_app a b : stake (String.length a) (a +++ b) = a.
Proof. induction a as [|c a IH]; simpl; [by destruct b|]. by rewrite IH. Qed.
Lemma sdrop_app a b : sdrop (String.length a) (a +++ b) = b.
Proof. induction a as [|c a IH]; simpl; [by destruct b | done]. Qed.
Lemma sdrop_app_more a b n : sdrop (String.length a + n) (a +++ b) = sdrop n b.
Proof. by induction a as [|c a IH]. Qed.
Lemma stake_sdrop n s : stake n s +++ sdrop n s = s.
Proof. revert s. induction n as [|n IH]; intros [|c s]; simpl; [done..|]. by rewrite IH. Qed.
Lemma stake_length n s : (n <= String.length s)%nat -> String.length (stake n s) = n.
Proof. revert s. induction n as [|n IH]; intros [|c s]; simpl; intros; [done..|lia|]. rewrite IH; lia. Qed.
Lemma sdrop_length n s : String.length (sdrop n s) = (String.length s - n)%nat.
Proof. revert s. induction n as [|n IH]; intros [|c s]; simpl; [done..|]. apply IH. Qed.

Lemma slice_app a b c : slice (String.length a) (String.length a + String.length b) (a +++ b +++ c) = Some b.
Proof.
  unfold slice. rewrite !slength_app, (proj2 (Nat.leb_le _ _)), (proj2 (Nat.leb_le _ _)) by lia. simpl.
  rewrite sdrop_app. replace (_ + _ - _)%nat with (String.length b) by lia. by rewrite stake_app.
Qed.

(** [index] finds an occurrence, and none starts before it. *)
Lemma index_Some p s i :
  index p s = Some i -> exists a b, s = a +++ p +++ b /\ String.length a = i.
Proof.
  revert i. induction s as [|c s IH]; intros i; cbn [index].
  - destruct (has_prefix p "") eqn:E; [|done]. intros [= <-]. apply has_prefix_true in E as [r E].
    exists "", r. by rewrite <-E.
  - destruct (has_prefix p (String c s)) eqn:E.
    + intros [= <-]. apply has_prefix_true in E as [r ->]. by exists "", r.
    + destruct (index p s) as [j|]; [|done]. intros [= <-]. destruct (IH j eq_refl) as (a & b & -> & <-).
      by exists (String c a), b.
Qed.

Lemma index_first p s i : index p s = Some i ->
  forall a b, s = a +++ p +++ b -> (i <= String.length a)%nat.
Proof.
  revert i. induction s as [|c s IH]; intros i; cbn [index].
  - destruct (has_prefix p ""); [|done]. intros [= <-]. lia.
  - destruct (has_prefix p (String c s)) eqn:E; [intros [= <-]; lia|].
    destruct (index p s) as [j|]; [|done]. intros [= <-] a b Hs. destruct a as [|d a].
    + exfalso. simpl in Hs. assert (has_prefix p (String c s) = true) by (apply has_prefix_true; eauto). congruence.
    + simpl in Hs. injection Hs as _ Hs. specialize (IH j eq_refl a b Hs). simpl. lia.
Qed.

Lemma index_None p s : index p s = None <-> forall a b, s <> a +++ p +++ b.
Proof.
  induction s as [|c s IH]; cbn [index].
  - destruct (has_prefix p "") eqn:E.
    + split; [done|]. intros H. apply has_prefix_true in E as [r E]. by destruct (H "" r).
    + split; [|done]. intros _ a b H. destruct a; [|done].
      assert (has_prefix p "" = true) by (apply has_prefix_true; eauto). congruence.
  - destruct (has_prefix p (String c s)) eqn:E.
    + split; [done|]. intros H. apply has_prefix_true in E as [r E]. by destruct (H "" r).
    + split.
      * intros H a b Hs. destruct (index p s); [done|]. destruct a as [|d a]; simpl in Hs.
        -- assert (has_prefix p (String c s) = true) by (apply has_prefix_true; eauto). congruence.
        -- injection Hs as _ Hs. by apply (proj1 IH eq_refl a b).
      * intros H. rewrite (proj2 IH); [done|]. intros a b ->. by apply (H (String c a) b).
Qed.

(** The first occurrence is where it is put when the text before it holds none of
    the marker's first character. *)
Lemma index_after c p a b : contains c a = false -> index (String c p) (a +++ String c p +++ b) = Some (String.length a).
Proof.
  intros H. destruct (index (String c p) (a +++ String c p +++ b)) as [i|] eqn:E.
  - f_equal. pose proof (index_first _ _ _ E a b eq_refl) as Hle. apply index_Some in E as (a' & b' & E & <-).
    destruct (decide (String.length a <= String.length a')%nat) as [|Hlt]; [lia|]. exfalso. clear Hle.
    revert a' E Hlt. induction a as [|d a IH]; intros [|d' a'] E Hlt; simpl in *; [lia..| |].
    + injection E as -> _. by rewrite Ascii.eqb_refl in H.
    + apply orb_false_iff in H as [_ H]. injection E as _ E. eapply IH; [done|exact E|lia].
  - exfalso. exact (proj1 (index_None _ _) E a b eq_refl).
Qed.

(** [word] splits, and what it takes starts with no white space anywhere. *)
Lemma word_app s : s = (word s).1 +++ (word s).2.
Proof.
  induction s as [|c s IH]; cbn [word]; [by destruct (strip_one _ _)|].
  destruct (strip_one _ _); [done|]. destruct (word s) as [w t] eqn:E. simpl in *. by rewrite <-IH.
Qed.

Lemma word_cons c s : strip_one space_encodings (String c s) = None -> (word (String c s)).1 <> "".
Proof. intros H. cbn [word]. rewrite H. by destruct (word s). Qed.

(** The fuel of [split_on] is enough: every round consumes the separator, and the
    pieces hold no separator any more. *)
Lemma split_on_n_pieces sep s n : sep <> "" -> (String.length s <= n)%nat ->
  Forall (fun p => index sep p = None) (split_on_n n sep s).
Proof.
  intros Hsep. revert s. induction n as [|n IH]; intros s Hn.
  - destruct s; [|simpl in Hn; lia]. repeat constructor. by destruct sep.
  - simpl. destruct (index sep s) as [i|] eqn:E; [|by repeat constructor].
    pose proof (index_first _ _ _ E) as Hf. apply index_Some in E as (a & b & -> & <-). constructor.
    + rewrite stake_app. apply index_None. intros x y ->.
      specialize (Hf x (y +++ sep +++ b)). rewrite !sapp_assoc in Hf. specialize (Hf eq_refl).
      rewrite !slength_app in Hf. destruct sep; [done|simpl in Hf; lia].
    + rewrite sdrop_app_more, sdrop_app. apply IH. rewrite !slength_app in Hn. destruct sep; [done|]. simpl in Hn. lia.
Qed.

(** So is that of [fields]: more makes no difference. *)
Lemma fields_n_enough s n m : (String.length s < n)%nat -> (String.length s < m)%nat -> fields_n n s = fields_n m s.
Proof.
  revert s m. induction n as [|n IH]; intros s m Hn Hm; [lia|]. destruct m as [|m]; [lia|]. cbn [fields_n].
  assert (String.length (trim_left space_encodings s) <= String.length s)%nat as Ht.
  { destruct (trim_left_suffix space_encodings s) as [p Hp]. rewrite Hp at 2. rewrite slength_app. lia. }
  pose proof (trim_left_stop space_encodings s space_encodings_nonempty) as Hs.
  destruct (trim_left space_encodings s) as [|c t] eqn:Et; [done|].
  destruct (word (String c t)) as [w r] eqn:Ew. f_equal.
  pose proof (word_app (String c t)) as Ha. pose proof (word_cons c t Hs) as Hw. rewrite Ew in Ha, Hw. simpl fst in *. simpl snd in *.
  assert (String.length r < String.length (String c t))%nat.
  { rewrite Ha, slength_app. destruct w; [done|simpl; lia]. }
  apply IH; lia.
Qed.

(** ** Texts made of lines *)

(** Each line with its terminator. *)
Definition text_of (lines : list string) : string := foldr (fun l t => l +++ lf +++ t) "" lines.

Lemma text_of_cons l ls : text_of (l :: ls) = l +++ lf +++ text_of ls.
Proof. done. Qed.

Lemma split_app_any sep s t : split sep (s +++ String sep t) = split sep s ++ split sep t.
Proof.
  induction s as [|c s IH]; simpl; [by rewrite Ascii.eqb_refl|].
  destruct (Ascii.eqb c sep); [by rewrite IH|]. rewrite IH. by destruct (split sep s) eqn:E; [destruct (split_not_nil sep s)|].
Qed.

Lemma split_text_of lines : Forall (fun l => contains nl l = false) lines -> split nl (text_of lines) = lines ++ [""].
Proof.
  induction 1 as [|l ls Hl _ IH]; [done|]. rewrite text_of_cons. change (lf +++ text_of ls) with (String nl (text_of ls)).
  by rewrite split_app, IH.
Qed.

(** Lines appended to a text that has no terminator yet. *)
Definition more_lines (lines : list string) : string := foldr (fun l t => lf +++ l +++ t) "" lines.

Lemma split_more_lines t lines :
  Forall (fun l => contains nl l = false) lines -> split nl (t +++ more_lines lines) = split nl t ++ lines.
Proof.
  intros H. revert t. induction H as [|l ls Hl _ IH]; intros t; simpl.
  - by rewrite sapp_nil_r, app_nil_r.
  - rewrite split_app_any. f_equal. by rewrite IH, split_no_sep.
Qed.

(** No empty line inside a text, and no newline at its end. *)
Fixpoint no_gap (s : string) : bool :=
  match s with
  | "" => true
  | String c r => negb (Ascii.eqb c nl && match r with "" => true | String d _ => Ascii.eqb d nl end) && no_gap r
  end.

Lemma no_gap_more t lines :
  no_gap t = true -> Forall (fun l => l <> "" /\ contains nl l = false) lines -> no_gap (t +++ more_lines lines) = true.
Proof.
  intros Ht H. revert t Ht. induction H as [|l ls [Hne Hl] _ IH]; intros t Ht; simpl; [by rewrite sapp_nil_r|].
  replace (t +++ String nl (l +++ more_lines ls)) with ((t +++ String nl l) +++ more_lines ls) by (by rewrite sapp_assoc).
  apply IH. clear IH. induction t as [|c t IHt]; simpl in *.
  - destruct l as [|d l]; [done|]. simpl in Hl. apply orb_false_iff in Hl as [Hd Hl].
    assert (forall x, contains nl x = false -> no_gap x = true) as Hx.
    { clear. induction x as [|e x IH]; intros H; [done|]. simpl in *. apply orb_false_iff in H as [-> H]. by apply IH. }
    rewrite Hd. apply Hx. simpl. by rewrite Hd.
  - apply andb_true_iff in Ht as [H1 H2]. rewrite (IHt H2), andb_true_r. destruct t as [|d t]; [|done]. simpl in *.
    by rewrite andb_true_r in *.
Qed.

Lemma index_gap a r : no_gap a = true -> index (lf +++ lf) (a +++ lf +++ lf +++ r) = Some (String.length a).
Proof.
  induction a as [|c a IH]; intros H; [done|]. simpl in H. apply andb_true_iff in H as [H1 H2]. specialize (IH H2).
  cbn [String.append index String.length].
  assert (has_prefix (lf +++ lf) (String c (a +++ lf +++ lf +++ r)) = false) as ->.
  { destruct (has_prefix _ _) eqn:E; [|done]. apply has_prefix_true in E as [x E]. simpl in E. injection E as -> E.
    rewrite Ascii.eqb_refl in H1. destruct a as [|d a]; [done|]. simpl in E. injection E as -> _.
    by rewrite Ascii.eqb_refl in H1. }
  by rewrite IH.
Qed.

(** Paragraphs, each followed by an empty line, are found again. *)
Lemma split_paragraphs ps :
  Forall (fun p => no_gap p = true) ps ->
  split_on (lf +++ lf) (foldr (fun p t => p +++ lf +++ lf +++ t) "" ps) = ps ++ [""].
Proof.
  unfold split_on. intros H.
  enough (forall n, (String.length (foldr (fun p t => p +++ lf +++ lf +++ t) "" ps) <= n)%nat ->
    split_on_n n (lf +++ lf) (foldr (fun p t => p +++ lf +++ lf +++ t) "" ps) = ps ++ [""]) as Hn by (by apply Hn).
  induction H as [|p ps Hp _ IH]; intros n Hn; [by destruct n|].
  cbn [foldr] in *. rewrite !slength_app in Hn. destruct n as [|n]; [simpl in Hn; lia|]. cbn [split_on_n].
  rewrite index_gap by done. rewrite stake_app, sdrop_app_more. rewrite <-app_comm_cons. f_equal. apply IH.
  change (String.length lf) with 1%nat in Hn. lia.
Qed.

(** ** Words *)

(** No character of [s] starts an encoding of white space. *)
Definition solid (s : string) : bool :=
  all_chars (fun c => forallb (fun e => match e with String d _ => negb (Ascii.eqb d c) | "" => true end) space_encodings) s.

Lemma solid_cons c s t : solid (String c s) = true -> strip_one space_encodings (String c t) = None.
Proof.
  intros H. simpl in H. apply andb_true_iff in H as [H _]. apply strip_one_None. intros e r Hin E.
  rewrite forallb_forall in H. specialize (H e (proj1 (list_elem_of_In _ _) Hin)).
  assert (e <> "") as Hne. { intros ->. assert (nonempty_all space_encodings) as Hn by apply space_encodings_nonempty.
    unfold nonempty_all in Hn. rewrite Forall_forall in Hn. specialize (Hn _ Hin). simpl in Hn. lia. }
  destruct e as [|d e]; [done|]. simpl in E. injection E as -> _. by rewrite Ascii.eqb_refl in H.
Qed.

Lemma word_solid w r : solid w = true -> (r = "" \/ exists r', r = String " " r') -> word (w +++ r) = (w, r).
Proof.
  intros Hw Hr. induction w as [|c w IH]; simpl.
  - destruct Hr as [->|[r' ->]]; [done|]. reflexivity.
  - rewrite (solid_cons c w) by done. unfold solid in Hw. simpl in Hw. apply andb_true_iff in Hw as [_ Hw].
    by rewrite IH.
Qed.

Lemma fields_n_step n w r : solid w = true -> w <> "" -> (r = "" \/ exists r', r = String " " r') ->
  fields_n (S n) (String " " (w +++ r)) = w :: fields_n n r.
Proof.
  intros Hw Hne Hr. destruct w as [|c w]; [done|]. cbn [fields_n].
  assert (trim_left space_encodings (String " " (String c w +++ r)) = String c w +++ r) as ->.
  { unfold trim_left. cbn [String.length trim_left_n].
    change (strip_one space_encodings (String " " (String c w +++ r))) with (Some (String c w +++ r)). cbv iota beta.
    change (trim_left space_encodings (String c w +++ r) = String c w +++ r). apply trim_left_id. by apply (solid_cons c w). }
  rewrite word_solid by done. done.
Qed.

(** The words of a line of three columns. *)
Lemma fields_three a b c :
  solid a = true -> a <> "" -> solid b = true -> b <> "" -> solid c = true -> c <> "" ->
  fields (" " +++ a +++ " " +++ b +++ " " +++ c) = [a; b; c].
Proof.
  intros. unfold fields. set (line := " " +++ a +++ " " +++ b +++ " " +++ c).
  assert (exists k, S (String.length line) = S (S (S k))) as [k ->].
  { subst line. rewrite !slength_app. change (String.length " ") with 1%nat. eexists (_ + _)%nat. simpl. f_equal. f_equal.
    rewrite Nat.add_succ_r. reflexivity. }
  subst line. change (" " +++ a +++ " " +++ b +++ " " +++ c) with (String " " (a +++ String " " (b +++ String " " c))).
  rewrite fields_n_step by eauto. rewrite fields_n_step by eauto.
  replace c with (c +++ "") at 1 by apply sapp_nil_r. rewrite fields_n_step by eauto. by destruct k.
Qed.

(** ** Padded columns *)

(** The printable characters of ASCII. *)
Definition graphic (c : ascii) : bool := in_range "!" "~" c.

Definition pad (w : nat) (s : string) : string := s +++ repeat_char (w - String.length s) " ".

Lemma pad_length w s : (String.length s <= w)%nat -> String.length (pad w s) = w.
Proof. intros H. unfold pad. rewrite slength_app, repeat_char_length. lia. Qed.

Lemma graphic_no_space : Forall (fun e => avoids graphic e = true) space_encodings /\
  Forall (fun e => avoids graphic e = true) space_suffixes.
Proof. split; repeat constructor. Qed.

Lemma repeat_char_snoc k c : repeat_char k c +++ String c "" = String c (repeat_char k c).
Proof. induction k as [|k IH]; simpl; [done|]. by rewrite IH. Qed.

Lemma srev_repeat k c : srev (repeat_char k c) = repeat_char k c.
Proof. induction k as [|k IH]; simpl; [done|]. by rewrite srev_cons, IH, repeat_char_snoc. Qed.

Lemma trim_left_spaces k x : strip_one space_suffixes x = None -> trim_left space_suffixes (repeat_char k " " +++ x) = x.
Proof.
  intros Hx. unfold trim_left. rewrite slength_app, repeat_char_length.
  induction k as [|k IH]; [by apply trim_left_id|]. cbn [repeat_char String.append Nat.add trim_left_n].
  change (strip_one space_suffixes (String " " (repeat_char k " " +++ x))) with (Some (repeat_char k " " +++ x)). exact IH.
Qed.

(** Trimming undoes padding. *)
Lemma trim_space_pad w s : all_chars graphic s = true -> s <> "" -> trim_space (pad w s) = s.
Proof.
  intros Hs Hne. destruct (chars_trimmed graphic s (proj1 graphic_no_space) (proj2 graphic_no_space) Hs) as [H1 H2].
  unfold trim_space, pad. rewrite (trim_left_id space_encodings).
  - rewrite srev_sapp, srev_repeat, trim_left_spaces by done. apply srev_involutive.
  - destruct s as [|c s]; [done|]. apply strip_one_None. intros e r Hin E.
    pose proof (proj1 (Forall_forall _ _) (proj1 graphic_no_space) e Hin) as Ha.
    destruct e as [|d e]; [done|]. simpl in E, Ha, Hs. injection E as -> _. apply andb_true_iff in Hs as [Hc _]. by rewrite Hc in Ha.
Qed.

Lemma parse_int_format n : 0 <= n < 2 ^ 63 -> parse_int (format_uint n) = Some n.
Proof.
  intros H. unfold parse_int. pose proof (format_uint_digits n ltac:(lia)) as Hd. pose proof (format_uint_not_nil n) as Hne.
  pose proof (parse_digits_format n ltac:(lia)) as Hp. destruct (format_uint n) as [|c r]; [done|].
  simpl in Hd. apply andb_true_iff in Hd as [Hc _].
  assert (has_prefix "-" (String c r) = false /\ has_prefix "+" (String c r) = false) as [-> ->].
  { split; (destruct (has_prefix _ _) eqn:E; [|done]); apply has_prefix_true in E as [x E]; simpl in E;
      injection E as -> _; by vm_compute in Hc. }
  cbn [orb]. rewrite Hp. cbn [mbind option_bind]. by rewrite (proj2 (Z.ltb_lt _ _)) by lia.
Qed.
