(* ===== verification/StringOrder.v ===== *)
(** * Byte-wise string order ([sort.Strings]) and zero-padded numbers

    The transport queue relies on one fact: zero-padded decimal keys sort in
    numeric order. *)

From stdpp Require Import base list strings sorting.
From Stdlib Require Import ZArith Lia Ascii.
From S2P Require Import Prelude.
From S2P Require Import GoStrings.
Open Scope Z_scope.

Local Infix "+++" := String.append (at level 60, right associativity).

Definition str_le (a b : string) : Prop := String.leb a b = true.
#[export] Instance str_le_dec a b : Decision (str_le a b).
Proof. unfold str_le. apply _. Defined.

Lemma compare_lt_trans a b c :
  String.compare a b <> Gt -> String.compare b c <> Gt -> String.compare a c <> Gt.
Proof.
  revert b c. induction a as [|x a IH]; intros [|y b] [|z c]; simpl; try done.
  unfold Ascii.compare.
  destruct (N.compare_spec (N_of_ascii x) (N_of_ascii y)), (N.compare_spec (N_of_ascii y) (N_of_ascii z)),
    (N.compare_spec (N_of_ascii x) (N_of_ascii z)); try done; try lia. apply IH.
Qed.

#[export] Instance str_le_trans : Transitive str_le.
Proof.
  intros a b c. unfold str_le, String.leb.
  pose proof (compare_lt_trans a b c) as H.
  destruct (String.compare a b), (String.compare b c), (String.compare a c); try done;
    by destruct H.
Qed.
#[export] Instance str_le_total : Total str_le.
Proof. intros a b. apply String.leb_total. Qed.
#[export] Instance str_le_antisym : AntiSymm (=) str_le.
Proof. intros a b. apply String.leb_antisym. Qed.

(** [sort.Strings] *)
Definition sort_strings (l : list string) : list string := merge_sort str_le l.

Lemma sort_strings_sorted l : StronglySorted str_le (sort_strings l).
Proof. apply StronglySorted_merge_sort; apply _. Qed.

Lemma sort_strings_perm l : sort_strings l ≡ₚ l.
Proof. apply merge_sort_Permutation. Qed.

(** A sorted enumeration is determined by its elements. *)
Lemma sort_strings_unique l l' :
  StronglySorted str_le l' -> NoDup l -> NoDup l' -> (forall x, x ∈ l <-> x ∈ l') -> sort_strings l = l'.
Proof.
  intros Hs Hn Hn' Hin. apply (StronglySorted_unique str_le); [apply sort_strings_sorted | done|].
  rewrite sort_strings_perm. by apply NoDup_Permutation.
Qed.

(** ** Digits *)

(** The number a string of digits denotes. *)
Fixpoint decimal (s : string) : Z :=
  match s with
  | EmptyString => 0
  | String c s' => digit_val c * 10 ^ Z.of_nat (String.length s') + decimal s'
  end.

Lemma parse_digits_decimal s acc :
  all_chars is_digit s = true ->
  parse_digits s acc = Some (acc * 10 ^ Z.of_nat (String.length s) + decimal s).
Proof.
  revert acc. induction s as [|c s IH]; intros acc H; [simpl; f_equal; lia|].
  cbn [decimal String.length all_chars parse_digits] in *.
  apply andb_true_iff in H as [-> H]. rewrite IH by done. f_equal.
  rewrite Nat2Z.inj_succ, Z.pow_succ_r by lia. lia.
Qed.

Lemma decimal_range s : all_chars is_digit s = true -> 0 <= decimal s < 10 ^ Z.of_nat (String.length s).
Proof.
  induction s as [|c s IH]; intros H; [done|]. cbn [decimal String.length all_chars] in *.
  apply andb_true_iff in H as [Hc%is_digit_val H]. specialize (IH H).
  rewrite Nat2Z.inj_succ, Z.pow_succ_r by lia. nia.
Qed.

Lemma digit_val_compare c d :
  Ascii.compare c d = Z.compare (digit_val c) (digit_val d).
Proof.
  unfold Ascii.compare, digit_val. rewrite <-N2Z.inj_compare.
  destruct (Z.compare_spec (Z.of_N (N_of_ascii c)) (Z.of_N (N_of_ascii d)));
    symmetry; [apply Z.compare_eq_iff | apply Z.compare_lt_iff | apply Z.compare_gt_iff]; lia.
Qed.

(** Digit strings of one length compare as the numbers they denote. *)
Lemma compare_digits s t :
  all_chars is_digit s = true -> all_chars is_digit t = true -> String.length s = String.length t ->
  String.compare s t = Z.compare (decimal s) (decimal t).
Proof.
  revert t. induction s as [|c s IH]; intros [|d t] Hs Ht Hl; try done.
  cbn [decimal String.length all_chars String.compare] in *.
  apply andb_true_iff in Hs as [Hc%is_digit_val Hs], Ht as [Hd%is_digit_val Ht]. injection Hl as Hl.
  rewrite digit_val_compare, <-Hl.
  pose proof (decimal_range s Hs). pose proof (decimal_range t Ht). rewrite <-Hl in *.
  destruct (Z.compare_spec (digit_val c) (digit_val d)) as [E|E|E].
  - rewrite IH, E by done. symmetry. apply Z.add_compare_mono_l.
  - symmetry. apply Z.compare_lt_iff. nia.
  - symmetry. apply Z.compare_gt_iff. nia.
Qed.

Lemma decimal_app_zeros k s : decimal (repeat_char k "0" +++ s) = decimal s.
Proof. induction k as [|k IH]; simpl; [done|]. rewrite IH. done. Qed.

Lemma digits_n_length fuel n w :
  0 <= n < 10 ^ Z.of_nat w -> (0 < w)%nat -> (String.length (digits_n fuel n "") <= w)%nat.
Proof.
  revert n w. induction fuel as [|k IH]; intros n w Hn Hw; simpl; [lia|].
  destruct (Z.ltb_spec n 10); [simpl; lia|].
  rewrite digits_n_app, slength_app. simpl.
  destruct w as [|[|w]]; [lia | simpl in Hn; lia |].
  enough (String.length (digits_n k (n / 10) "") <= S w)%nat by lia. apply IH; [|lia].
  rewrite Nat2Z.inj_succ, Z.pow_succ_r in Hn by lia.
  split; [apply Z.div_pos; lia | apply Z.div_lt_upper_bound; lia].
Qed.

Lemma all_digits_zeros k : all_chars is_digit (repeat_char k "0") = true.
Proof. by induction k. Qed.

Section Padded.
Context (w : nat) (n : Z) (Hw : (0 < w)%nat) (Hn : 0 <= n < 10 ^ Z.of_nat w).

Lemma zero_padded_length : String.length (zero_padded w n) = w.
Proof.
  unfold zero_padded. rewrite slength_app, repeat_char_length.
  pose proof (digits_n_length (S (Z.to_nat (Z.log2 n))) n w Hn Hw). unfold format_uint. lia.
Qed.

Lemma zero_padded_digits : all_chars is_digit (zero_padded w n) = true.
Proof.
  unfold zero_padded. rewrite all_chars_app, all_digits_zeros. apply format_uint_digits. lia.
Qed.

Lemma zero_padded_decimal : decimal (zero_padded w n) = n.
Proof.
  unfold zero_padded. rewrite decimal_app_zeros.
  pose proof (parse_digits_format n ltac:(lia)) as H.
  rewrite parse_digits_decimal in H by (apply format_uint_digits; lia). by simplify_eq.
Qed.
End Padded.

(** Zero-padded decimals of one width sort in numeric order. *)
Lemma zero_padded_le w n m :
  (0 < w)%nat -> 0 <= n < 10 ^ Z.of_nat w -> 0 <= m < 10 ^ Z.of_nat w ->
  str_le (zero_padded w n) (zero_padded w m) <-> n <= m.
Proof.
  intros Hw Hn Hm. unfold str_le, String.leb.
  rewrite compare_digits by (rewrite ?zero_padded_length; eauto using zero_padded_digits).
  rewrite !zero_padded_decimal by done.
  destruct (Z.compare_spec n m); split; try done; lia.
Qed.

Lemma zero_padded_inj w n m :
  (0 < w)%nat -> 0 <= n < 10 ^ Z.of_nat w -> 0 <= m < 10 ^ Z.of_nat w ->
  zero_padded w n = zero_padded w m -> n = m.
Proof.
  intros Hw Hn Hm E. rewrite <-(zero_padded_decimal w n), <-(zero_padded_decimal w m) by done. by rewrite E.
Qed.

(** A common prefix does not change the order. *)
Lemma str_le_app p s t : str_le (p +++ s) (p +++ t) <-> str_le s t.
Proof.
  unfold str_le, String.leb. induction p as [|c p IH]; simpl; [done|].
  unfold Ascii.compare. by rewrite N.compare_refl.
Qed.
