(* ===== verification/Handshake.v ===== *)
(** * The core/module handshake (sdk/handshake)

    The one-line answer a module prints on stdout ([Line], [Format], [Parse])
    and the protocol window core advertises in the environment ([Window],
    [Contains], [ParseWindow]).  [ipc]'s network names are part of the line. *)

From stdpp Require Import base list strings.
From Stdlib Require Import ZArith Lia Ascii.
From S2P Require Import Prelude.
From S2P Require Import GoStrings.
Open Scope Z_scope.
Open Scope go_scope.

Local Infix "+++" := String.append (at level 60, right associativity).

Module handshake.

Definition NetworkUnix : string := "unix".
Definition NetworkPipe : string := "npipe".
Definition legacyNetworkPipe : string := "winpipe".
Definition LineVersion : Z := 1.
Definition ExitProtocolUnsupported : Z := 78.

Record Line := mkLine {
  l_Protocol : Z;   (* uint32 *)
  l_Network : string;
  l_Addr : string }.

Inductive error :=
| ErrMalformedLine (s : string)
| ErrLineVersion (field : string)
| ErrBadProtocol (field : string)
| ErrUnknownNetwork (field : string)
| ErrEmptyAddress
| ErrBadMin (v : string)
| ErrBadMax (v : string)
| ErrInvalidWindow (lo hi : Z).

(** [fmt.Sprintf("WEAVE|%d|%d|%s|%s", ...)] *)
Definition Format (l : Line) : string :=
  "WEAVE|" +++ format_uint LineVersion +++ "|" +++ format_uint (l_Protocol l)
  +++ "|" +++ l_Network l +++ "|" +++ l_Addr l.

(** The pre-v0.3 spelling of the pipe network is accepted and normalised. *)
Definition normalise_network (n : string) : string :=
  if String.eqb n legacyNetworkPipe then NetworkPipe else n.

(** [Parse]: the checks in the order of the code, one error per early return. *)
Definition Parse (s : string) : result error Line :=
  match split "|" (trim_space s) with
  | [p0; p1; p2; p3; p4] =>
      if negb (String.eqb p0 "WEAVE") then Err (ErrMalformedLine s)
      else
      match parse_uint 32 p1 with
      | None => Err (ErrLineVersion p1)
      | Some v =>
      if negb (v =? LineVersion) then Err (ErrLineVersion p1)
      else
      match parse_uint 32 p2 with
      | None => Err (ErrBadProtocol p2)
      | Some p =>
      if p =? 0 then Err (ErrBadProtocol p2)
      else
      let network := normalise_network p3 in
      if negb (String.eqb network NetworkUnix) && negb (String.eqb network NetworkPipe)
      then Err (ErrUnknownNetwork p3)
      else if String.eqb p4 "" then Err ErrEmptyAddress
      else Ok (mkLine p network p4)
      end
      end
  | _ => Err (ErrMalformedLine s)
  end.

Record Window := mkWindow { w_Min : Z; w_Max : Z }.   (* uint32 *)

Definition Contains (w : Window) (p : Z) : bool := (w_Min w <=? p) && (p <=? w_Max w).

Definition ParseWindow (min max : string) : result error Window :=
  lo <-? of_option (ErrBadMin min) (parse_uint 32 min) ;;
  hi <-? of_option (ErrBadMax max) (parse_uint 32 max) ;;
  do? guard ((lo =? 0) || (hi <? lo)) (ErrInvalidWindow lo hi) ;;
  Ok (mkWindow lo hi).

(** ** What a well-formed line is *)

(** The lines the SDK prints: a positive 32-bit protocol, one of the two
    networks, and an address that survives the framing (no field separator, no
    trailing white space). *)
Definition valid_line (l : Line) : Prop :=
  0 < l_Protocol l < 2 ^ 32 /\
  (l_Network l = NetworkUnix \/ l_Network l = NetworkPipe) /\
  l_Addr l <> "" /\ contains "|" (l_Addr l) = false /\
  strip_one space_suffixes (srev (l_Addr l)) = None.

Lemma format_fields l :
  Format l = join "|" ["WEAVE"; "1"; format_uint (l_Protocol l); l_Network l; l_Addr l].
Proof. reflexivity. Qed.

Lemma format_uint_no_bar n : 0 <= n -> contains "|" (format_uint n) = false.
Proof. intros Hn. eapply all_chars_contains; [by apply format_uint_digits | done]. Qed.

Lemma network_no_bar l : valid_line l -> contains "|" (l_Network l) = false.
Proof. by intros (_ & [-> | ->] & _). Qed.

(** The white space trimming of [Parse] leaves a printed line alone. *)
Lemma format_trimmed l : valid_line l -> trim_space (Format l) = Format l.
Proof.
  intros (_ & _ & _ & _ & Hend). apply trim_space_trimmed_id. split; [done|].
  unfold Format.
  set (p := format_uint LineVersion +++ _) in *.
  assert (exists q, "WEAVE|" +++ p = q +++ String "|" (l_Addr l)) as [q ->].
  { exists ("WEAVE|" +++ format_uint LineVersion +++ "|" +++ format_uint (l_Protocol l)
            +++ "|" +++ l_Network l). unfold p. rewrite !sapp_assoc. done. }
  rewrite srev_sapp, srev_cons, sapp_assoc. apply strip_one_sep; [|done].
  repeat constructor.
Qed.

Lemma Parse_Format_line l : valid_line l -> Parse (Format l) = Ok l.
Proof.
  intros Hv. pose proof Hv as (Hp & Hn & Ha & Hb & _).
  unfold Parse. rewrite (format_trimmed l Hv), format_fields.
  rewrite (split_join "|"); [|done|].
  2:{ repeat constructor; try done; [apply format_uint_no_bar; lia | by apply network_no_bar]. }
  change (parse_uint 32 "1") with (Some 1). simpl.
  rewrite parse_uint_format by lia.
  destruct (Z.eqb_spec (l_Protocol l) 0); [lia|].
  destruct (String.eqb_spec (l_Addr l) ""); [done|].
  destruct l as [prot net addr]; simpl in *. by destruct Hn; subst.
Qed.

(** Round trip: whatever line the SDK prints, core parses back to the same
    protocol, network and address. *)
Theorem Parse_Format l : valid_line l -> Parse (Format l) = Ok l.
Proof. apply Parse_Format_line. Qed.

Definition sample_line : Line := mkLine 1 "unix" "/run/weave/modules/sysinfo/sysinfo.sock".

Lemma sample_line_valid : valid_line sample_line.
Proof. vm_compute. intuition congruence. Qed.

Lemma Parse_Format_witness :
  valid_line sample_line /\ Parse (Format sample_line) = Ok sample_line.
Proof. split; [apply sample_line_valid | apply (Parse_Format sample_line), sample_line_valid]. Defined.

(** C40. Soundness of the parser: every line core accepts is well formed (a
    positive 32-bit protocol, a known network after the legacy spelling is
    normalised, a non-empty address), so re-printing it parses again. *)
Theorem Parse_sound s l : Parse s = Ok l -> valid_line l.
Proof.
  unfold Parse. pose proof (trim_space_is_trimmed s) as [_ Htr].
  pose proof (split_fields "|" (trim_space s)) as Hf.
  pose proof (join_split "|" (trim_space s)) as Hj.
  intros H. go_inv H. bool_to_prop.
  match goal with Hp : parse_uint 32 _ = Some ?p |- context [mkLine ?p _ _] =>
    pose proof (parse_uint_range _ _ _ Hp) end.
  repeat match goal with Hf : Forall _ (_ :: _) |- _ => inversion Hf; clear Hf; subst end.
  split_and!; simpl; [lia | lia | | done | done | ].
  - match goal with H : negb _ && negb _ = false |- _ =>
      apply andb_false_iff in H as [Hn|Hn]; apply negb_false_iff, String.eqb_eq in Hn
    end; [by left | by right].
  - match type of Hj with join _ [?a; ?c; ?d; ?e; ?f] = _ =>
      destruct (join_last "|" [a; c; d; e] f) as [q Hq] end.
    simpl app in Hq. rewrite Hj in Hq. rewrite Hq, srev_sapp in Htr.
    by eapply strip_one_prefix_None.
Qed.

Lemma Parse_sound_witness :
  exists l, Parse "WEAVE|1|1|winpipe|pipe-7" = Ok l /\ valid_line l.
Proof.
  exists (mkLine 1 "npipe" "pipe-7").
  split; [reflexivity | apply (Parse_sound "WEAVE|1|1|winpipe|pipe-7"); reflexivity].
Defined.

Lemma ParseWindow_iff min max w :
  ParseWindow min max = Ok w <->
  parse_uint 32 min = Some (w_Min w) /\ parse_uint 32 max = Some (w_Max w) /\
  0 < w_Min w /\ w_Min w <= w_Max w.
Proof.
  unfold ParseWindow. split.
  - intros H. bind_inv H.
    destruct (parse_uint 32 min) as [lo|] eqn:E1; simplify_eq/=.
    destruct (parse_uint 32 max) as [hi|] eqn:E2; simplify_eq/=.
    apply parse_uint_range in E1. bool_to_prop. simpl. split_and!; (done || lia).
  - intros (-> & -> & H1 & H2). simpl.
    destruct (Z.eqb_spec (w_Min w) 0); [lia|].
    destruct (Z.ltb_spec (w_Max w) (w_Min w)); [lia|]. by destruct w.
Qed.

(** The advertised window: the two decimal values core writes into the
    environment are read back by the module as the same window, and only
    windows with a positive minimum no larger than the maximum are accepted. *)
Theorem ParseWindow_spec min max w :
  ParseWindow min max = Ok w <->
  parse_uint 32 min = Some (w_Min w) /\ parse_uint 32 max = Some (w_Max w) /\
  0 < w_Min w /\ w_Min w <= w_Max w.
Proof. apply ParseWindow_iff. Qed.

Lemma ParseWindow_env w :
  0 < w_Min w -> w_Min w <= w_Max w < 2 ^ 32 ->
  ParseWindow (format_uint (w_Min w)) (format_uint (w_Max w)) = Ok w.
Proof.
  intros H1 H2. apply ParseWindow_iff. rewrite !parse_uint_format by lia. split_and!; (done || lia).
Qed.

End handshake.
