(* ===== verification/Paths.v ===== *)
(** * Slash-separated paths (path/filepath)

    A cleaned absolute path is the list of its components.  [Join] is
    [filepath.Join] on the unix builds: the elements are joined with slashes and
    cleaned lexically, so a ["/"] or [".."] inside an element is honoured, which
    is exactly what the id and version checks have to exclude. *)

From stdpp Require Import base list strings.
From Stdlib Require Import ZArith Lia Ascii.
From S2P Require Import Prelude.
From S2P Require Import GoStrings.

Notation path := (list string).

(** One step of [filepath.Clean] on a rooted path: the reversed components
    already kept, and the next one. *)
Definition clean_step (acc : list string) (c : string) : list string :=
  if String.eqb c "" || String.eqb c "." then acc
  else if String.eqb c ".." then tail acc
  else c :: acc.

Definition clean (cs : list string) : path := rev (fold_left clean_step cs []).

(** [filepath.Join(base, elems...)] for a rooted [base]. *)
Definition Join (base : path) (elems : list string) : path :=
  clean (base ++ concat (split "/" <$> elems)).

(** A component that names an entry of its directory and nothing else. *)
Definition safe_component (s : string) : Prop :=
  s <> "" /\ s <> "." /\ s <> ".." /\ contains "/" s = false /\
  contains (ascii_of_nat 92) s = false /\ contains (ascii_of_nat 0) s = false.

Definition safe_path (p : path) : Prop := Forall safe_component p.

Lemma clean_step_safe acc c : safe_component c -> clean_step acc c = c :: acc.
Proof.
  intros (H1 & H2 & H3 & _). unfold clean_step.
  destruct (String.eqb_spec c ""), (String.eqb_spec c "."), (String.eqb_spec c ".."); done.
Qed.

Lemma fold_clean_safe cs acc :
  safe_path cs -> fold_left clean_step cs acc = rev cs ++ acc.
Proof.
  revert acc. induction cs as [|c cs IH]; intros acc Hs; [done|].
  inversion Hs; subst. simpl. rewrite clean_step_safe, IH by done.
  by rewrite <-app_assoc.
Qed.

Lemma split_safe elems :
  safe_path elems -> concat (split "/" <$> elems) = elems.
Proof.
  induction elems as [|e es IH]; intros Hs; [done|].
  inversion Hs as [|? ? He Hes]; subst. destruct He as (_ & _ & _ & Hslash & _).
  rewrite fmap_cons. cbn [concat]. rewrite split_no_sep, IH by done. done.
Qed.

(** Joining safe components below a safe base only appends them. *)
Lemma Join_safe base elems :
  safe_path base -> safe_path elems -> Join base elems = base ++ elems.
Proof.
  intros Hb He. unfold Join, clean. rewrite split_safe by done.
  rewrite fold_clean_safe by (by apply Forall_app).
  by rewrite app_nil_r, rev_involutive.
Qed.

(** Safety of a path written as a list of literals and known components. *)
Ltac safe_list :=
  unfold safe_path; repeat first [apply Forall_nil_2 | apply Forall_cons_2];
  first [assumption | by repeat split].

Example Join_escapes :
  Join ["var"; "lib"; "weave"; "staging"] ["../../../etc"; "1.0.0"] = ["var"; "etc"; "1.0.0"].
Proof. reflexivity. Qed.

#[export] Hint Resolve Join_safe : go.
