(* ===== verification/FileSystem.v ===== *)
(** * The file system as the agent uses it (package [os])

    A store of files and directories indexed by cleaned paths, and the calls the
    agent makes as state-passing operations.  Every call consults an oracle: it
    can work, fail with an I/O error after partial progress, or be the point at
    which the machine goes down, after which no call has an effect.  A theorem
    about every oracle is therefore a theorem about every error and every crash
    point.  Permission bits are not part of the state. *)

From stdpp Require Import base list strings gmap sorting.
From Stdlib Require Import ZArith Lia Ascii.
From S2P Require Import Prelude.
From S2P Require Import GoStrings.
From S2P Require Import Paths.
Open Scope Z_scope.

Local Infix "+++" := String.append (at level 60, right associativity).

Module os.

Inductive node := File (content : string) | Dir.
#[export] Instance node_eq_dec : EqDecision node.
Proof. solve_decision. Defined.

Notation fs := (gmap (list string) node).

Inductive errno :=
| EIO | ENOENT | EEXIST | EISDIR | ENOTDIR | EINVAL | ENOTEMPTY
| ECRASHED                 (* the machine is down: nothing observes this *)
| EMsg (what : string).    (* errors the agent itself builds *)

(** How far an interrupted call got: [pr_n] bytes or directories, and the
    entries an interrupted recursive removal had not reached. *)
Record progress := mkProgress { pr_n : nat; pr_left : list (list string) }.
Inductive outcome := Works | Fails (p : progress) | Crashes (p : progress).

(** The machine: files, what the coming calls do, whether it is up, the seed of
    the temporary-name generator, and the rest of the component's state. *)
Record world (X : Type) := mkWorld {
  w_fs : fs; w_oracle : list outcome; w_up : bool; w_seed : Z; w_ext : X }.
Arguments mkWorld {X}.
Arguments w_fs {X}.
Arguments w_oracle {X}.
Arguments w_up {X}.
Arguments w_seed {X}.
Arguments w_ext {X}.

Definition M (X A : Type) : Type := world X -> result errno A * world X.

Section Monad.
Context {X : Type}.

Definition ret {A} (a : A) : M X A := fun w => (Ok a, w).
Definition fail {A} (e : errno) : M X A := fun w => (Err e, w).
Definition bind {A B} (c : M X A) (k : A -> M X B) : M X B := fun w =>
  match c w with
  | (Ok a, w') => k a w'
  | (Err e, w') => (Err e, w')
  end.
(** [r, err := c]: the caller looks at the error itself. *)
Definition attempt {A} (c : M X A) : M X (result errno A) := fun w =>
  let (r, w') := c w in (Ok r, w').
(** A call whose error is dropped. *)
Definition ignore {A} (c : M X A) : M X unit := fun w => (Ok tt, snd (c w)).
Definition lift {A} (r : result errno A) : M X A := fun w => (r, w).
Definition get_ext : M X X := fun w => (Ok (w_ext w), w).
(** State outside the file system; a machine that is down does nothing. *)
Definition upd_ext (f : X -> X) : M X unit := fun w =>
  if w_up w then (Ok tt, mkWorld (w_fs w) (w_oracle w) true (w_seed w) (f (w_ext w)))
  else (Err ECRASHED, w).

Definition next (w : world X) : outcome := default Works (head (w_oracle w)).
Definition set_fs (f : fs) (up : bool) (w : world X) : world X :=
  mkWorld f (tail (w_oracle w)) up (w_seed w) (w_ext w).

(** A call that changes the file system in steps: [run] is the whole call,
    [part] what an interrupted one leaves behind. *)
Definition gradual {A} (run : fs -> result errno (A * fs)) (part : progress -> fs -> fs) : M X A :=
  fun w =>
  if negb (w_up w) then (Err ECRASHED, w)
  else match next w with
  | Works => match run (w_fs w) with
             | Ok (a, f) => (Ok a, set_fs f true w)
             | Err e => (Err e, set_fs (w_fs w) true w)
             end
  | Fails p => (Err EIO, set_fs (part p (w_fs w)) true w)
  | Crashes p => (Err ECRASHED, set_fs (part p (w_fs w)) false w)
  end.

(** A call the kernel performs atomically: an error means no effect, a crash
    falls before ([pr_n] = 0) or after it. *)
Definition atomic {A} (run : fs -> result errno (A * fs)) : M X A := fun w =>
  if negb (w_up w) then (Err ECRASHED, w)
  else match next w with
  | Works => match run (w_fs w) with
             | Ok (a, f) => (Ok a, set_fs f true w)
             | Err e => (Err e, set_fs (w_fs w) true w)
             end
  | Fails _ => (Err EIO, set_fs (w_fs w) true w)
  | Crashes p =>
      (Err ECRASHED,
       set_fs (match pr_n p, run (w_fs w) with
               | S _, Ok (_, f) => f
               | _, _ => w_fs w
               end) false w)
  end.

(** A call that only reads. *)
Definition observe {A} (run : fs -> result errno A) : M X A :=
  atomic (fun f => match run f with Ok a => Ok (a, f) | Err e => Err e end).
End Monad.

Declare Scope os_scope.
Delimit Scope os_scope with os.
Notation "x <-! c1 ;; c2" := (bind c1 (fun x => c2))
  (at level 60, c1 at next level, right associativity) : os_scope.
Notation "'do!' c1 ;; c2" := (bind c1 (fun _ => c2))
  (at level 60, c1 at next level, right associativity) : os_scope.
Open Scope os_scope.

(** ** The calls *)

(** [below d p]: [p] is [d] or inside it. *)
Definition below (d p : path) : bool := bool_decide (take (length d) p = d).

Definition is_dir (f : fs) (p : path) : bool :=
  match p with [] => true | _ => bool_decide (f !! p = Some Dir) end.
Definition parent (p : path) : path := removelast p.

Fixpoint mkdirs (pre : path) (rest : list string) (f : fs) : result errno fs :=
  match rest with
  | [] => Ok f
  | c :: rest' =>
      let p := pre ++ [c] in
      match f !! p with
      | Some Dir => mkdirs p rest' f
      | Some (File _) => Err ENOTDIR
      | None => mkdirs p rest' (<[p := Dir]> f)
      end
  end.

Definition remove_below (p : path) (kept : list path) (f : fs) : fs :=
  filter (fun '(q, _) => below p q = false \/ q ∈ kept) f.

(** The renaming of paths a directory rename performs; it also sends what is
    below [dst] back, so that it is a permutation of the paths. *)
Definition swap_below (src dst p : path) : path :=
  if below src p then dst ++ drop (length src) p
  else if below dst p then src ++ drop (length dst) p
  else p.
Definition move_tree (src dst : path) (f : fs) : fs := kmap (swap_below src dst) f.

Definition rename (src dst : path) (f : fs) : result errno fs :=
  match f !! src with
  | None => Err ENOENT
  | Some n =>
      if bool_decide (f !! dst = Some Dir) then Err EEXIST
      else if negb (is_dir f (parent dst)) then Err ENOENT
      else match n with
      | File c => Ok (<[dst := File c]> (delete src f))
      | Dir =>
          if bool_decide (is_Some (f !! dst)) then Err ENOTDIR
          else if below src dst || below dst src then Err EINVAL
          else Ok (move_tree src dst f)
      end
  end.

(** The children of a directory, by name. *)
Definition child_of (d : path) (e : path * node) : option (string * bool) :=
  match drop (length d) (fst e) with
  | [c] => if below d (fst e) then Some (c, bool_decide (snd e = Dir)) else None
  | _ => None
  end.
Definition entry_le (a b : string * bool) : Prop := String.leb (fst a) (fst b) = true.
#[export] Instance entry_le_dec a b : Decision (entry_le a b).
Proof. unfold entry_le. apply _. Defined.
Definition children (f : fs) (d : path) : list (string * bool) :=
  merge_sort entry_le (omap (child_of d) (map_to_list f)).

Fixpoint first_free (tries : nat) (r : Z) (dir : path) (prefix : string) (f : fs) : option path :=
  match tries with
  | O => None
  | S t =>
      let p := dir ++ [prefix +++ format_uint r] in
      match f !! p with
      | None => Some p
      | Some _ => first_free t (r + 1) dir prefix f
      end
  end.

Section Calls.
Context {X : Type}.

Definition ReadFile (p : path) : M X string := observe (fun f =>
  match f !! p with
  | Some (File c) => Ok c
  | Some Dir => Err EISDIR
  | None => Err ENOENT
  end).

(** [os.Stat]: whether the entry is a directory. *)
Definition Stat (p : path) : M X bool := observe (fun f =>
  if is_dir f p then Ok true else match f !! p with Some _ => Ok false | None => Err ENOENT end).

Definition ReadDir (p : path) : M X (list (string * bool)) := observe (fun f =>
  if is_dir f p then Ok (children f p)
  else match f !! p with Some _ => Err ENOTDIR | None => Err ENOENT end).

Definition MkdirAll (p : path) : M X unit := gradual
  (fun f => match mkdirs [] p f with Ok f' => Ok (tt, f') | Err e => Err e end)
  (fun pr f => match mkdirs [] (take (pr_n pr) p) f with Ok f' => f' | Err _ => f end).

Definition RemoveAll (p : path) : M X unit := gradual
  (fun f => Ok (tt, remove_below p [] f))
  (fun pr f => remove_below p (pr_left pr) f).

Definition Remove (p : path) : M X unit := atomic (fun f =>
  match f !! p with
  | None => Err ENOENT
  | Some (File _) => Ok (tt, delete p f)
  | Some Dir => if bool_decide (children f p = []) then Ok (tt, delete p f) else Err ENOTEMPTY
  end).

Definition Rename (src dst : path) : M X unit := atomic (fun f =>
  match rename src dst f with Ok f' => Ok (tt, f') | Err e => Err e end).

(** [os.CreateTemp(dir, prefix-star)]: a new empty file; ten thousand names are
    tried, from the generator's seed on. *)
Definition max_tries : nat := Z.to_nat 10000.
Definition CreateTemp (dir : path) (prefix : string) : M X path := fun w =>
  atomic (fun f =>
    if negb (is_dir f dir) then Err ENOENT
    else match first_free max_tries (w_seed w) dir prefix f with
    | None => Err EEXIST
    | Some p => Ok (p, <[p := File ""]> f)
    end) w.

(** [File.Write] at the end of an open file. *)
Definition append_to (p : path) (s : string) (f : fs) : fs :=
  match f !! p with
  | Some (File c) => <[p := File (c +++ s)]> f
  | _ => f
  end.
Definition Write (p : path) (s : string) : M X unit := gradual
  (fun f => Ok (tt, append_to p s f))
  (fun pr f => append_to p (String.substring 0 (pr_n pr) s) f).

(** [Chmod] and [Close] of an open file. *)
Definition Chmod (p : path) : M X unit := observe (fun _ => Ok tt).
Definition Close (p : path) : M X unit := observe (fun _ => Ok tt).

(** [os.WriteFile] and [os.OpenFile(.., O_CREATE|O_TRUNC|O_WRONLY, ..)]. *)
Definition Create (p : path) : M X unit := atomic (fun f =>
  match f !! p with
  | Some Dir => Err EISDIR
  | _ => if is_dir f (parent p) then Ok (tt, <[p := File ""]> f) else Err ENOENT
  end).
Definition WriteFile (p : path) (s : string) : M X unit :=
  do! Create p ;; Write p s.

(** The temp-file-and-rename pattern the agent writes its markers and keys with:
    [fill_temp] writes and closes the temporary file, removing it on an error.
    [chmod]: the mode is set explicitly; [tidy]: the temporary file is also
    removed when the rename fails. *)
Definition fill_temp (chmod : bool) (tmp : path) (s : string) : M X unit :=
  r <-! attempt (Write tmp s) ;;
  match r with
  | Err e => do! ignore (Close tmp) ;; do! ignore (Remove tmp) ;; fail e
  | Ok _ =>
  r <-! attempt (if chmod then Chmod tmp else ret tt) ;;
  match r with
  | Err e => do! ignore (Close tmp) ;; do! ignore (Remove tmp) ;; fail e
  | Ok _ =>
  r <-! attempt (Close tmp) ;;
  match r with
  | Err e => do! ignore (Remove tmp) ;; fail e
  | Ok _ => ret tt
  end end end.

Definition replace_file (chmod tidy : bool) (dir : path) (prefix : string) (p : path) (s : string) :
  M X unit :=
  tmp <-! CreateTemp dir prefix ;;
  do! fill_temp chmod tmp s ;;
  r <-! attempt (Rename tmp p) ;;
  match r with
  | Err e => if tidy then do! ignore (Remove tmp) ;; fail e else fail e
  | Ok _ => ret tt
  end.
End Calls.

(** ** What a computation leaves alone *)

Section Frame.
Context {X : Type}.
Implicit Types (P : path -> Prop) (w : world X).

(** [c] changes no entry outside [P], whatever the oracle says. *)
Definition touches {A} P (c : M X A) : Prop :=
  forall w q, ~ P q -> w_fs (snd (c w)) !! q = w_fs w !! q.

Lemma touches_ret {A} P (a : A) : touches P (ret a).
Proof. done. Qed.
Lemma touches_fail {A} P e : touches P (@fail X A e).
Proof. done. Qed.
Lemma touches_lift {A} P (r : result errno A) : touches P (lift r).
Proof. done. Qed.

Lemma touches_bind {A B} P (c : M X A) (k : A -> M X B) :
  touches P c -> (forall a, touches P (k a)) -> touches P (bind c k).
Proof.
  intros Hc Hk w q Hq. unfold bind. specialize (Hc w q Hq).
  destruct (c w) as [[a|e] w']; simpl in *; [|done]. rewrite <-Hc. by apply Hk.
Qed.

Lemma touches_attempt {A} P (c : M X A) : touches P c -> touches P (attempt c).
Proof.
  intros Hc w q Hq. unfold attempt. specialize (Hc w q Hq). by destruct (c w).
Qed.

Lemma touches_ignore {A} P (c : M X A) : touches P c -> touches P (ignore c).
Proof. intros Hc w q Hq. apply Hc, Hq. Qed.

Lemma touches_upd_ext P (f : X -> X) : touches P (upd_ext f).
Proof. intros w q _. unfold upd_ext. by destruct (w_up w). Qed.

Lemma touches_get_ext P : touches P (@get_ext X).
Proof. done. Qed.

Lemma touches_weaken {A} P (P' : path -> Prop) (c : M X A) :
  touches P c -> (forall q, P q -> P' q) -> touches P' c.
Proof. intros Hc HP w q Hq. apply Hc. auto. Qed.

Lemma touches_elim {A} P (c : M X A) w q :
  touches P c -> ~ P q -> w_fs (snd (c w)) !! q = w_fs w !! q.
Proof. intros H Hq. by apply H. Qed.

Lemma touches_atomic {A} P (run : fs -> result errno (A * fs)) :
  (forall f a f' q, run f = Ok (a, f') -> ~ P q -> f' !! q = f !! q) ->
  touches P (@atomic X A run).
Proof.
  intros H w q Hq. unfold atomic. destruct (w_up w); [|done]. simpl.
  destruct (next w) as [| |pr]; simpl;
    [destruct (run (w_fs w)) as [[a f]|e] eqn:E; simpl; eauto | done |].
  destruct (pr_n pr); [done|]. destruct (run (w_fs w)) as [[a f]|e] eqn:E; simpl; eauto.
Qed.

Lemma touches_observe {A} P (run : fs -> result errno A) : touches P (@observe X A run).
Proof. apply touches_atomic. intros f a f' q H _. destruct (run f); by simplify_eq. Qed.

Lemma touches_gradual {A} P (run : fs -> result errno (A * fs)) part :
  (forall f a f' q, run f = Ok (a, f') -> ~ P q -> f' !! q = f !! q) ->
  (forall pr f q, ~ P q -> part pr f !! q = f !! q) ->
  touches P (@gradual X A run part).
Proof.
  intros H Hp w q Hq. unfold gradual. destruct (w_up w); [|done]. simpl.
  destruct (next w); simpl; auto.
  destruct (run (w_fs w)) as [[a f]|e] eqn:E; simpl; eauto.
Qed.
End Frame.

(** *** Computations that leave the rest of the state alone *)

Section Ext.
Context {X : Type}.

Definition keeps_ext {A} (c : M X A) : Prop := forall w, w_ext (snd (c w)) = w_ext w.

Lemma keeps_bind {A B} (c : M X A) (k : A -> M X B) :
  keeps_ext c -> (forall a, keeps_ext (k a)) -> keeps_ext (bind c k).
Proof.
  intros Hc Hk w. unfold bind. specialize (Hc w). destruct (c w) as [[a|e] w']; simpl in *; [|done].
  rewrite <-Hc. apply Hk.
Qed.
Lemma keeps_attempt {A} (c : M X A) : keeps_ext c -> keeps_ext (attempt c).
Proof. intros Hc w. unfold attempt. specialize (Hc w). by destruct (c w). Qed.
Lemma keeps_ignore {A} (c : M X A) : keeps_ext c -> keeps_ext (ignore c).
Proof. intros Hc w. apply Hc. Qed.
Lemma keeps_ret {A} (a : A) : keeps_ext (@ret X A a).
Proof. done. Qed.
Lemma keeps_fail {A} e : keeps_ext (@fail X A e).
Proof. done. Qed.
Lemma keeps_atomic {A} (run : fs -> result errno (A * fs)) : keeps_ext (@atomic X A run).
Proof.
  intros w. unfold atomic. destruct (w_up w); [|done]. simpl.
  destruct (next w); simpl; [by destruct (run (w_fs w)) as [[]|] | done..].
Qed.
Lemma keeps_gradual {A} (run : fs -> result errno (A * fs)) part : keeps_ext (@gradual X A run part).
Proof.
  intros w. unfold gradual. destruct (w_up w); [|done]. simpl.
  destruct (next w); simpl; [by destruct (run (w_fs w)) as [[]|] | done..].
Qed.
Lemma keeps_CreateTemp d p : keeps_ext (@CreateTemp X d p).
Proof. intros w. apply keeps_atomic. Qed.
End Ext.

(** Along the structure of a computation made of file system calls. *)
Ltac ext_pure :=
  unfold replace_file, fill_temp, WriteFile, ReadFile, Stat, ReadDir, Chmod, Close, Remove, RemoveAll, MkdirAll,
    Rename, Write, Create, observe;
  repeat lazymatch goal with
  | H : keeps_ext ?c |- keeps_ext ?c => exact H
  | |- keeps_ext (bind _ _) => apply keeps_bind; [|intros ?]
  | |- keeps_ext (attempt _) => apply keeps_attempt
  | |- keeps_ext (ignore _) => apply keeps_ignore
  | |- keeps_ext (ret _) => apply keeps_ret
  | |- keeps_ext (fail _) => apply keeps_fail
  | |- keeps_ext (CreateTemp _ _) => apply keeps_CreateTemp
  | |- keeps_ext (atomic _) => apply keeps_atomic
  | |- keeps_ext (gradual _ _) => apply keeps_gradual
  | |- keeps_ext (match ?x with _ => _ end) => destruct x
  end.

(** *** The calls' footprints *)

Lemma below_refl d : below d d = true.
Proof. unfold below. by rewrite firstn_all, bool_decide_true. Qed.

Lemma below_app d r : below d (d ++ r) = true.
Proof. unfold below. by rewrite take_app_length, bool_decide_true. Qed.

Lemma below_spec d p : below d p = true <-> exists r, p = d ++ r.
Proof.
  split; [|intros [r ->]; apply below_app].
  unfold below. intros H%bool_decide_eq_true. exists (drop (length d) p).
  rewrite <-H at 1. by rewrite take_drop.
Qed.

Lemma remove_below_lookup p kept f q :
  below p q = false -> remove_below p kept f !! q = f !! q.
Proof.
  intros H. unfold remove_below. rewrite map_lookup_filter.
  destruct (f !! q); simpl; [|done]. rewrite option_guard_True; auto.
Qed.

Lemma remove_below_gone p f q : below p q = true -> remove_below p [] f !! q = None.
Proof.
  intros H. unfold remove_below. apply map_lookup_filter_None_2. right.
  intros n _ [H'|H']; [congruence | by apply not_elem_of_nil in H'].
Qed.

(** [MkdirAll] only ever adds missing directories. *)
Lemma mkdirs_lookup rest : forall pre f f' q,
  mkdirs pre rest f = Ok f' -> f' !! q = f !! q \/ (f !! q = None /\ f' !! q = Some Dir).
Proof.
  induction rest as [|c rest IH]; intros pre f f' q H; simpl in H; [left; congruence|].
  destruct (f !! (pre ++ [c])) as [[]|] eqn:E; [done | by eapply IH|].
  apply (IH _ _ _ q) in H. destruct (decide (q = pre ++ [c])) as [->|Hne].
  - right. rewrite lookup_insert_eq in H. destruct H as [->|[? _]]; done.
  - by rewrite lookup_insert_ne in H by done.
Qed.

Lemma below_cat d a b : below (d ++ a) (d ++ b) = below a b.
Proof.
  destruct (below a b) eqn:E.
  - apply below_spec in E as [r ->]. apply below_spec. exists r. by rewrite app_assoc.
  - apply not_true_iff_false. intros [r Hr]%below_spec. rewrite <-app_assoc in Hr.
    apply app_inv_head in Hr as ->. by rewrite below_app in E.
Qed.

Lemma below_shorter d p : (length p < length d)%nat -> below d p = false.
Proof.
  intros H. apply not_true_iff_false. intros [r ->]%below_spec. rewrite length_app in H. lia.
Qed.

Lemma below_up d a p : below (d ++ a) p = true -> below d p = true.
Proof. intros [r ->]%below_spec. rewrite <-app_assoc. apply below_app. Qed.

Lemma below_ne_head x a y b : x <> y -> below (x :: a) (y :: b) = false.
Proof. intros H. apply not_true_iff_false. intros [r Hr]%below_spec. simpl in Hr. congruence. Qed.

(** ... and only among the ancestors of its argument. *)
Lemma mkdirs_frame rest : forall pre f f' q,
  mkdirs pre rest f = Ok f' -> below q (pre ++ rest) = false -> f' !! q = f !! q.
Proof.
  induction rest as [|c rest IH]; intros pre f f' q H Hq; simpl in H; [congruence|].
  replace (pre ++ c :: rest) with ((pre ++ [c]) ++ rest) in Hq by (by rewrite <-app_assoc).
  destruct (f !! (pre ++ [c])) as [[]|] eqn:E; [done | by eapply IH|].
  rewrite (IH _ _ _ _ H Hq). apply lookup_insert_ne. intros <-.
  by rewrite below_app in Hq.
Qed.

Lemma append_to_lookup p s f q : q <> p -> append_to p s f !! q = f !! q.
Proof.
  intros H. unfold append_to. destruct (f !! p) as [[]|]; [|done..].
  by rewrite lookup_insert_ne.
Qed.

(** *** Directory listings *)

Lemma below_split d p : below d p = true -> p = d ++ drop (length d) p.
Proof. intros [r ->]%below_spec. by rewrite drop_app_length. Qed.

Lemma children_spec f d c b :
  (c, b) ∈ children f d <-> exists n, f !! (d ++ [c]) = Some n /\ b = bool_decide (n = Dir).
Proof.
  unfold children. rewrite (merge_sort_Permutation entry_le), list_elem_of_omap. split.
  - intros ([p n] & Hin & Hc). apply elem_of_map_to_list in Hin.
    unfold child_of in Hc. simpl in Hc. go_inv Hc. exists n. split; [|done].
    apply below_split in E0. rewrite E in E0. congruence.
  - intros (n & Hf & ->). exists (d ++ [c], n). split; [by apply elem_of_map_to_list|].
    unfold child_of. simpl. by rewrite drop_app_length, below_app.
Qed.

(** Every name in the store is a plain one. *)
Definition safe_fs (f : fs) : Prop := forall p, is_Some (f !! p) -> safe_path p.

(** ... entry by entry, for a concrete store. *)
Lemma safe_fs_forall (f : fs) : Forall (fun e => safe_path (fst e)) (map_to_list f) -> safe_fs f.
Proof.
  rewrite Forall_forall. intros H p [n Hn]. apply (H (p, n)). by apply elem_of_map_to_list.
Qed.

(** *** Renaming *)

Lemma below_disjoint src dst r :
  below src dst = false -> below dst src = false -> below src (dst ++ r) = false.
Proof.
  intros H1 H2. apply not_true_iff_false. intros [r' Hr]%below_spec.
  destruct (decide (length src <= length dst)%nat) as [Hle|Hgt].
  - apply not_true_iff_false in H1. apply H1, below_spec.
    exists (drop (length src) dst). rewrite <-(take_drop (length src) dst) at 1. f_equal.
    apply (f_equal (take (length src))) in Hr.
    by rewrite take_app_length, take_app_le in Hr by done.
  - apply not_true_iff_false in H2. apply H2, below_spec.
    exists (drop (length dst) src). rewrite <-(take_drop (length dst) src) at 1. f_equal.
    apply (f_equal (take (length dst))) in Hr.
    by rewrite take_app_length, take_app_le in Hr by lia.
Qed.

Lemma swap_below_involutive src dst p :
  below src dst = false -> below dst src = false ->
  swap_below src dst (swap_below src dst p) = p.
Proof.
  intros H1 H2. unfold swap_below at 2.
  destruct (below src p) eqn:Es; [|destruct (below dst p) eqn:Ed].
  - unfold swap_below. rewrite below_disjoint, below_app, drop_app_length by done.
    symmetry. by apply below_split.
  - unfold swap_below. rewrite below_app, drop_app_length. symmetry. by apply below_split.
  - unfold swap_below. by rewrite Es, Ed.
Qed.

Lemma move_tree_lookup src dst f q :
  below src dst = false -> below dst src = false ->
  move_tree src dst f !! q = f !! swap_below src dst q.
Proof.
  intros H1 H2. unfold move_tree.
  assert (Inj eq eq (swap_below src dst)) as Hinj.
  { intros x y Hxy. rewrite <-(swap_below_involutive src dst x), Hxy by done.
    by apply swap_below_involutive. }
  rewrite <-(swap_below_involutive src dst q H1 H2) at 1. apply lookup_kmap, Hinj.
Qed.

(** What a successful rename does to the entry and to everything else. *)
Lemma rename_file src dst f f' c :
  rename src dst f = Ok f' -> f !! src = Some (File c) ->
  f' = <[dst := File c]> (delete src f).
Proof.
  unfold rename. intros H Hs. rewrite Hs in H. by go_inv H.
Qed.

Lemma rename_dir src dst f f' :
  rename src dst f = Ok f' -> f !! src = Some Dir ->
  below src dst = false /\ below dst src = false /\ f' = move_tree src dst f.
Proof.
  unfold rename. intros H Hs. rewrite Hs in H. go_inv H.
  bool_to_prop. done.
Qed.

Lemma swap_below_other src dst q :
  below src q = false -> below dst q = false -> swap_below src dst q = q.
Proof. intros H1 H2. unfold swap_below. by rewrite H1, H2. Qed.

Lemma rename_frame src dst f f' q :
  rename src dst f = Ok f' -> below src q = false -> below dst q = false -> f' !! q = f !! q.
Proof.
  intros H H1 H2. destruct (f !! src) as [[c|]|] eqn:E.
  - rewrite (rename_file _ _ _ _ _ H E).
    rewrite lookup_insert_ne, lookup_delete_ne; [done|..]; intros <-;
      by rewrite below_refl in *.
  - destruct (rename_dir _ _ _ _ H E) as (Hs & Hd & ->).
    by rewrite move_tree_lookup, swap_below_other.
  - unfold rename in H. by rewrite E in H.
Qed.

Section Footprints.
Context {X : Type}.

Lemma touches_ReadFile P p : touches P (@ReadFile X p).
Proof. apply touches_observe. Qed.
Lemma touches_Stat P p : touches P (@Stat X p).
Proof. apply touches_observe. Qed.
Lemma touches_ReadDir P p : touches P (@ReadDir X p).
Proof. apply touches_observe. Qed.
Lemma touches_Chmod P p : touches P (@Chmod X p).
Proof. apply touches_observe. Qed.
Lemma touches_Close P p : touches P (@Close X p).
Proof. apply touches_observe. Qed.

Lemma touches_Remove p : touches (eq p) (@Remove X p).
Proof.
  apply touches_atomic. intros f a f' q H Hq. go_inv H; by rewrite lookup_delete_ne.
Qed.

Lemma touches_RemoveAll p : touches (fun q => below p q = true) (@RemoveAll X p).
Proof.
  apply touches_gradual; [intros f a f' q H Hq; simplify_eq | intros pr f q Hq];
    apply remove_below_lookup; by apply not_true_iff_false.
Qed.

Lemma touches_MkdirAll p : touches (fun q => below q p = true) (@MkdirAll X p).
Proof.
  apply touches_gradual.
  - intros f a f' q H Hq. go_inv H.
    by eapply mkdirs_frame; [done | apply not_true_iff_false].
  - intros pr f q Hq. destruct (mkdirs [] (take (pr_n pr) p) f) as [f'|] eqn:E; [|done].
    eapply mkdirs_frame; [done|]. apply not_true_iff_false. intros [r Hr]%below_spec. apply Hq.
    simpl in Hr. apply below_spec. exists (r ++ drop (pr_n pr) p).
    by rewrite app_assoc, <-Hr, take_drop.
Qed.

Lemma touches_Write p s : touches (eq p) (@Write X p s).
Proof.
  apply touches_gradual; [intros f a f' q H Hq; simplify_eq | intros pr f q Hq];
    by apply append_to_lookup, not_eq_sym.
Qed.

Lemma touches_Create p : touches (eq p) (@Create X p).
Proof.
  apply touches_atomic. intros f a f' q H Hq. go_inv H; by rewrite lookup_insert_ne.
Qed.

Lemma touches_Rename src dst :
  touches (fun q => below src q = true \/ below dst q = true) (@Rename X src dst).
Proof.
  apply touches_atomic. intros f a f' q H Hq. go_inv H.
  eapply rename_frame; [done|..]; apply not_true_iff_false; naive_solver.
Qed.

(** A name [CreateTemp] can pick. *)
Definition temp_name (dir : path) (prefix : string) (q : path) : Prop :=
  exists r, q = dir ++ [prefix +++ format_uint r].

Lemma first_free_Some tries r dir prefix f p :
  first_free tries r dir prefix f = Some p -> f !! p = None /\ temp_name dir prefix p.
Proof.
  revert r. induction tries as [|t IH]; intros r H; simpl in H; [done|].
  split_match H; [by eapply IH|]. simplify_eq. split; [done|]. by eexists.
Qed.

Lemma touches_CreateTemp dir prefix :
  touches (temp_name dir prefix) (@CreateTemp X dir prefix).
Proof.
  intros w. unfold CreateTemp. apply touches_atomic. intros f a f' q H Hq. go_inv H.
  apply lookup_insert_ne. intros <-. by apply first_free_Some in E0 as [_ ?].
Qed.
End Footprints.

(** Composes footprints along the structure of a computation. *)
Ltac footprint :=
  repeat lazymatch goal with
  | |- touches _ (bind _ _) => apply touches_bind; [|intros ?]
  | |- touches _ (attempt _) => apply touches_attempt
  | |- touches _ (ignore _) => apply touches_ignore
  | |- touches _ (ret _) => apply touches_ret
  | |- touches _ (fail _) => apply touches_fail
  | |- touches _ (lift _) => apply touches_lift
  | |- touches _ get_ext => apply touches_get_ext
  | |- touches _ (upd_ext _) => apply touches_upd_ext
  | |- touches _ (ReadFile _) => apply touches_ReadFile
  | |- touches _ (Stat _) => apply touches_Stat
  | |- touches _ (ReadDir _) => apply touches_ReadDir
  | |- touches _ (Chmod _) => apply touches_Chmod
  | |- touches _ (Close _) => apply touches_Close
  | |- touches _ (match ?x with _ => _ end) => destruct x
  end.

(** *** Results of single calls *)

Section Results.
Context {X : Type}.
Implicit Types w : world X.

Lemma atomic_Ok {A} (run : fs -> result errno (A * fs)) w a w' :
  atomic run w = (Ok a, w') -> w_up w' = true /\ run (w_fs w) = Ok (a, w_fs w').
Proof.
  unfold atomic. intros H. destruct (w_up w); [|done]. simpl in H.
  destruct (next w); try done. by destruct (run (w_fs w)) as [[]|]; simplify_eq.
Qed.

Lemma atomic_Err {A} (run : fs -> result errno (A * fs)) w e w' :
  atomic run w = (Err e, w') ->
  w_fs w' = w_fs w \/ (w_up w' = false /\ exists a, run (w_fs w) = Ok (a, w_fs w')).
Proof.
  unfold atomic. intros H. destruct (w_up w); simpl in H; [|left; congruence].
  destruct (next w) as [| |pr]; [|left; by simplify_eq|].
  - destruct (run (w_fs w)) as [[]|] eqn:E; simplify_eq. by left.
  - destruct (pr_n pr), (run (w_fs w)) as [[a f]|] eqn:E; simplify_eq; simpl; eauto.
Qed.

Lemma gradual_Ok {A} (run : fs -> result errno (A * fs)) part w a w' :
  gradual run part w = (Ok a, w') -> w_up w' = true /\ run (w_fs w) = Ok (a, w_fs w').
Proof.
  unfold gradual. intros H. destruct (w_up w); [|done]. simpl in H.
  destruct (next w); try done. by destruct (run (w_fs w)) as [[]|]; simplify_eq.
Qed.

Lemma observe_Ok {A} (run : fs -> result errno A) w a w' :
  observe run w = (Ok a, w') -> w_fs w' = w_fs w /\ run (w_fs w) = Ok a.
Proof.
  intros [_ H]%atomic_Ok. destruct (run (w_fs w)); by simplify_eq.
Qed.

Lemma observe_Err {A} (run : fs -> result errno A) w e w' :
  observe run w = (Err e, w') -> e = EIO \/ e = ECRASHED \/ run (w_fs w) = Err e.
Proof.
  unfold observe, atomic. intros H. destruct (w_up w); simpl in H; [|simplify_eq; auto].
  destruct (next w); simplify_eq; auto. destruct (run (w_fs w)); simplify_eq; auto.
Qed.

Lemma atomic_down {A} (run : fs -> result errno (A * fs)) w :
  w_up w = false -> atomic run w = (Err ECRASHED, w).
Proof. intros H. unfold atomic. by rewrite H. Qed.

Lemma CreateTemp_Ok dir prefix w tmp w1 :
  CreateTemp dir prefix w = (Ok tmp, w1) ->
  w_fs w !! tmp = None /\ temp_name dir prefix tmp /\ w_fs w1 = <[tmp := File ""]> (w_fs w).
Proof.
  unfold CreateTemp. intros [_ H]%atomic_Ok. go_inv H.
  by apply first_free_Some in E0 as [? ?].
Qed.

(** *** The atomic-replacement pattern *)

Lemma touches_fill_temp chmod tmp s : touches (eq tmp) (@fill_temp X chmod tmp s).
Proof.
  unfold fill_temp. footprint; first [apply touches_Write | apply touches_Remove].
Qed.

Lemma fill_temp_Ok chmod tmp s w w' u :
  w_fs w !! tmp = Some (File "") -> fill_temp chmod tmp s w = (Ok u, w') ->
  w_fs w' !! tmp = Some (File s).
Proof.
  intros Ht H. unfold fill_temp, bind, attempt in H.
  destruct (Write tmp s w) as [[[]|] w1] eqn:E1; [|done].
  destruct ((if chmod then Chmod tmp else ret tt) w1) as [[[]|] w2] eqn:E2; [|done].
  destruct (Close tmp w2) as [[[]|] w3] eqn:E3; [|done]. unfold ret in H. simplify_eq.
  apply gradual_Ok in E1 as [_ E1]. apply observe_Ok in E3 as [-> _].
  assert (w_fs w2 = w_fs w1) as ->.
  { destruct chmod; [by apply observe_Ok in E2 as [-> _] | unfold ret in E2; congruence]. }
  injection E1 as <-. unfold append_to. rewrite Ht. apply lookup_insert_eq.
Qed.

Lemma plain_not_temp dir prefix name :
  has_prefix prefix name = false -> ~ temp_name dir prefix (dir ++ [name]).
Proof.
  intros Hn [r Hr]. apply app_inv_head in Hr. simplify_eq.
  apply not_true_iff_false in Hn. apply Hn, has_prefix_true. by eexists.
Qed.

(** Whatever fails and wherever the machine stops, the target of the pattern
    holds what it held before or the new content; it holds the new content when
    the call succeeds, and the old one when the call reports an error. *)
Lemma replace_file_atomic chmod tidy dir prefix name s w r w' :
  has_prefix prefix name = false ->
  replace_file chmod tidy dir prefix (dir ++ [name]) s w = (r, w') ->
  let p := dir ++ [name] in
  (r = Ok tt /\ w_fs w' !! p = Some (File s)) \/
  (exists e, r = Err e /\ (w_fs w' !! p = w_fs w !! p \/
                          (w_up w' = false /\ w_fs w' !! p = Some (File s)))).
Proof.
  intros Hname H p. unfold replace_file in H. unfold bind at 1 in H.
  destruct (CreateTemp dir prefix w) as [[tmp|e] w1] eqn:E1.
  2:{ simplify_eq. right. exists e. split; [done|]. left.
      change w' with (snd (@Err errno path e, w')). rewrite <-E1.
      apply touches_CreateTemp. by apply plain_not_temp. }
  apply CreateTemp_Ok in E1 as (Hfresh & Htemp & Hfs1).
  assert (p <> tmp) as Hne by (intros <-; by apply (plain_not_temp _ _ _ Hname) in Htemp).
  assert (w_fs w1 !! p = w_fs w !! p) as Hp1 by (by rewrite Hfs1, lookup_insert_ne).
  unfold bind at 1 in H.
  pose proof (touches_fill_temp chmod tmp s w1 p (not_eq_sym Hne)) as Hp2.
  destruct (fill_temp chmod tmp s w1) as [[[]|e] w2] eqn:E2; simpl in Hp2.
  2:{ simplify_eq. right. exists e. split; [done|]. left. congruence. }
  apply fill_temp_Ok in E2; [|by rewrite Hfs1, lookup_insert_eq].
  unfold bind at 1, attempt in H. fold p in H.
  destruct (Rename tmp p w2) as [[[]|e] w3] eqn:E3; simpl in H.
  - left. unfold ret in H. simplify_eq. split; [done|].
    apply atomic_Ok in E3 as [_ E3]. go_inv E3.
    rewrite (rename_file _ _ _ _ _ E E2). apply lookup_insert_eq.
  - apply atomic_Err in E3. right. exists e.
    assert (r = Err e /\ w_fs w' !! p = w_fs w3 !! p /\ (w_up w3 = false -> w_up w' = false))
      as (-> & Hp & Hup).
    { destruct tidy; [|unfold fail in H; by simplify_eq].
      unfold bind, ignore, fail in H. simplify_eq. split_and!; [done| |].
      - by apply touches_Remove, not_eq_sym.
      - intros Hd. unfold Remove. by rewrite atomic_down. }
    split; [done|]. rewrite Hp. destruct E3 as [->|(Hd & [] & E3)]; [left; congruence|].
    right. split; [auto|]. go_inv E3.
    rewrite (rename_file _ _ _ _ _ E E2). apply lookup_insert_eq.
Qed.

(** The pattern writes its target and temporary names only. *)
Lemma touches_replace_file chmod tidy dir prefix p s :
  touches (fun q => below p q = true \/ exists t, temp_name dir prefix t /\ below t q = true)
          (@replace_file X chmod tidy dir prefix p s).
Proof.
  intros w q Hq. unfold replace_file, bind at 1.
  pose proof (touches_CreateTemp dir prefix w q) as H1.
  destruct (CreateTemp dir prefix w) as [[tmp|e] w1] eqn:E1; simpl in *.
  2:{ apply H1. intros Ht. apply Hq. right. exists q. split; [done | apply below_refl]. }
  apply CreateTemp_Ok in E1 as (_ & Htemp & _).
  rewrite <-H1 by (intros Ht; apply Hq; right; exists q; split; [done | apply below_refl]).
  set (P := fun q => below p q = true \/ below tmp q = true).
  assert (~ P q) as HP by (intros [?|?]; apply Hq; eauto).
  eapply touches_elim; [|exact HP].
  footprint; (eapply touches_weaken;
    [first [apply touches_fill_temp | apply touches_Rename | apply touches_Remove]
    | intros q'; unfold P; first [intros <-; right; apply below_refl | tauto]]).
Qed.

(** *** Markers: one line, replaced atomically *)

Definition marker_line (s : string) : string := s +++ String (ascii_of_nat 10) "".
Definition write_marker (chmod : bool) (p : path) (s : string) : M X unit :=
  do! MkdirAll (parent p) ;; replace_file chmod false (parent p) ".tmp-" p (marker_line s).

Lemma parent_app d (x : string) : parent (d ++ [x]) = d.
Proof. apply removelast_last. Qed.

Lemma not_temp_word x r : has_prefix ".tmp-" x = false -> x <> ".tmp-" +++ r.
Proof.
  intros H ->. apply not_true_iff_false in H. apply H, has_prefix_true. by eexists.
Qed.

(** What a marker write can touch. *)
Lemma touches_write_marker chmod d name s :
  touches (fun q => below q d = true \/ below (d ++ [name]) q = true \/
             exists t, temp_name d ".tmp-" t /\ below t q = true) (write_marker chmod (d ++ [name]) s).
Proof.
  unfold write_marker. rewrite parent_app.
  footprint; (eapply touches_weaken; [first [apply touches_MkdirAll | apply touches_replace_file]|]);
    intros q; tauto.
Qed.

(** Writing a marker changes the marker and temporary names only. *)
Lemma write_marker_frame chmod d name s w x rest :
  x <> name -> has_prefix ".tmp-" x = false ->
  w_fs (snd (write_marker chmod (d ++ [name]) s w)) !! (d ++ x :: rest) = w_fs w !! (d ++ x :: rest).
Proof.
  intros Hne Hx. eapply touches_elim; [apply touches_write_marker|]. cbv beta.
  rewrite below_cat, below_ne_head by done. rewrite below_shorter by (rewrite length_app; simpl; lia).
  intros [?|[?|(t & [r ->] & Ht)]]; [done..|].
  rewrite below_cat, below_ne_head in Ht; [done|]. by apply not_eq_sym, not_temp_word.
Qed.

(** A marker write is all or nothing, at every failure and crash point. *)
Lemma write_marker_atomic chmod d name s w r w' :
  has_prefix ".tmp-" name = false ->
  write_marker chmod (d ++ [name]) s w = (r, w') ->
  let p := d ++ [name] in let new := Some (File (marker_line s)) in
  (r = Ok tt /\ w_fs w' !! p = new) \/
  (exists e, r = Err e /\ (w_fs w' !! p = w_fs w !! p \/ (w_up w' = false /\ w_fs w' !! p = new))).
Proof.
  intros Hn H p new. unfold write_marker in H. rewrite parent_app in H. unfold bind in H.
  assert (w_fs (snd (MkdirAll d w)) !! p = w_fs w !! p) as Hp.
  { eapply touches_elim; [apply touches_MkdirAll|]. simpl.
    by rewrite below_shorter by (unfold p; rewrite length_app; simpl; lia). }
  destruct (MkdirAll d w) as [[[]|e] w1]; simpl in Hp; [|simplify_eq; eauto 6].
  apply (replace_file_atomic _ _ _ _ _ _ _ _ _ Hn) in H. fold p new in H.
  by rewrite <-Hp.
Qed.

(** Stepping through a sequence that succeeded. *)
Lemma bind_Ok {A B} (c : M X A) (k : A -> M X B) w b w' :
  bind c k w = (Ok b, w') -> exists a w1, c w = (Ok a, w1) /\ k a w1 = (Ok b, w').
Proof. unfold bind. destruct (c w) as [[a|e] w1]; [eauto | done]. Qed.

Lemma mkdirs_Ok rest : forall pre f f', mkdirs pre rest f = Ok f' -> rest <> [] -> f' !! (pre ++ rest) = Some Dir.
Proof.
  induction rest as [|c rest IH]; intros pre f f' H Hne; [done|]. simpl in H.
  replace (pre ++ c :: rest) with ((pre ++ [c]) ++ rest) by (by rewrite <-app_assoc).
  destruct rest as [|c' rest].
  - rewrite app_nil_r. destruct (f !! (pre ++ [c])) as [[]|] eqn:E; simpl in H; simplify_eq; [done|].
    apply lookup_insert_eq.
  - destruct (f !! (pre ++ [c])) as [[]|] eqn:E; [done|by eapply IH|by eapply IH].
Qed.

Lemma MkdirAll_Ok p w u w' : MkdirAll p w = (Ok u, w') -> p <> [] -> w_fs w' !! p = Some Dir.
Proof. intros [_ H]%gradual_Ok Hp. go_inv H. by eapply (mkdirs_Ok p []). Qed.

Lemma MkdirAll_keeps p w q n : w_fs w !! q = Some n -> w_fs (snd (MkdirAll p w)) !! q = Some n.
Proof.
  intros Hq. unfold MkdirAll, gradual. destruct (w_up w); [|done]. simpl.
  assert (forall rest f', mkdirs [] rest (w_fs w) = Ok f' -> f' !! q = Some n) as Hm.
  { intros rest f' H. destruct (mkdirs_lookup _ _ _ _ q H) as [->|[E _]]; [done|congruence]. }
  destruct (next w); simpl; [destruct (mkdirs [] p (w_fs w)) eqn:E; simpl; eauto | |];
    (destruct (mkdirs [] (take _ _) _) eqn:E; simpl; eauto).
Qed.

(** The directory of a marker is there after it is written, and is never lost. *)
Lemma write_marker_dir chmod d name s w r w' :
  write_marker chmod (d ++ [name]) s w = (r, w') ->
  (w_fs w !! d = Some Dir -> w_fs w' !! d = Some Dir) /\ (r = Ok tt -> d <> [] -> w_fs w' !! d = Some Dir).
Proof.
  intros H. unfold write_marker in H. rewrite parent_app in H. unfold bind in H.
  pose proof (MkdirAll_keeps d w d Dir) as Hk. destruct (MkdirAll d w) as [[[]|e] w1] eqn:E1; simpl in Hk.
  2:{ simplify_eq. by split. }
  assert (w_fs w' !! d = w_fs w1 !! d) as ->.
  { change w' with (snd (r, w')). rewrite <-H. eapply touches_elim; [apply touches_replace_file|]. cbv beta.
    assert (forall x, below (d ++ [x]) d = false) as Hb by (intros; apply below_shorter; rewrite length_app; simpl; lia).
    intros [Hq|(t & [n ->] & Hq)]; by rewrite Hb in Hq. }
  split; [done|]. intros _. by apply (MkdirAll_Ok d w tt).
Qed.

(** A whole file written to a name. *)
Lemma Create_Write_Ok p s w u w1 u' w2 :
  Create p w = (Ok u, w1) -> Write p s w1 = (Ok u', w2) -> w_fs w2 !! p = Some (File s).
Proof.
  intros [_ H1]%atomic_Ok [_ H2]%gradual_Ok.
  assert (w_fs w1 !! p = Some (File "")) as Hp.
  { destruct (w_fs w !! p) as [[]|]; try done; destruct (is_dir _ _); try done; injection H1 as _ E;
      rewrite <-E; apply lookup_insert_eq. }
  injection H2 as _ E. rewrite <-E. unfold append_to. rewrite Hp. apply lookup_insert_eq.
Qed.

(** Stepping through the combinators. *)
Lemma bind_attempt {A B} (c : M X A) (k : result errno A -> M X B) w :
  bind (attempt c) k w = k (fst (c w)) (snd (c w)).
Proof. unfold bind, attempt. by destruct (c w). Qed.

Lemma bind_ignore {A B} (c : M X A) (k : unit -> M X B) w :
  bind (ignore c) k w = k tt (snd (c w)).
Proof. done. Qed.

Lemma touches_none {A} (c : M X A) w :
  touches (fun _ => False) c -> w_fs (snd (c w)) = w_fs w.
Proof. intros H. apply map_eq. intros q. apply H. tauto. Qed.
(** *** When nothing fails *)

Definition calm w : Prop := w_up w = true /\ w_oracle w = [].
Definition with_fs (f : fs) w : world X := mkWorld f (w_oracle w) (w_up w) (w_seed w) (w_ext w).

Lemma calm_with_fs f w : calm w -> calm (with_fs f w).
Proof. done. Qed.

Lemma with_fs_id w : with_fs (w_fs w) w = w.
Proof. by destruct w. Qed.

Lemma with_fs_twice f g w : with_fs f (with_fs g w) = with_fs f w.
Proof. done. Qed.

Lemma atomic_calm {A} (run : fs -> result errno (A * fs)) w : calm w ->
  atomic run w = match run (w_fs w) with
                 | Ok (a, f) => (Ok a, with_fs f w)
                 | Err e => (Err e, w)
                 end.
Proof.
  destruct w as [f or up sd x]. intros [Hu Ho]. simpl in Hu, Ho. subst.
  unfold atomic, next. simpl. by destruct (run f) as [[]|].
Qed.

Lemma gradual_calm {A} (run : fs -> result errno (A * fs)) part w : calm w ->
  gradual run part w = match run (w_fs w) with
                       | Ok (a, f) => (Ok a, with_fs f w)
                       | Err e => (Err e, w)
                       end.
Proof.
  destruct w as [f or up sd x]. intros [Hu Ho]. simpl in Hu, Ho. subst.
  unfold gradual, next. simpl. by destruct (run f) as [[]|].
Qed.

Lemma observe_calm {A} (run : fs -> result errno A) w : calm w ->
  observe run w = (run (w_fs w), w).
Proof.
  intros H. unfold observe. rewrite atomic_calm by done.
  destruct (run (w_fs w)); [by rewrite with_fs_id | done].
Qed.

Lemma ReadFile_calm p w : calm w ->
  ReadFile p w = (match w_fs w !! p with Some (File c) => Ok c | Some Dir => Err EISDIR | None => Err ENOENT end, w).
Proof. intros H. unfold ReadFile. by rewrite observe_calm. Qed.
Lemma ReadFile_file p w c : calm w -> w_fs w !! p = Some (File c) -> ReadFile p w = (Ok c, w).
Proof. intros Hc H. by rewrite ReadFile_calm, H. Qed.

(** Every ancestor of [p], and [p] itself, is a directory. *)
Definition dirs_ok (f : fs) (p : path) : Prop :=
  forall q, below q p = true -> q <> [] -> f !! q = Some Dir.

Lemma mkdirs_exist rest : forall pre f, dirs_ok f (pre ++ rest) -> mkdirs pre rest f = Ok f.
Proof.
  induction rest as [|c rest IH]; intros pre f H; simpl; [done|].
  replace (pre ++ c :: rest) with ((pre ++ [c]) ++ rest) in H by (by rewrite <-app_assoc).
  rewrite (H (pre ++ [c])); [by apply IH | apply below_app|]. by destruct pre.
Qed.

Lemma dirs_ok_is_dir f p : dirs_ok f p -> is_dir f p = true.
Proof.
  intros H. destruct p as [|c p]; [done|]. unfold is_dir.
  rewrite H; [by rewrite bool_decide_true | apply below_refl | done].
Qed.

Lemma MkdirAll_calm p w : calm w -> dirs_ok (w_fs w) p -> MkdirAll p w = (Ok tt, w).
Proof.
  intros Hc Hd. unfold MkdirAll. rewrite gradual_calm by done.
  rewrite mkdirs_exist by done. by rewrite with_fs_id.
Qed.

(** The temp-and-rename pattern then simply sets the file. *)
Lemma replace_file_calm chmod tidy dir prefix name s w :
  calm w -> dirs_ok (w_fs w) dir -> has_prefix prefix name = false ->
  w_fs w !! (dir ++ [prefix +++ format_uint (w_seed w)]) = None ->
  w_fs w !! (dir ++ [name]) <> Some Dir ->
  replace_file chmod tidy dir prefix (dir ++ [name]) s w =
  (Ok tt, with_fs (<[dir ++ [name] := File s]> (w_fs w)) w).
Proof.
  intros Hc Hd Hn Htmp Hp. set (tmp := dir ++ [prefix +++ format_uint (w_seed w)]) in *.
  assert (dir ++ [name] <> tmp) as Hne.
  { intros Heq. apply (plain_not_temp dir prefix name Hn). by eexists. }
  unfold replace_file, CreateTemp, bind at 1. rewrite atomic_calm by done.
  rewrite dirs_ok_is_dir by done. change max_tries with (S (Z.to_nat 9999)).
  cbn [negb first_free]. fold tmp. rewrite Htmp. set (f1 := <[tmp := File ""]> (w_fs w)).
  assert (calm (with_fs f1 w)) as Hc1 by done.
  assert (fill_temp chmod tmp s (with_fs f1 w) = (Ok tt, with_fs (<[tmp := File s]> (w_fs w)) w)) as Hfill.
  { unfold fill_temp. rewrite bind_attempt. unfold Write at 1 2. rewrite gradual_calm by done.
    cbn [fst snd]. unfold append_to. simpl w_fs. unfold f1. rewrite lookup_insert_eq.
    rewrite insert_insert_eq, with_fs_twice. simpl String.append.
    set (w2 := with_fs (<[tmp:=File s]> (w_fs w)) w). assert (calm w2) by done.
    rewrite bind_attempt.
    replace ((if chmod then Chmod tmp else ret tt) w2) with (Ok (E:=errno) tt, w2)
      by (destruct chmod; [unfold Chmod; by rewrite observe_calm | done]).
    cbn [fst snd]. rewrite bind_attempt. unfold Close. by rewrite observe_calm. }
  unfold bind at 1. rewrite Hfill, bind_attempt. unfold Rename. rewrite atomic_calm by done.
  assert (rename tmp (dir ++ [name]) (<[tmp:=File s]> (w_fs w)) =
          Ok (<[dir ++ [name] := File s]> (w_fs w))) as Hren.
  { unfold rename. rewrite lookup_insert_eq, (lookup_insert_ne _ tmp) by done.
    rewrite bool_decide_false by done. unfold parent. rewrite removelast_last.
    rewrite dirs_ok_is_dir; simpl.
    - by rewrite delete_insert_id.
    - intros q Hq Hq0. rewrite lookup_insert_ne; [by apply Hd|]. intros <-.
      unfold tmp in Hq. rewrite <-(app_nil_r dir) in Hq at 2. by rewrite below_cat in Hq. }
  unfold with_fs; cbn [w_fs]. rewrite Hren. done.
Qed.
End Results.
End os.
