(* ===== verification/Json.v ===== *)
(** * The JSON interface ([encoding/json])

    Core decodes and encodes a fixed set of document types.  What it relies on is
    one operation pair per type and its round trip; [JSON] and [JSONLaws] state
    that contract, the components are proved against it, and [binary_JSON] shows
    every countable document type has an implementation that meets it. *)

From stdpp Require Import base list strings countable.
From Stdlib Require Import ZArith Lia Ascii.
From S2P Require Import Prelude.
From S2P Require Import GoStrings.

Local Infix "+++" := String.append (at level 60, right associativity).

Definition newline : string := String (ascii_of_nat 10) "".

Class JSON (T : Type) := {
  marshal : T -> string;             (* json.Marshal *)
  marshal_indent : T -> string;      (* json.MarshalIndent(_, "", "  ") *)
  unmarshal : string -> option T }.  (* json.Unmarshal, None on any error *)

(** Documented behaviour of the package: decoding an encoded value gives it back,
    and white space after the document is ignored.  The package replaces bytes that
    are not UTF-8, so the law is about values whose text is UTF-8: everything the
    agent encodes under it was decoded from JSON or protobuf, or is base64 or hex.
    It is not assumed for documents that carry raw JSON (see [Policy]). *)
Class JSONLaws (T : Type) `{!JSON T} : Prop := {
  unmarshal_marshal : forall x : T, unmarshal (marshal x) = Some x;
  unmarshal_indent : forall x : T, unmarshal (marshal_indent x) = Some x;
  unmarshal_indent_newline : forall x : T, unmarshal (marshal_indent x +++ newline) = Some x }.

#[export] Hint Rewrite @unmarshal_marshal @unmarshal_indent @unmarshal_indent_newline
  using (typeclasses eauto) : go_simp.

(** ** An implementation for every countable type *)

Fixpoint pos_str (p : positive) : string :=
  match p with
  | xH => ""
  | xO p' => String "0" (pos_str p')
  | xI p' => String "1" (pos_str p')
  end.

Fixpoint str_pos (s : string) : option positive :=
  match s with
  | EmptyString => Some xH
  | String c r =>
      if Ascii.eqb c "0" then xO <$> str_pos r
      else if Ascii.eqb c "1" then xI <$> str_pos r
      else if String.eqb (String c r) newline then Some xH
      else None
  end.

Lemma str_pos_str p : str_pos (pos_str p) = Some p.
Proof. induction p; simpl; [by rewrite IHp | by rewrite IHp | done]. Qed.

Lemma str_pos_newline p : str_pos (pos_str p +++ newline) = Some p.
Proof. induction p; simpl; [by rewrite IHp | by rewrite IHp | done]. Qed.

Definition binary_JSON (T : Type) `{Countable T} : JSON T := {|
  marshal x := pos_str (encode x);
  marshal_indent x := pos_str (encode x);
  unmarshal s := p ← str_pos s; decode p |}.

Lemma binary_JSONLaws (T : Type) `{Countable T} : @JSONLaws T (binary_JSON T).
Proof.
  split; intros x; simpl; rewrite ?str_pos_str, ?str_pos_newline; simpl;
    apply decode_encode.
Qed.
