(* ===== verification/Manifest.v ===== *)
(** * Module and channel manifests (sdk/manifest)

    The documents core gates launch and install decisions on: the module
    manifest and its [Validate], the channel manifest, its freshness and the
    lookups in it.  The decoders of the two document types are instances of the
    JSON interface; the RFC 3339 parser of [time.Parse] is a parameter. *)

From stdpp Require Import base list strings countable.
From Stdlib Require Import ZArith Lia Ascii.
From S2P Require Import Prelude.
From S2P Require Import GoStrings.
From S2P Require Import Paths.
From S2P Require Import Json.
Open Scope Z_scope.
Open Scope go_scope.

Local Infix "+++" := String.append (at level 60, right associativity).

Module manifest.

Definition PrivilegeSystem : string := "system".
Definition PrivilegeService : string := "service".
Definition PrivilegeUser : string := "user".
Definition SessionSystem : string := "system".
Definition SessionPerUserConsole : string := "per-user-console".
Definition SessionPerUserAll : string := "per-user-all".

(** [hvchannel.ControlModule], the reserved module id. *)
Definition ControlModule : string := "hvchannel".

Record Platform := mkPlatform { p_OS : string; p_Arch : string }.

Record Signing := mkSigning {
  AppleTeamID : string;
  AuthenticodeSubject : string;
  AuthenticodeThumbprint : string }.

Record Artifact := mkArtifact {
  a_OS : string; a_Arch : string; a_Digest : string; a_Size : Z }.

Record Manifest := mkManifest {
  m_Schema : Z;
  m_ID : string;
  m_Version : string;
  m_Protocol : Z;   (* uint32 *)
  m_Zone : string;
  m_Privilege : string;
  m_Session : string;
  m_Platforms : list Platform;
  m_Capabilities : list string;
  m_Subscribes : list string;
  m_Signing : option Signing;
  m_Artifacts : list Artifact }.

#[export] Instance Platform_eq_dec : EqDecision Platform.
Proof. solve_decision. Defined.
#[export] Instance Signing_eq_dec : EqDecision Signing.
Proof. solve_decision. Defined.
#[export] Instance Artifact_eq_dec : EqDecision Artifact.
Proof. solve_decision. Defined.
#[export] Instance Manifest_eq_dec : EqDecision Manifest.
Proof. solve_decision. Defined.
#[export] Instance Platform_countable : Countable Platform.
Proof.
  refine (inj_countable' (fun x => (p_OS x, p_Arch x)) (fun y => mkPlatform y.1 y.2) _). by intros [].
Defined.
#[export] Instance Signing_countable : Countable Signing.
Proof.
  refine (inj_countable' (fun x => (AppleTeamID x, AuthenticodeSubject x, AuthenticodeThumbprint x))
            (fun y => mkSigning y.1.1 y.1.2 y.2) _). by intros [].
Defined.
#[export] Instance Artifact_countable : Countable Artifact.
Proof.
  refine (inj_countable' (fun x => (a_OS x, a_Arch x, a_Digest x, a_Size x))
            (fun y => mkArtifact y.1.1.1 y.1.1.2 y.1.2 y.2) _). by intros [].
Defined.
#[export] Instance Manifest_countable : Countable Manifest.
Proof.
  refine (inj_countable' (fun x => ((m_Schema x, m_ID x, m_Version x, m_Protocol x, m_Zone x, m_Privilege x),
            (m_Session x, m_Platforms x, m_Capabilities x, m_Subscribes x, m_Signing x, m_Artifacts x)))
            (fun '((a, b, c, d, e, f), (g, h, i, j, k, l)) => mkManifest a b c d e f g h i j k l) _). by intros [].
Defined.

(** ** The three regular expressions *)

Definition is_lower (c : ascii) : bool := in_range "a" "z" c.
Definition is_upper (c : ascii) : bool := in_range "A" "Z" c.

(** [^[a-z][a-z0-9-]*$] *)
Definition idRe (s : string) : bool :=
  match s with
  | EmptyString => false
  | String c r => is_lower c && all_chars (fun d => is_lower d || is_digit d || Ascii.eqb d "-") r
  end.

(** One or more digits, then what follows them. *)
Fixpoint skip_digits (s : string) : string :=
  match s with
  | String c r => if is_digit c then skip_digits r else s
  | EmptyString => EmptyString
  end.
Definition digits_plus (s : string) : option string :=
  match s with
  | String c r => if is_digit c then Some (skip_digits r) else None
  | EmptyString => None
  end.

Definition prerelease_char (c : ascii) : bool :=
  is_digit c || is_upper c || is_lower c || Ascii.eqb c "." || Ascii.eqb c "-".

Definition expect (c : ascii) (s : string) : option string :=
  match s with
  | String d r => if Ascii.eqb d c then Some r else None
  | EmptyString => None
  end.

(** [^\d+\.\d+\.\d+(-[0-9A-Za-z.-]+)?$] *)
Definition versionRe (s : string) : bool :=
  match (r1 ← digits_plus s; r2 ← expect "." r1; r3 ← digits_plus r2;
         r4 ← expect "." r3; digits_plus r4) with
  | Some EmptyString => true
  | Some r => match expect "-" r with
              | Some (String c r') => all_chars prerelease_char (String c r')
              | _ => false
              end
  | None => false
  end.

(** [^sha256:[a-f0-9]{64}$] *)
Definition digestRe (s : string) : bool :=
  match cut_prefix "sha256:" s with
  | Some r => (String.length r =? 64)%nat &&
              all_chars (fun c => in_range "a" "f" c || is_digit c) r
  | None => false
  end.

Inductive error :=
| ErrDecode
| ErrReadFile
| ErrSchema (n : Z)
| ErrInvalidID (id : string)
| ErrReservedID (id : string)
| ErrInvalidVersion (v : string)
| ErrProtocolRange
| ErrZone (z : string)
| ErrPrivilege (p : string)
| ErrSession (s : string)
| ErrNoPlatform
| ErrOS (o : string)
| ErrArch (a : string)
| ErrDigest (d : string)
| ErrChannelHeader
| ErrChannelModuleID (id : string)
| ErrChannelModuleVersion (v id : string).

(** [osArch] *)
Definition osArch (o a : string) : result error unit :=
  if negb (String.eqb o "darwin" || String.eqb o "windows" || String.eqb o "linux")
  then Err (ErrOS o)
  else if negb (String.eqb a "arm64" || String.eqb a "amd64") then Err (ErrArch a)
  else Ok tt.

Fixpoint check_platforms (ps : list Platform) : result error unit :=
  match ps with
  | [] => Ok tt
  | p :: ps' => do? osArch (p_OS p) (p_Arch p) ;; check_platforms ps'
  end.

Fixpoint check_artifacts (l : list Artifact) : result error unit :=
  match l with
  | [] => Ok tt
  | a :: l' =>
      do? osArch (a_OS a) (a_Arch a) ;;
      do? guard (negb (digestRe (a_Digest a))) (ErrDigest (a_Digest a)) ;;
      check_artifacts l'
  end.

(** [Validate]: the [switch] in its order, then the two loops. *)
Definition Validate (m : Manifest) : result error unit :=
  do? guard (negb (m_Schema m =? 1)) (ErrSchema (m_Schema m)) ;;
  do? guard (negb (idRe (m_ID m))) (ErrInvalidID (m_ID m)) ;;
  do? guard (String.eqb (m_ID m) ControlModule) (ErrReservedID (m_ID m)) ;;
  do? guard (negb (versionRe (m_Version m))) (ErrInvalidVersion (m_Version m)) ;;
  do? guard (m_Protocol m <? 1) ErrProtocolRange ;;
  do? guard (negb (String.eqb (m_Zone m) "A") && negb (String.eqb (m_Zone m) "B") &&
             negb (String.eqb (m_Zone m) "C")) (ErrZone (m_Zone m)) ;;
  do? guard (negb (String.eqb (m_Privilege m) PrivilegeSystem) &&
             negb (String.eqb (m_Privilege m) PrivilegeService) &&
             negb (String.eqb (m_Privilege m) PrivilegeUser)) (ErrPrivilege (m_Privilege m)) ;;
  do? guard (negb (String.eqb (m_Session m) SessionSystem) &&
             negb (String.eqb (m_Session m) SessionPerUserConsole) &&
             negb (String.eqb (m_Session m) SessionPerUserAll)) (ErrSession (m_Session m)) ;;
  do? guard (length (m_Platforms m) =? 0)%nat ErrNoPlatform ;;
  do? check_platforms (m_Platforms m) ;;
  check_artifacts (m_Artifacts m).

(** [SupportsHost] *)
Definition SupportsHost (m : Manifest) (goos goarch : string) : bool :=
  existsb (fun p => String.eqb (p_OS p) goos && String.eqb (p_Arch p) goarch) (m_Platforms m).

(** ** The channel manifest *)

Record ProtocolWindow := mkProtocolWindow { pw_Min : Z; pw_Max : Z }.

Record ChannelArtifact := mkChannelArtifact {
  ca_OS : string; ca_Arch : string; ca_URL : string; ca_Digest : string; ca_Size : Z }.

Record ChannelModule := mkChannelModule {
  cm_ID : string;
  cm_Version : string;
  cm_Protocol : Z;
  cm_Privilege : string;
  cm_Session : string;
  cm_Capabilities : list string;
  cm_Subscribes : list string;
  cm_Signing : option Signing;
  cm_Artifacts : list ChannelArtifact }.

Record ChannelCore := mkChannelCore {
  cc_Version : string; cc_Artifacts : list ChannelArtifact }.

Record ChannelManifest := mkChannelManifest {
  c_Schema : Z;
  c_Channel : string;
  c_GeneratedAt : string;
  c_Sequence : Z;   (* uint64 *)
  c_Expires : string;
  c_Protocol : ProtocolWindow;
  c_Bindings : list (string * string);
  c_Core : ChannelCore;
  c_Modules : list ChannelModule }.

(** [Module(id)]: the first entry with that id. *)
Definition Module_ (c : ChannelManifest) (id : string) : option ChannelModule :=
  find_first (fun m => String.eqb (cm_ID m) id) (c_Modules c).

(** [ArtifactForHost] *)
Definition ArtifactForHost (goos goarch : string) (arts : list ChannelArtifact) :
    option ChannelArtifact :=
  find_first (fun a => String.eqb (ca_OS a) goos && String.eqb (ca_Arch a) goarch) arts.

(** [ModuleManifest]: the distribution subset as the manifest core consumes. *)
Definition ModuleManifest (cm : ChannelModule) (platforms : list Platform) : Manifest :=
  mkManifest 1 (cm_ID cm) (cm_Version cm) (cm_Protocol cm) "A" (cm_Privilege cm)
    (cm_Session cm) platforms (cm_Capabilities cm) (cm_Subscribes cm) (cm_Signing cm) [].

Fixpoint check_modules (ms : list ChannelModule) : result error unit :=
  match ms with
  | [] => Ok tt
  | m :: ms' =>
      do? guard (negb (idRe (cm_ID m))) (ErrChannelModuleID (cm_ID m)) ;;
      do? guard (negb (versionRe (cm_Version m))) (ErrChannelModuleVersion (cm_Version m) (cm_ID m)) ;;
      check_modules ms'
  end.

Section Decoding.
(** The decoders of the two document types, and [time.Parse(time.RFC3339, _)]
    as an instant in nanoseconds. *)
Context `{!JSON Manifest, !JSON ChannelManifest}.
Context (parse_rfc3339 : string -> option Z).

(** [Parse] *)
Definition Parse (data : string) : result error Manifest :=
  m <-? of_option ErrDecode (unmarshal data) ;;
  do? Validate m ;;
  Ok m.

(** [Load]: [content] is what reading the file gave. *)
Definition Load (content : option string) : result error Manifest :=
  data <-? of_option ErrReadFile content ;;
  Parse data.

(** [ParseChannel] *)
Definition ParseChannel (data : string) : result error ChannelManifest :=
  c <-? of_option ErrDecode (unmarshal data) ;;
  do? guard (negb (c_Schema c =? 1)) (ErrSchema (c_Schema c)) ;;
  do? guard (String.eqb (c_Channel c) "" || (pw_Min (c_Protocol c) =? 0) ||
             (pw_Max (c_Protocol c) <? pw_Min (c_Protocol c))) ErrChannelHeader ;;
  do? check_modules (c_Modules c) ;;
  Ok c.

(** [Expired(now)]: an unparseable expiry counts as expired. *)
Definition Expired (c : ChannelManifest) (now : Z) : bool :=
  if String.eqb (c_Expires c) "" then false
  else match parse_rfc3339 (c_Expires c) with
       | None => true
       | Some exp => exp <? now
       end.
End Decoding.

(** ** What a validated id and version look like *)

Lemma all_chars_impl (p q : ascii -> bool) s :
  (forall c, p c = true -> q c = true) -> all_chars p s = true -> all_chars q s = true.
Proof.
  intros Hpq. induction s as [|c s IH]; simpl; [done|].
  intros H. apply andb_true_iff in H as [H1 H2]. by rewrite Hpq, IH.
Qed.

Definition id_char (c : ascii) : bool := is_lower c || is_digit c || Ascii.eqb c "-".

Lemma idRe_chars s : idRe s = true -> all_chars id_char s = true.
Proof.
  destruct s as [|c r]; simpl; [done|]. intros H. apply andb_true_iff in H as [H1 H2].
  unfold id_char at 1. rewrite H1. simpl. done.
Qed.

Lemma skip_digits_chars s :
  all_chars prerelease_char (skip_digits s) = true -> all_chars prerelease_char s = true.
Proof.
  induction s as [|c s IH]; [done|]. cbn [skip_digits].
  destruct (is_digit c) eqn:E; [|done]. intros H. cbn [all_chars].
  rewrite IH by done. unfold prerelease_char at 1. by rewrite E.
Qed.

Lemma digits_plus_chars s r :
  digits_plus s = Some r -> all_chars prerelease_char r = true ->
  all_chars prerelease_char s = true.
Proof.
  destruct s as [|c s]; simpl; [done|]. destruct (is_digit c) eqn:E; [|done].
  intros H Hr. simplify_eq. rewrite skip_digits_chars by done.
  unfold prerelease_char at 1. by rewrite E.
Qed.

Lemma expect_chars c s r :
  prerelease_char c = true -> expect c s = Some r ->
  all_chars prerelease_char r = true -> all_chars prerelease_char s = true.
Proof.
  intros Hc. destruct s as [|d s]; simpl; [done|].
  destruct (Ascii.eqb_spec d c) as [->|]; [|done]. intros H Hr. simplify_eq.
  by rewrite Hc, Hr.
Qed.

Lemma versionRe_chars s :
  versionRe s = true ->
  all_chars prerelease_char s = true /\ exists c r, s = String c r /\ is_digit c = true.
Proof.
  unfold versionRe. intros H.
  destruct (digits_plus s) as [r1|] eqn:E1; [|done]. simpl mbind in H.
  destruct (expect "." r1) as [r2|] eqn:E2; [|done]. simpl mbind in H.
  destruct (digits_plus r2) as [r3|] eqn:E3; [|done]. simpl mbind in H.
  destruct (expect "." r3) as [r4|] eqn:E4; [|done]. simpl mbind in H.
  destruct (digits_plus r4) as [r5|] eqn:E5; [|done]. simpl mbind in H.
  assert (all_chars prerelease_char r5 = true) as Hr5.
  { destruct r5 as [|c r5]; [done|]. destruct (expect "-" _) as [[|d r6]|] eqn:E6; try done.
    eapply (expect_chars "-"); [done | exact E6 | done]. }
  split.
  - eapply digits_plus_chars; [done|]. eapply (expect_chars "."); [done | exact E2 |].
    eapply digits_plus_chars; [done|]. eapply (expect_chars "."); [done | exact E4 |].
    by eapply digits_plus_chars.
  - destruct s as [|c r]; [done|]. exists c, r. split; [done|].
    simpl in E1. by destruct (is_digit c).
Qed.

Lemma idRe_safe s : idRe s = true -> safe_component s.
Proof.
  intros H. pose proof (idRe_chars s H) as Hc.
  split_and!; try (by intros ->); by eapply all_chars_contains.
Qed.

Lemma idRe_no_dot s : idRe s = true -> contains "." s = false.
Proof. intros H. eapply all_chars_contains; [by apply idRe_chars | done]. Qed.

Lemma versionRe_safe s : versionRe s = true -> safe_component s.
Proof.
  intros H. destruct (versionRe_chars s H) as (Hc & c & r & -> & Hd).
  split_and!; try (by intros ?; simplify_eq); by eapply all_chars_contains.
Qed.

Lemma versionRe_trimmed s : versionRe s = true -> trimmed s.
Proof. intros H. apply versionRe_chars in H as [H _]. revert H. apply chars_trimmed; decide_now. Qed.

#[export] Hint Resolve idRe_safe versionRe_safe idRe_no_dot : go.

Lemma Validate_ids m :
  Validate m = Ok tt ->
  idRe (m_ID m) = true /\ versionRe (m_Version m) = true /\ m_ID m <> ControlModule.
Proof. unfold Validate. intros H. bind_inv H. by bool_to_prop. Qed.

Lemma check_modules_ids ms m :
  check_modules ms = Ok tt -> m ∈ ms ->
  idRe (cm_ID m) = true /\ versionRe (cm_Version m) = true.
Proof.
  induction ms as [|x ms IH]; simpl; intros H Hin; [by inversion Hin|].
  bind_inv H. bool_to_prop. apply elem_of_cons in Hin as [->|Hin]; eauto.
Qed.

(** Path safety of a validated manifest: its id and version are plain
    directory entry names, so the paths core builds from them (staging/id/version,
    modules/id/versions/version) stay inside the directory they are joined to,
    and the id is not the one reserved for the hypervisor channel. *)
Theorem Validate_path_safe m base :
  Validate m = Ok tt -> safe_path base ->
  m_ID m <> ControlModule /\
  Join base [m_ID m; m_Version m] = base ++ [m_ID m; m_Version m] /\
  Join base [m_ID m; "versions"; m_Version m] = base ++ [m_ID m; "versions"; m_Version m].
Proof.
  intros Hv Hb. destruct (Validate_ids m Hv) as (Hi & Hver & Hne).
  apply idRe_safe in Hi. apply versionRe_safe in Hver.
  assert (safe_component "versions") by (by split_and!).
  split; [done|]. split; apply Join_safe; try done; solve_Forall.
Qed.

Definition sysinfo_manifest : Manifest :=
  mkManifest 1 "sysinfo" "1.2.3-rc.1" 1 "A" "service" "system"
    [mkPlatform "linux" "amd64"] ["platform.osinfo"] [] None [].

Lemma Validate_path_safe_witness :
  Join ["var"; "staging"] [m_ID sysinfo_manifest; m_Version sysinfo_manifest]
    = ["var"; "staging"; "sysinfo"; "1.2.3-rc.1"].
Proof.
  apply (Validate_path_safe sysinfo_manifest ["var"; "staging"]); [reflexivity|].
  solve_Forall.
Defined.

(** A channel manifest core accepts carries only modules whose id and version
    are safe path components, whatever the signed document says. *)
Theorem ParseChannel_path_safe `{!JSON ChannelManifest} data c m :
  ParseChannel data = Ok c -> m ∈ c_Modules c ->
  safe_component (cm_ID m) /\ safe_component (cm_Version m) /\
  pw_Min (c_Protocol c) <> 0 /\ pw_Min (c_Protocol c) <= pw_Max (c_Protocol c).
Proof.
  unfold ParseChannel. intros H Hin. bind_inv H. simplify_eq.
  match goal with Hc : check_modules _ = Ok ?u |- _ => destruct u;
    destruct (check_modules_ids _ _ Hc Hin) as [H1 H2] end.
  bool_to_prop. split_and!; eauto with go.
Qed.

Definition sample_channel (ms : list ChannelModule) : ChannelManifest :=
  mkChannelManifest 1 "stable" "" 7 "" (mkProtocolWindow 1 1) [] (mkChannelCore "1.0.0" []) ms.
Definition sysinfo_entry : ChannelModule :=
  mkChannelModule "sysinfo" "1.2.3" 1 "service" "system" ["platform.osinfo"] [] None
    [mkChannelArtifact "linux" "amd64" "https://dl/sysinfo" "sha256:00" 4].

Lemma ParseChannel_path_safe_witness :
  safe_component "sysinfo" /\ safe_component "1.2.3" /\ 1 <> 0 /\ 1 <= 1.
Proof.
  set (c := sample_channel [sysinfo_entry]).
  pose (J := Build_JSON ChannelManifest (fun _ => "") (fun _ => "") (fun _ => Some c)).
  apply (ParseChannel_path_safe "" c sysinfo_entry); [reflexivity | left].
Defined.

(** A traversal id is refused before any path is built from it. *)
Example Validate_traversal :
  Validate (mkManifest 1 "../../etc" "1.0.0" 1 "A" "service" "system"
    [mkPlatform "linux" "amd64"] [] [] None []) = Err (ErrInvalidID "../../etc").
Proof. reflexivity. Qed.

End manifest.
