(* ===== verification/Base64.v ===== *)
(** * [encoding/base64] (StdEncoding) and [encoding/hex]

    Executable models of the two text codecs the key, signature and token files
    use, with their round trips.  [DecodeString] skips CR and LF, demands the
    padding, and refuses anything after it, as the standard decoder does. *)

From stdpp Require Import base list strings.
From Stdlib Require Import ZArith Lia Ascii.
From S2P Require Import Prelude.
From S2P Require Import GoStrings.
Open Scope Z_scope.

Local Infix "+++" := String.append (at level 60, right associativity).

Definition byte_val (c : ascii) : Z := Z.of_N (N_of_ascii c).
Definition byte_of (n : Z) : ascii := ascii_of_N (Z.to_N n).

Lemma byte_val_range c : 0 <= byte_val c < 256.
Proof. unfold byte_val. pose proof (N_ascii_bounded c). lia. Qed.

Lemma byte_of_val c : byte_of (byte_val c) = c.
Proof. unfold byte_of, byte_val. rewrite N2Z.id. apply ascii_N_embedding. Qed.

Lemma byte_val_of n : 0 <= n < 256 -> byte_val (byte_of n) = n.
Proof. intros H. unfold byte_of, byte_val. rewrite N_ascii_embedding by lia. lia. Qed.

Module base64.

(** The alphabet. *)
Definition enc_char (i : Z) : ascii :=
  if i <? 26 then byte_of (i + 65)
  else if i <? 52 then byte_of (i + 71)
  else if i <? 62 then byte_of (i - 4)
  else if i =? 62 then "+" else "/".

Definition dec_char (c : ascii) : option Z :=
  let v := byte_val c in
  if (65 <=? v) && (v <=? 90) then Some (v - 65)
  else if (97 <=? v) && (v <=? 122) then Some (v - 71)
  else if (48 <=? v) && (v <=? 57) then Some (v + 4)
  else if v =? 43 then Some 62
  else if v =? 47 then Some 63
  else None.

Definition pad : ascii := "=".

(** [StdEncoding.EncodeToString] *)
Fixpoint EncodeToString (s : string) : string :=
  match s with
  | EmptyString => ""
  | String a EmptyString =>
      let v := byte_val a * 65536 in
      String (enc_char (v / 262144)) (String (enc_char (v / 4096 mod 64)) (String pad (String pad "")))
  | String a (String b EmptyString) =>
      let v := byte_val a * 65536 + byte_val b * 256 in
      String (enc_char (v / 262144)) (String (enc_char (v / 4096 mod 64))
        (String (enc_char (v / 64 mod 64)) (String pad "")))
  | String a (String b (String c r)) =>
      let v := byte_val a * 65536 + byte_val b * 256 + byte_val c in
      String (enc_char (v / 262144)) (String (enc_char (v / 4096 mod 64))
        (String (enc_char (v / 64 mod 64)) (String (enc_char (v mod 64)) (EncodeToString r))))
  end.

(** The decoder skips line breaks wherever they stand. *)
Fixpoint drop_newlines (s : string) : string :=
  match s with
  | EmptyString => ""
  | String c r => if (byte_val c =? 10) || (byte_val c =? 13) then drop_newlines r
                  else String c (drop_newlines r)
  end.

Definition is_pad (c : ascii) : bool := Ascii.eqb c pad.

(** One quantum of four characters at a time; only the last may be padded. *)
Fixpoint decode_quanta (s : string) : option string :=
  match s with
  | EmptyString => Some ""
  | String c0 (String c1 (String c2 (String c3 r))) =>
      match dec_char c0, dec_char c1 with
      | Some d0, Some d1 =>
          match dec_char c2, dec_char c3 with
          | Some d2, Some d3 =>
              let v := d0 * 262144 + d1 * 4096 + d2 * 64 + d3 in
              match decode_quanta r with
              | Some t => Some (String (byte_of (v / 65536))
                            (String (byte_of (v / 256 mod 256)) (String (byte_of (v mod 256)) t)))
              | None => None
              end
          | Some d2, None =>
              let v := d0 * 262144 + d1 * 4096 + d2 * 64 in
              if is_pad c3 && String.eqb r "" then
                Some (String (byte_of (v / 65536)) (String (byte_of (v / 256 mod 256)) ""))
              else None
          | None, _ =>
              let v := d0 * 262144 + d1 * 4096 in
              if is_pad c2 && is_pad c3 && String.eqb r "" then
                Some (String (byte_of (v / 65536)) "")
              else None
          end
      | _, _ => None
      end
  | _ => None
  end.

(** [StdEncoding.DecodeString] *)
Definition DecodeString (s : string) : option string := decode_quanta (drop_newlines s).

(** ** Round trip *)

Lemma index_cases (P : Z -> bool) :
  forallb P (Z.of_nat <$> seq 0 64) = true -> forall i, 0 <= i < 64 -> P i = true.
Proof.
  intros H i Hi. rewrite forallb_forall in H. apply H.
  apply list_elem_of_In, list_elem_of_fmap. exists (Z.to_nat i).
  split; [lia | apply elem_of_seq; lia].
Qed.

Lemma dec_enc_char i : 0 <= i < 64 -> dec_char (enc_char i) = Some i.
Proof.
  intros Hi. apply (bool_decide_eq_true (dec_char (enc_char i) = Some i)).
  revert i Hi. apply (index_cases (fun i => bool_decide (dec_char (enc_char i) = Some i))).
  vm_compute. reflexivity.
Qed.

Lemma enc_char_not_newline i :
  0 <= i < 64 -> (byte_val (enc_char i) =? 10) || (byte_val (enc_char i) =? 13) = false.
Proof.
  intros Hi. apply negb_true_iff. revert i Hi.
  apply (index_cases (fun i =>
    negb ((byte_val (enc_char i) =? 10) || (byte_val (enc_char i) =? 13)))).
  vm_compute. reflexivity.
Qed.

(** Induction three bytes at a time, as the encoder recurses. *)
Lemma string_ind3 (P : string -> Prop) :
  P "" -> (forall a, P (String a "")) -> (forall a b, P (String a (String b ""))) ->
  (forall a b c r, P r -> P (String a (String b (String c r)))) -> forall s, P s.
Proof.
  intros H0 H1 H2 H3. fix IH 1.
  intros [|a [|b [|c r]]]; [done | done | done | apply H3, IH].
Qed.

Ltac div_bounds :=
  repeat match goal with
  | |- context [byte_val ?c] =>
      lazymatch goal with
      | _ : 0 <= byte_val c < 256 |- _ => fail
      | _ => pose proof (byte_val_range c)
      end
  end.

Lemma drop_newlines_encode s : drop_newlines (EncodeToString s) = EncodeToString s.
Proof.
  induction s as [|a|a c|a c d r IH] using string_ind3; [done|..];
    cbn [EncodeToString drop_newlines]; div_bounds;
    rewrite !enc_char_not_newline by (Z.to_euclidean_division_equations; lia);
    try rewrite IH; reflexivity.
Qed.

Lemma byte_of_eq n c : n = byte_val c -> byte_of n = c.
Proof. intros ->. apply byte_of_val. Qed.

Lemma DecodeString_Encode s : DecodeString (EncodeToString s) = Some s.
Proof.
  unfold DecodeString. rewrite drop_newlines_encode.
  induction s as [|a|a c|a c d r IH] using string_ind3; [done|..];
    cbn [EncodeToString decode_quanta]; div_bounds;
    rewrite !dec_enc_char by (Z.to_euclidean_division_equations; lia).
  - change (dec_char pad) with (@None Z). simpl. do 2 f_equal.
    apply byte_of_eq. Z.to_euclidean_division_equations; lia.
  - change (dec_char pad) with (@None Z). simpl.
    do 2 f_equal; [|f_equal]; apply byte_of_eq; Z.to_euclidean_division_equations; lia.
  - rewrite IH. do 2 f_equal; [|f_equal; [|f_equal]];
      apply byte_of_eq; Z.to_euclidean_division_equations; lia.
Qed.

End base64.

(** [hex.EncodeToString] *)
Definition hex_digit (n : Z) : ascii := if n <? 10 then byte_of (n + 48) else byte_of (n + 87).
Fixpoint hex_encode (s : string) : string :=
  match s with
  | EmptyString => ""
  | String c r => String (hex_digit (byte_val c / 16)) (String (hex_digit (byte_val c mod 16)) (hex_encode r))
  end.

Lemma hex_encode_length s : String.length (hex_encode s) = (2 * String.length s)%nat.
Proof. induction s as [|c s IH]; simpl; [done|]. rewrite IH. lia. Qed.
