(* ===== verification/Signing.v ===== *)
(** * The channel-manifest signing chain

    The document formats (sdk/manifest/sig.go), core's two-tier verifier
    (internal/manifestverify) and the tool that mints the chain
    (cmd/weavemanifest).  Ed25519 and the JSON codec are parameters with the
    documented behaviour as named hypotheses; base64 is the executable model of
    Base64.v. *)

From stdpp Require Import base list strings gmap.
From Stdlib Require Import ZArith Lia Ascii.
From S2P Require Import Prelude.
From S2P Require Import GoStrings.
From S2P Require Import Manifest.
From S2P Require Import Base64.
From S2P Require Import Json.
Open Scope Z_scope.
Open Scope go_scope.

Local Infix "+++" := String.append (at level 60, right associativity).

Module signing.

Lemma base64_roundtrip s : base64.DecodeString (base64.EncodeToString s) = Some s.
Proof. apply base64.DecodeString_Encode. Qed.

Definition EndorseContext : string := "weave-endorse-v1".
Definition ManifestContext : string := "weave-manifest-v1".
Definition NUL : ascii := ascii_of_nat 0.

(** [SigningMessage]: context, a NUL byte, the exact file bytes. *)
Definition SigningMessage (context data : string) : string :=
  context +++ String NUL data.

Record PublicKey := mkPublicKey { pk_Schema : Z; pk_KeyID : string; pk_PublicKey : string }.
Record Signature := mkSignature { sg_Schema : Z; sg_KeyID : string; sg_Signature : string }.
Record privateKeyFile := mkPrivateKeyFile {
  pf_Schema : Z; pf_KeyID : string; pf_PrivateKey : string }.

Inductive error :=
| ErrJSON
| ErrSchemaOrKeyID
| ErrKeyBytes
| ErrSignatureBytes
| ErrEndorsement (e : error)
| ErrNotRoot (keyid : string)
| ErrEndorsementInvalid
| ErrSigningKey (e : error)
| ErrManifestSignature (e : error)
| ErrKeyMismatch (sig key : string)
| ErrManifestSigInvalid
| ErrManifest (e : manifest.error)
| ErrUsage
| ErrRead (path : string)
| ErrWrite (path : string)
| ErrGenerate
| ErrPrivateKey (path : string)
| ErrAtPath (path : string) (e : error).

(** What a signed channel manifest travels with. *)
Record Bundle := mkBundle {
  b_Manifest : string; b_ManifestSig : string;
  b_SigningKey : string; b_SigningKeySig : string }.

Section Chain.
Context `{!JSON PublicKey, !JSON Signature, !JSON manifest.ChannelManifest}.
Context (ed_verify : string -> string -> string -> bool).

Definition ParsePublicKey (data : string) : result error (PublicKey * string) :=
  pk <-? of_option ErrJSON (unmarshal data) ;;
  do? guard (negb (pk_Schema pk =? 1) || String.eqb (pk_KeyID pk) "") ErrSchemaOrKeyID ;;
  raw <-? of_option ErrKeyBytes (base64.DecodeString (pk_PublicKey pk)) ;;
  do? guard (negb (String.length raw =? 32)%nat) ErrKeyBytes ;;
  Ok (pk, raw).

Definition ParseSignature (data : string) : result error (Signature * string) :=
  sg <-? of_option ErrJSON (unmarshal data) ;;
  do? guard (negb (sg_Schema sg =? 1) || String.eqb (sg_KeyID sg) "") ErrSchemaOrKeyID ;;
  raw <-? of_option ErrSignatureBytes (base64.DecodeString (sg_Signature sg)) ;;
  do? guard (negb (String.length raw =? 64)%nat) ErrSignatureBytes ;;
  Ok (sg, raw).

(** [manifestverify.Verify]: the chain, then and only then the payload. *)
Definition Verify (rootPub : string) (b : Bundle) : result error manifest.ChannelManifest :=
  en <-? rmap_err ErrEndorsement (ParseSignature (b_SigningKeySig b)) ;;
  do? guard (negb (String.eqb (sg_KeyID (fst en)) "root")) (ErrNotRoot (sg_KeyID (fst en))) ;;
  do? guard (negb (ed_verify rootPub (SigningMessage EndorseContext (b_SigningKey b)) (snd en)))
        ErrEndorsementInvalid ;;
  key <-? rmap_err ErrSigningKey (ParsePublicKey (b_SigningKey b)) ;;
  sg <-? rmap_err ErrManifestSignature (ParseSignature (b_ManifestSig b)) ;;
  do? guard (negb (String.eqb (sg_KeyID (fst sg)) (pk_KeyID (fst key))))
        (ErrKeyMismatch (sg_KeyID (fst sg)) (pk_KeyID (fst key))) ;;
  do? guard (negb (ed_verify (snd key) (SigningMessage ManifestContext (b_Manifest b)) (snd sg)))
        ErrManifestSigInvalid ;;
  rmap_err ErrManifest (manifest.ParseChannel (b_Manifest b)).
End Chain.

(** ** cmd/weavemanifest, over a directory of files *)

Section Tool.
Context `{!JSON PublicKey, !JSON Signature, !JSON privateKeyFile,
          !JSON manifest.ChannelManifest}.
Context (ed_verify : string -> string -> string -> bool).
Context (ed_sign : string -> string -> string).
(** Whether [os.WriteFile] on a path succeeds. *)
Context (write_ok : string -> bool).

Notation files := (gmap string string).

Definition readFile (fs : files) (p : string) : result error string :=
  of_option (ErrRead p) (fs !! p).

(** [writeJSON]: the indented document and a line break. *)
Definition writeJSON (fs : files) (p doc : string) : result error files :=
  if write_ok p then Ok (<[p := doc +++ newline]> fs) else Err (ErrWrite p).

(** [keygen]; [gen] is what [ed25519.GenerateKey] returned. *)
Definition keygen (args : list string) (gen : option (string * string)) (fs : files) :
    result error files :=
  match args with
  | [id; prefix] =>
      kp <-? of_option ErrGenerate gen ;;
      fs1 <-? writeJSON fs (prefix +++ ".pub")
               (marshal_indent (mkPublicKey 1 id (base64.EncodeToString (fst kp)))) ;;
      writeJSON fs1 (prefix +++ ".key")
        (marshal_indent (mkPrivateKeyFile 1 id (base64.EncodeToString (snd kp))))
  | _ => Err ErrUsage
  end.

Definition readPrivate (fs : files) (p : string) : result error (string * string) :=
  data <-? readFile fs p ;;
  pk <-? of_option ErrJSON (unmarshal data) ;;
  raw <-? of_option (ErrPrivateKey p) (base64.DecodeString (pf_PrivateKey pk)) ;;
  do? guard (negb (String.length raw =? 64)%nat) (ErrPrivateKey p) ;;
  Ok (raw, pf_KeyID pk).

(** [signFile]: [endorse] only selects the domain-separation context. *)
Definition signFile (args : list string) (endorse : bool) (fs : files) : result error files :=
  match args with
  | [keyPath; file] =>
      k <-? readPrivate fs keyPath ;;
      data <-? readFile fs file ;;
      let context := if endorse then EndorseContext else ManifestContext in
      let sg := ed_sign (fst k) (SigningMessage context data) in
      writeJSON fs (file +++ ".sig")
        (marshal_indent (mkSignature 1 (snd k) (base64.EncodeToString sg)))
  | _ => Err ErrUsage
  end.

(** [verify]: read the four files, decide nothing, call core's verifier. *)
Definition verify (args : list string) (fs : files) : result error manifest.ChannelManifest :=
  match args with
  | [rootPath; signPath; file] =>
      rootData <-? readFile fs rootPath ;;
      root <-? rmap_err (ErrAtPath rootPath) (ParsePublicKey rootData) ;;
      sk <-? readFile fs signPath ;;
      sks <-? readFile fs (signPath +++ ".sig") ;;
      mf <-? readFile fs file ;;
      ms <-? readFile fs (file +++ ".sig") ;;
      Verify ed_verify (snd root)
        (mkBundle mf ms sk sks)
  | _ => Err ErrUsage
  end.
End Tool.

(** ** Domain separation *)

Lemma SigningMessage_inj c1 c2 d1 d2 :
  contains NUL c1 = false -> contains NUL c2 = false ->
  SigningMessage c1 d1 = SigningMessage c2 d2 -> c1 = c2 /\ d1 = d2.
Proof. apply sapp_sep_inj. Qed.

(** ** Soundness of the verifier *)

Section Soundness.
Context `{!JSON PublicKey, !JSON Signature, !JSON manifest.ChannelManifest}.
Context (ed_verify : string -> string -> string -> bool).

(** What each private key was ever asked to sign: (context, data) pairs. *)
Context (signed : string -> list (string * string)).

(** Ed25519 is unforgeable: a signature that verifies under a key was made
    with that key, over a message built from a NUL-free context. *)
Definition unforgeable : Prop := forall k m s,
  ed_verify k m s = true ->
  exists ctx d, (ctx, d) ∈ signed k /\ contains NUL ctx = false /\ m = SigningMessage ctx d.

Lemma unforgeable_role k c d s :
  unforgeable -> contains NUL c = false ->
  ed_verify k (SigningMessage c d) s = true -> (c, d) ∈ signed k.
Proof.
  intros Hu Hc Hv. destruct (Hu _ _ _ Hv) as (ctx & d' & Hin & Hn & Heq).
  apply SigningMessage_inj in Heq as [-> ->]; done.
Qed.

(** C9. No manifest is trusted unless the root key endorsed, in the endorsement
    role, exactly the signing-key file of the bundle, and that signing key
    signed, in the manifest role, exactly the manifest bytes core then parses.
    A signature obtained in one role cannot stand in for the other. *)
Theorem Verify_sound rootPub b c :
  unforgeable ->
  Verify ed_verify rootPub b = Ok c ->
  (EndorseContext, b_SigningKey b) ∈ signed rootPub /\
  (exists pk raw, ParsePublicKey (b_SigningKey b) = Ok (pk, raw) /\
     (ManifestContext, b_Manifest b) ∈ signed raw) /\
  manifest.ParseChannel (b_Manifest b) = Ok c.
Proof.
  intros Hu H. unfold Verify in H. bind_inv H.
  destruct (ParsePublicKey (b_SigningKey b)) as [[pk raw]|] eqn:Ek; simplify_eq/=.
  destruct (manifest.ParseChannel (b_Manifest b)) eqn:Ec; simplify_eq/=.
  bool_to_prop.
  split; [|split]; [ | exists pk, raw; split; [done|] | done];
    (eapply unforgeable_role; [done | done | eassumption]).
Qed.
End Soundness.

(** ** Minting and verifying: the tool's output is what core accepts *)

Section Mint.
Context `{!JSON PublicKey, !JSON Signature, !JSON privateKeyFile,
          !JSON manifest.ChannelManifest}.
Context `{!JSONLaws PublicKey, !JSONLaws Signature, !JSONLaws privateKeyFile}.
Context (ed_verify : string -> string -> string -> bool).
Context (ed_sign : string -> string -> string).

(** A key pair [ed25519.GenerateKey] can return: the documented sizes, and
    every signature made with the private half verifies under the public one. *)
Definition keypair (pub priv : string) : Prop :=
  String.length pub = 32%nat /\ String.length priv = 64%nat /\
  forall m, String.length (ed_sign priv m) = 64%nat /\ ed_verify pub m (ed_sign priv m) = true.

Lemma ParsePublicKey_written id raw :
  id <> "" -> String.length raw = 32%nat ->
  let pk := mkPublicKey 1 id (base64.EncodeToString raw) in
  ParsePublicKey (marshal_indent pk +++ newline) = Ok (pk, raw).
Proof.
  intros Hid Hlen pk. unfold ParsePublicKey. autorewrite with go_simp. simpl.
  destruct (String.eqb_spec id ""); [done|]. simpl.
  rewrite base64_roundtrip. simpl. by rewrite Hlen.
Qed.

Lemma ParseSignature_written id raw :
  id <> "" -> String.length raw = 64%nat ->
  let sg := mkSignature 1 id (base64.EncodeToString raw) in
  ParseSignature (marshal_indent sg +++ newline) = Ok (sg, raw).
Proof.
  intros Hid Hlen sg. unfold ParseSignature. autorewrite with go_simp. simpl.
  destruct (String.eqb_spec id ""); [done|]. simpl.
  rewrite base64_roundtrip. simpl. by rewrite Hlen.
Qed.

Lemma readPrivate_written fs p id raw :
  String.length raw = 64%nat ->
  fs !! p = Some (marshal_indent (mkPrivateKeyFile 1 id (base64.EncodeToString raw)) +++ newline) ->
  readPrivate fs p = Ok (raw, id).
Proof.
  intros Hlen Hp. unfold readPrivate, readFile. rewrite Hp. simpl.
  autorewrite with go_simp. simpl. rewrite base64_roundtrip. simpl. by rewrite Hlen.
Qed.

(** The four files of a chain minted with the tool. *)
Definition minted (fs : gmap string string) (rp sp f kid : string) (rootP rootS signP signS data : string) : Prop :=
  let sk := marshal_indent (mkPublicKey 1 kid (base64.EncodeToString signP)) +++ newline in
  fs !! (rp +++ ".pub") =
    Some (marshal_indent (mkPublicKey 1 "root" (base64.EncodeToString rootP)) +++ newline) /\
  fs !! (sp +++ ".pub") = Some sk /\
  fs !! ((sp +++ ".pub") +++ ".sig") =
    Some (marshal_indent (mkSignature 1 "root"
      (base64.EncodeToString (ed_sign rootS (SigningMessage EndorseContext sk)))) +++ newline) /\
  fs !! f = Some data /\
  fs !! (f +++ ".sig") =
    Some (marshal_indent (mkSignature 1 kid
      (base64.EncodeToString (ed_sign signS (SigningMessage ManifestContext data)))) +++ newline).

Lemma verify_minted fs rp sp f kid rootP rootS signP signS data :
  kid <> "" -> keypair rootP rootS -> keypair signP signS ->
  minted fs rp sp f kid rootP rootS signP signS data ->
  verify ed_verify [rp +++ ".pub"; sp +++ ".pub"; f] fs =
    rmap_err ErrManifest (manifest.ParseChannel data).
Proof.
  intros Hkid (HrP & HrS & HrV) (HsP & HsS & HsV) (H1 & H2 & H3 & H4 & H5).
  unfold verify, readFile. rewrite H1, H2, H3, H4, H5. simpl of_option. simpl rbind.
  rewrite ParsePublicKey_written by done. simpl. unfold Verify. simpl.
  destruct (HrV (SigningMessage EndorseContext
    (marshal_indent (mkPublicKey 1 kid (base64.EncodeToString signP)) +++ newline))) as [HrL HrK].
  destruct (HsV (SigningMessage ManifestContext data)) as [HsL HsK].
  rewrite ParseSignature_written by done. simpl. rewrite HrK. simpl.
  rewrite ParsePublicKey_written by done. simpl.
  rewrite ParseSignature_written by done. simpl.
  rewrite String.eqb_refl. simpl. rewrite HsK. done.
Qed.

(** The names the four commands write and read do not collide. *)
Definition distinct_names (rp sp f : string) : Prop :=
  NoDup [rp +++ ".pub"; rp +++ ".key"; sp +++ ".pub"; sp +++ ".key";
         (sp +++ ".pub") +++ ".sig"; f; f +++ ".sig"].

(** The tool and core agree: generating a root and a signing key,
    endorsing the signing key, signing a channel manifest and verifying it
    gives exactly core's verdict on the manifest bytes. *)
Theorem weavemanifest_chain fs rp sp f kid rootP rootS signP signS data :
  distinct_names rp sp f -> kid <> "" ->
  keypair rootP rootS -> keypair signP signS ->
  fs !! f = Some data ->
  exists fs1 fs2 fs3 fs4,
    keygen (fun _ => true) ["root"; rp] (Some (rootP, rootS)) fs = Ok fs1 /\
    keygen (fun _ => true) [kid; sp] (Some (signP, signS)) fs1 = Ok fs2 /\
    signFile ed_sign (fun _ => true) [rp +++ ".key"; sp +++ ".pub"] true fs2 = Ok fs3 /\
    signFile ed_sign (fun _ => true) [sp +++ ".key"; f] false fs3 = Ok fs4 /\
    verify ed_verify [rp +++ ".pub"; sp +++ ".pub"; f] fs4 =
      rmap_err ErrManifest (manifest.ParseChannel data).
Proof.
  intros Hd Hkid HkR HkS Hf.
  unfold distinct_names in Hd. rewrite !NoDup_cons, !not_elem_of_cons in Hd.
  destruct_and! Hd.
  pose proof HkR as (_ & HrS & _). pose proof HkS as (_ & HsS & _).
  eexists _, _, _, _. split; [reflexivity|]. split; [reflexivity|]. split; [|split].
  - unfold signFile.
    rewrite (readPrivate_written _ _ "root" rootS) by (done || by simplify_map_eq).
    unfold readFile. simplify_map_eq. reflexivity.
  - unfold signFile.
    rewrite (readPrivate_written _ _ kid signS) by (done || by simplify_map_eq).
    unfold readFile. simplify_map_eq. reflexivity.
  - apply (verify_minted _ rp sp f kid rootP rootS signP signS data Hkid HkR HkS).
    split_and!; by simplify_map_eq.
Qed.
End Mint.

(** ** Witnesses: a concrete codec and a toy signature scheme *)

#[global] Instance PublicKey_eq_dec : EqDecision PublicKey.
Proof. solve_decision. Defined.
#[global] Instance Signature_eq_dec : EqDecision Signature.
Proof. solve_decision. Defined.
#[global] Instance privateKeyFile_eq_dec : EqDecision privateKeyFile.
Proof. solve_decision. Defined.
#[global] Instance PublicKey_countable : Countable PublicKey.
Proof.
  refine (inj_countable' (fun k => (pk_Schema k, pk_KeyID k, pk_PublicKey k))
    (fun '(a, c, d) => mkPublicKey a c d) _). by intros [].
Defined.
#[global] Instance Signature_countable : Countable Signature.
Proof.
  refine (inj_countable' (fun k => (sg_Schema k, sg_KeyID k, sg_Signature k))
    (fun '(a, c, d) => mkSignature a c d) _). by intros [].
Defined.
#[global] Instance privateKeyFile_countable : Countable privateKeyFile.
Proof.
  refine (inj_countable' (fun k => (pf_Schema k, pf_KeyID k, pf_PrivateKey k))
    (fun '(a, c, d) => mkPrivateKeyFile a c d) _). by intros [].
Defined.

(** A toy scheme: the public key is the first half of the private one and a
    signature repeats it followed by a checksum of the message. *)
Fixpoint checksum (s : string) : Z :=
  match s with EmptyString => 0 | String c r => (byte_val c + 2 * checksum r) mod 256 end.
Definition toy_tag (pub m : string) : string :=
  pub +++ repeat_char 32 (byte_of (checksum m)).
Definition toy_sign (priv m : string) : string := toy_tag (String.substring 0 32 priv) m.
Definition toy_verify (pub m s : string) : bool := String.eqb s (toy_tag pub m).

Lemma toy_keypair c :
  keypair toy_verify toy_sign (repeat_char 32 c) (repeat_char 64 c).
Proof.
  split; [done|]. split; [done|]. intros m.
  assert (toy_sign (repeat_char 64 c) m = toy_tag (repeat_char 32 c) m) as -> by reflexivity.
  split; [done|]. apply String.eqb_refl.
Qed.

Definition const_JSON {T} (x : T) : JSON T :=
  Build_JSON T (fun _ => "") (fun _ => "") (fun _ => Some x).

Lemma weavemanifest_chain_witness :
  let J := const_JSON (manifest.sample_channel []) in
  exists fs1 fs2 fs3 fs4,
    @keygen (binary_JSON _) (binary_JSON _) (fun _ => true) ["root"; "r"]
      (Some (repeat_char 32 "r", repeat_char 64 "r")) {["m" := "doc"]} = Ok fs1 /\
    @keygen (binary_JSON _) (binary_JSON _) (fun _ => true) ["k"; "s"]
      (Some (repeat_char 32 "s", repeat_char 64 "s")) fs1 = Ok fs2 /\
    @signFile (binary_JSON _) (binary_JSON _) toy_sign (fun _ => true) ["r.key"; "s.pub"] true fs2 = Ok fs3 /\
    @signFile (binary_JSON _) (binary_JSON _) toy_sign (fun _ => true) ["s.key"; "m"] false fs3 = Ok fs4 /\
    @verify (binary_JSON _) (binary_JSON _) J toy_verify ["r.pub"; "s.pub"; "m"] fs4 =
      Ok (manifest.sample_channel []).
Proof.
  intros J.
  apply (@weavemanifest_chain (binary_JSON _) (binary_JSON _) (binary_JSON _) J
           (binary_JSONLaws _) (binary_JSONLaws _) (binary_JSONLaws _) toy_verify toy_sign
           {["m" := "doc"]} "r" "s" "m" "k" (repeat_char 32 "r") (repeat_char 64 "r")
           (repeat_char 32 "s") (repeat_char 64 "s") "doc").
  - unfold distinct_names. decide_now.
  - done.
  - apply toy_keypair.
  - apply toy_keypair.
  - reflexivity.
Defined.

(** An ideal scheme: exactly the logged messages verify. *)
Definition logged_verify (log : string -> list (string * string)) (k m s : string) : bool :=
  existsb (fun e => negb (contains NUL (fst e)) && String.eqb m (SigningMessage (fst e) (snd e))) (log k).

Lemma logged_unforgeable log : unforgeable (logged_verify log) log.
Proof.
  intros k m s H. unfold logged_verify in H. apply existsb_exists in H as ((c & d) & Hin & Heq).
  bool_to_prop. exists c, d. by rewrite list_elem_of_In.
Qed.

Definition demo_key : string := repeat_char 32 "s".
Definition demo_log (k : string) : list (string * string) :=
  if String.eqb k "root-key" then [(EndorseContext, "signing.pub")]
  else if String.eqb k demo_key then [(ManifestContext, "manifest.json")] else [].
Definition demo_pk_JSON : JSON PublicKey :=
  const_JSON (mkPublicKey 1 "k1" (base64.EncodeToString demo_key)).
Definition demo_sig_JSON : JSON Signature := Build_JSON Signature (fun _ => "") (fun _ => "")
  (fun s => Some (mkSignature 1 (if String.eqb s "endorsement" then "root" else "k1")
                    (base64.EncodeToString (repeat_char 64 "x")))).

Lemma Verify_sound_witness :
  (EndorseContext, "signing.pub") ∈ demo_log "root-key" /\
  (exists pk raw, @ParsePublicKey demo_pk_JSON "signing.pub" = Ok (pk, raw) /\
     (ManifestContext, "manifest.json") ∈ demo_log raw) /\
  @manifest.ParseChannel (const_JSON (manifest.sample_channel [])) "manifest.json" =
    Ok (manifest.sample_channel []).
Proof.
  apply (@Verify_sound demo_pk_JSON demo_sig_JSON (const_JSON (manifest.sample_channel []))
           (logged_verify demo_log) demo_log "root-key"
           (mkBundle "manifest.json" "manifest.sig" "signing.pub" "endorsement")).
  - apply logged_unforgeable.
  - reflexivity.
Defined.

End signing.
