(* ===== verification/Verifier.v ===== *)
(** * Module verification before exec (internal/verify)

    [NewChannel] anchors verification to a signed channel manifest, the Linux
    release verifier rests on root ownership, the macOS one on codesign; the
    staged-core verifier of release builds refuses everything.  The file system
    (contents and ownership), SHA-256 and the codesign tool are parameters. *)

From stdpp Require Import base list strings gmap.
From Stdlib Require Import ZArith Lia Ascii.
From S2P Require Import Prelude.
From S2P Require Import GoStrings.
From S2P Require Import Manifest.
From S2P Require Import Base64.
From S2P Require Import Json.
From S2P Require Import Signing.
Open Scope Z_scope.
Open Scope go_scope.

Local Infix "+++" := String.append (at level 60, right associativity).

Module verify.
Import manifest.

Inductive error :=
| ErrChannel (e : signing.error)
| ErrNoManifest (path : string)
| ErrNotInChannel (id : string)
| ErrVersion (id onDisk signed : string)
| ErrGrantPrivilege (id : string)
| ErrGrantSession (id : string)
| ErrGrantProtocol (id : string)
| ErrGrantCapability (id cap : string)
| ErrNoArtifact (id : string)
| ErrOpen (path : string)
| ErrDigestMismatch (path got want : string)
| ErrNoRootPath
| ErrReadRoot (path : string)
| ErrRootKey (e : signing.error)
| ErrNotRootKey (path keyid : string)
| ErrBundleFile (name : string)
| ErrStat (path : string)
| ErrOwner (path : string) (uid : Z)
| ErrMode (path : string) (mode : Z)
| ErrNoTeam (id : string)
| ErrMalformedTeam (id : string)
| ErrCodesign (path : string)
| ErrNoTeamIdentifier
| ErrTeamMismatch (path : string)
| ErrCoreNotProvisioned (path : string).

(** [supervise.Verifier]: a path and the manifest beside it (nil is [None]). *)
Definition Verifier : Type := string -> option Manifest -> result error unit.

(** [notGranted]: the first wanted element the channel did not sign. *)
Definition notGranted (want granted : list string) : option string :=
  find_first (fun w => negb (existsb (String.eqb w) granted)) want.

(** [matchesSignedGrants]; an empty-string capability reads as nothing missing,
    as the Go string result does. *)
Definition matchesSignedGrants (onDisk : Manifest) (entry : ChannelModule) : result error unit :=
  do? guard (negb (String.eqb (m_Privilege onDisk) (cm_Privilege entry))) (ErrGrantPrivilege (m_ID onDisk)) ;;
  do? guard (negb (String.eqb (m_Session onDisk) (cm_Session entry))) (ErrGrantSession (m_ID onDisk)) ;;
  do? guard (negb (m_Protocol onDisk =? cm_Protocol entry)) (ErrGrantProtocol (m_ID onDisk)) ;;
  let extra := default "" (notGranted (m_Capabilities onDisk) (cm_Capabilities entry)) in
  guard (negb (String.eqb extra "")) (ErrGrantCapability (m_ID onDisk) extra).

(** [artifactFor] *)
Definition artifactFor (entry : ChannelModule) (goos goarch : string) : option ChannelArtifact :=
  find_first (fun a => String.eqb (ca_OS a) goos && String.eqb (ca_Arch a) goarch) (cm_Artifacts entry).

(** The [signed] map of [NewChannel]: a later entry replaces an earlier one. *)
Definition signed_map (ms : list ChannelModule) : gmap string ChannelModule :=
  fold_left (fun acc m => <[cm_ID m := m]> acc) ms ∅.

Section Channel.
Context `{!JSON signing.PublicKey, !JSON signing.Signature, !JSON ChannelManifest}.
Context (ed_verify : string -> string -> string -> bool).
Context (sha256 : string -> string).
(** [os.Open]/[os.ReadFile]: the contents of a path, if it can be read. *)
Context (read : string -> option string).
Context (goos goarch : string).

(** [digestMatches] *)
Definition digestMatches (path want : string) : result error unit :=
  content <-? of_option (ErrOpen path) (read path) ;;
  let got := "sha256:" +++ hex_encode (sha256 content) in
  guard (negb (String.eqb got want)) (ErrDigestMismatch path got want).

(** The closure [NewChannel] returns, for a verified channel. *)
Definition channel_verifier (channel : ChannelManifest) : Verifier := fun path onDisk =>
  m <-? of_option (ErrNoManifest path) onDisk ;;
  entry <-? of_option (ErrNotInChannel (m_ID m)) (signed_map (c_Modules channel) !! m_ID m) ;;
  do? guard (negb (String.eqb (cm_Version entry) (m_Version m)))
        (ErrVersion (m_ID m) (m_Version m) (cm_Version entry)) ;;
  do? matchesSignedGrants m entry ;;
  artifact <-? of_option (ErrNoArtifact (m_ID m)) (artifactFor entry goos goarch) ;;
  digestMatches path (ca_Digest artifact).

Definition NewChannel (rootPub : string) (bundle : signing.Bundle) : result error Verifier :=
  channel <-? rmap_err ErrChannel (signing.Verify ed_verify rootPub bundle) ;;
  Ok (channel_verifier channel).

Definition channelManifestFile : string := "channel.json".
Definition channelSigFile : string := "channel.json.sig".
Definition signingKeyFile : string := "signing.pub".
Definition signingKeySigFile : string := "signing.pub.sig".

(** [NewChannelFromDir]: the offline bundle, read from the files as they are at the
    call ([read0]); the verifier it returns reads binaries when it is asked. *)
Definition NewChannelFromDir (read0 : string -> option string) (rootPubPath dir : string) : result error Verifier :=
  do? guard (String.eqb rootPubPath "") ErrNoRootPath ;;
  rootBytes <-? of_option (ErrReadRoot rootPubPath) (read0 rootPubPath) ;;
  root <-? rmap_err ErrRootKey (signing.ParsePublicKey rootBytes) ;;
  do? guard (negb (String.eqb (signing.pk_KeyID (fst root)) "root"))
        (ErrNotRootKey rootPubPath (signing.pk_KeyID (fst root))) ;;
  let part name := of_option (ErrBundleFile name) (read0 (dir +++ "/" +++ name)) in
  mf <-? part channelManifestFile ;;
  ms <-? part channelSigFile ;;
  sk <-? part signingKeyFile ;;
  sks <-? part signingKeySigFile ;;
  NewChannel (snd root) (signing.mkBundle mf ms sk sks).
End Channel.

(** ** Linux release builds: root ownership *)

Section Linux.
(** [os.Stat]: the owner and the permission bits. *)
Context (stat : string -> option (Z * Z)).
Context (dir_of : string -> string).   (* filepath.Dir *)

Definition rootOwnedAndUnwritable (path : string) : result error unit :=
  st <-? of_option (ErrStat path) (stat path) ;;
  do? guard (negb (fst st =? 0)) (ErrOwner path (fst st)) ;;
  guard (negb (Z.land (snd st) 18 =? 0)) (ErrMode path (snd st)).   (* 0o022 *)

Definition newVerifier_linux : Verifier := fun path _ =>
  do? rootOwnedAndUnwritable path ;;
  rootOwnedAndUnwritable (dir_of path).
End Linux.

(** ** macOS release builds: codesign *)

Definition teamIDRe (s : string) : bool :=
  (String.length s =? 10)%nat && all_chars (fun c => is_upper c || is_digit c) s.

(** [parseTeamIdentifier] over the lines of codesign's output. *)
Fixpoint team_of_lines (ls : list string) : result error string :=
  match ls with
  | [] => Err ErrNoTeamIdentifier
  | l :: ls' =>
      match cut_prefix "TeamIdentifier=" (trim_space l) with
      | Some v =>
          let v := trim_space v in
          if String.eqb v "" || String.eqb v "not set" then Err ErrNoTeamIdentifier else Ok v
      | None => team_of_lines ls'
      end
  end.
Definition parseTeamIdentifier (out : string) : result error string :=
  team_of_lines (split (ascii_of_nat 10) out).

Section Darwin.
(** [codesign --verify --strict=all -R req path] succeeds; the text of
    [codesign -d -vv path]. *)
Context (codesign_ok : string -> string -> bool).
Context (codesign_display : string -> option string).

Definition requirement (team : string) : string :=
  "anchor apple generic and certificate leaf[subject.OU] = " +++
  String (ascii_of_nat 34) (team +++ String (ascii_of_nat 34) "").

Definition codesignVerify : Verifier := fun path om =>
  m <-? of_option (ErrNoManifest path) om ;;
  sg <-? of_option (ErrNoTeam (m_ID m)) (m_Signing m) ;;
  do? guard (String.eqb (AppleTeamID sg) "") (ErrNoTeam (m_ID m)) ;;
  do? guard (negb (teamIDRe (AppleTeamID sg))) (ErrMalformedTeam (m_ID m)) ;;
  do? guard (negb (codesign_ok (requirement (AppleTeamID sg)) path)) (ErrCodesign path) ;;
  out <-? of_option (ErrCodesign path) (codesign_display path) ;;
  team <-? parseTeamIdentifier out ;;
  guard (negb (String.eqb team (AppleTeamID sg))) (ErrTeamMismatch path).
End Darwin.

(** [newVerifier] and [coreVerifier] of dev builds accept everything; the warning they
    log is left out. *)
Definition newVerifier_dev : Verifier := fun _ _ => Ok tt.
Definition coreVerifier_dev : string -> result error unit := fun _ => Ok tt.

(** [coreVerifier] in release builds: no core identity is provisioned yet. *)
Definition coreVerifier_release : string -> result error unit :=
  fun path => Err (ErrCoreNotProvisioned path).

(** ** Properties *)

Lemma signed_map_fold ms (acc : gmap string ChannelModule) id e :
  fold_left (fun (a : gmap string ChannelModule) m => <[cm_ID m := m]> a) ms acc !! id = Some e ->
  (e ∈ ms /\ cm_ID e = id) \/ acc !! id = Some e.
Proof.
  revert acc. induction ms as [|m ms IH]; intros acc H; simpl in H; [by right|].
  apply IH in H as [[Hin Hid]|H]; [left; split; [by right | done]|].
  destruct (decide (cm_ID m = id)) as [<-|Hne].
  - rewrite lookup_insert_eq in H. simplify_eq. left. split; [left | done].
  - rewrite lookup_insert_ne in H by done. by right.
Qed.

Lemma signed_map_Some ms id e :
  signed_map ms !! id = Some e -> e ∈ ms /\ cm_ID e = id.
Proof.
  intros H. apply signed_map_fold in H as [H|H]; [done|].
  by rewrite lookup_empty in H.
Qed.

Lemma notGranted_None want granted :
  notGranted want granted = None -> forall w, w ∈ want -> w ∈ granted.
Proof.
  unfold notGranted. rewrite find_first_None, Forall_forall. intros H w Hw.
  specialize (H w Hw). apply negb_false_iff, existsb_exists in H as (x & Hx & He).
  apply String.eqb_eq in He as ->. by apply list_elem_of_In.
Qed.

(** Every capability of the manifest is signed, the empty name apart. *)
Lemma matchesSignedGrants_Ok m e :
  matchesSignedGrants m e = Ok tt ->
  m_Privilege m = cm_Privilege e /\ m_Session m = cm_Session e /\
  m_Protocol m = cm_Protocol e /\
  (forall w, "" ∉ m_Capabilities m -> w ∈ m_Capabilities m -> w ∈ cm_Capabilities e).
Proof.
  unfold matchesSignedGrants. intros H. bind_inv H. apply guard_Ok in H.
  bool_to_prop. split_and!; [done..|]. intros w Hne Hw.
  destruct (notGranted (m_Capabilities m) (cm_Capabilities e)) as [x|] eqn:E.
  - simpl in H. subst x. apply find_first_Some in E as [? _]. done.
  - by eapply notGranted_None.
Qed.

Section Sound.
Context (sha256 : string -> string) (read : string -> option string) (goos goarch : string).


(** The event-bus allow-list is outside the verifier's checks: replacing
    the on-disk manifest's subscriptions by any other list changes no verdict. *)
Theorem channel_verifier_ignores_subscribes channel path m subs :
  channel_verifier sha256 read goos goarch channel path (Some m) =
  channel_verifier sha256 read goos goarch channel path
    (Some (mkManifest (m_Schema m) (m_ID m) (m_Version m) (m_Protocol m) (m_Zone m)
             (m_Privilege m) (m_Session m) (m_Platforms m) (m_Capabilities m) subs
             (m_Signing m) (m_Artifacts m))).
Proof. reflexivity. Qed.
End Sound.

(** What the offline bundle rests on: the key file the caller names, which must be a
    root key, and a bundle that verifies under it. *)
Lemma NewChannelFromDir_Ok `{!JSON signing.PublicKey, !JSON signing.Signature, !JSON ChannelManifest}
    ed_verify sha256 read goos goarch read0 rootPubPath dir v :
  NewChannelFromDir ed_verify sha256 read goos goarch read0 rootPubPath dir = Ok v ->
  rootPubPath <> "" /\ exists bytes key raw bundle channel,
    read0 rootPubPath = Some bytes /\ signing.ParsePublicKey bytes = Ok (key, raw) /\
    signing.pk_KeyID key = "root" /\ signing.Verify ed_verify raw bundle = Ok channel /\
    v = channel_verifier sha256 read goos goarch channel.
Proof.
  unfold NewChannelFromDir, NewChannel. intros H.
  destruct (String.eqb_spec rootPubPath "") as [->|Hne]; [done|]. cbn [guard rbind] in H. split; [done|].
  destruct (read0 rootPubPath) as [bytes|]; [|done]. cbn [of_option rbind] in H.
  destruct (signing.ParsePublicKey bytes) as [[key raw]|] eqn:Ek; [|done]. cbn [rmap_err rbind fst snd] in H.
  destruct (String.eqb_spec (signing.pk_KeyID key) "root") as [Hk|]; [|done]. cbn [negb guard rbind] in H.
  destruct (read0 (dir +++ "/" +++ channelManifestFile)) as [mf|]; [|done].
  destruct (read0 (dir +++ "/" +++ channelSigFile)) as [ms|]; [|done].
  destruct (read0 (dir +++ "/" +++ signingKeyFile)) as [sk|]; [|done].
  destruct (read0 (dir +++ "/" +++ signingKeySigFile)) as [sks|]; [|done]. cbn [of_option rbind] in H.
  destruct (signing.Verify _ _ _) as [channel|] eqn:Ev; [|done]. cbn [rmap_err rbind] in H. injection H as <-.
  by exists bytes, key, raw, (signing.mkBundle mf ms sk sks), channel.
Qed.

Definition const_sha : string -> string := fun _ => "".
Definition empty_digest_entry : ChannelModule :=
  mkChannelModule "sysinfo" "1.2.3-rc.1" 1 "service" "system" ["platform.osinfo"] [] None
    [mkChannelArtifact "linux" "amd64" "https://dl/sysinfo" "sha256:" 4].


Lemma land_022 mode : Z.land mode 18 = 0 -> Z.testbit mode 1 = false /\ Z.testbit mode 4 = false.
Proof.
  intros H. split.
  - apply (f_equal (fun z => Z.testbit z 1)) in H. rewrite Z.land_spec in H.
    change (Z.testbit 18 1) with true in H. by rewrite andb_true_r in H.
  - apply (f_equal (fun z => Z.testbit z 4)) in H. rewrite Z.land_spec in H.
    change (Z.testbit 18 4) with true in H. by rewrite andb_true_r in H.
Qed.

(** On Linux release builds an accepted binary and the directory holding it
    belong to root and have neither the group nor the world write bit. *)
Theorem newVerifier_linux_sound stat dir_of path om :
  newVerifier_linux stat dir_of path om = Ok tt ->
  forall p, p ∈ [path; dir_of path] -> exists mode, stat p = Some (0, mode) /\
    Z.testbit mode 1 = false /\ Z.testbit mode 4 = false.
Proof.
  assert (forall p u, rootOwnedAndUnwritable stat p = Ok u -> exists mode,
    stat p = Some (0, mode) /\ Z.testbit mode 1 = false /\ Z.testbit mode 4 = false) as Hone.
  { intros p u H. unfold rootOwnedAndUnwritable in H. bind_inv H. apply guard_Ok in H.
    destruct (stat p) as [[uid mode]|]; simplify_eq/=. bool_to_prop. simpl in *.
    subst. eauto using land_022. }
  unfold newVerifier_linux. intros H p Hp. bind_inv H.
  rewrite !elem_of_cons, elem_of_nil in Hp. destruct Hp as [->|[->|[]]]; eauto.
Qed.

Lemma newVerifier_linux_sound_witness :
  exists mode, (fun _ => Some (0, 493)) "/opt/m" = Some (0, mode) /\
    Z.testbit mode 1 = false /\ Z.testbit mode 4 = false.
Proof.
  apply (newVerifier_linux_sound (fun _ => Some (0, 493)) (fun _ => "/opt") "/opt/m" None eq_refl "/opt/m"). left.
Defined.

End verify.
