(* ===== verification/Weaveboot.v ===== *)
(** * The boot supervisor (internal/weaveboot)

    weaveboot owns the core process: it promotes a verified staged core, runs
    the current one, and reverts a core that crash-loops.  The operations are
    the code's own call sequences over [FileSystem]; what a core does while it
    runs (its exit, its uptime, its effect on the files) is the environment. *)

From stdpp Require Import base list strings gmap.
From Stdlib Require Import ZArith Lia Ascii.
From S2P Require Import Prelude.
From S2P Require Import GoStrings.
From S2P Require Import Paths.
From S2P Require Import FileSystem.
Import os.
Open Scope Z_scope.
Open Scope os_scope.

Local Infix "+++" := String.append (at level 60, right associativity).

Module weaveboot.

(** The processes started so far: version and binary. *)
Record started := mkStarted { st_Version : string; st_Bin : path }.
Notation W := (world (list started)).
Notation IO := (M (list started)).

Record Options := mkOptions {
  CoreDir : path;
  StableAfter : Z;            (* nanoseconds; zero gets 60 s *)
  RevertThreshold : Z;        (* zero gets 3 *)
  VerifyCore : option (path -> fs -> bool);   (* reads the binary it is given *)
  Windows : bool;             (* runtime.GOOS == "windows" *)
  Executable : option path }. (* os.Executable() *)

Definition stable (o : Options) : Z :=
  if StableAfter o =? 0 then 60 * 1000000000 else StableAfter o.
Definition threshold (o : Options) : Z :=
  if RevertThreshold o =? 0 then 3 else RevertThreshold o.

(** [higherSemver] on the split versions. *)
Fixpoint higher (a b : list string) : bool :=
  match a, b with
  | x :: a', y :: b' =>
      match atoi x, atoi y with
      | Some i, Some j => if negb (i =? j) then j <? i else higher a' b'
      | _, _ => if negb (String.eqb x y) then String.ltb y x else higher a' b'
      end
  | _ :: _, [] => true
  | [], _ => false
  end.
Definition higherSemver (a b : string) : bool := higher (split "." a) (split "." b).

Section Boot.
Context (o : Options).

Definition binaryName : string := if Windows o then "weave-agent.exe" else "weave-agent".
Definition stagingDir : path := Join (CoreDir o) ["staging"].
Definition marker (name : string) : path := Join (CoreDir o) [name].
Definition versionBin (v : string) : path := Join (CoreDir o) ["versions"; v; binaryName].

(** [writeStr] *)
Definition writeStr (p : path) (s : string) : IO unit :=
  do! MkdirAll (parent p) ;;
  replace_file false false (parent p) ".tmp-" p (s +++ String (ascii_of_nat 10) "").

(** [readMarker] *)
Definition readMarker (name : string) : IO string :=
  r <-! attempt (ReadFile (marker name)) ;;
  match r with Ok b => ret (trim_space b) | Err _ => ret "" end.

(** The loop of [promoteStaged] over the directory entries. *)
Fixpoint pick_best (entries : list (string * bool)) (best : string) : IO string :=
  match entries with
  | [] => ret best
  | (ver, isdir) :: es =>
      if negb isdir then pick_best es best
      else
        r <-! attempt (Stat (Join stagingDir [ver; binaryName])) ;;
        match r with
        | Err _ => pick_best es best
        | Ok _ => pick_best es (if String.eqb best "" || higherSemver ver best then ver else best)
        end
  end.

(** [o.VerifyCore(stagedBin)] on the files as they are. *)
Definition verify_now (verify : path -> fs -> bool) (p : path) : IO bool :=
  observe (fun f => Ok (verify p f)).

(** The end of [promoteStaged]: the markers, and the rest of the staging area. *)
Definition flip_current (best old : string) : IO unit :=
  r <-! attempt (writeStr (marker "current") best) ;;
  match r with
  | Err _ => ret tt
  | Ok _ =>
  do! (if negb (String.eqb old "") && negb (String.eqb old best)
       then ignore (writeStr (marker "previous") old) else ret tt) ;;
  ignore (RemoveAll stagingDir)
  end.

(** The second half of [promoteStaged]: [best] has passed verification. *)
Definition promote_verified (best : string) : IO unit :=
  let src := Join stagingDir [best] in
  let dst := Join (CoreDir o) ["versions"; best] in
  r <-! attempt (MkdirAll (parent dst)) ;;
  match r with
  | Err _ => ret tt
  | Ok _ =>
  do! ignore (RemoveAll dst) ;;
  r <-! attempt (Rename src dst) ;;
  match r with
  | Err _ => ret tt
  | Ok _ =>
  old <-! readMarker "current" ;;
  flip_current best old
  end end.

(** [promoteStaged] *)
Definition promoteStaged : IO unit :=
  r <-! attempt (ReadDir stagingDir) ;;
  match r with
  | Err _ | Ok [] => ret tt
  | Ok entries =>
  best <-! pick_best entries "" ;;
  if String.eqb best "" then ret tt
  else match VerifyCore o with
  | None => ret tt
  | Some verify =>
  r <-! attempt (verify_now verify (Join stagingDir [best; binaryName])) ;;
  match r with
  | Ok true => promote_verified best
  | _ => ignore (RemoveAll (Join stagingDir [best]))
  end
  end end.

(** [revert]: [Some v] when current was flipped back to [v]. *)
Definition revert (badVersion : string) : IO (option string) :=
  v <-! readMarker "previous" ;;
  if String.eqb v "" || String.eqb v badVersion then ret None
  else
  r <-! attempt (Stat (versionBin v)) ;;
  match r with
  | Err _ => ret None
  | Ok _ =>
  r <-! attempt (writeStr (marker "current") v) ;;
  match r with
  | Err _ => ret None
  | Ok _ =>
  do! ignore (writeStr (marker "previous") badVersion) ;;
  ret (Some v)
  end end.

(** [currentBinary] *)
Definition currentBinary : IO (string * path) :=
  r <-! attempt (ReadFile (marker "current")) ;;
  match r with
  | Ok cur =>
      let v := trim_space cur in
      r <-! attempt (Stat (versionBin v)) ;;
      match r with
      | Ok _ => ret (v, versionBin v)
      | Err _ => fail (EMsg "current version has no binary")
      end
  | Err _ =>
      match Executable o with
      | None => fail (EMsg "no executable")
      | Some self =>
          let bin := Join (parent self) [binaryName] in
          r <-! attempt (Stat bin) ;;
          match r with
          | Ok _ => ret ("unversioned", bin)
          | Err _ => fail (EMsg "no versioned core and none beside weaveboot")
          end
      end
  end.

(** [markerFresh] *)
Definition markerFresh (p : path) : IO bool :=
  r <-! attempt (Stat p) ;;
  match r with Ok _ => ret true | Err _ => ret false end.

(** One run of core as the environment plays it: whether the context is already
    done, what core does to the files, how long it lives, whether the context
    ended meanwhile, and whether it ends during the back-off. *)
Record run := mkRun {
  ctx_done : bool; effect : fs -> fs; uptime : Z; done_after : bool; done_waiting : bool }.

(** [runOnce]: the process is started and works on the files until it exits. *)
Definition runOnce (e : run) (v : string) (bin : path) : IO unit :=
  do! upd_ext (fun t => t ++ [mkStarted v bin]) ;;
  fun w => (Ok tt, mkWorld (effect e (w_fs w)) (w_oracle w) (w_up w) (w_seed w) (w_ext w)).

(** How the loop ended: [Run] returned, or the played runs are used up and it
    goes on with this crash count. *)
Inductive stop := Returned (err : option errno) | Running (crashes : Z).

Definition readyFile : path := marker "ready".

(** The body of the loop of [Run] after the context check. *)
Definition iterate (e : run) (crashes : Z) : IO stop :=
  do! promoteStaged ;;
  r <-! attempt currentBinary ;;
  match r with
  | Err err => ret (Returned (Some err))
  | Ok (version, bin) =>
  do! ignore (Remove readyFile) ;;
  do! runOnce e version bin ;;
  if done_after e then ret (Returned None)
  else
  becameReady <-! markerFresh readyFile ;;
  if becameReady || (stable o <=? uptime e) then ret (Running 0)
  else
  let crashes := crashes + 1 in
  if threshold o <=? crashes then
    r <-! revert version ;;
    match r with
    | Some _ => ret (Running 0)
    | None => ret (if done_waiting e then Returned None else Running 0)
    end
  else ret (if done_waiting e then Returned None else Running crashes)
  end.

Fixpoint loop (envs : list run) (crashes : Z) : IO stop :=
  match envs with
  | [] => ret (Running crashes)
  | e :: es =>
      if ctx_done e then ret (Returned None)
      else
      s <-! iterate e crashes ;;
      match s with
      | Running c => loop es c
      | Returned _ => ret s
      end
  end.

(** [Run] *)
Definition Run (envs : list run) : IO stop :=
  r <-! attempt (MkdirAll (CoreDir o)) ;;
  match r with
  | Err e => ret (Returned (Some e))
  | Ok _ => loop envs 0
  end.
End Boot.

(** ** Properties *)

Section Paths.
Context (o : Options).
Hypothesis Hcore : safe_path (CoreDir o).

Lemma binaryName_safe : safe_component (binaryName o).
Proof. unfold binaryName. destruct (Windows o); by repeat split. Qed.

Lemma marker_path name : safe_component name -> marker o name = CoreDir o ++ [name].
Proof. intros H. apply Join_safe; [done | safe_list]. Qed.

Lemma stagingDir_path : stagingDir o = CoreDir o ++ ["staging"].
Proof. apply Join_safe; [done | safe_list]. Qed.

Lemma versionBin_path v : safe_component v ->
  versionBin o v = CoreDir o ++ ["versions"; v; binaryName o].
Proof.
  intros H. pose proof binaryName_safe. apply Join_safe; [done | safe_list].
Qed.

Lemma versionDir_path v : safe_component v ->
  Join (CoreDir o) ["versions"; v] = CoreDir o ++ ["versions"; v].
Proof. intros H. apply Join_safe; [done | safe_list]. Qed.

Lemma staged_path l : safe_path l -> Join (stagingDir o) l = CoreDir o ++ "staging" :: l.
Proof.
  intros H. rewrite stagingDir_path, Join_safe; [by rewrite <-app_assoc| |done].
  apply Forall_app. split; [done | safe_list].
Qed.
End Paths.

(** *** Marker files *)

Section Markers.
Implicit Types (d : path) (w : W).

Lemma writeStr_frame d name s w x rest :
  x <> name -> has_prefix ".tmp-" x = false ->
  w_fs (snd (writeStr (d ++ [name]) s w)) !! (d ++ x :: rest) = w_fs w !! (d ++ x :: rest).
Proof. apply (write_marker_frame false). Qed.

Lemma writeStr_atomic d name s w r w' :
  has_prefix ".tmp-" name = false ->
  writeStr (d ++ [name]) s w = (r, w') ->
  let p := d ++ [name] in let new := Some (File (s +++ String (ascii_of_nat 10) "")) in
  (r = Ok tt /\ w_fs w' !! p = new) \/
  (exists e, r = Err e /\ (w_fs w' !! p = w_fs w !! p \/ (w_up w' = false /\ w_fs w' !! p = new))).
Proof. apply (write_marker_atomic false). Qed.

Lemma readMarker_fs o name w : w_fs (snd (readMarker o name w)) = w_fs w.
Proof. apply touches_none. unfold readMarker. footprint. Qed.

Lemma readMarker_spec o name w : exists v w1,
  readMarker o name w = (Ok v, w1) /\ w_fs w1 = w_fs w /\
  (v = "" \/ exists content, w_fs w !! marker o name = Some (File content) /\ v = trim_space content).
Proof.
  pose proof (readMarker_fs o name w) as Hfs. unfold readMarker in *.
  rewrite bind_attempt in *. destruct (ReadFile (marker o name) w) as [[b|e] w1] eqn:E; simpl in *.
  - exists (trim_space b), w1. split_and!; [done..|]. right. exists b.
    apply observe_Ok in E as [_ E]. by go_inv E.
  - exists "", w1. auto.
Qed.

Lemma Stat_fs (p : path) w r w' : Stat p w = (r, w') ->
  w_fs w' = w_fs w /\ forall b, r = Ok b -> is_dir (w_fs w) p = true \/ is_Some (w_fs w !! p).
Proof.
  intros H. split.
  - pose proof (touches_none _ w (touches_Stat _ p)) as Hfs. by rewrite H in Hfs.
  - intros b ->. apply observe_Ok in H as [_ H].
    destruct (is_dir (w_fs w) p); [by left|]. right. by destruct (w_fs w !! p).
Qed.
End Markers.

(** *** Promotion *)

Section Promote.
Context (o : Options).
Hypothesis Hcore : safe_path (CoreDir o).
Implicit Types w : W.

Notation current := (CoreDir o ++ ["current"]).
Notation staged best := (CoreDir o ++ ["staging"; best]).
Notation installed best := (CoreDir o ++ ["versions"; best]).

(** A path under [CoreDir] that the end of the promotion leaves alone. *)
Lemma flip_tail_frame best old w x rest :
  x <> "previous" -> x <> "staging" -> has_prefix ".tmp-" x = false ->
  w_fs (snd ((do! (if negb (String.eqb old "") && negb (String.eqb old best)
                   then ignore (writeStr (marker o "previous") old) else ret tt) ;;
              ignore (RemoveAll (stagingDir o))) w)) !! (CoreDir o ++ x :: rest)
  = w_fs w !! (CoreDir o ++ x :: rest).
Proof.
  intros H1 H2 H3. rewrite marker_path, stagingDir_path by (done || safe_list).
  assert (forall w', w_fs (snd (RemoveAll (CoreDir o ++ ["staging"]) w')) !! (CoreDir o ++ x :: rest)
                     = w_fs w' !! (CoreDir o ++ x :: rest)) as Hrm.
  { intros w'. eapply touches_elim; [apply touches_RemoveAll|]. simpl.
    by rewrite below_cat, below_ne_head by done. }
  destruct (negb (String.eqb old "") && negb (String.eqb old best)).
  - rewrite bind_ignore. unfold ignore. simpl. rewrite Hrm. by apply writeStr_frame.
  - apply Hrm.
Qed.

Lemma flip_current_spec best old w :
  let w' := snd (flip_current o best old w) in
  w_fs w' !! current = w_fs w !! current \/
  (w_fs w' !! current = Some (File (best +++ String (ascii_of_nat 10) "")) /\
   forall rest, w_fs w' !! (CoreDir o ++ "versions" :: rest) = w_fs w !! (CoreDir o ++ "versions" :: rest)).
Proof.
  unfold flip_current. rewrite bind_attempt, (marker_path o Hcore "current") by safe_list.
  pose proof (fun rest => writeStr_frame (CoreDir o) "current" best w "versions" rest) as Hf.
  destruct (writeStr current best w) as [r w1] eqn:E. apply writeStr_atomic in E; [|done].
  simpl in *. destruct E as [[-> Hc]|(e & -> & [Hc|[_ Hc]])]; simpl.
  - right. split; [rewrite <-Hc|]; intros; rewrite flip_tail_frame by done; [done | by apply Hf].
  - by left.
  - right. split; [done|]. intros. by apply Hf.
Qed.

(** What [promote_verified] can do to the current marker, and what is then
    installed: the very binary that was staged. *)
Lemma promote_verified_spec best w :
  safe_component best -> w_fs w !! staged best = Some Dir ->
  let w' := snd (promote_verified o best w) in
  w_fs w' !! current = w_fs w !! current \/
  (w_fs w' !! current = Some (File (best +++ String (ascii_of_nat 10) "")) /\
   w_fs w' !! (installed best ++ [binaryName o]) = w_fs w !! (staged best ++ [binaryName o])).
Proof.
  intros Hb Hsrc. unfold promote_verified.
  rewrite versionDir_path, staged_path by (done || safe_list).
  replace (parent (installed best)) with (CoreDir o ++ ["versions"])
    by (by rewrite (app_assoc _ ["versions"] [best]), parent_app).
  rewrite bind_attempt.
  set (w1 := snd (MkdirAll (CoreDir o ++ ["versions"]) w)).
  assert (forall x rest, x <> "versions" ->
    w_fs w1 !! (CoreDir o ++ x :: rest) = w_fs w !! (CoreDir o ++ x :: rest)) as H1.
  { intros x rest Hx. eapply touches_elim; [apply touches_MkdirAll|]. simpl.
    by rewrite below_cat, below_ne_head. }
  destruct (fst _); [|left; by apply H1].
  rewrite bind_ignore, bind_attempt.
  set (w2 := snd (RemoveAll _ w1)).
  assert (forall x rest, x <> "versions" ->
    w_fs w2 !! (CoreDir o ++ x :: rest) = w_fs w !! (CoreDir o ++ x :: rest)) as H2.
  { intros x rest Hx. rewrite <-H1 by done. eapply touches_elim; [apply touches_RemoveAll|]. simpl.
    by rewrite below_cat, below_ne_head by done. }
  destruct (Rename (staged best) (installed best) w2) as [r3 w3] eqn:E3; simpl.
  assert (w_fs w3 !! current = w_fs w !! current) as Hc3.
  { rewrite <-H2 by done. change w3 with (snd (r3, w3)). rewrite <-E3.
    eapply touches_elim; [apply touches_Rename|]. simpl.
    rewrite !below_cat, !below_ne_head by done. by intros [?|?]. }
  destruct r3 as [[]|]; [|by left].
  apply atomic_Ok in E3 as [_ E3]. go_inv E3.
  assert (w_fs w2 !! staged best = Some Dir) as Hs2 by (by rewrite H2).
  destruct (rename_dir _ _ _ _ E Hs2) as (Hb1 & Hb2 & Hfs3).
  unfold bind. pose proof (readMarker_fs o "current" w3) as Hfs4.
  destruct (readMarker o "current" w3) as [[old|e] w4]; simpl in *; [|left; congruence].
  destruct (flip_current_spec best old w4) as [Hc|[Hc Hv]]; simpl in *; [left; congruence|].
  right. split; [done|]. rewrite <-app_assoc. simpl. rewrite Hv, Hfs4, Hfs3.
  rewrite move_tree_lookup by done.
  change ("versions" :: best :: [binaryName o]) with (["versions"; best] ++ [binaryName o]).
  rewrite app_assoc. unfold swap_below. rewrite below_disjoint, below_app, drop_app_length by done.
  rewrite <-app_assoc. by apply H2.
Qed.

(** The scan picks an entry that is a directory, and reads only. *)
Lemma pick_best_spec entries : forall best w, exists b w',
  pick_best o entries best w = (Ok b, w') /\ w_fs w' = w_fs w /\
  (b = best \/ (b, true) ∈ entries).
Proof.
  induction entries as [|[ver isdir] es IH]; intros best w; simpl; [by exists best, w; auto|].
  destruct isdir; simpl.
  - rewrite bind_attempt.
    pose proof (touches_none (Stat (Join (stagingDir o) [ver; binaryName o])) w
                  (touches_Stat _ _)) as Hfs.
    destruct (fst _).
    + edestruct (IH (if String.eqb best "" || higherSemver ver best then ver else best))
        as (b & w' & -> & Hw & Hb). exists b, w'. split_and!; [done | congruence|].
      rewrite elem_of_cons. destruct Hb as [->|Hb]; [|tauto]. destruct (_ || _); auto.
    + edestruct (IH best) as (b & w' & -> & Hw & Hb). exists b, w'.
      split_and!; [done | congruence|]. rewrite elem_of_cons. tauto.
  - edestruct (IH best) as (b & w' & -> & Hw & Hb). exists b, w'.
    split_and!; [done..|]. rewrite elem_of_cons. tauto.
Qed.

(** C5. Whatever fails and wherever the machine stops during a promotion, the
    current marker is either untouched or holds a complete staged version name;
    in the second case the configured verifier accepted that staged core, and
    the binary now installed under that version is the one it looked at. *)
Theorem promoteStaged_verified w r w' :
  safe_fs (w_fs w) -> promoteStaged o w = (r, w') ->
  w_fs w' !! current = w_fs w !! current \/
  exists best verify,
    VerifyCore o = Some verify /\
    verify (staged best ++ [binaryName o]) (w_fs w) = true /\
    w_fs w' !! current = Some (File (best +++ String (ascii_of_nat 10) "")) /\
    w_fs w' !! (installed best ++ [binaryName o]) = w_fs w !! (staged best ++ [binaryName o]).
Proof.
  intros Hsafe H. unfold promoteStaged in H. rewrite bind_attempt in H.
  pose proof (touches_none _ w (touches_ReadDir _ (stagingDir o))) as Hw1.
  destruct (ReadDir (stagingDir o) w) as [[[|e0 entries]|e] w1] eqn:E1; cbn [fst snd] in *;
    try (unfold ret in H; simplify_eq; left; by rewrite <-Hw1).
  apply observe_Ok in E1 as [_ Hdir]. go_inv Hdir.
  destruct (pick_best_spec (e0 :: entries) "" w1) as (best & w2 & E2 & Hw2 & Hbest).
  unfold bind at 1 in H. rewrite E2 in H. rewrite Hw1 in Hw2.
  destruct (String.eqb_spec best "") as [->|Hne];
    [unfold ret in H; simplify_eq; left; by rewrite <-Hw2|].
  destruct Hbest as [?|Hbest]; [done|].
  destruct (VerifyCore o) as [verify|] eqn:Ev;
    [|unfold ret in H; simplify_eq; left; by rewrite <-Hw2].
  rewrite <-Hdir, children_spec, stagingDir_path, <-app_assoc in Hbest by done.
  destruct Hbest as (n & Hn & Hd). symmetry in Hd. apply bool_decide_eq_true in Hd as ->.
  simpl in Hn.
  assert (safe_component best) as Hsb.
  { apply mk_is_Some, Hsafe in Hn. unfold safe_path in Hn.
    rewrite Forall_app, !Forall_cons in Hn. tauto. }
  rewrite bind_attempt in H. pose proof (binaryName_safe o) as Hbin.
  rewrite !staged_path in H by (done || safe_list).
  pose proof (touches_none (verify_now verify (CoreDir o ++ ["staging"; best; binaryName o])) w2
                (touches_observe _ _)) as Hw3.
  destruct (verify_now _ _ w2) as [rv w3] eqn:E3. cbn [fst snd] in *. rewrite Hw2 in Hw3.
  destruct rv as [[]|].
  - apply observe_Ok in E3 as [_ Hv]. injection Hv as Hv. rewrite Hw2 in Hv.
    pose proof (promote_verified_spec best w3 Hsb) as Hp. rewrite Hw3, H in Hp.
    destruct (Hp Hn) as [Hc|[Hc Hi]]; [by left|]. right. exists best, verify.
    split_and!; [done | by rewrite <-app_assoc | done..].
  - unfold ignore in H. simplify_eq. left. rewrite <-Hw3. eapply touches_elim; [apply touches_RemoveAll|].
    simpl. by rewrite below_cat, below_ne_head.
  - unfold ignore in H. simplify_eq. left. rewrite <-Hw3. eapply touches_elim; [apply touches_RemoveAll|].
    simpl. by rewrite below_cat, below_ne_head.
Qed.
End Promote.

(** *** Reverting *)

Section Revert.
Context (o : Options).
Hypothesis Hcore : safe_path (CoreDir o).
Implicit Types w : W.

Notation current := (CoreDir o ++ ["current"]).
Notation previous := (CoreDir o ++ ["previous"]).
Notation line v := (v +++ String (ascii_of_nat 10) "").

(** A revert, at every failure and crash point, leaves the current marker
    alone or points it at the version the previous marker names, which differs
    from the bad one and whose binary is there; when it reports success the
    marker has been switched. *)
Theorem revert_safe bad w r w' :
  revert o bad w = (r, w') ->
  (forall v, r = Ok (Some v) -> w_fs w' !! current = Some (File (line v))) /\
  (w_fs w' !! current = w_fs w !! current \/
   exists v content, w_fs w !! previous = Some (File content) /\ v = trim_space content /\
     v <> "" /\ v <> bad /\
     (is_dir (w_fs w) (versionBin o v) = true \/ is_Some (w_fs w !! versionBin o v)) /\
     w_fs w' !! current = Some (File (line v))).
Proof.
  intros H. unfold revert in H.
  destruct (readMarker_spec o "previous" w) as (v & w1 & E1 & Hw1 & Hv).
  unfold bind at 1 in H. rewrite E1 in H. clear E1.
  destruct (String.eqb_spec v ""), (String.eqb_spec v bad); simpl in H;
    try (unfold ret in H; simplify_eq; rewrite Hw1; split; [done | by left]).
  destruct Hv as [?|(content & Hprev & Hv)]; [done|]. rewrite bind_attempt in H.
  rewrite !(marker_path o Hcore) in * by safe_list.
  destruct (Stat (versionBin o v) w1) as [r2 w2] eqn:E2. apply Stat_fs in E2 as [Hw2 Hbin].
  rewrite Hw1 in *. cbn [fst snd] in H.
  destruct r2; [|unfold ret in H; simplify_eq; rewrite Hw2; split; [done | by left]].
  rewrite bind_attempt in H.
  destruct (writeStr current v w2) as [r3 w3] eqn:E3. cbn [fst snd] in H.
  apply writeStr_atomic in E3; [|done]. simpl in E3. rewrite Hw2 in E3.
  assert (w_fs w3 !! current = Some (File (line v)) -> exists v content,
     w_fs w !! previous = Some (File content) /\ v = trim_space content /\ v <> "" /\ v <> bad /\
     (is_dir (w_fs w) (versionBin o v) = true \/ is_Some (w_fs w !! versionBin o v)) /\
     w_fs w3 !! current = Some (File (line v))) as Hnew by (intros; exists v, content; eauto 7).
  destruct r3.
  - destruct E3 as [[_ Hc]|(e & ? & _)]; [|done]. rewrite bind_ignore in H.
    unfold ret in H. simplify_eq. rewrite (writeStr_frame _ _ _ _ "current" []) by done.
    split; [intros; by simplify_eq | right; auto].
  - unfold ret in H. simplify_eq. split; [done|].
    destruct E3 as [[? _]|(? & _ & [Hc|[_ Hc]])]; [done | by left | right; auto].
Qed.

(** Nothing fails: what a marker write does. *)
Lemma writeStr_calm name s w :
  calm w -> dirs_ok (w_fs w) (CoreDir o) -> has_prefix ".tmp-" name = false ->
  w_fs w !! (CoreDir o ++ [".tmp-" +++ format_uint (w_seed w)]) = None ->
  w_fs w !! (CoreDir o ++ [name]) <> Some Dir ->
  writeStr (CoreDir o ++ [name]) s w =
  (Ok tt, with_fs (<[CoreDir o ++ [name] := File (line s)]> (w_fs w)) w).
Proof.
  intros. unfold writeStr. rewrite parent_app. unfold bind.
  rewrite MkdirAll_calm by done. by apply replace_file_calm.
Qed.

(** A machine with two installed versions and nothing staged; [rdy] is what lies at
    the readiness marker. *)
Record two_versions_at (rdy : option node) (w : W) (cur prev : string) : Prop := {
  tv_calm : calm w;
  tv_dirs : dirs_ok (w_fs w) (CoreDir o);
  tv_tmp : w_fs w !! (CoreDir o ++ [".tmp-" +++ format_uint (w_seed w)]) = None;
  tv_cur : w_fs w !! current = Some (File (line cur));
  tv_prev : w_fs w !! previous = Some (File (line prev));
  tv_staging : w_fs w !! (CoreDir o ++ ["staging"]) = None;
  tv_ready : w_fs w !! (CoreDir o ++ ["ready"]) = rdy;
  tv_words : forall v, v ∈ [cur; prev] -> trimmed v /\ safe_component v /\
               exists c, w_fs w !! versionBin o v = Some (File c);
  tv_diff : cur <> prev }.
Definition two_versions : W -> string -> string -> Prop := two_versions_at None.

Lemma readMarker_calm name v w :
  calm w -> safe_component name -> w_fs w !! (CoreDir o ++ [name]) = Some (File (line v)) ->
  trimmed v -> v <> "" -> readMarker o name w = (Ok v, w).
Proof.
  intros Hc Hs Hl Ht Hne. unfold readMarker. rewrite bind_attempt, marker_path by done.
  unfold ReadFile. rewrite observe_calm, Hl by done. simpl. by rewrite trim_space_newline.
Qed.

Lemma Stat_calm p c w :
  calm w -> p <> [] -> w_fs w !! p = Some (File c) -> Stat p w = (Ok false, w).
Proof.
  intros Hc Hne Hp. unfold Stat. rewrite observe_calm by done.
  replace (is_dir (w_fs w) p) with false; [by rewrite Hp|].
  destruct p; [done|]. unfold is_dir. rewrite Hp. by rewrite bool_decide_false.
Qed.

Lemma versionBin_not_nil v : safe_component v -> versionBin o v <> [].
Proof. intros H. rewrite versionBin_path by done. by destruct (CoreDir o). Qed.

Lemma word_nonempty v : safe_component v -> v <> "".
Proof. by intros [? _]. Qed.

(** What a revert leaves on disk. *)
Definition reverted_fs (w : W) (cur prev : string) : fs :=
  <[previous := File (line cur)]> (<[current := File (line prev)]> (w_fs w)).

Lemma core_path_ne (x y : string) : x <> y -> CoreDir o ++ [x] <> CoreDir o ++ [y].
Proof. intros H Heq. apply app_inv_head in Heq. congruence. Qed.

Lemma dirs_ok_insert f x n : dirs_ok f (CoreDir o) -> dirs_ok (<[CoreDir o ++ [x] := n]> f) (CoreDir o).
Proof.
  intros H q Hq Hne. rewrite lookup_insert_ne; [by apply H|]. intros <-.
  rewrite <-(app_nil_r (CoreDir o)) in Hq at 2. by rewrite below_cat in Hq.
Qed.

Lemma revert_calm w cur prev :
  two_versions w cur prev -> revert o cur w = (Ok (Some prev), with_fs (reverted_fs w cur prev) w).
Proof.
  intros []. destruct (tv_words0 prev) as (Ht & Hs & c & Hb); [right; left|].
  pose proof (word_nonempty _ Hs) as Hne.
  unfold revert, bind at 1. rewrite (readMarker_calm "previous" prev) by (done || safe_list).
  destruct (String.eqb_spec prev ""), (String.eqb_spec prev cur); try congruence. cbn [orb].
  rewrite bind_attempt, (Stat_calm _ c) by (done || by apply versionBin_not_nil). cbn [fst snd].
  rewrite bind_attempt, !(marker_path o Hcore) by safe_list.
  rewrite writeStr_calm by (done || by rewrite tv_cur0). cbn [fst snd].
  rewrite bind_ignore, writeStr_calm; [done|done| | done | |]; simpl w_fs.
  - by apply dirs_ok_insert.
  - rewrite lookup_insert_ne; [done | by apply core_path_ne].
  - rewrite lookup_insert_ne by (by apply core_path_ne). by rewrite tv_prev0.
Qed.

Lemma currentBinary_calm rdy w cur prev :
  two_versions_at rdy w cur prev -> currentBinary o w = (Ok (cur, versionBin o cur), w).
Proof.
  intros []. destruct (tv_words0 cur) as (Ht & Hs & c & Hb); [left|].
  unfold currentBinary. rewrite bind_attempt, marker_path by (done || safe_list).
  unfold ReadFile. rewrite observe_calm, tv_cur0 by done. cbn [fst snd].
  rewrite trim_space_newline by (done || by apply word_nonempty).
  rewrite bind_attempt, (Stat_calm _ c) by (done || by apply versionBin_not_nil). done.
Qed.

Lemma promoteStaged_calm rdy w cur prev : two_versions_at rdy w cur prev -> promoteStaged o w = (Ok tt, w).
Proof.
  intros []. unfold promoteStaged. rewrite bind_attempt. unfold ReadDir.
  rewrite stagingDir_path, observe_calm, tv_staging0 by done.
  replace (is_dir (w_fs w) (CoreDir o ++ ["staging"])) with false; [done|].
  destruct (CoreDir o ++ ["staging"]) eqn:E; [by destruct (CoreDir o)|].
  unfold is_dir. rewrite tv_staging0. by rewrite bool_decide_false.
Qed.

(** A core that dies early, without a readiness marker and without touching the
    files. *)
Definition bad_run (e : run) : Prop :=
  ctx_done e = false /\ done_after e = false /\ done_waiting e = false /\
  uptime e < stable o /\ forall f, effect e f = f.

Definition push (w : W) (s : started) : W :=
  mkWorld (w_fs w) (w_oracle w) (w_up w) (w_seed w) (w_ext w ++ [s]).

Lemma runOnce_calm e v bin w :
  calm w -> (forall f, effect e f = f) -> runOnce e v bin w = (Ok tt, push w (mkStarted v bin)).
Proof.
  intros [Hu _] He. unfold runOnce, bind, upd_ext, push. rewrite Hu. simpl. by rewrite He.
Qed.

Lemma absent_ready_calm w cur prev : two_versions w cur prev ->
  (forall k : unit -> IO stop, bind (ignore (Remove (readyFile o))) k w = k tt w) /\
  markerFresh (readyFile o) w = (Ok false, w).
Proof.
  intros []. unfold readyFile. rewrite marker_path by (done || safe_list). split.
  - intros k. rewrite bind_ignore. unfold Remove. rewrite atomic_calm by done. by rewrite tv_ready0.
  - unfold markerFresh. rewrite bind_attempt. unfold Stat. rewrite observe_calm, tv_ready0 by done.
    replace (is_dir (w_fs w) (CoreDir o ++ ["ready"])) with false; [done|].
    destruct (CoreDir o ++ ["ready"]) eqn:E; [by destruct (CoreDir o)|].
    unfold is_dir. rewrite tv_ready0. by rewrite bool_decide_false.
Qed.

Lemma two_versions_push w cur prev s : two_versions w cur prev -> two_versions (push w s) cur prev.
Proof. by intros []; constructor. Qed.

(** One early death: the crash is counted, and at the threshold the previous
    version takes over. *)
Lemma iterate_bad e crashes w cur prev :
  two_versions w cur prev -> bad_run e ->
  let w1 := push w (mkStarted cur (versionBin o cur)) in
  iterate o e crashes w =
  if threshold o <=? crashes + 1
  then (Ok (Running 0), with_fs (reverted_fs w cur prev) w1)
  else (Ok (Running (crashes + 1)), w1).
Proof.
  intros Hw (_ & He1 & He2 & He3 & He4) w1. unfold iterate, bind at 1.
  rewrite (promoteStaged_calm _ _ _ _ Hw), bind_attempt, (currentBinary_calm _ _ _ _ Hw). cbn [fst snd].
  rewrite (proj1 (absent_ready_calm _ _ _ Hw)).
  unfold bind at 1. rewrite runOnce_calm by (done || apply Hw). fold w1. rewrite He1.
  pose proof (two_versions_push _ _ _ (mkStarted cur (versionBin o cur)) Hw) as Hw1. fold w1 in Hw1.
  unfold bind at 1. rewrite (proj2 (absent_ready_calm _ _ _ Hw1)).
  replace (stable o <=? uptime e) with false by (symmetry; by apply Z.leb_gt). cbn [orb].
  destruct (threshold o <=? crashes + 1).
  - unfold bind. by rewrite (revert_calm _ _ _ Hw1).
  - by rewrite He2.
Qed.

Lemma loop_bad e w cur prev :
  two_versions w cur prev -> bad_run e -> 0 < threshold o ->
  let n := Z.to_nat (threshold o) in
  exists w', loop o (repeat e n) 0 w = (Ok (Running 0), w') /\
    w_fs w' = reverted_fs w cur prev /\
    w_ext w' = w_ext w ++ repeat (mkStarted cur (versionBin o cur)) n /\
    w_oracle w' = w_oracle w /\ w_up w' = w_up w /\ w_seed w' = w_seed w.
Proof.
  intros Hw He Ht n.
  enough (forall k w c, two_versions w cur prev -> 0 <= c -> c + Z.of_nat (S k) = threshold o ->
    exists w', loop o (repeat e (S k)) c w = (Ok (Running 0), w') /\
      w_fs w' = reverted_fs w cur prev /\
      w_ext w' = w_ext w ++ repeat (mkStarted cur (versionBin o cur)) (S k) /\
      w_oracle w' = w_oracle w /\ w_up w' = w_up w /\ w_seed w' = w_seed w) as Hgen.
  { unfold n. destruct (Z.to_nat (threshold o)) as [|k] eqn:En; [lia|].
    apply (Hgen k w 0); [done | lia | lia]. }
  clear w Hw. induction k as [|k IH]; intros w c Hw Hc Hk;
    change (loop o (repeat e (S ?k)) ?c) with
      (if ctx_done e then ret (Returned None) else
       s <-! iterate o e c ;; match s with Running c => loop o (repeat e k) c | Returned _ => ret s end);
    rewrite (proj1 He); unfold bind; rewrite (iterate_bad _ _ _ _ _ Hw He).
  - replace (threshold o <=? c + 1) with true by (symmetry; apply Z.leb_le; lia).
    eexists. split; [done|]. done.
  - replace (threshold o <=? c + 1) with false by (symmetry; apply Z.leb_gt; lia).
    destruct (IH (push w (mkStarted cur (versionBin o cur))) (c + 1)) as (w' & -> & Hfs & Hext & Hrest);
      [by apply two_versions_push | lia | lia |].
    exists w'. split_and!; [done | done| | apply Hrest..]. rewrite Hext. simpl. by rewrite <-app_assoc.
Qed.

Lemma lookup_reverted_fs w cur prev x rest :
  x <> "current" -> x <> "previous" ->
  reverted_fs w cur prev !! (CoreDir o ++ x :: rest) = w_fs w !! (CoreDir o ++ x :: rest).
Proof.
  intros H1 H2. unfold reverted_fs.
  rewrite !lookup_insert_ne; [done|..]; intros Heq; apply app_inv_head in Heq; congruence.
Qed.

Lemma two_versions_reverted w w' cur prev :
  two_versions w cur prev -> w_fs w' = reverted_fs w cur prev ->
  w_oracle w' = w_oracle w -> w_up w' = w_up w -> w_seed w' = w_seed w ->
  two_versions w' prev cur.
Proof.
  intros [[Hu Hor]] Hfs Ho Hup Hs. constructor; rewrite ?Hfs, ?Hs.
  - split; congruence.
  - by apply dirs_ok_insert, dirs_ok_insert.
  - by rewrite lookup_reverted_fs.
  - unfold reverted_fs. rewrite lookup_insert_ne by (by apply core_path_ne). apply lookup_insert_eq.
  - apply lookup_insert_eq.
  - by rewrite lookup_reverted_fs.
  - by rewrite lookup_reverted_fs.
  - intros v Hv. destruct (tv_words0 v) as (? & Hsv & Hb);
      [rewrite !elem_of_cons in *; tauto|].
    split_and!; [done..|]. rewrite versionBin_path in * by done. by rewrite lookup_reverted_fs.
  - congruence.
Qed.


(** *** A core that signals readiness and then dies *)

(** The run leaves the readiness marker behind; how long it lasted is open. *)
Definition ready_run (e : run) : Prop :=
  ctx_done e = false /\ done_after e = false /\
  exists c, forall f, effect e f = <[CoreDir o ++ ["ready"] := File c]> f.

Definition ready_marker (rdy : option node) : Prop :=
  rdy = None \/ exists c, rdy = Some (File c).

(** Only the readiness marker and the list of started processes differ. *)
Lemma two_versions_ready rdy rdy' w w' cur prev :
  two_versions_at rdy w cur prev ->
  w_fs w' !! (CoreDir o ++ ["ready"]) = rdy' ->
  (forall q, q <> CoreDir o ++ ["ready"] -> w_fs w' !! q = w_fs w !! q) ->
  w_oracle w' = w_oracle w -> w_up w' = w_up w -> w_seed w' = w_seed w ->
  two_versions_at rdy' w' cur prev.
Proof.
  intros [[Hu Hor]] Hr Hq Ho Hup Hs.
  assert (forall x, x <> "ready" -> w_fs w' !! (CoreDir o ++ [x]) = w_fs w !! (CoreDir o ++ [x])) as Hx
    by (intros x Hne; by apply Hq, core_path_ne).
  constructor; rewrite ?Hs, ?Hx by done; try done.
  - split; congruence.
  - intros q Hb Hne. rewrite Hq; [by apply tv_dirs0|]. intros ->.
    rewrite <-(app_nil_r (CoreDir o)) in Hb at 2. by rewrite below_cat in Hb.
  - intros v Hv. destruct (tv_words0 v Hv) as (? & Hsv & c & Hb). split_and!; [done..|]. exists c.
    rewrite Hq; [done|]. rewrite versionBin_path by done. intros E. by apply app_inv_head in E.
Qed.

(** Clearing the marker before the launch. *)
Lemma clear_ready rdy w cur prev : two_versions_at rdy w cur prev -> ready_marker rdy ->
  exists w1, (forall k : unit -> IO stop, bind (ignore (Remove (readyFile o))) k w = k tt w1) /\
    two_versions w1 cur prev /\ w_ext w1 = w_ext w.
Proof.
  intros Hw Hr. pose proof Hw as []. unfold readyFile. rewrite marker_path by (done || safe_list).
  destruct Hr as [->|[c ->]].
  - exists w. split; [|done]. intros k. rewrite bind_ignore. unfold Remove.
    rewrite atomic_calm by done. by rewrite tv_ready0.
  - exists (with_fs (delete (CoreDir o ++ ["ready"]) (w_fs w)) w). split_and!; [|  |done].
    + intros k. rewrite bind_ignore. unfold Remove. rewrite atomic_calm by done. by rewrite tv_ready0.
    + eapply two_versions_ready; [exact Hw|..]; try done; simpl; [apply lookup_delete_eq|].
      intros q Hq. by rewrite lookup_delete_ne.
Qed.

(** One such run: the count starts again at zero, whatever it was. *)
Lemma iterate_ready e crashes rdy w cur prev :
  two_versions_at rdy w cur prev -> ready_marker rdy -> ready_run e ->
  exists c w1, iterate o e crashes w = (Ok (Running 0), w1) /\
    two_versions_at (Some (File c)) w1 cur prev /\
    w_ext w1 = w_ext w ++ [mkStarted cur (versionBin o cur)].
Proof.
  intros Hw Hr (_ & He1 & c & He2). unfold iterate, bind at 1.
  rewrite (promoteStaged_calm _ _ _ _ Hw), bind_attempt, (currentBinary_calm _ _ _ _ Hw). cbn [fst snd].
  destruct (clear_ready _ _ _ _ Hw Hr) as (w1 & Hk & Hw1 & Hext). rewrite Hk. clear Hk.
  unfold bind at 1, runOnce, bind at 1, upd_ext. pose proof (tv_calm _ _ _ _ Hw1) as [Hup Hor]. rewrite Hup. cbn [w_fs].
  rewrite He2, He1. set (w2 := mkWorld _ _ _ _ _).
  assert (two_versions_at (Some (File c)) w2 cur prev) as Hw2.
  { eapply two_versions_ready; [exact Hw1|..]; try done; simpl; [apply lookup_insert_eq|].
    intros q Hq. by rewrite lookup_insert_ne. }
  exists c, w2. split_and!; [|done|simpl; by rewrite Hext].
  unfold bind, markerFresh. rewrite bind_attempt. unfold readyFile. rewrite marker_path by (done || safe_list).
  rewrite (Stat_calm _ c); [done|apply Hw2|by destruct (CoreDir o)|apply Hw2].
Qed.

(** A core that writes the readiness marker is never reverted and never slowed down:
    however often and however early it dies afterwards, each death starts the same
    version again at once (the back-off's own way out is not consulted) with the crash
    count at zero, and the version markers stay as they were. *)
Theorem ready_crash_never_reverts es : forall crashes w cur prev,
  two_versions w cur prev -> Forall ready_run es -> es <> [] ->
  exists w', loop o es crashes w = (Ok (Running 0), w') /\
    w_fs w' !! current = w_fs w !! current /\ w_fs w' !! previous = w_fs w !! previous /\
    w_ext w' = w_ext w ++ repeat (mkStarted cur (versionBin o cur)) (length es).
Proof.
  intros crashes w cur prev Hw Hes Hne.
  enough (forall es crashes rdy w, two_versions_at rdy w cur prev -> ready_marker rdy ->
    Forall ready_run es -> exists rdy' w', loop o es crashes w =
      (Ok (Running (if es is [] then crashes else 0)), w') /\ two_versions_at rdy' w' cur prev /\
      w_ext w' = w_ext w ++ repeat (mkStarted cur (versionBin o cur)) (length es)) as Hgen.
  { destruct (Hgen es crashes None w Hw (or_introl eq_refl) Hes) as (rdy & w' & Hl & Hw' & Hx).
    exists w'. destruct es; [done|]. rewrite (tv_cur _ _ _ _ Hw'), (tv_prev _ _ _ _ Hw').
    by rewrite (tv_cur _ _ _ _ Hw), (tv_prev _ _ _ _ Hw). }
  clear crashes w Hw es Hes Hne. intros es. induction es as [|e es IH]; intros crashes rdy w Hw Hr Hes; simpl.
  - exists rdy, w. by rewrite app_nil_r.
  - apply Forall_cons in Hes as [He Hes]. rewrite (proj1 He). unfold bind.
    destruct (iterate_ready e crashes rdy w cur prev Hw Hr He) as (c & w1 & -> & Hw1 & Hx1).
    destruct (IH 0 (Some (File c)) w1 Hw1 (or_intror (ex_intro _ c eq_refl)) Hes) as (rdy' & w' & -> & Hw' & Hx).
    exists rdy', w'. split_and!; [by destruct es|done|]. rewrite Hx, Hx1. by rewrite <-app_assoc.
Qed.

(** The loop composes along the runs it is given. *)
Lemma loop_app es1 : forall es2 c c' w w',
  loop o es1 c w = (Ok (Running c'), w') -> loop o (es1 ++ es2) c w = loop o es2 c' w'.
Proof.
  induction es1 as [|e es1 IH]; intros es2 c c' w w' H; simpl in *; [unfold ret in H; by simplify_eq|].
  destruct (ctx_done e); [done|]. unfold bind in *.
  destruct (iterate o e c w) as [[[|c1]|] w1]; [done | by apply IH | done].
Qed.

(** Two bad versions are not terminal: after as many further early deaths
    of the version reverted to, the markers are back where they started, so the
    supervisor alternates between the two for as long as both fail. *)
Theorem crash_loop_ping_pong e w cur prev :
  two_versions w cur prev -> bad_run e -> 0 < threshold o ->
  let n := Z.to_nat (threshold o) in
  exists w', loop o (repeat e (n + n)) 0 w = (Ok (Running 0), w') /\ w_fs w' = w_fs w.
Proof.
  intros Hw He Ht n. destruct (loop_bad e w cur prev Hw He Ht) as (w1 & H1 & Hf1 & _ & Ho & Hu & Hs).
  pose proof (two_versions_reverted _ _ _ _ Hw Hf1 Ho Hu Hs) as Hw1.
  destruct (loop_bad e w1 prev cur Hw1 He Ht) as (w2 & H2 & Hf2 & _).
  exists w2. split; [by rewrite repeat_app, (loop_app _ _ _ _ _ _ H1)|].
  rewrite Hf2. unfold reverted_fs. rewrite Hf1. unfold reverted_fs.
  apply map_eq. intros q. destruct Hw.
  destruct (decide (q = previous)) as [->|Hp]; [by rewrite lookup_insert_eq|].
  rewrite lookup_insert_ne by done.
  destruct (decide (q = current)) as [->|Hc]; [by rewrite lookup_insert_eq|].
  by rewrite !lookup_insert_ne.
Qed.
End Revert.

(** *** Version order *)

(** A dotted decimal version and its components. *)
Definition components (v : string) : option (list Z) := mapM atoi (split "." v).

Fixpoint lex_gt (x y : list Z) : bool :=
  match x, y with
  | i :: x', j :: y' => if i =? j then lex_gt x' y' else j <? i
  | _ :: _, [] => true
  | [], _ => false
  end.

Lemma higher_lex a : forall b x y, mapM atoi a = Some x -> mapM atoi b = Some y -> higher a b = lex_gt x y.
Proof.
  induction a as [|s a IH]; intros b x y Hx Hy; simpl in Hx.
  - change (Some [] = Some x) in Hx. by simplify_eq.
  - destruct (atoi s) as [i|] eqn:Ei; [|done]. destruct (mapM atoi a) as [x'|] eqn:Ea; [|done].
    change (Some (i :: x') = Some x) in Hx. simplify_eq. destruct b as [|t b]; simpl in Hy.
    + change (Some [] = Some y) in Hy. by simplify_eq.
    + destruct (atoi t) as [j|] eqn:Ej; [|done]. destruct (mapM atoi b) as [y'|] eqn:Eb; [|done].
      change (Some (j :: y') = Some y) in Hy. simplify_eq. simpl. rewrite Ei, Ej. destruct (i =? j); simpl; [by apply IH | done].
Qed.

Lemma higherSemver_lex a b x y :
  components a = Some x -> components b = Some y -> higherSemver a b = lex_gt x y.
Proof. apply higher_lex. Qed.

Lemma lex_gt_irrefl x : lex_gt x x = false.
Proof. induction x as [|i x IH]; simpl; [done|]. by rewrite Z.eqb_refl. Qed.

Lemma lex_gt_asym x y : lex_gt x y = true -> lex_gt y x = false.
Proof.
  revert y. induction x as [|i x IH]; intros [|j y]; simpl; try done.
  rewrite (Z.eqb_sym j i). destruct (i =? j) eqn:E; [apply IH|]. rewrite Z.ltb_lt, Z.ltb_ge. lia.
Qed.

Lemma lex_le_trans x y z : lex_gt x y = false -> lex_gt y z = false -> lex_gt x z = false.
Proof.
  revert y z. induction x as [|i x IH]; intros [|j y] [|k z]; simpl; try done.
  destruct (Z.eqb_spec i j), (Z.eqb_spec j k), (Z.eqb_spec i k); subst; try lia;
    rewrite ?Z.ltb_ge; try lia; eauto.
Qed.

Section Highest.
Context (o : Options).
Hypothesis Hcore : safe_path (CoreDir o).

(** Staged directories that hold a core and are named by a dotted decimal. *)
Definition staged_core (f : fs) (v : string) : Prop :=
  is_Some (components v) /\ safe_component v /\
  exists c, f !! Join (stagingDir o) [v; binaryName o] = Some (File c).

Lemma not_empty_numeric v : is_Some (components v) -> v <> "".
Proof. intros [x Hx] ->. done. Qed.

(** The scan started from [best] (empty: nothing yet) returns a version at least
    as high as [best] and as every staged directory. *)
Lemma pick_best_max entries : forall best w,
  calm w -> (forall v, (v, true) ∈ entries -> staged_core (w_fs w) v) ->
  (best = "" \/ is_Some (components best)) ->
  exists b, pick_best o entries best w = (Ok b, w) /\
    (b = "" \/ is_Some (components b)) /\
    (best <> "" -> b <> "" /\ higherSemver best b = false) /\
    (forall v, (v, true) ∈ entries -> b <> "" /\ higherSemver v b = false).
Proof.
  induction entries as [|[v []] es IH]; intros best w Hc Hall Hbest; cbn [pick_best negb].
  - exists best. split_and!; [done..| |]; [|by intros v ?%not_elem_of_nil].
    intros Hne. split; [done|]. destruct Hbest as [?|[x Hx]]; [done|].
    by rewrite (higherSemver_lex _ _ _ _ Hx Hx), lex_gt_irrefl.
  - destruct (Hall v) as (Hnum & Hsafe & c & Hbin); [left|].
    rewrite bind_attempt, (Stat_calm _ c w Hc); [| |exact Hbin].
    2:{ pose proof (binaryName_safe o). rewrite staged_path by (done || safe_list). by destruct (CoreDir o). }
    cbn [fst snd]. set (nb := if String.eqb best "" || higherSemver v best then v else best).
    assert (is_Some (components nb) /\ nb <> "" /\ higherSemver v nb = false /\
            (best <> "" -> higherSemver best nb = false)) as (Hn1 & Hn2 & Hn3 & Hn4).
    { destruct Hnum as [xv Hv]. pose proof (not_empty_numeric v (ex_intro _ xv Hv)) as Hvne.
      pose proof (higherSemver_lex _ _ _ _ Hv Hv) as Hrefl. rewrite lex_gt_irrefl in Hrefl.
      unfold nb. destruct (String.eqb_spec best "") as [->|Hbne]; simpl; [by eauto|].
      destruct Hbest as [?|[xb Hb]]; [done|].
      rewrite (higherSemver_lex _ _ _ _ Hv Hb). destruct (lex_gt xv xb) eqn:E.
      - split_and!; [by eexists|done..|]. intros _. rewrite (higherSemver_lex _ _ _ _ Hb Hv).
        by apply lex_gt_asym.
      - split_and!; [by eexists|done| |]; [by rewrite (higherSemver_lex _ _ _ _ Hv Hb)|].
        intros _. by rewrite (higherSemver_lex _ _ _ _ Hb Hb), lex_gt_irrefl. }
    destruct (IH nb w Hc) as (b & Hb & Hb1 & Hb2 & Hb3); [intros v' Hin; apply Hall; by right | by right|].
    exists b. destruct (Hb2 Hn2) as [Hbne Hnb]. destruct Hb1 as [?|[xb Hxb]]; [done|].
    destruct Hn1 as [xn Hxn]. rewrite (higherSemver_lex _ _ _ _ Hxn Hxb) in Hnb.
    split_and!; [done | right; by eexists | |].
    + intros Hne. split; [done|]. destruct Hbest as [?|[x Hx]]; [done|].
      specialize (Hn4 Hne). rewrite (higherSemver_lex _ _ _ _ Hx Hxn) in Hn4.
      rewrite (higherSemver_lex _ _ _ _ Hx Hxb). by eapply lex_le_trans.
    + intros u [Hu|Hu]%elem_of_cons; [|by apply Hb3]. simplify_eq. split; [done|].
      destruct Hnum as [x Hx]. rewrite (higherSemver_lex _ _ _ _ Hx Hxn) in Hn3.
      rewrite (higherSemver_lex _ _ _ _ Hx Hxb). by eapply lex_le_trans.
  - destruct (IH best w Hc) as (b & Hb & Hb1 & Hb2 & Hb3); [intros v' Hin; apply Hall; by right | done|].
    exists b. split_and!; [done..|]. intros u [Hu|Hu]%elem_of_cons; [done | by apply Hb3].
Qed.

(** With nothing failing, the staged version weaveboot chooses is the
    highest: no staged directory that holds a core is numerically above it. *)
Theorem pick_best_highest entries w :
  calm w -> (forall v, (v, true) ∈ entries -> staged_core (w_fs w) v) ->
  exists b, pick_best o entries "" w = (Ok b, w) /\
    forall v, (v, true) ∈ entries -> b <> "" /\ higherSemver v b = false.
Proof.
  intros Hc Hall. destruct (pick_best_max entries "" w Hc Hall) as (b & Hb & _ & _ & Hmax); [by left|]. eauto.
Qed.
End Highest.

(** Outside dotted decimals the comparison is not an order: it has a cycle,
    and it puts a pre-release above its release. *)
Theorem higherSemver_not_an_order :
  higherSemver "10" "9" = true /\ higherSemver "9" "1a" = true /\ higherSemver "1a" "10" = true /\
  higherSemver "1.0.0-rc.1" "1.0.0" = true.
Proof. by vm_compute. Qed.

(** *** Witnesses *)

Definition demo_options : Options :=
  mkOptions ["core"] 0 0 (Some (fun _ _ => true)) false None.
Definition demo_fs : fs := list_to_map [
  (["core"], Dir); (["core"; "current"], File ("1.0.0" +++ String (ascii_of_nat 10) ""));
  (["core"; "previous"], File ("0.9.0" +++ String (ascii_of_nat 10) ""));
  (["core"; "versions"; "1.0.0"; "weave-agent"], File "one");
  (["core"; "versions"; "0.9.0"; "weave-agent"], File "nine")].
Definition demo_world (staged : fs) : W := mkWorld (demo_fs ∪ staged) [] true 7 [].
Definition demo_staged : fs := list_to_map [
  (["core"; "staging"], Dir); (["core"; "staging"; "9.0.0"], Dir); (["core"; "staging"; "10.0.0"], Dir);
  (["core"; "staging"; "9.0.0"; "weave-agent"], File "a");
  (["core"; "staging"; "10.0.0"; "weave-agent"], File "b")].
Definition dying : run := mkRun false (fun f => f) 1 false false.

Lemma demo_core_safe : safe_path (CoreDir demo_options).
Proof. safe_list. Qed.

Lemma promoteStaged_verified_witness :
  let w := demo_world demo_staged in
  let w' := snd (promoteStaged demo_options w) in
  w_fs w' !! ["core"; "current"] = w_fs w !! ["core"; "current"] \/
  exists best verify,
    VerifyCore demo_options = Some verify /\
    verify ["core"; "staging"; best; "weave-agent"] (w_fs w) = true /\
    w_fs w' !! ["core"; "current"] = Some (File (best +++ String (ascii_of_nat 10) "")) /\
    w_fs w' !! ["core"; "versions"; best; "weave-agent"] =
      w_fs w !! ["core"; "staging"; best; "weave-agent"].
Proof.
  intros w w'.
  apply (promoteStaged_verified demo_options demo_core_safe w (fst (promoteStaged demo_options w))).
  - apply safe_fs_forall. vm_compute map_to_list.
    repeat (apply Forall_cons_2; [safe_list|]). apply Forall_nil_2.
  - apply surjective_pairing.
Defined.

(** ... and there the staged [10.0.0] is promoted over [9.0.0]. *)
Example promoteStaged_demo :
  w_fs (snd (promoteStaged demo_options (demo_world demo_staged))) !! ["core"; "current"]
  = Some (File ("10.0.0" +++ String (ascii_of_nat 10) "")).
Proof. by vm_compute. Qed.

Lemma revert_safe_witness :
  let w := demo_world ∅ in
  let w' := snd (revert demo_options "1.0.0" w) in
  w_fs w' !! ["core"; "current"] = Some (File ("0.9.0" +++ String (ascii_of_nat 10) "")).
Proof.
  intros w w'.
  apply (revert_safe demo_options demo_core_safe "1.0.0" w (fst (revert demo_options "1.0.0" w)) w').
  - apply surjective_pairing.
  - by vm_compute.
Defined.

Lemma demo_two_versions : two_versions demo_options (demo_world ∅) "1.0.0" "0.9.0".
Proof.
  constructor; try by vm_compute.
  - intros q Hq Hne. apply below_spec in Hq as [r Hr]. destruct q as [|x [|]]; simpl in Hr; [done| |done].
    by simplify_eq.
  - intros v Hv. rewrite !elem_of_cons, elem_of_nil in Hv. destruct Hv as [->|[->|[]]].
    + split_and!; [by vm_compute | by repeat split | by exists "one"; vm_compute].
    + split_and!; [by vm_compute | by repeat split | by exists "nine"; vm_compute].
Qed.

Lemma dying_bad : bad_run demo_options dying.
Proof. by repeat split. Qed.


(** A core that becomes ready and dies after a nanosecond. *)
Definition flapping : run :=
  mkRun false (fun f => <[["core"; "ready"] := File "1.0.0"]> f) 1 false true.

Lemma ready_crash_never_reverts_witness :
  exists w', loop demo_options (repeat flapping 5) 0 (demo_world ∅) = (Ok (Running 0), w') /\
    w_fs w' !! ["core"; "current"] = (demo_fs ∪ ∅) !! ["core"; "current"] /\
    w_fs w' !! ["core"; "previous"] = (demo_fs ∪ ∅) !! ["core"; "previous"] /\
    w_ext w' = [] ++ repeat (mkStarted "1.0.0" (versionBin demo_options "1.0.0")) 5.
Proof.
  apply (ready_crash_never_reverts demo_options demo_core_safe (repeat flapping 5) 0 (demo_world ∅)
           "1.0.0" "0.9.0" demo_two_versions); [|done].
  repeat constructor; by exists "1.0.0".
Defined.

Lemma crash_loop_ping_pong_witness :
  exists w', loop demo_options (repeat dying 6) 0 (demo_world ∅) = (Ok (Running 0), w') /\
    w_fs w' = demo_fs ∪ ∅.
Proof.
  apply (crash_loop_ping_pong demo_options demo_core_safe dying (demo_world ∅) "1.0.0" "0.9.0"
           demo_two_versions dying_bad). reflexivity.
Defined.

Lemma pick_best_highest_witness :
  exists b, pick_best demo_options [("10.0.0", true); ("9.0.0", true)] "" (demo_world demo_staged)
            = (Ok b, demo_world demo_staged) /\
    forall v, (v, true) ∈ [("10.0.0", true); ("9.0.0", true)] -> b <> "" /\ higherSemver v b = false.
Proof.
  apply (pick_best_highest demo_options demo_core_safe); [done|].
  intros v Hv. rewrite !elem_of_cons, elem_of_nil in Hv. destruct Hv as [?|[?|[]]]; simplify_eq.
  - split_and!; [by eexists | by repeat split | by exists "b"; vm_compute].
  - split_and!; [by eexists | by repeat split | by exists "a"; vm_compute].
Defined.
End weaveboot.
