(* ===== verification/Store.v ===== *)
(** * The key/value store (internal/store, internal/hostserv/memory.go)

    [StoreBackend] is the interface hostserv, policy, identity, transport and
    lifecycle are written against; [StoreLaws] is what a backend promises: a
    namespaced finite map.  Two backends discharge it: the in-memory one and the
    encrypted one, which seals every value with an AEAD bound to its namespace
    and key and keeps it in a bbolt database.  bbolt and AES-GCM are classes with
    their documented behaviour. *)

From stdpp Require Import base list strings gmap.
From Stdlib Require Import ZArith Lia Ascii.
From S2P Require Import Prelude.
From S2P Require Import GoStrings.
From S2P Require Import Paths.
From S2P Require Import FileSystem.
From S2P Require Import Json.
Open Scope go_scope.

Local Infix "+++" := String.append (at level 60, right associativity).

Module store.

Inductive error := ErrCancelled | ErrRand | ErrCorrupt | ErrOpen | ErrDB.

(** What the surroundings answer during one call: whether the context is done
    and the bytes of the entropy source ([None]: it fails). *)
Record call := mkCall { ctx_done : bool; entropy : option string }.

(** [hostserv.StoreBackend] *)
Class StoreBackend (S : Type) := {
  Get : call -> string -> string -> S -> result error (option string);
  Put : call -> string -> string -> string -> S -> result error unit * S;
  Delete : call -> string -> string -> S -> result error unit * S;
  List : call -> string -> string -> S -> result error (list string) }.

(** What a backend promises: it is a map from (namespace, key) to values, a
    failed call changes nothing, and a call on one entry leaves the others. *)
Class StoreLaws (S : Type) `{!StoreBackend S} := {
  wf : S -> Prop;
  view : S -> string -> string -> option string;
  Get_view c m k s r : wf s -> Get c m k s = Ok r -> r = view s m k;
  Get_live c m k s : wf s -> ctx_done c = false -> is_ok (Get c m k s) = true;
  Put_view c m k v s r s' : wf s -> Put c m k v s = (r, s') ->
    wf s' /\ forall m' k', view s' m' k' =
      if is_ok r && bool_decide ((m', k') = (m, k)) then Some v else view s m' k';
  Delete_view c m k s r s' : wf s -> Delete c m k s = (r, s') ->
    wf s' /\ forall m' k', view s' m' k' =
      if is_ok r && bool_decide ((m', k') = (m, k)) then None else view s m' k';
  List_view c m p s l : wf s -> List c m p s = Ok l ->
    NoDup l /\ forall k, k ∈ l <-> has_prefix p k = true /\ is_Some (view s m k) }.

(** ** The in-memory backend *)

(** [MemStore]: the outer map's nil inner maps read as empty. *)
Notation MemStore := (gmap string (gmap string string)).
Definition NewMemStore : MemStore := ∅.

Definition inner (s : MemStore) (m : string) : gmap string string := default ∅ (s !! m).
Definition Mem_Get (_ : call) (m k : string) (s : MemStore) : result error (option string) :=
  Ok (inner s m !! k).
Definition Mem_Put (_ : call) (m k v : string) (s : MemStore) : result error unit * MemStore :=
  let s := match s !! m with None => <[m := ∅]> s | Some _ => s end in
  (Ok tt, <[m := <[k := v]> (inner s m)]> s).
Definition Mem_Delete (_ : call) (m k : string) (s : MemStore) : result error unit * MemStore :=
  (Ok tt, match s !! m with None => s | Some i => <[m := delete k i]> s end).
(** Go's map iteration order is arbitrary: only the set of keys is meaningful. *)
Definition Mem_List (_ : call) (m p : string) (s : MemStore) : result error (list string) :=
  Ok (filter (fun k => has_prefix p k = true) (map_to_list (inner s m)).*1).

#[export] Instance MemStore_backend : StoreBackend MemStore :=
  { Get := Mem_Get; Put := Mem_Put; Delete := Mem_Delete; List := Mem_List }.

Lemma inner_insert s m i m' : inner (<[m := i]> s) m' = if bool_decide (m' = m) then i else inner s m'.
Proof.
  unfold inner. case_bool_decide as H; [by rewrite H, lookup_insert_eq|].
  by rewrite lookup_insert_ne by congruence.
Qed.

(** The map update every backend has to realise. *)
Lemma pair_decide (m k m' k' : string) :
  bool_decide ((m', k') = (m, k)) = bool_decide (m' = m) && bool_decide (k' = k).
Proof. repeat case_bool_decide; simplify_eq; naive_solver. Qed.

#[export] Program Instance MemStore_laws : StoreLaws MemStore := {
  wf _ := True; view s m k := inner s m !! k }.
Next Obligation. intros c m k s r _ H. unfold Get, MemStore_backend, Mem_Get in H. by simplify_eq. Qed.
Next Obligation. done. Qed.
Next Obligation.
  intros c m k v s r s' _ H. unfold Put, MemStore_backend, Mem_Put in H. simplify_eq.
  split; [done|]. intros m' k'. rewrite inner_insert, pair_decide. simpl.
  assert (forall x, inner (match s !! m with Some _ => s | None => <[m := ∅]> s end) x = inner s x) as Hs.
  { intros x. destruct (s !! m) eqn:E; [done|]. rewrite inner_insert. case_bool_decide; [|done].
    unfold inner. by simplify_eq; rewrite E. }
  rewrite !Hs. repeat case_bool_decide; simplify_eq; simpl; [apply lookup_insert_eq| |done..].
  by rewrite lookup_insert_ne.
Qed.
Next Obligation.
  intros c m k s r s' _ H. unfold Delete, MemStore_backend, Mem_Delete in H. simplify_eq.
  split; [done|]. intros m' k'. rewrite pair_decide. simpl. unfold inner at 2.
  destruct (s !! m) as [i|] eqn:E.
  - rewrite inner_insert. repeat case_bool_decide; simplify_eq; simpl.
    + apply lookup_delete_eq.
    + rewrite lookup_delete_ne by done. by rewrite E.
    + done.
    + done.
  - repeat case_bool_decide; simplify_eq; simpl; try done. unfold inner. by rewrite E.
Qed.
Next Obligation.
  intros c m p s l _ H. unfold List, MemStore_backend, Mem_List in H. simplify_eq. split.
  - apply NoDup_filter, NoDup_fst_map_to_list.
  - intros k. rewrite list_elem_of_filter, list_elem_of_fmap. split.
    + intros [Hp ([k' v] & -> & Hin%elem_of_map_to_list)]. simpl in *. split; [done|]. by eexists.
    + intros [Hp [v Hv]]. split; [done|]. exists (k, v). split; [done|]. by apply elem_of_map_to_list.
Qed.

(** ** The encrypted backend *)

(** [bbolt]: buckets of byte-ordered keys; [Update] either commits or reports an
    error and rolls back. *)
Class Bolt (DB : Type) := {
  tx_Bucket : DB -> string -> bool;                      (* Bucket(name) != nil *)
  bucket_Get : DB -> string -> string -> option string;
  update_Put : DB -> string -> string -> string -> option DB;  (* CreateBucketIfNotExists; Put *)
  update_Delete : DB -> string -> string -> option DB;
  bucket_Keys : DB -> string -> list string }.           (* the order of ForEach *)

Class BoltLaws (DB : Type) `{!Bolt DB} : Prop := {
  Get_no_bucket d m k : tx_Bucket d m = false -> bucket_Get d m k = None;
  Get_Put d m k v d' m' k' : update_Put d m k v = Some d' ->
    bucket_Get d' m' k' = if bool_decide ((m', k') = (m, k)) then Some v else bucket_Get d m' k';
  Get_Delete d m k d' m' k' : update_Delete d m k = Some d' ->
    bucket_Get d' m' k' = if bool_decide ((m', k') = (m, k)) then None else bucket_Get d m' k';
  Keys_Get d m k : k ∈ bucket_Keys d m <-> is_Some (bucket_Get d m k);
  Keys_NoDup d m : NoDup (bucket_Keys d m) }.

(** [cipher.AEAD] *)
Record AEAD := mkAEAD {
  NonceSize : nat;
  aead_Seal : string -> string -> string -> string;          (* nonce, plaintext, data *)
  aead_Open : string -> string -> string -> option string }. (* nonce, ciphertext, data *)

Definition aead_correct (a : AEAD) : Prop :=
  forall n p d, aead_Open a n (aead_Seal a n p d) d = Some p.
(** A ciphertext does not open under other associated data. *)
Definition aead_bound (a : AEAD) : Prop :=
  forall n p d d', d' <> d -> aead_Open a n (aead_Seal a n p d) d' = None.

Definition NUL : ascii := ascii_of_nat 0.

(** [make([]byte, n)] filled from the entropy source. *)
Definition fill (n : nat) (src : string) : string := String.substring 0 n (src +++ repeat_char n NUL).

Definition aad (module key : string) : string := module +++ String NUL key.

Section Encrypted.
Context {DB : Type} `{!Bolt DB, !BoltLaws DB}.

(** [Store] *)
Record Store := mkStore { db : DB; aead : AEAD }.

Definition seal (c : call) (s : Store) (module key value : string) : result error string :=
  src <-? of_option ErrRand (entropy c) ;;
  let nonce := fill (NonceSize (aead s)) src in
  Ok (nonce +++ aead_Seal (aead s) nonce value (aad module key)).

Definition open (s : Store) (module key sealed : string) : result error string :=
  let ns := NonceSize (aead s) in
  do? guard (String.length sealed <? ns)%nat ErrCorrupt ;;
  of_option ErrOpen
    (aead_Open (aead s) (String.substring 0 ns sealed)
       (String.substring ns (String.length sealed - ns) sealed) (aad module key)).

Definition Store_Get (c : call) (module key : string) (s : Store) : result error (option string) :=
  do? guard (ctx_done c) ErrCancelled ;;
  if negb (tx_Bucket (db s) module) then Ok None
  else match bucket_Get (db s) module key with
  | None => Ok None
  | Some sealed => plain <-? open s module key sealed ;; Ok (Some plain)
  end.

Definition Store_Put (c : call) (module key value : string) (s : Store) : result error unit * Store :=
  match (do? guard (ctx_done c) ErrCancelled ;; seal c s module key value) with
  | Err e => (Err e, s)
  | Ok sealed =>
      match update_Put (db s) module key sealed with
      | None => (Err ErrDB, s)
      | Some d => (Ok tt, mkStore d (aead s))
      end
  end.

Definition Store_Delete (c : call) (module key : string) (s : Store) : result error unit * Store :=
  if ctx_done c then (Err ErrCancelled, s)
  else if negb (tx_Bucket (db s) module) then (Ok tt, s)
  else match update_Delete (db s) module key with
  | None => (Err ErrDB, s)
  | Some d => (Ok tt, mkStore d (aead s))
  end.

Definition Store_List (c : call) (module prefix : string) (s : Store) : result error (list string) :=
  do? guard (ctx_done c) ErrCancelled ;;
  if negb (tx_Bucket (db s) module) then Ok []
  else Ok (filter (fun k => has_prefix prefix k = true) (bucket_Keys (db s) module)).

#[export] Instance Store_backend : StoreBackend Store :=
  { Get := Store_Get; Put := Store_Put; Delete := Store_Delete; List := Store_List }.

(** *** Sealing *)

Lemma substring_app_l (a b : string) : String.substring 0 (String.length a) (a +++ b) = a.
Proof. induction a as [|c a IH]; simpl; [by destruct b|]. by rewrite IH. Qed.

Lemma substring_all (b : string) : String.substring 0 (String.length b) b = b.
Proof. induction b as [|c b IH]; simpl; [done|]. by rewrite IH. Qed.

Lemma substring_app_r (a b : string) :
  String.substring (String.length a) (String.length (a +++ b) - String.length a) (a +++ b) = b.
Proof.
  rewrite slength_app. replace (_ + _ - _)%nat with (String.length b) by lia.
  induction a as [|c a IH]; simpl; [apply substring_all | done].
Qed.

Lemma substring_length n (a : string) : (n <= String.length a)%nat -> String.length (String.substring 0 n a) = n.
Proof.
  revert n. induction a as [|c a IH]; intros [|n] H; simpl in *; [done | lia | done |].
  by rewrite IH by lia.
Qed.

Lemma fill_length n src : String.length (fill n src) = n.
Proof. apply substring_length. rewrite slength_app, repeat_char_length. lia. Qed.

(** A sealed value: a nonce of the cipher's size and the ciphertext. *)
Definition sealed_as (a : AEAD) (m k v sealed : string) : Prop :=
  exists nonce, String.length nonce = NonceSize a /\ sealed = nonce +++ aead_Seal a nonce v (aad m k).

Lemma seal_sealed c s m k v x : seal c s m k v = Ok x -> sealed_as (aead s) m k v x.
Proof.
  unfold seal. intros H. bind_inv H. simplify_eq. eexists. split; [|done]. apply fill_length.
Qed.

Lemma open_sealed s m k v x m' k' :
  sealed_as (aead s) m k v x ->
  open s m' k' x = of_option ErrOpen (aead_Open (aead s) (String.substring 0 (NonceSize (aead s)) x)
    (aead_Seal (aead s) (String.substring 0 (NonceSize (aead s)) x) v (aad m k)) (aad m' k')).
Proof.
  intros (n & Hn & ->). unfold open. rewrite slength_app.
  replace (_ <? _)%nat with false by (symmetry; apply Nat.ltb_ge; lia). simpl.
  rewrite <-Hn, substring_app_l. rewrite <-slength_app, substring_app_r. done.
Qed.

(** Every stored value was sealed for the place it is in. *)
Definition store_wf (s : Store) : Prop :=
  aead_correct (aead s) /\
  forall m k x, bucket_Get (db s) m k = Some x -> exists v, sealed_as (aead s) m k v x.

Definition store_view (s : Store) (m k : string) : option string :=
  x ← bucket_Get (db s) m k; match open s m k x with Ok v => Some v | Err _ => None end.

Lemma open_own s m k v x : aead_correct (aead s) -> sealed_as (aead s) m k v x -> open s m k x = Ok v.
Proof. intros Hc Hx. rewrite (open_sealed _ _ _ _ _ _ _ Hx). by rewrite Hc. Qed.

(** The database after one entry changed, seen through decryption. *)
Lemma view_after s d m k (o : option string) :
  store_wf s ->
  (forall m' k', bucket_Get d m' k' = if bool_decide ((m', k') = (m, k)) then o else bucket_Get (db s) m' k') ->
  (forall x, o = Some x -> exists v, sealed_as (aead s) m k v x) ->
  let s' := mkStore d (aead s) in
  store_wf s' /\ forall m' k', store_view s' m' k' =
    if bool_decide ((m', k') = (m, k))
    then x ← o; match open s m k x with Ok v => Some v | Err _ => None end
    else store_view s m' k'.
Proof.
  intros [Hc Hs] Hd Ho s'. split; [split; [done|]|].
  - intros m' k' x. simpl. rewrite Hd. case_bool_decide as E; [|by apply Hs]. simplify_eq. apply Ho.
  - intros m' k'. unfold store_view. simpl. rewrite Hd. by case_bool_decide as E; simplify_eq.
Qed.

Lemma Store_Put_view c m k v s r s' : store_wf s -> Store_Put c m k v s = (r, s') ->
  store_wf s' /\ forall m' k', store_view s' m' k' =
    if is_ok r && bool_decide ((m', k') = (m, k)) then Some v else store_view s m' k'.
Proof.
  intros Hwf H. unfold Store_Put in H.
  destruct (rbind _ _) as [x|e] eqn:E; [|by simplify_eq].
  destruct (update_Put (db s) m k x) as [d|] eqn:Ed; [|by simplify_eq]. simplify_eq. simpl.
  bind_inv E. pose proof (seal_sealed _ _ _ _ _ _ E) as Hx.
  destruct (view_after s d m k (Some x) Hwf) as [Hwf' Hv]; [by intros; eapply Get_Put| |].
  { intros y ?. simplify_eq. by exists v. }
  split; [done|]. intros m' k'. rewrite Hv. case_bool_decide; [|done]. simpl.
  by rewrite (open_own _ _ _ _ _ (proj1 Hwf) Hx).
Qed.

Lemma Store_Delete_view c m k s r s' : store_wf s -> Store_Delete c m k s = (r, s') ->
  store_wf s' /\ forall m' k', store_view s' m' k' =
    if is_ok r && bool_decide ((m', k') = (m, k)) then None else store_view s m' k'.
Proof.
  intros Hwf H. unfold Store_Delete in H. go_inv H; try done.
  - bool_to_prop. split; [done|]. intros m' k'. simpl. case_bool_decide; [|done]. simplify_eq.
    unfold store_view. by rewrite Get_no_bucket.
  - destruct (view_after s d m k None Hwf) as [Hwf' Hv]; [by intros; eapply Get_Delete | done |].
    split; [done|]. intros m' k'. rewrite Hv. by case_bool_decide.
Qed.

Lemma view_Some s m k : store_wf s -> is_Some (store_view s m k) <-> is_Some (bucket_Get (db s) m k).
Proof.
  intros [Hc Hs]. unfold store_view. destruct (bucket_Get (db s) m k) as [x|] eqn:E; simpl; [|done].
  destruct (Hs _ _ _ E) as [v Hv]. rewrite (open_own _ _ _ _ _ Hc Hv). split; by eexists.
Qed.

#[export] Program Instance Store_laws : StoreLaws Store := { wf := store_wf; view := store_view }.
Next Obligation.
  intros c m k s r [Hc Hs] H. unfold Get, Store_backend, Store_Get in H. bind_inv H. unfold store_view.
  destruct (tx_Bucket (db s) m) eqn:Eb; simpl in H.
  - destruct (bucket_Get (db s) m k) as [x|]; simpl; [|by simplify_eq].
    bind_inv H. rewrite Hb0. by simplify_eq.
  - rewrite Get_no_bucket by done. by simplify_eq.
Qed.
Next Obligation.
  intros c m k s [Hc Hs] H. unfold Get, Store_backend, Store_Get. rewrite H. simpl.
  destruct (tx_Bucket (db s) m); [|done]. simpl.
  destruct (bucket_Get (db s) m k) as [x|] eqn:E; [|done].
  destruct (Hs _ _ _ E) as [v Hv]. by rewrite (open_own _ _ _ _ _ Hc Hv).
Qed.
Next Obligation. apply Store_Put_view. Qed.
Next Obligation. apply Store_Delete_view. Qed.
Next Obligation.
  intros c m p s l Hwf H. unfold List, Store_backend, Store_List in H. bind_inv H.
  destruct (tx_Bucket (db s) m) eqn:Eb; simpl in H; simplify_eq.
  - split; [apply NoDup_filter, Keys_NoDup|]. intros k.
    by rewrite list_elem_of_filter, Keys_Get, view_Some.
  - split; [constructor|]. intros k. rewrite view_Some, Get_no_bucket, elem_of_nil by done.
    split; [done|]. by intros [_ []].
Qed.
End Encrypted.

(** ** Any two lawful backends answer alike *)

Inductive op :=
| OGet (m k : string) | OPut (m k v : string) | ODelete (m k : string) | OList (m p : string).
Inductive answer := AValue (v : option string) | ADone | AKeys (ks : list string).

(** Key lists are compared as sets: one backend iterates over a Go map. *)
Definition same_answer (x y : result error answer) : Prop :=
  match x, y with
  | Ok (AKeys a), Ok (AKeys b) => a ≡ₚ b
  | Ok a, Ok b => a = b
  | _, _ => False
  end.

Section Traces.
Context {S : Type} `{!StoreBackend S}.

Definition do_op (c : call) (o : op) (s : S) : result error answer * S :=
  match o with
  | OGet m k => ((v <-? Get c m k s ;; Ok (AValue v)), s)
  | OPut m k v => let (r, s') := Put c m k v s in ((do? r ;; Ok ADone), s')
  | ODelete m k => let (r, s') := Delete c m k s in ((do? r ;; Ok ADone), s')
  | OList m p => ((l <-? List c m p s ;; Ok (AKeys l)), s)
  end.

Fixpoint run_ops (t : list (call * op)) (s : S) : list (result error answer) * S :=
  match t with
  | [] => ([], s)
  | (c, o) :: t' =>
      let (r, s1) := do_op c o s in
      let (rs, s2) := run_ops t' s1 in (r :: rs, s2)
  end.
End Traces.

Section Refinement.
Context {S1 S2 : Type} `{StoreLaws S1, StoreLaws S2}.

Definition agree (s1 : S1) (s2 : S2) : Prop :=
  wf s1 /\ wf s2 /\ forall m k, view s1 m k = view s2 m k.

Lemma do_op_agree c o s1 s2 r1 s1' r2 s2' :
  agree s1 s2 -> do_op c o s1 = (r1, s1') -> do_op c o s2 = (r2, s2') ->
  is_ok r1 = true -> is_ok r2 = true -> same_answer r1 r2 /\ agree s1' s2'.
Proof.
  intros (Hw1 & Hw2 & Hv) H1' H2' Hok1 Hok2. destruct o as [m k|m k v|m k|m p]; simpl in *.
  - destruct (Get c m k s1) as [v1|] eqn:E1, (Get c m k s2) as [v2|] eqn:E2; simplify_eq/=.
    apply Get_view in E1, E2; [|done..]. split; [congruence | done].
  - destruct (Put c m k v s1) as [q1 t1] eqn:E1, (Put c m k v s2) as [q2 t2] eqn:E2.
    apply Put_view in E1 as [Hw1' Hv1], E2 as [Hw2' Hv2]; [|done..].
    destruct q1, q2; simplify_eq/=. split; [done|]. split_and!; [done..|].
    intros m' k'. rewrite Hv1, Hv2. by rewrite Hv.
  - destruct (Delete c m k s1) as [q1 t1] eqn:E1, (Delete c m k s2) as [q2 t2] eqn:E2.
    apply Delete_view in E1 as [Hw1' Hv1], E2 as [Hw2' Hv2]; [|done..].
    destruct q1, q2; simplify_eq/=. split; [done|]. split_and!; [done..|].
    intros m' k'. rewrite Hv1, Hv2. by rewrite Hv.
  - destruct (List c m p s1) as [l1|] eqn:E1, (List c m p s2) as [l2|] eqn:E2; simplify_eq/=.
    apply List_view in E1 as [Hn1 Hl1], E2 as [Hn2 Hl2]; [|done..]. split; [|done].
    apply NoDup_Permutation; [done..|]. intros k. by rewrite Hl1, Hl2, Hv.
Qed.

Lemma run_ops_agree t : forall s1 s2 rs1 s1' rs2 s2',
  agree s1 s2 -> run_ops t s1 = (rs1, s1') -> run_ops t s2 = (rs2, s2') ->
  Forall (fun r => is_ok r = true) rs1 -> Forall (fun r => is_ok r = true) rs2 ->
  Forall2 same_answer rs1 rs2 /\ agree s1' s2'.
Proof.
  induction t as [|[c o] t IH]; intros s1 s2 rs1 s1' rs2 s2' Ha H1' H2' Hok1 Hok2; simpl in *.
  { simplify_eq. by split. }
  destruct (do_op c o s1) as [r1 t1] eqn:E1, (do_op c o s2) as [r2 t2] eqn:E2.
  destruct (run_ops t t1) as [q1 u1] eqn:F1, (run_ops t t2) as [q2 u2] eqn:F2. simplify_eq.
  inversion Hok1; inversion Hok2; subst.
  destruct (do_op_agree _ _ _ _ _ _ _ _ Ha E1 E2) as [Hs Ha1]; [done..|].
  destruct (IH _ _ _ _ _ _ Ha1 F1 F2) as [Hs2 Ha2]; [done..|]. split; [by constructor | done].
Qed.
End Refinement.

Lemma mem_always_ok t : forall (s : MemStore), Forall (fun r => is_ok r = true) (fst (run_ops t s)).
Proof.
  induction t as [|[c o] t IH]; intros s; simpl; [constructor|].
  destruct (do_op c o s) as [r s1] eqn:E. destruct (run_ops t s1) as [rs s2] eqn:F. simpl.
  constructor; [|specialize (IH s1); by rewrite F in IH].
  destruct o; simpl in E; by simplify_eq.
Qed.

Section Claims.
Context {DB : Type} `{!Bolt DB, !BoltLaws DB}.


Lemma aad_inj m k m' k' :
  contains NUL m = false -> contains NUL m' = false -> aad m k = aad m' k' -> m = m' /\ k = k'.
Proof. apply sapp_sep_inj. Qed.

(** Values are bound to their place: bytes the store sealed for one entry
    and found under any other (module names hold no NUL) fail to open, so a
    moved or replayed ciphertext is an error and never a value. *)
Theorem relocated_value_refused (s : @Store DB) c m k v x m' k' :
  aead_bound (aead s) -> contains NUL m = false -> contains NUL m' = false -> (m', k') <> (m, k) ->
  seal c s m k v = Ok x -> tx_Bucket (db s) m' = true -> bucket_Get (db s) m' k' = Some x ->
  ctx_done c = false -> Store_Get c m' k' s = Err ErrOpen.
Proof.
  intros Hb Hm Hm' Hne Hx Ht Hg Hc. unfold Store_Get. rewrite Hc, Ht, Hg. simpl.
  rewrite (open_sealed _ _ _ _ _ _ _ (seal_sealed _ _ _ _ _ _ Hx)), Hb; [done|].
  intros Heq. apply Hne. by destruct (aad_inj _ _ _ _ Hm' Hm Heq) as [-> ->].
Qed.
End Claims.

(** ** Witnesses: a database and a cipher that meet the classes *)

#[export] Instance map_bolt : Bolt MemStore := {
  tx_Bucket d m := bool_decide (is_Some (d !! m));
  bucket_Get d m k := inner d m !! k;
  update_Put d m k v := Some (<[m := <[k := v]> (inner d m)]> d);
  update_Delete d m k := Some (<[m := delete k (inner d m)]> d);
  bucket_Keys d m := (map_to_list (inner d m)).*1 }.

#[export] Instance map_bolt_laws : BoltLaws MemStore.
Proof.
  constructor; simpl.
  - intros d m k H%bool_decide_eq_false. unfold inner.
    destruct (d !! m); [exfalso; by apply H; eexists | done].
  - intros d m k v d' m' k' H. simplify_eq. rewrite inner_insert, pair_decide.
    repeat case_bool_decide; simplify_eq; simpl; [apply lookup_insert_eq | by apply lookup_insert_ne | done..].
  - intros d m k d' m' k' H. simplify_eq. rewrite inner_insert, pair_decide.
    repeat case_bool_decide; simplify_eq; simpl; [apply lookup_delete_eq | by apply lookup_delete_ne | done..].
  - intros d m k. rewrite list_elem_of_fmap. split.
    + intros ([k' v] & -> & H%elem_of_map_to_list). by eexists.
    + intros [v Hv]. exists (k, v). split; [done|]. by apply elem_of_map_to_list.
  - intros d m. apply NoDup_fst_map_to_list.
Qed.

Definition toy_aead : AEAD := mkAEAD 2
  (fun _ p d => pos_str (encode (p, d)))
  (fun _ c d => x ← str_pos c; y ← decode x;
                if decide (snd y = d) then Some (fst y : string) else None).

Lemma toy_aead_open n p d d' :
  aead_Open toy_aead n (aead_Seal toy_aead n p d) d' = if decide (d = d') then Some p else None.
Proof. simpl. rewrite str_pos_str. simpl. rewrite decode_encode. done. Qed.

Definition a_call : call := mkCall false (Some "entropy").


Lemma relocated_value_refused_witness :
  let s := mkStore (∅ : MemStore) toy_aead in
  exists x, seal a_call s "sysinfo" "a" "1" = Ok x /\
    Store_Get a_call "other" "a" (mkStore (<["other" := <["a" := x]> ∅]> ∅ : MemStore) toy_aead) = Err ErrOpen.
Proof.
  intros s. eexists. split; [reflexivity|].
  refine (relocated_value_refused (mkStore (<["other" := <["a" := _]> ∅]> ∅ : MemStore) toy_aead)
    a_call "sysinfo" "a" "1" _ "other" "a" _ eq_refl eq_refl _ eq_refl _ _ eq_refl).
  - intros n p d d' Hne. rewrite toy_aead_open. by rewrite decide_False.
  - done.
  - by vm_compute.
  - by vm_compute.
Defined.

(** ** The master key on disk *)

(** [keyprotect.Protector] *)
Class Protector := { Seal : string -> option string; Unseal : string -> option string }.
Class ProtectorLaws {Prot : Protector} : Prop :=
  Unseal_Seal k x : Seal k = Some x -> Unseal x = Some k.

(** [fileProtector], the unix one: file permissions are the gate. *)
#[export] Instance fileProtector : Protector := { Seal k := Some k; Unseal x := Some x }.
#[export] Instance fileProtector_laws : ProtectorLaws.
Proof. by intros k x. Qed.

Section Key.
Context {Prot : Protector} {X : Type}.
Import os.
Open Scope os_scope.
Implicit Types w : world X.

(** [loadOrCreateKey]; [rand] is what the entropy source gives. *)
Definition loadOrCreateKey (rand : option string) (path : list string) : M X string :=
  r <-! attempt (ReadFile path) ;;
  match r with
  | Ok sealed =>
      match Unseal sealed with
      | None => fail (EMsg "unsealing master key")
      | Some key => if negb (String.length key =? 32)%nat then fail (EMsg "master key has wrong length")
                    else ret key
      end
  | Err ENOENT =>
      match rand with
      | None => fail (EMsg "rand")
      | Some src =>
          let key := fill 32 src in
          match Seal key with
          | None => fail (EMsg "sealing master key")
          | Some sealed =>
              do! replace_file true true (parent path) ".key-" path sealed ;;
              ret key
          end
      end
  | Err e => fail e
  end.

(** [Open]: the key, the cipher made from it, the database. *)
Context {DB : Type} (NewGCM : string -> option AEAD) (bolt_Open : list string -> option DB).
Definition Open_ (rand : option string) (dir : list string) : M X (@Store DB) :=
  key <-! loadOrCreateKey rand (Join dir ["store.key"]) ;;
  match NewGCM key with
  | None => fail (EMsg "cipher")
  | Some a =>
      match bolt_Open (Join dir ["store.db"]) with
      | None => fail (EMsg "store")
      | Some d => ret (mkStore d a)
      end
  end.

Context {HP : ProtectorLaws}.

(** C26. The master key survives every failure and crash: an existing key file is
    never touched; a file the call creates holds a complete sealed 32-byte key;
    and a key that was returned is the one the file unseals to. *)
Theorem loadOrCreateKey_safe rand dir w r w' :
  let p := dir ++ ["store.key"] in
  loadOrCreateKey rand p w = (r, w') ->
  (forall key, r = Ok key -> String.length key = 32%nat /\
     exists sealed, w_fs w' !! p = Some (File sealed) /\ Unseal sealed = Some key) /\
  (w_fs w' !! p = w_fs w !! p \/
   w_fs w !! p = None /\ exists key sealed, String.length key = 32%nat /\ Seal key = Some sealed /\
     w_fs w' !! p = Some (File sealed)).
Proof.
  intros p H. unfold loadOrCreateKey in H. rewrite bind_attempt in H.
  pose proof (touches_none _ w (touches_ReadFile _ p)) as Hfs.
  destruct (ReadFile p w) as [r1 w1] eqn:E1. cbn [fst snd] in *.
  destruct r1 as [sealed|e].
  { apply observe_Ok in E1 as [_ E1]. go_inv E1. rewrite <-Hfs in *.
    destruct (Unseal sealed) as [key|] eqn:Eu; [|unfold fail in H; simplify_eq; split; [done | by left]].
    destruct (String.length key =? 32)%nat eqn:El; simpl in H; unfold ret, fail in H; simplify_eq;
      split; [|by left | done | by left].
    intros k ?. simplify_eq. apply Nat.eqb_eq in El. eauto. }
  assert (e = ENOENT -> w_fs w !! p = None) as Hnone.
  { intros ->. apply observe_Err in E1 as [|[|E1]]; [done..|]. by go_inv E1. }
  destruct e; try (unfold fail in H; simplify_eq; split; [done | left; by rewrite Hfs]).
  specialize (Hnone eq_refl). rewrite <-Hfs in *.
  destruct rand as [src|]; [|unfold fail in H; simplify_eq; split; [done | by left]].
  destruct (Seal (fill 32 src)) as [sealed|] eqn:Es; [|unfold fail in H; simplify_eq; split; [done | by left]].
  unfold parent, p in H. rewrite removelast_last in H. unfold bind in H.
  destruct (replace_file _ _ _ _ _ _ w1) as [r2 w2] eqn:E2.
  apply replace_file_atomic in E2; [|done]. simpl in E2. fold p in E2.
  assert (forall k, fill 32 src = k -> String.length k = 32%nat) as Hlen by (intros ? <-; apply fill_length).
  destruct E2 as [[-> Hp]|(e & -> & Hp)]; unfold ret in H; simplify_eq.
  - split; [|right; eauto 8]. intros k ?. simplify_eq. split; [apply fill_length|].
    exists sealed. split; [done | by eapply Unseal_Seal].
  - split; [done|]. destruct Hp as [Hp|[_ Hp]]; [by left | right; eauto 8].
Qed.
End Key.

Lemma loadOrCreateKey_safe_witness :
  let w := os.mkWorld (<[["var"] := os.Dir]> ∅) [os.Works; os.Works; os.Crashes (os.mkProgress 5 [])] true 1 tt in
  let out := loadOrCreateKey (Some "seed") (["var"] ++ ["store.key"]) w in
  os.w_fs (snd out) !! ["var"; "store.key"] = None \/
  os.w_fs w !! ["var"; "store.key"] = None /\ exists key sealed, String.length key = 32%nat /\
    Seal key = Some sealed /\ os.w_fs (snd out) !! ["var"; "store.key"] = Some (os.File sealed).
Proof.
  intros w out.
  apply (loadOrCreateKey_safe (Some "seed") ["var"] w (fst out)). apply surjective_pairing.
Defined.
End store.
