(* ===== verification/EventBus.v ===== *)
(** * The event bus (internal/eventbus)

    Publish/subscribe between modules with at-most-once delivery.  The bus is a
    heap of subscription objects with the set of the registered ones (a closed
    subscription stays readable), and the per-topic sequence counters. *)

From stdpp Require Import base list strings gmap.
From Stdlib Require Import ZArith Lia Ascii.
From S2P Require Import Prelude.
From S2P Require Import GoStrings.
Open Scope Z_scope.

Local Infix "+++" := String.append (at level 60, right associativity).

Module eventbus.

Definition u64 (n : Z) : Z := n mod 2 ^ 64.

Record Event := mkEvent { Topic : string; Data : string; PublishedAt : Z; Sequence : Z }.

Record Subscription := mkSubscription {
  topics : list string; ch : list Event; dropped : Z }.

Record Bus := mkBus {
  heap : gmap nat Subscription;   (* every subscription ever made *)
  subs : gset nat;                (* the registered ones *)
  seq : gmap string Z;
  fresh_id : nat }.

Definition New : Bus := mkBus ∅ ∅ ∅ 0.

(** One pattern: equal, or a prefix glob ending in a star. *)
Definition matches1 (p topic : string) : bool :=
  String.eqb p topic ||
  match cut_suffix "*" p with Some pre => has_prefix pre topic | None => false end.
Definition matches (ps : list string) (topic : string) : bool := existsb (fun p => matches1 p topic) ps.

Definition buffer : nat := 64.

(** The [select] with a default: a full buffer loses the event and counts it. *)
Definition deliver (ev : Event) (s : Subscription) : Subscription :=
  if matches (topics s) (Topic ev) then
    if (length (ch s) <? buffer)%nat then mkSubscription (topics s) (ch s ++ [ev]) (dropped s)
    else mkSubscription (topics s) (ch s) (u64 (dropped s + 1))
  else s.

Definition full_topic (from topic : string) : string := from +++ "." +++ topic.

(** The event [Publish] stamps. *)
Definition stamp (b : Bus) (from topic data : string) (now : Z) : Event :=
  mkEvent (full_topic from topic) data now (u64 (default 0 (seq b !! full_topic from topic) + 1)).

Definition Publish (from topic data : string) (now : Z) (b : Bus) : Bus :=
  let ev := stamp b from topic data now in
  mkBus (map_imap (fun id s => Some (if decide (id ∈ subs b) then deliver ev s else s)) (heap b))
        (subs b) (<[Topic ev := Sequence ev]> (seq b)) (fresh_id b).

Definition Subscribe (ts : list string) (b : Bus) : nat * Bus :=
  (fresh_id b, mkBus (<[fresh_id b := mkSubscription ts [] 0]> (heap b))
                     ({[fresh_id b]} ∪ subs b) (seq b) (S (fresh_id b))).

(** A read from [C()]. *)
Definition Receive (id : nat) (b : Bus) : option (Event * Bus) :=
  match heap b !! id with
  | Some (mkSubscription ts (ev :: q) d) =>
      Some (ev, mkBus (<[id := mkSubscription ts q d]> (heap b)) (subs b) (seq b) (fresh_id b))
  | _ => None
  end.

Definition Dropped (id : nat) (b : Bus) : Z := default 0 (dropped <$> heap b !! id).

Definition Close (id : nat) (b : Bus) : Bus :=
  mkBus (heap b) (subs b ∖ {[id]}) (seq b) (fresh_id b).

(** ** Histories

    The bus beside what each subscription should have seen ([log]: the matching
    events published while it was registered), what its reader took ([taken]),
    and the number of publications. *)

Record history := mkHistory {
  bus : Bus; log : nat -> list Event; taken : nat -> list Event; pubs : Z }.

Definition start : history := mkHistory New (fun _ => []) (fun _ => []) 0.

Definition extend (f : nat -> list Event) (id : nat) (ev : Event) : nat -> list Event :=
  fun i => if decide (i = id) then f i ++ [ev] else f i.

Inductive step : history -> history -> Prop :=
| SPublish h from topic data now :
    let ev := stamp (bus h) from topic data now in
    step h (mkHistory (Publish from topic data now (bus h))
      (fun i => match heap (bus h) !! i with
                | Some s => if decide (i ∈ subs (bus h)) then
                              if matches (topics s) (Topic ev) then log h i ++ [ev] else log h i
                            else log h i
                | None => log h i
                end) (taken h) (pubs h + 1))
| SSubscribe h ts : step h (mkHistory (snd (Subscribe ts (bus h))) (log h) (taken h) (pubs h))
| SReceive h id ev b : Receive id (bus h) = Some (ev, b) ->
    step h (mkHistory b (log h) (extend (taken h) id ev) (pubs h))
| SClose h id : step h (mkHistory (Close id (bus h)) (log h) (taken h) (pubs h)).

(** What the reader of [id] got or can still get. *)
Definition delivered (h : history) (id : nat) : list Event :=
  taken h id ++ default [] (ch <$> heap (bus h) !! id).

Definition on_topic (t : string) (l : list Event) : list Event := filter (fun e => Topic e = t) l.

(** The numbers a topic's events carry in a log: consecutive. *)
Fixpoint consecutive (n : Z) (l : list Event) : Prop :=
  match l with
  | [] => True
  | e :: l' => Sequence e = n + 1 /\ consecutive (n + 1) l'
  end.

Record inv (h : history) : Prop := {
  i_fresh : forall id, (fresh_id (bus h) <= id)%nat ->
    heap (bus h) !! id = None /\ (id ∉ subs (bus h)) /\ log h id = [] /\ taken h id = [];
  i_subs : forall id, id ∈ subs (bus h) -> is_Some (heap (bus h) !! id);
  i_seq : forall t n, seq (bus h) !! t = Some n -> 0 <= n <= pubs h;
  i_pubs : 0 <= pubs h;
  i_deliv : forall id s, heap (bus h) !! id = Some s ->
    sublist (delivered h id) (log h id) /\
    Z.of_nat (length (delivered h id)) + dropped s = Z.of_nat (length (log h id)) /\
    (length (ch s) <= buffer)%nat /\ 0 <= dropped s <= pubs h;
  i_log : forall id t, exists n, consecutive n (on_topic t (log h id)) /\ 0 <= n /\
    n + Z.of_nat (length (on_topic t (log h id))) <= default 0 (seq (bus h) !! t) /\
    (forall s, id ∈ subs (bus h) -> heap (bus h) !! id = Some s -> matches (topics s) t = true ->
       n + Z.of_nat (length (on_topic t (log h id))) = default 0 (seq (bus h) !! t)) }.

Lemma u64_small n : 0 <= n < 2 ^ 64 -> u64 n = n.
Proof. intros H. by apply Z.mod_small. Qed.

Lemma consecutive_snoc n l e :
  consecutive n l -> Sequence e = n + Z.of_nat (length l) + 1 -> consecutive n (l ++ [e]).
Proof.
  revert n. induction l as [|x l IH]; intros n H He; simpl in *; [split; [lia | done]|].
  destruct H as [H1 H2]. split; [done|]. apply IH; [done | lia].
Qed.

(** Within a log the number identifies the event. *)
Lemma consecutive_bound n l e : consecutive n l -> e ∈ l -> n < Sequence e.
Proof.
  revert n. induction l as [|x l IH]; intros n H He; [by apply elem_of_nil in He|].
  destruct H as [H1 H2]. apply elem_of_cons in He as [->|He]; [lia|]. apply IH in H2; [lia | done].
Qed.

Lemma consecutive_inj n l e e' :
  consecutive n l -> e ∈ l -> e' ∈ l -> Sequence e = Sequence e' -> e = e'.
Proof.
  revert n. induction l as [|x l IH]; intros n H He He' Heq; [by apply elem_of_nil in He|].
  destruct H as [H1 H2]. apply elem_of_cons in He, He'. destruct He as [->|He], He' as [->|He'].
  - done.
  - apply (consecutive_bound _ _ _ H2) in He'. lia.
  - apply (consecutive_bound _ _ _ H2) in He. lia.
  - by eapply IH.
Qed.

Lemma on_topic_snoc t l e :
  on_topic t (l ++ [e]) = if decide (Topic e = t) then on_topic t l ++ [e] else on_topic t l.
Proof.
  unfold on_topic. rewrite filter_app, filter_cons, filter_nil.
  by destruct (decide (Topic e = t)); [|rewrite app_nil_r].
Qed.

Lemma inv_start : inv start.
Proof.
  constructor; simpl.
  - intros id _. split_and!; [done | apply not_elem_of_empty | done..].
  - intros id H. by apply elem_of_empty in H.
  - done.
  - done.
  - done.
  - intros id t. exists 0. split_and!; [done..|]. intros s H. by apply elem_of_empty in H.
Qed.

Lemma heap_Publish from topic data now b id :
  heap (Publish from topic data now b) !! id =
  (fun s => if decide (id ∈ subs b) then deliver (stamp b from topic data now) s else s) <$> heap b !! id.
Proof. simpl. rewrite map_lookup_imap. by destruct (heap b !! id). Qed.

(** The delivery half of the invariant, for one subscription and one event. *)
Lemma deliver_inv ev s tk lg n :
  sublist (tk ++ ch s) lg -> Z.of_nat (length (tk ++ ch s)) + dropped s = Z.of_nat (length lg) ->
  (length (ch s) <= buffer)%nat -> 0 <= dropped s <= n -> n + 1 < 2 ^ 64 ->
  let s' := deliver ev s in
  let lg' := if matches (topics s) (Topic ev) then lg ++ [ev] else lg in
  sublist (tk ++ ch s') lg' /\ Z.of_nat (length (tk ++ ch s')) + dropped s' = Z.of_nat (length lg') /\
  (length (ch s') <= buffer)%nat /\ 0 <= dropped s' <= n + 1 /\ topics s' = topics s.
Proof.
  intros H1 H2 H3 H4 Hn. unfold deliver. destruct (matches (topics s) (Topic ev)); simpl.
  - destruct (length (ch s) <? buffer)%nat eqn:E; simpl.
    + apply Nat.ltb_lt in E. rewrite app_assoc, !length_app in *. simpl.
      split_and!; [by apply sublist_app | lia..| done].
    + rewrite u64_small by lia. rewrite !length_app in *. simpl.
      split_and!; [by apply sublist_inserts_r | lia..| done].
  - split_and!; [done | done | done | lia | lia | done].
Qed.

Lemma inv_publish h from topic data now : inv h -> pubs h + 1 < 2 ^ 64 ->
  let ev := stamp (bus h) from topic data now in
  inv (mkHistory (Publish from topic data now (bus h))
      (fun i => match heap (bus h) !! i with
                | Some s => if decide (i ∈ subs (bus h)) then
                              if matches (topics s) (Topic ev) then log h i ++ [ev] else log h i
                            else log h i
                | None => log h i
                end) (taken h) (pubs h + 1)).
Proof.
  intros [Hfresh Hsubs Hseq Hp Hdel Hlog] Hb ev.
  assert (Sequence ev = default 0 (seq (bus h) !! Topic ev) + 1) as Hev.
  { simpl. apply u64_small. destruct (seq (bus h) !! full_topic from topic) eqn:E; simpl; [|lia].
    apply Hseq in E. lia. }
  constructor; cbn [bus log taken pubs].
  - intros id Hid. destruct (Hfresh id Hid) as (H1 & H2 & H3 & H4).
    rewrite heap_Publish, H1. done.
  - intros id Hid. rewrite heap_Publish. by apply fmap_is_Some, Hsubs.
  - intros t n. cbn [seq Publish]. fold ev.
    rewrite lookup_insert_Some. intros [[<- <-]|[_ Ht]].
    + rewrite Hev. destruct (seq (bus h) !! Topic ev) eqn:E; simpl; [|lia]. apply Hseq in E. lia.
    + apply Hseq in Ht. lia.
  - lia.
  - intros id s'. unfold delivered. cbn [bus taken]. rewrite heap_Publish.
    destruct (heap (bus h) !! id) as [s|] eqn:E; simpl; [|done]. intros ?. simplify_eq.
    destruct (Hdel _ _ E) as (H1 & H2 & H3 & H4). unfold delivered in H1, H2.
    rewrite E in H1, H2. simpl in H1, H2. destruct (decide (id ∈ subs (bus h))).
    + fold ev. destruct (deliver_inv ev s _ _ (pubs h) H1 H2 H3 H4 Hb) as (G1 & G2 & G3 & G4 & _). done.
    + split_and!; [done..|lia|lia].
  - intros id t. destruct (Hlog id t) as (n & Hc & Hn & Hle & Heq). exists n.
    cbn [seq subs Publish]. fold ev. rewrite heap_Publish. fold ev.
    assert (default 0 (seq (bus h) !! t) <= default 0 (<[Topic ev:=Sequence ev]> (seq (bus h)) !! t)) as Hmono.
    { destruct (decide (Topic ev = t)) as [<-|]; [rewrite lookup_insert_eq, Hev; simpl; lia|].
      by rewrite lookup_insert_ne. }
    clearbody ev. destruct (heap (bus h) !! id) as [s|] eqn:E; simpl;
      [|split_and!; [done | done | lia | by intros s' _ Hs]].
    destruct (decide (id ∈ subs (bus h))) as [Hin|Hnin];
      [|split_and!; [done | done | lia | by intros s' Hs]].
    assert (forall s', Some (deliver ev s) = Some s' -> topics s' = topics s) as Htop.
    { intros s' Hs'. injection Hs' as <-. unfold deliver. by repeat case_match. }
    specialize (Heq s Hin eq_refl). destruct (decide (Topic ev = t)) as [<-|Hne].
    + rewrite lookup_insert_eq in *. simpl default in *.
      destruct (matches (topics s) (Topic ev)) eqn:Em.
      * rewrite on_topic_snoc, decide_True, length_app by done. specialize (Heq eq_refl). simpl length.
        split_and!; [apply consecutive_snoc; [done | lia] | done | lia | intros; lia].
      * split_and!; [done | done | lia |]. intros s' _ Hs' Hm. apply Htop in Hs'. congruence.
    + rewrite lookup_insert_ne in * by done.
      replace (on_topic t (if matches (topics s) (Topic ev) then log h id ++ [ev] else log h id))
        with (on_topic t (log h id))
        by (destruct (matches (topics s) (Topic ev)); [rewrite on_topic_snoc, decide_False by done|]; done).
      split_and!; [done | done | done |]. intros s' _ Hs' Hm. apply Htop in Hs'. rewrite Hs' in Hm. auto.
Qed.

Lemma inv_subscribe h ts : inv h -> inv (mkHistory (snd (Subscribe ts (bus h))) (log h) (taken h) (pubs h)).
Proof.
  intros [Hfresh Hsubs Hseq Hp Hdel Hlog].
  destruct (Hfresh (fresh_id (bus h)) (le_n _)) as (H1 & H2 & H3 & H4).
  constructor; cbn [bus log taken pubs snd Subscribe heap subs seq fresh_id]; try done.
  - intros id Hid. destruct (Hfresh id) as (G1 & G2 & G3 & G4); [lia|].
    rewrite lookup_insert_ne by lia. split_and!; [done | | done..]. set_unfold. naive_solver lia.
  - intros id. rewrite elem_of_union, elem_of_singleton. intros [->|Hid]; [by rewrite lookup_insert_eq|].
    rewrite lookup_insert_ne; [by apply Hsubs|]. intros <-. done.
  - intros id s. unfold delivered. cbn [bus taken heap].
    destruct (decide (fresh_id (bus h) = id)) as [<-|Hne].
    + rewrite lookup_insert_eq, H3, H4. intros ?. simplify_eq. simpl. split_and!; [constructor | lia..].
    + rewrite lookup_insert_ne by done. intros Hs. by apply Hdel.
  - intros id t. destruct (decide (fresh_id (bus h) = id)) as [<-|Hne].
    + exists (default 0 (seq (bus h) !! t)). rewrite H3. simpl. split_and!; [done | | lia | intros; lia].
      destruct (seq (bus h) !! t) eqn:E; simpl; [|lia]. apply Hseq in E. lia.
    + rewrite lookup_insert_ne by done. destruct (Hlog id t) as (n & G1 & G2 & G3 & G4). exists n.
      split_and!; [done..|]. intros s Hin. apply G4. set_solver.
Qed.

Lemma Receive_Some id b ev b' : Receive id b = Some (ev, b') -> exists ts q d,
  heap b !! id = Some (mkSubscription ts (ev :: q) d) /\
  b' = mkBus (<[id := mkSubscription ts q d]> (heap b)) (subs b) (seq b) (fresh_id b).
Proof.
  unfold Receive. intros H. destruct (heap b !! id) as [[ts [|e q] d]|] eqn:E; simplify_eq. eauto.
Qed.

Lemma inv_receive h id ev b : inv h -> Receive id (bus h) = Some (ev, b) ->
  inv (mkHistory b (log h) (extend (taken h) id ev) (pubs h)).
Proof.
  intros [Hfresh Hsubs Hseq Hp Hdel Hlog] (ts & q & d & Hid & ->)%Receive_Some.
  constructor; cbn [bus log taken pubs heap subs seq fresh_id]; try done.
  - intros i Hi. destruct (Hfresh i Hi) as (G1 & G2 & G3 & G4).
    assert (i <> id) as Hne by congruence. rewrite lookup_insert_ne by done.
    unfold extend. by rewrite decide_False.
  - intros i Hi. destruct (decide (id = i)) as [<-|]; [by rewrite lookup_insert_eq|].
    rewrite lookup_insert_ne by done. by apply Hsubs.
  - intros i s. unfold delivered, extend. cbn [bus taken heap].
    destruct (decide (id = i)) as [<-|Hne].
    + rewrite lookup_insert_eq, decide_True by done. intros ?. simplify_eq. simpl.
      destruct (Hdel _ _ Hid) as (G1 & G2 & G3 & G4). unfold delivered in G1, G2. rewrite Hid in G1, G2.
      simpl in *. rewrite <-app_assoc. split_and!; [done | done | lia | lia | lia].
    + rewrite lookup_insert_ne, decide_False by done. intros Hs. by apply Hdel.
  - intros i t. destruct (Hlog i t) as (n & G1 & G2 & G3 & G4). exists n. split_and!; [done..|].
    intros s Hin Hs. destruct (decide (id = i)) as [<-|Hne].
    + rewrite lookup_insert_eq in Hs. simplify_eq. simpl. by apply (G4 _ Hin Hid).
    + rewrite lookup_insert_ne in Hs by done. by apply G4.
Qed.

Lemma inv_close h id : inv h -> inv (mkHistory (Close id (bus h)) (log h) (taken h) (pubs h)).
Proof.
  intros [Hfresh Hsubs Hseq Hp Hdel Hlog].
  constructor; cbn [bus log taken pubs Close heap subs seq fresh_id]; try done.
  - intros i Hi. destruct (Hfresh i Hi) as (G1 & G2 & G3 & G4). split_and!; [done | set_solver | done..].
  - intros i Hi. apply Hsubs. set_solver.
  - intros i t. destruct (Hlog i t) as (n & G1 & G2 & G3 & G4). exists n. split_and!; [done..|].
    intros s Hin. apply G4. set_solver.
Qed.

Lemma inv_step h h' : step h h' -> pubs h' < 2 ^ 64 -> inv h -> inv h'.
Proof.
  intros Hs Hb Hi. destruct Hs.
  - by apply inv_publish.
  - by apply inv_subscribe.
  - by apply inv_receive.
  - by apply inv_close.
Qed.

Lemma steps_pubs h h' : steps step h h' -> pubs h <= pubs h'.
Proof.
  induction 1 as [|h1 h2 h3 Hs Hr IH]; [lia|].
  enough (pubs h1 <= pubs h2) by lia. destruct Hs; simpl; lia.
Qed.

Lemma inv_reachable h : steps step start h -> pubs h < 2 ^ 64 -> inv h.
Proof.
  intros Hr. generalize inv_start. induction Hr as [|h1 h2 h3 Hs Hr IH]; intros Hi Hb; [done|].
  apply IH; [|done]. eapply inv_step; [done| |done]. apply steps_pubs in Hr. lia.
Qed.

(** C23. At-most-once, in order, with an honest loss counter: in every history of
    publications, subscriptions, reads and closes, what a subscriber took or can
    still take is a subsequence of the matching events published while it was
    registered, its buffer never exceeds 64, and its counter is exactly the
    number of events it lost. *)
Theorem bus_delivery h id s :
  steps step start h -> pubs h < 2 ^ 64 -> heap (bus h) !! id = Some s ->
  sublist (delivered h id) (log h id) /\ (length (ch s) <= 64)%nat /\
  dropped s = Z.of_nat (length (log h id)) - Z.of_nat (length (delivered h id)).
Proof.
  intros Hr Hb Hs. destruct (i_deliv _ (inv_reachable _ Hr Hb) _ _ Hs) as (H1 & H2 & H3 & _).
  split_and!; [done | done | lia].
Qed.

(** Losses are visible in the sequence numbers: on each topic the events a
    subscription should have seen are numbered consecutively, and one of them
    was delivered exactly when its number is among the delivered numbers. *)
Theorem bus_gap_detection h id s t :
  steps step start h -> pubs h < 2 ^ 64 -> heap (bus h) !! id = Some s ->
  (exists n, consecutive n (on_topic t (log h id))) /\
  forall e, e ∈ on_topic t (log h id) ->
    (e ∈ delivered h id <-> Sequence e ∈ Sequence <$> on_topic t (delivered h id)).
Proof.
  intros Hr Hb Hs. pose proof (inv_reachable _ Hr Hb) as Hi.
  destruct (i_log _ Hi id t) as (n & Hc & _). split; [by exists n|].
  destruct (i_deliv _ Hi _ _ Hs) as (Hsub & _).
  intros e He. unfold on_topic in *. apply list_elem_of_filter in He as [Ht Hin]. split.
  - intros Hd. apply list_elem_of_fmap. exists e. split; [done|]. by apply list_elem_of_filter.
  - intros (e' & Heq & [Ht' Hd']%list_elem_of_filter)%list_elem_of_fmap.
    assert (e = e') as <-; [|done].
    eapply consecutive_inj; [exact Hc| | |done]; apply list_elem_of_filter; [done|].
    split; [done|]. by eapply elem_of_sublist.
Qed.

(** A subscription and one publication. *)
Definition demo_history : history :=
  let h1 := mkHistory (snd (Subscribe ["sysinfo.*"] New)) (fun _ => []) (fun _ => []) 0 in
  mkHistory (Publish "sysinfo" "changed" "d" 9 (bus h1))
    (fun i => match heap (bus h1) !! i with
              | Some s => if decide (i ∈ subs (bus h1)) then
                  if matches (topics s) (Topic (stamp (bus h1) "sysinfo" "changed" "d" 9))
                  then log h1 i ++ [stamp (bus h1) "sysinfo" "changed" "d" 9] else log h1 i
                else log h1 i
              | None => log h1 i end) (taken h1) (pubs h1 + 1).

Lemma demo_reachable : steps step start demo_history.
Proof.
  eapply steps_step; [apply (SSubscribe start ["sysinfo.*"])|].
  apply steps_one. exact (SPublish _ "sysinfo" "changed" "d" 9).
Qed.

Definition demo_event : Event := mkEvent "sysinfo.changed" "d" 9 1.
Definition demo_sub : Subscription := mkSubscription ["sysinfo.*"] [demo_event] 0.

Lemma bus_delivery_witness :
  sublist (delivered demo_history 0) (log demo_history 0) /\ (length (ch demo_sub) <= 64)%nat /\
  dropped demo_sub = Z.of_nat (length (log demo_history 0)) - Z.of_nat (length (delivered demo_history 0)).
Proof. apply (bus_delivery demo_history 0 demo_sub demo_reachable); by vm_compute. Defined.

Lemma bus_gap_detection_witness :
  (exists n, consecutive n (on_topic "sysinfo.changed" (log demo_history 0))) /\
  forall e, e ∈ on_topic "sysinfo.changed" (log demo_history 0) ->
    (e ∈ delivered demo_history 0 <->
     Sequence e ∈ Sequence <$> on_topic "sysinfo.changed" (delivered demo_history 0)).
Proof. apply (bus_gap_detection demo_history 0 demo_sub "sysinfo.changed" demo_reachable); by vm_compute. Defined.
End eventbus.
