(* ===== verification/Policy.v ===== *)
(** * Policy delivery (internal/policy)

    The manager holds the last accepted document, wakes the watchers of the
    modules whose policy changed, and caches the document through the
    [StoreBackend] interface.  Watch channels have capacity one, so a channel is
    the boolean "a wake-up is pending"; a goroutine waiting on one is the watcher
    loop of hostserv, modelled at the end. *)

From stdpp Require Import base list strings gmap countable.
From Stdlib Require Import ZArith Lia Ascii.
From S2P Require Import Prelude.
From S2P Require Import GoStrings.
From S2P Require Import Base64.
From S2P Require Import Json.
From S2P Require Import Store.
Import store.
Open Scope Z_scope.
Open Scope go_scope.

Module policy.

Definition cacheNamespace : string := "core.policy".

(** [Document]: one opaque payload per module. *)
Record Document := mkDocument { Revision : Z; Modules : gmap string string }.

#[export] Instance Document_eq_dec : EqDecision Document.
Proof. solve_decision. Defined.
#[export] Instance Document_countable : Countable Document.
Proof.
  refine (inj_countable' (fun d => (Revision d, Modules d)) (fun p => mkDocument (fst p) (snd p)) _).
  by intros [].
Defined.

(** What [json.Marshal] does to a [json.RawMessage]: white space outside strings
    goes, and the characters that are unsafe in HTML or JavaScript are escaped.
    [str] says the scanner is inside a string, [esc] that a backslash precedes. *)
Definition json_space (c : ascii) : bool :=
  Ascii.eqb c " " || (byte_val c =? 9) || (byte_val c =? 10) || (byte_val c =? 13).
Definition escape_html (c : ascii) : string :=
  String "\" (String "u" (String "0" (String "0" (hex_encode (String c ""))))).
Fixpoint compact_from (str esc : bool) (s : string) : string :=
  match s with
  | "" => ""
  | String c r =>
      let str' := if str then negb (Ascii.eqb c "034" && negb esc) else Ascii.eqb c "034" in
      let esc' := str && negb esc && Ascii.eqb c "\" in
      let plain := if negb str && json_space c then compact_from str' esc' r
                   else if Ascii.eqb c "<" || Ascii.eqb c ">" || Ascii.eqb c "&"
                   then String.append (escape_html c) (compact_from str' esc' r)
                   else String c (compact_from str' esc' r) in
      match r with
      | String c1 (String c2 r') =>
          if (byte_val c =? 226) && (byte_val c1 =? 128) && ((byte_val c2 =? 168) || (byte_val c2 =? 169))
          then String.append (String "\" (String "u" (String "2" (String "0" (String "2"
                 (String (hex_digit (byte_val c2 mod 16)) "")))))) (compact_from str' esc' r')
          else plain
      | _ => plain
      end
  end.
Definition compact (s : string) : string := compact_from false false s.

(** The document codec: encoding a document that was decoded gives back the
    document with its payloads compacted. *)
Class DocumentCodec `{!JSON Document} : Prop :=
  reencoded : forall raw doc, unmarshal raw = Some doc ->
    unmarshal (marshal doc) = Some (mkDocument (Revision doc) (compact <$> Modules doc)).

(** [Manager]: [chans] are the wake-up channels, [watchers] who listens where. *)
Record Manager := mkManager {
  revision : Z;
  docs : gmap string string;
  watchers : gmap string (list nat);
  chans : gmap nat bool;
  fresh_chan : nat }.

Definition NewManager : Manager := mkManager 0 ∅ ∅ ∅ 0.

(** The first loop of [apply]: install every payload that differs. *)
Definition install (doc : Document) (old : gmap string string) : gmap string string :=
  map_fold (fun id raw acc =>
      if negb (String.eqb (default "" (old !! id)) raw) then <[id := raw]> acc else acc)
    old (Modules doc).
(** The second: drop what the document no longer has. *)
Definition drop_unseen (doc : Document) (d : gmap string string) : gmap string string :=
  filter (fun '(id, _) => is_Some (Modules doc !! id)) d.

Definition changed (doc : Document) (old : gmap string string) : list string :=
  filter (fun id => default "" (old !! id) <> default "" (Modules doc !! id)) (map_to_list (Modules doc)).*1 ++
  filter (fun id => Modules doc !! id = None) (map_to_list (install doc old)).*1.

(** A non-blocking send into a channel of capacity one. *)
Definition signal (c : nat) (ch : gmap nat bool) : gmap nat bool := <[c := true]> ch.
Definition wake (cs : list nat) (ch : gmap nat bool) : gmap nat bool := foldr signal ch cs.

(** The state part of [apply]; [None] when the revision is the current one. *)
Definition apply_doc (doc : Document) (m : Manager) : option Manager :=
  if Revision doc =? revision m then None
  else
    let ids := changed doc (docs m) in
    let cs := ids ≫= (fun id => default [] (watchers m !! id)) in
    Some (mkManager (Revision doc) (drop_unseen doc (install doc (docs m))) (watchers m)
            (wake cs (chans m)) (fresh_chan m)).

Definition Get (m : Manager) (module : string) : Z * option string := (revision m, docs m !! module).

Definition Watch (module : string) (m : Manager) : nat * Manager :=
  let c := fresh_chan m in
  (c, mkManager (revision m) (docs m)
        (<[module := default [] (watchers m !! module) ++ [c]]> (watchers m))
        (<[c := false]> (chans m)) (S c)).

(** The goroutine [Watch] starts, when its context ends. *)
Fixpoint remove_first (c : nat) (l : list nat) : list nat :=
  match l with
  | [] => []
  | x :: l' => if (x =? c)%nat then l' else x :: remove_first c l'
  end.
Definition Unwatch (module : string) (c : nat) (m : Manager) : Manager :=
  mkManager (revision m) (docs m)
    (match watchers m !! module with
     | Some ws => <[module := remove_first c ws]> (watchers m)
     | None => watchers m
     end) (chans m) (fresh_chan m).

Section Cache.
Context `{!JSON Document} {S : Type} `{!StoreBackend S}.

Definition background : call := mkCall false (Some "").

(** [apply]: a caching failure is logged only. *)
Definition apply (doc : Document) (cache : option call) (m : Manager) (s : S) : Manager * S :=
  match apply_doc doc m with
  | None => (m, s)
  | Some m' =>
      match cache with
      | None => (m', s)
      | Some c => (m', snd (Put c cacheNamespace "document" (marshal doc) s))
      end
  end.

(** [Load] *)
Definition Load (c : call) (m : Manager) (s : S) : Manager :=
  match store.Get c cacheNamespace "document" s with
  | Ok (Some raw) =>
      match unmarshal raw with
      | Some doc => fst (apply doc None m s)
      | None => m
      end
  | _ => m
  end.

(** [fetch]: the HTTP exchange is its outcome, a status and a body; the body is
    read up to 8 MiB. *)
Inductive error := ErrHTTP | ErrStatus (code : Z) | ErrMalformed.
Definition limit : nat := Z.to_nat (8 * 2 ^ 20).
Definition fetch (c : call) (resp : option (Z * string)) (m : Manager) (s : S) :
  result error unit * (Manager * S) :=
  match resp with
  | None => (Err ErrHTTP, (m, s))
  | Some (code, body) =>
      if negb (code =? 200) then (Err (ErrStatus code), (m, s))
      else match unmarshal (String.substring 0 limit body) with
      | None => (Err ErrMalformed, (m, s))
      | Some doc => (Ok tt, apply doc (Some c) m s)
      end
  end.

(** The wait [Run] computes after a fetch: [delay] is the jittered back-off. *)
Definition next_attempt (ok : bool) (attempt : Z) : Z := if ok then 0 else attempt + 1.
Definition wait (interval delay attempt : Z) : Z :=
  if 0 <? attempt then Z.max interval delay else interval.
End Cache.

(** ** Properties *)

Lemma install_lookup doc old id :
  install doc old !! id =
  match Modules doc !! id with
  | Some raw => if String.eqb (default "" (old !! id)) raw then old !! id else Some raw
  | None => old !! id
  end.
Proof.
  unfold install. revert id.
  apply (map_fold_weak_ind (fun acc (ms : gmap string string) => forall id, acc !! id =
    match ms !! id with
    | Some raw => if String.eqb (default "" (old !! id)) raw then old !! id else Some raw
    | None => old !! id end)).
  - intros id. by rewrite lookup_empty.
  - intros i raw ms acc Hi IH id. destruct (decide (i = id)) as [->|Hne].
    + rewrite lookup_insert_eq. destruct (String.eqb _ raw) eqn:E; simpl.
      * by rewrite IH, Hi.
      * apply lookup_insert_eq.
    + rewrite (lookup_insert_ne _ i) by done.
      destruct (String.eqb _ raw); simpl; [apply IH|]. by rewrite lookup_insert_ne.
Qed.

Lemma drop_unseen_lookup doc d id :
  drop_unseen doc d !! id = if decide (is_Some (Modules doc !! id)) then d !! id else None.
Proof.
  unfold drop_unseen. rewrite map_lookup_filter. destruct (d !! id) as [x|]; simpl;
    destruct (decide (is_Some (Modules doc !! id))) as [H|H]; try done;
    [by rewrite option_guard_True | by rewrite option_guard_False].
Qed.

(** After an accepted document every module reads what the document holds. *)
Lemma apply_doc_docs doc m m' id :
  apply_doc doc m = Some m' -> default "" (docs m' !! id) = default "" (Modules doc !! id).
Proof.
  unfold apply_doc. intros H. destruct (_ =? _); simplify_eq. simpl.
  rewrite drop_unseen_lookup, install_lookup. destruct (Modules doc !! id) as [raw|]; simpl.
  - by destruct (String.eqb_spec (default "" (docs m !! id)) raw).
  - done.
Qed.

Lemma wake_lookup cs ch c :
  wake cs ch !! c = if decide (c ∈ cs) then Some true else ch !! c.
Proof.
  unfold wake. induction cs as [|x cs IH]; cbn [foldr]; [by rewrite decide_False by apply not_elem_of_nil|].
  unfold signal at 1. destruct (decide (x = c)) as [->|Hne].
  - rewrite lookup_insert_eq, decide_True; [done | left].
  - rewrite lookup_insert_ne, IH by done.
    destruct (decide (c ∈ cs)); [rewrite decide_True by (by right) | rewrite decide_False]; [done..|].
    rewrite elem_of_cons. intros [?|?]; congruence.
Qed.

Lemma changed_spec doc old id :
  default "" (old !! id) <> default "" (Modules doc !! id) -> id ∈ changed doc old.
Proof.
  intros H. unfold changed. rewrite elem_of_app, !list_elem_of_filter, !list_elem_of_fmap.
  destruct (Modules doc !! id) as [raw|] eqn:E.
  - left. split; [done|]. exists (id, raw). split; [done|]. by apply elem_of_map_to_list.
  - right. split; [done|]. destruct (old !! id) as [x|] eqn:Eo; [|done].
    exists (id, x). split; [done|]. apply elem_of_map_to_list. by rewrite install_lookup, E.
Qed.

(** An accepted document is delivered exactly: every module then reads the
    document's payload for it (nothing, when the document does not name it), and
    every registered watcher of a module whose payload changed has a wake-up
    pending. *)
Theorem apply_delivers doc m m' :
  apply_doc doc m = Some m' ->
  (forall id, default "" (snd (Get m' id)) = default "" (Modules doc !! id)) /\
  (forall id c, default "" (docs m !! id) <> default "" (Modules doc !! id) ->
     c ∈ default [] (watchers m !! id) -> chans m' !! c = Some true).
Proof.
  intros H. split; [intros id; by apply (apply_doc_docs _ _ _ _ H)|].
  intros id c Hch Hc. unfold apply_doc in H. destruct (_ =? _); simplify_eq. simpl.
  rewrite wake_lookup, decide_True; [done|]. apply list_elem_of_bind. exists id.
  split; [done | by apply changed_spec].
Qed.

(** A document that carries the revision already held is dropped, whatever
    its content: neither the documents nor the cache change. *)
Theorem apply_same_revision_ignored `{!JSON Document} {S} `{!StoreBackend S} doc c m (s : S) :
  Revision doc = revision m -> apply doc c m s = (m, s).
Proof. intros H. unfold apply, apply_doc. by rewrite H, Z.eqb_refl. Qed.

(** A restart keeps the policy: when a decoded document was accepted and
    cached, a fresh manager that loads the cache holds its revision and serves its
    payloads, in compact form.  The document must not carry revision zero, which
    a fresh manager already holds. *)
Theorem cache_restart {J : JSON Document} {DC : DocumentCodec} {S} `{StoreLaws S} raw doc c c' m (s : S) m' s' :
  wf s -> unmarshal raw = Some doc -> apply doc (Some c) m s = (m', s') ->
  Revision doc <> revision m -> Revision doc <> 0 ->
  is_ok (fst (Put c cacheNamespace "document" (marshal doc) s)) = true -> ctx_done c' = false ->
  revision (Load c' NewManager s') = Revision doc /\
  forall id, default "" (docs (Load c' NewManager s') !! id) = compact (default "" (Modules doc !! id)).
Proof.
  intros Hwf Hraw Ha Hr Hr0 Hput Hc. unfold apply, apply_doc in Ha.
  destruct (Z.eqb_spec (Revision doc) (revision m)); [done|]. simplify_eq.
  destruct (Put c cacheNamespace "document" (marshal doc) s) as [r s1] eqn:Ep. simpl in *.
  destruct (Put_view _ _ _ _ _ _ _ Hwf Ep) as [Hwf1 Hv].
  specialize (Hv cacheNamespace "document"). rewrite Hput, bool_decide_true in Hv by done. simpl in Hv.
  pose proof (Get_live c' cacheNamespace "document" s1 Hwf1 Hc) as Hl. unfold Load.
  destruct (store.Get c' cacheNamespace "document" s1) as [v|] eqn:Eg; [|done].
  rewrite (Get_view _ _ _ _ _ Hwf1 Eg), Hv, (reencoded _ _ Hraw).
  unfold apply. destruct (apply_doc _ NewManager) as [m2|] eqn:E2; simpl.
  - split; [unfold apply_doc in E2; by destruct (_ =? _); simplify_eq|].
    intros id. rewrite (apply_doc_docs _ _ _ id E2). simpl. rewrite lookup_fmap. by destruct (Modules doc !! id).
  - unfold apply_doc in E2. simpl in E2. destruct (Z.eqb_spec (Revision doc) 0); done.
Qed.

(** ** The watch stream of hostserv

    [policyServer.Watch]: read, send when the content differs from what was sent
    last, wait for a wake-up.  The manager changes underneath at any time. *)
Record stream := mkStream {
  mgr : Manager; s_module : string; s_chan : nat;
  waiting : bool;              (* blocked on the channel *)
  last : option string;        (* [None]: nothing sent yet *)
  sent : list (Z * string) }.

Definition open_stream (module : string) (m : Manager) : stream :=
  mkStream (snd (Watch module m)) module (fst (Watch module m)) false None [].

Definition send_if_new (x : stream) : stream :=
  let (rev, data) := Get (mgr x) (s_module x) in
  let data := default "" data in
  let fresh := match last x with None => true | Some l => negb (String.eqb data l) end in
  if fresh then mkStream (mgr x) (s_module x) (s_chan x) true (Some data) (sent x ++ [(rev, data)])
  else mkStream (mgr x) (s_module x) (s_chan x) true (last x) (sent x).

Definition set_chan (c : nat) (b : bool) (m : Manager) : Manager :=
  mkManager (revision m) (docs m) (watchers m) (<[c := b]> (chans m)) (fresh_chan m).
Definition with_mgr (m : Manager) (x : stream) : stream :=
  mkStream m (s_module x) (s_chan x) (waiting x) (last x) (sent x).

Inductive stream_step : stream -> stream -> Prop :=
| SApply x doc m' : apply_doc doc (mgr x) = Some m' -> stream_step x (with_mgr m' x)
| SSend x : waiting x = false -> stream_step x (send_if_new x)
| SWake x : waiting x = true -> chans (mgr x) !! s_chan x = Some true ->
    stream_step x (mkStream (set_chan (s_chan x) false (mgr x)) (s_module x) (s_chan x) false (last x) (sent x))
| SWatch x module : stream_step x (with_mgr (snd (Watch module (mgr x))) x)
| SUnwatch x module c : c <> s_chan x -> stream_step x (with_mgr (Unwatch module c (mgr x)) x).

Record stream_inv (x : stream) : Prop := {
  si_listed : s_chan x ∈ default [] (watchers (mgr x) !! s_module x);
  si_old : (s_chan x < fresh_chan (mgr x))%nat;
  si_idle : waiting x = true -> chans (mgr x) !! s_chan x = Some true \/
              last x = Some (default "" (docs (mgr x) !! s_module x)) }.

Lemma open_stream_inv module m : stream_inv (open_stream module m).
Proof.
  constructor; simpl; [|lia|done]. rewrite lookup_insert_eq. simpl. apply elem_of_app. right. left.
Qed.

Lemma remove_first_other c x l : x <> c -> x ∈ l -> x ∈ remove_first c l.
Proof.
  intros Hne. induction l as [|y l IH]; simpl; [done|]. intros H. apply elem_of_cons in H.
  destruct (Nat.eqb_spec y c); [destruct H; [congruence | done]|].
  apply elem_of_cons. destruct H; [by left | right; auto].
Qed.

Lemma stream_inv_step x x' : stream_inv x -> stream_step x x' -> stream_inv x'.
Proof.
  intros [Hl Ho Hi] Hs. destruct Hs as [x doc m' Ha|x Hw|x Hw Hc|x module|x module c Hne].
  - destruct (decide (default "" (docs (mgr x) !! s_module x) = default "" (Modules doc !! s_module x))) as [He|Hd].
    + pose proof (apply_doc_docs _ _ _ (s_module x) Ha) as Hdoc.
      unfold apply_doc in Ha. destruct (_ =? _); simplify_eq. constructor; simpl in *; [done..|].
      intros Hw. destruct (Hi Hw) as [Hp|Hp]; [left|right; congruence].
      rewrite wake_lookup. by destruct (decide _).
    + assert (chans m' !! s_chan x = Some true) as Hp.
      { unfold apply_doc in Ha. destruct (_ =? _); simplify_eq. simpl.
        rewrite wake_lookup, decide_True; [done|]. apply list_elem_of_bind. exists (s_module x).
        split; [done | by apply changed_spec]. }
      unfold apply_doc in Ha. destruct (_ =? _); simplify_eq. constructor; simpl in *; auto.
  - unfold send_if_new. simpl. destruct (last x) as [l|] eqn:El; [destruct (String.eqb_spec (default "" (docs (mgr x) !! s_module x)) l)|];
      simpl; constructor; simpl; auto. intros _. right. congruence.
  - by constructor.
  - constructor; simpl; [|lia|].
    + destruct (decide (module = s_module x)) as [->|Hne]; [rewrite lookup_insert_eq; simpl; apply elem_of_app; by left|].
      by rewrite lookup_insert_ne.
    + intros Hw. rewrite lookup_insert_ne by lia. auto.
  - constructor; simpl; [|lia|done].
    destruct (watchers (mgr x) !! module) as [ws|] eqn:E; [|done].
    destruct (decide (module = s_module x)) as [->|Hm].
    + rewrite lookup_insert_eq. simpl. rewrite E in Hl. by apply remove_first_other.
    + by rewrite lookup_insert_ne.
Qed.

(** No lost update: however documents are applied, watchers come and go and
    the stream is scheduled, a stream that waits with no wake-up pending has
    last sent exactly the payload the manager holds for its module. *)
Theorem watch_no_lost_update module m x :
  steps stream_step (open_stream module m) x ->
  waiting x = true -> chans (mgr x) !! s_chan x <> Some true ->
  last x = Some (default "" (docs (mgr x) !! s_module x)).
Proof.
  intros Hr Hw Hc.
  assert (stream_inv x) as Hi
    by (eapply (steps_invariant stream_step stream_inv stream_inv_step); [apply open_stream_inv | done]).
  by destruct (si_idle _ Hi Hw).
Qed.

(** *** Witnesses *)

Definition demo_doc : Document := mkDocument 3 {["sysinfo" := "{}"]}.
Definition demo_m : Manager := snd (Watch "sysinfo" NewManager).

Lemma apply_delivers_witness :
  exists m', apply_doc demo_doc demo_m = Some m' /\
  (forall id, default "" (snd (Get m' id)) = default "" (Modules demo_doc !! id)) /\
  (forall id c, default "" (docs demo_m !! id) <> default "" (Modules demo_doc !! id) ->
     c ∈ default [] (watchers demo_m !! id) -> chans m' !! c = Some true).
Proof. eexists. split; [reflexivity|]. by apply (apply_delivers demo_doc demo_m). Defined.

(** ... also when the content differs. *)
Lemma apply_same_revision_ignored_witness :
  let _ := binary_JSON Document in
  let m := mkManager 3 {["sysinfo" := "old"]} ∅ ∅ 0 in
  apply demo_doc None m NewMemStore = (m, NewMemStore) /\
  Modules demo_doc !! "sysinfo" <> docs m !! "sysinfo".
Proof. intros J m. split; [by apply apply_same_revision_ignored | done]. Defined.

(** A codec that compacts on encoding, as [encoding/json] does. *)
Definition compact_doc (d : Document) : Document := mkDocument (Revision d) (compact <$> Modules d).
Definition compact_JSON : JSON Document :=
  let b := binary_JSON Document in
  Build_JSON Document (fun d => @marshal _ b (compact_doc d)) (fun d => @marshal_indent _ b (compact_doc d)) (@unmarshal _ b).

Lemma compact_codec : @DocumentCodec compact_JSON.
Proof. intros raw doc _. apply (binary_JSONLaws Document). Qed.

Definition spaced_doc : Document := mkDocument 3 {["sysinfo" := "[1, 2]"]}.

Lemma cache_restart_witness :
  let _ := compact_JSON in
  let m := Load background NewManager (snd (apply spaced_doc (Some background) NewManager NewMemStore)) in
  revision m = 3 /\ default "" (docs m !! "sysinfo") = "[1,2]".
Proof.
  intros J m.
  destruct (cache_restart (J := J) (DC := compact_codec) (S := MemStore)
    (@marshal _ (binary_JSON Document) spaced_doc) spaced_doc background background NewManager NewMemStore
    (fst (apply spaced_doc (Some background) NewManager NewMemStore))
    (snd (apply spaced_doc (Some background) NewManager NewMemStore))) as [Hrev Hdoc].
  - done.
  - apply (binary_JSONLaws Document).
  - apply surjective_pairing.
  - done.
  - done.
  - done.
  - done.
  - split; [exact Hrev|]. unfold m. rewrite Hdoc. vm_compute. reflexivity.
Defined.

Lemma watch_no_lost_update_witness :
  let x := send_if_new (open_stream "sysinfo" NewManager) in
  last x = Some (default "" (docs (mgr x) !! s_module x)).
Proof.
  apply (watch_no_lost_update "sysinfo" NewManager); [|done|done].
  apply steps_one. by apply SSend.
Defined.
End policy.
