(* ===== verification/HostServ.v ===== *)
(** * Host services (internal/hostserv) and the error mapping of the SDK

    One gRPC server per module: the token gate, then handlers that bind the
    module's id.  A server call is a function from the shared state of core
    (store, bus, policy, watchdog pings, transport) to a reply and the new state.
    The store and the transport are reached through their interfaces. *)

From stdpp Require Import base list strings gmap.
From Stdlib Require Import ZArith Lia Ascii.
From S2P Require Import Prelude.
From S2P Require Import GoStrings.
From S2P Require Import Manifest.
From S2P Require Import Store.
From S2P Require Import EventBus.
From S2P Require Import Policy.
Open Scope Z_scope.
Open Scope go_scope.

Local Infix "+++" := String.append (at level 60, right associativity).

(** ** Errors across the wire (sdk/werror, grpcErr, sentinelErr) *)

Module werror.

Inductive sentinel := ErrNotFound | ErrUnavailable | ErrProtocol | ErrDenied.
#[export] Instance sentinel_eq_dec : EqDecision sentinel.
Proof. solve_decision. Defined.

Definition text (s : sentinel) : string :=
  match s with
  | ErrNotFound => "not found" | ErrUnavailable => "unavailable"
  | ErrProtocol => "protocol violation" | ErrDenied => "denied"
  end.

Inductive code :=
| NotFound | Unavailable | PermissionDenied | FailedPrecondition | Internal
| Unauthenticated | Unimplemented.

(** A Go error value: its message, the sentinels [errors.Is] finds along its
    chain, and the gRPC status it carries, if it is one. *)
Record error := mkError { msg : string; chain : list sentinel; status : option (code * string) }.

Definition Is (e : error) (s : sentinel) : bool := bool_decide (s ∈ chain e).

(** [status.Error(code, msg)]; the status text is the message alone. *)
Definition status_error (c : code) (m : string) : error := mkError m [] (Some (c, m)).

(** [Op] *)
Definition Op (op : string) (e : option error) : option error :=
  match e with
  | None => None
  | Some e => Some (mkError (op +++ ": " +++ msg e) (chain e) (status e))
  end.

(** [grpcErr] *)
Definition grpcErr (e : option error) : option error :=
  match e with
  | None => None
  | Some e =>
      let c := if Is e ErrNotFound then NotFound
               else if Is e ErrUnavailable then Unavailable
               else if Is e ErrDenied then PermissionDenied
               else if Is e ErrProtocol then FailedPrecondition
               else Internal in
      Some (status_error c (msg e))
  end.

(** [sentinelErr] *)
Definition sentinelErr (e : option error) : option error :=
  match e with
  | None => None
  | Some e =>
      match status e with
      | None => Some e
      | Some (c, m) =>
          let wrap s := Some (mkError (m +++ ": " +++ text s) [s] None) in
          match c with
          | NotFound => wrap ErrNotFound
          | Unavailable => wrap ErrUnavailable
          | PermissionDenied => wrap ErrDenied
          | FailedPrecondition => wrap ErrProtocol
          | _ => Some e
          end
      end
  end.

(** What a module sees of a backend error [e]. *)
Definition across (e : option error) : option error := sentinelErr (grpcErr e).

(** Sentinels survive the wire: for a backend error that wraps at most one
    sentinel, under any operation labels, the module's [errors.Is] answers as
    core's would, and no error turns into success or the reverse. *)
Theorem sentinel_roundtrip e :
  (length (chain e) <= 1)%nat ->
  exists e', across (Some e) = Some e' /\ forall s, Is e' s = Is e s.
Proof.
  intros H. unfold across, grpcErr, sentinelErr, Is, status_error. destruct e as [m [|s0 [|]] st]; simpl in *; [| |lia].
  - eexists. split; [reflexivity|]. done.
  - destruct s0; simpl; eexists; (split; [reflexivity|]); intros []; reflexivity.
Qed.

Lemma sentinel_roundtrip_witness :
  exists e', across (Some (mkError "store.get: not found" [ErrNotFound] None)) = Some e' /\
    forall s, Is e' s = Is (mkError "store.get: not found" [ErrNotFound] None) s.
Proof. apply sentinel_roundtrip. simpl. lia. Defined.
End werror.

Module hostserv.
Import werror.

(** ** Subscription authorization *)

(** [topicAllowed] *)
Definition topicAllowed (request : string) (allow : list string) : bool :=
  existsb (fun a => String.eqb a request ||
    match cut_suffix "*" a with Some pre => has_prefix pre request | None => false end) allow.

Lemma has_prefix_trans p q s : has_prefix p q = true -> has_prefix q s = true -> has_prefix p s = true.
Proof.
  rewrite !has_prefix_true. intros [r ->] [r' ->]. exists (r +++ r'). apply sapp_assoc.
Qed.

(** A prefix of [q ++ "*"] that does not end in a star is a prefix of [q]. *)
Lemma has_prefix_star p q :
  has_prefix p (q +++ "*") = true -> cut_suffix "*" p = None -> has_prefix p q = true.
Proof.
  rewrite !has_prefix_true. intros [r Hr] Hp. destruct (decide (r = "")) as [->|Hne].
  - rewrite sapp_nil_r in Hr. assert (cut_suffix "*" p = Some q) by (by apply cut_suffix_Some). congruence.
  - assert (exists r', r = r' +++ "*") as [r' ->].
    { destruct (srev r) as [|c t] eqn:E; [apply (f_equal srev) in E; rewrite srev_involutive in E; done|].
      exists (srev t). apply (f_equal srev) in Hr. rewrite !srev_sapp, E in Hr. simpl in Hr.
      injection Hr as <- _. apply srev_inj. rewrite E, srev_sapp, srev_involutive. done. }
    exists r'. rewrite <-sapp_assoc in Hr. apply (f_equal srev) in Hr. rewrite !srev_sapp in Hr.
    simpl in Hr. injection Hr as Hr. apply srev_inj. by rewrite srev_sapp.
Qed.

(** The allow-list confines what a module can hear: with no entry ending in
    two stars, every topic an authorized request matches on the bus is matched
    by the declared list itself. *)
Theorem topicAllowed_sound request allow topic :
  Forall (fun a => cut_suffix "**" a = None) allow ->
  topicAllowed request allow = true -> eventbus.matches [request] topic = true ->
  eventbus.matches allow topic = true.
Proof.
  intros Hall Hreq Hm. unfold topicAllowed in Hreq. apply existsb_exists in Hreq as (a & Hin & Ha).
  unfold eventbus.matches in *. apply existsb_exists. exists a. split; [done|].
  simpl in Hm. rewrite orb_false_r in Hm. unfold eventbus.matches1 in *.
  apply orb_true_iff in Ha as [Ha|Ha]; [apply String.eqb_eq in Ha; by subst|].
  destruct (cut_suffix "*" a) as [pre|] eqn:Ea; [|done].
  apply orb_true_iff. right.
  apply orb_true_iff in Hm as [Hm|Hm]; [apply String.eqb_eq in Hm; by subst|].
  destruct (cut_suffix "*" request) as [rp|] eqn:Er; [|done].
  apply cut_suffix_Some in Er. subst request.
  eapply has_prefix_trans; [|exact Hm]. apply has_prefix_star; [done|].
  apply list_elem_of_In in Hin. apply (proj1 (Forall_forall _ _) Hall) in Hin.
  destruct (cut_suffix "*" pre) as [q|] eqn:Ep; [|done]. exfalso.
  apply cut_suffix_Some in Ep, Ea. subst.
  assert (cut_suffix "**" ((q +++ "*") +++ "*") = Some q) as Hc; [|congruence].
  apply cut_suffix_Some. apply sapp_assoc.
Qed.

Lemma topicAllowed_sound_witness : eventbus.matches ["sysinfo.*"] "sysinfo.disk.full" = true.
Proof.
  apply (topicAllowed_sound "sysinfo.disk.*" ["sysinfo.*"] "sysinfo.disk.full");
    [repeat constructor | reflexivity | reflexivity].
Defined.

(** The condition is needed: a list that declares [a**] matches no event of
    [abc], but authorizes the request [a*], which does. *)
Theorem topicAllowed_double_star :
  topicAllowed "a*" ["a**"] = true /\ eventbus.matches ["a*"] "abc" = true /\
  eventbus.matches ["a**"] "abc" = false.
Proof. by vm_compute. Qed.

(** ** The per-module server *)

(** [tokenGate]'s check of the metadata values under the token key. *)
Definition token_ok (token : string) (vals : list string) : bool :=
  match vals with [v] => String.eqb v token | _ => false end.

(** [hostserv.TransportBackend]: [Send] says whether the message left. *)
Class TransportBackend (T : Type) := {
  T_Send : string -> Z -> string -> string -> bool -> T -> result error bool * T }.

(** [hostserv.IdentityBackend], as its current answers. *)
Record Identity := mkIdentity {
  WhoAmI : string * bool * string;
  Credential : string -> list string -> result error (string * Z * list string) }.

(** [LogRecord] on the wire, and a line of core's logger: [LogAttrs] takes no time,
    the logger stamps its own. *)
Record LogRecord := mkLogRecord {
  lr_Level : Z; lr_Message : string; lr_TimeMs : Z; lr_Attrs : gmap string string }.
Record log_line := mkLogLine { ll_Level : Z; ll_Message : string; ll_Attrs : list (string * string) }.

(** [Services]: the backends core wires once, as the state they hold. *)
Record Services (S T : Type) := mkServices {
  Store : S; Bus : eventbus.Bus; Policy : policy.Manager; Identity_ : Identity;
  Transport : T; Watchdog : list string; Log : list log_line }.
Arguments mkServices {S T}.
Arguments Store {S T}.
Arguments Bus {S T}.
Arguments Policy {S T}.
Arguments Identity_ {S T}.
Arguments Transport {S T}.
Arguments Watchdog {S T}.
Arguments Log {S T}.

Inductive request :=
| StoreGet (key : string) | StorePut (key value : string) | StoreDelete (key : string)
| StoreList (prefix : string)
| PolicyGet
| PublishEvent (topic data : string) | SubscribeEvents (topics : list string)
| WhoAmIRequest | CredentialRequest (scopes : list string)
| TransportSend (peer : Z) (kind data : string) (queue_offline : bool)
| LogWrite (records : list LogRecord)
| WatchdogNotify (pings : list Z).

Inductive reply :=
| RValue (v : option string) | RDone | RKeys (ks : list string)
| RPolicy (revision : Z) (data : string) | RSubscribed (id : nat)
| RIdentity (id : string) (ephemeral : bool) (tenant : string)
| RCredential (token : string) (expires : Z) (granted : list string)
| RDelivered (d : bool) | RSummary (received : Z).

(** Backend errors of the store carry no sentinel. *)
Definition store_error (e : store.error) : error := mkError "store" [] None.
Definition fail_with (e : error) : result error reply :=
  match grpcErr (Some e) with Some e' => Err e' | None => Err e end.

Section Serve.
Context {S T : Type} `{!store.StoreBackend S, !TransportBackend T}.
Context (moduleID token : string) (allow : list string).
Notation services := (Services S T).

Definition with_store (x : S) (v : services) : services :=
  mkServices x (Bus v) (Policy v) (Identity_ v) (Transport v) (Watchdog v) (Log v).
Definition with_bus (b : eventbus.Bus) (v : services) : services :=
  mkServices (Store v) b (Policy v) (Identity_ v) (Transport v) (Watchdog v) (Log v).
Definition with_transport (t : T) (v : services) : services :=
  mkServices (Store v) (Bus v) (Policy v) (Identity_ v) t (Watchdog v) (Log v).
Definition with_watchdog (l : list string) (v : services) : services :=
  mkServices (Store v) (Bus v) (Policy v) (Identity_ v) (Transport v) l (Log v).
Definition with_log (l : list log_line) (v : services) : services :=
  mkServices (Store v) (Bus v) (Policy v) (Identity_ v) (Transport v) (Watchdog v) l.

(** [storeServer]'s handlers *)
Definition storeServer_Get (c : store.call) (key : string) (v : services) : result error reply :=
  match store.Get c moduleID key (Store v) with
  | Ok x => Ok (RValue x)
  | Err e => fail_with (store_error e)
  end.
Definition storeServer_Put (c : store.call) (key value : string) (v : services) : result error reply * services :=
  let (r, s') := store.Put c moduleID key value (Store v) in
  (match r with Ok _ => Ok RDone | Err e => fail_with (store_error e) end, with_store s' v).
Definition storeServer_Delete (c : store.call) (key : string) (v : services) : result error reply * services :=
  let (r, s') := store.Delete c moduleID key (Store v) in
  (match r with Ok _ => Ok RDone | Err e => fail_with (store_error e) end, with_store s' v).
Definition storeServer_List (c : store.call) (prefix : string) (v : services) : result error reply :=
  match store.List c moduleID prefix (Store v) with
  | Ok ks => Ok (RKeys ks)
  | Err e => fail_with (store_error e)
  end.

(** [policyServer.Get] *)
Definition policyServer_Get (v : services) : result error reply :=
  let (rev, data) := policy.Get (Policy v) moduleID in Ok (RPolicy rev (default "" data)).

(** [eventsServer]'s handlers: the subscription is made only when every requested
    topic is allowed. *)
Definition eventsServer_Publish (topic data : string) (now : Z) (v : services) : result error reply * services :=
  (Ok RDone, with_bus (eventbus.Publish moduleID topic data now (Bus v)) v).
Definition eventsServer_Subscribe (ts : list string) (v : services) : result error reply * services :=
  match find_first (fun t => negb (topicAllowed t allow)) ts with
  | Some t => (Err (status_error PermissionDenied t), v)
  | None => let (id, b) := eventbus.Subscribe ts (Bus v) in (Ok (RSubscribed id), with_bus b v)
  end.

(** [identityServer]'s handlers *)
Definition identityServer_WhoAmI (v : services) : result error reply :=
  let '(id, eph, tenant) := WhoAmI (Identity_ v) in Ok (RIdentity id eph tenant).
Definition identityServer_Credential (scopes : list string) (v : services) : result error reply :=
  match Credential (Identity_ v) moduleID scopes with
  | Ok (t, exp, granted) => Ok (RCredential t exp granted)
  | Err e => Err (status_error Unimplemented (msg e))
  end.

(** [transportServer.Send] *)
Definition transportServer_Send (peer : Z) (kind data : string) (q : bool) (v : services) :
  result error reply * services :=
  let (r, t') := T_Send moduleID peer kind data q (Transport v) in
  (match r with
   | Ok d => Ok (RDelivered d)
   | Err e => Err (status_error Unavailable (msg e))
   end, with_transport t' v).

(** [logServer.Write] and [watchdogServer.Notify], over the records of a stream
    that ends normally; [slogArgs] pairs the keys with their values. *)
Definition log_record (r : LogRecord) : log_line :=
  mkLogLine (lr_Level r) (lr_Message r) (("module", moduleID) :: map_to_list (lr_Attrs r)).
Definition logServer_Write (rs : list LogRecord) (v : services) : result error reply * services :=
  (Ok RDone, with_log (Log v ++ (log_record <$> rs)) v).
Definition watchdogServer_Notify (pings : list Z) (v : services) : result error reply * services :=
  (Ok (RSummary (List.last pings 0)), with_watchdog (Watchdog v ++ ((fun _ => moduleID) <$> pings)) v).

Definition dispatch (c : store.call) (now : Z) (req : request) (v : services) : result error reply * services :=
  match req with
  | StoreGet k => (storeServer_Get c k v, v)
  | StorePut k x => storeServer_Put c k x v
  | StoreDelete k => storeServer_Delete c k v
  | StoreList p => (storeServer_List c p v, v)
  | PolicyGet => (policyServer_Get v, v)
  | PublishEvent t d => eventsServer_Publish t d now v
  | SubscribeEvents ts => eventsServer_Subscribe ts v
  | WhoAmIRequest => (identityServer_WhoAmI v, v)
  | CredentialRequest scopes => (identityServer_Credential scopes v, v)
  | TransportSend p k d q => transportServer_Send p k d q v
  | LogWrite rs => logServer_Write rs v
  | WatchdogNotify ps => watchdogServer_Notify ps v
  end.

(** [NewServer]: the interceptor, then the handler. *)
Definition serve (vals : list string) (c : store.call) (now : Z) (req : request) (v : services) :
  result error reply * services :=
  if token_ok token vals then dispatch c now req v
  else (Err (status_error Unauthenticated "missing or wrong handshake token"), v).

Fixpoint serve_all (reqs : list (list string * store.call * Z * request)) (v : services) : services :=
  match reqs with
  | [] => v
  | (vals, c, now, r) :: rs => serve_all rs (snd (serve vals c now r v))
  end.
End Serve.

(** ** Properties *)

Definition core_namespaces : list string := ["core.policy"; "core.identity"; "core.transport"; "core.manifest"].

(** Module ids hold no dot, core's namespaces do. *)
Lemma id_not_core id ns : manifest.idRe id = true -> ns ∈ core_namespaces -> ns <> id.
Proof.
  intros Hid Hns ->. apply manifest.idRe_no_dot in Hid.
  unfold core_namespaces in Hns. rewrite !elem_of_cons, elem_of_nil in Hns.
  destruct_or! Hns; subst; done.
Qed.

Section Claims.
Context {S T : Type} `{!store.StoreBackend S, !store.StoreLaws S, !TransportBackend T}.
Implicit Types v : Services S T.

(** One call writes inside the module's own namespace only. *)
Lemma dispatch_store moduleID allow c now req v m k :
  store.wf (Store v) -> m <> moduleID ->
  let v' := snd (dispatch moduleID allow c now req v) in
  store.wf (Store v') /\ store.view (Store v') m k = store.view (Store v) m k.
Proof.
  intros Hwf Hne. destruct req; cbn [dispatch snd]; try done.
  - unfold storeServer_Put. destruct (store.Put _ _ _ _ _) as [r s'] eqn:E.
    apply store.Put_view in E as [Hw Hv]; [|done]. simpl. split; [done|]. rewrite Hv.
    rewrite bool_decide_false by congruence. by rewrite andb_false_r.
  - unfold storeServer_Delete. destruct (store.Delete _ _ _ _) as [r s'] eqn:E.
    apply store.Delete_view in E as [Hw Hv]; [|done]. simpl. split; [done|]. rewrite Hv.
    rewrite bool_decide_false by congruence. by rewrite andb_false_r.
  - unfold eventsServer_Subscribe. by destruct (find_first _ _).
  - unfold transportServer_Send. by destruct (T_Send _ _ _ _ _ _).
Qed.


(** Without exactly one matching token the call is refused as
    unauthenticated and changes nothing. *)
Theorem serve_unauthenticated moduleID token allow vals c now req v :
  vals <> [token] ->
  exists m, serve moduleID token allow vals c now req v = (Err (status_error Unauthenticated m), v).
Proof.
  intros Hvals. unfold serve. replace (token_ok token vals) with false; [by eexists|].
  symmetry. unfold token_ok. destruct vals as [|x [|]]; [done| |done].
  apply String.eqb_neq. congruence.
Qed.

(** Subscriptions are authorized before they exist: a subscribe call either
    registers topics that are all allowed, or is denied and leaves the bus as it
    was. *)
Theorem subscribe_authorized allow ts v r v' :
  eventsServer_Subscribe allow ts v = (r, v') ->
  (exists id, r = Ok (RSubscribed id) /\ Forall (fun t => topicAllowed t allow = true) ts /\
     eventbus.heap (Bus v') !! id = Some (eventbus.mkSubscription ts [] 0)) \/
  (exists t, r = Err (status_error PermissionDenied t) /\ t ∈ ts /\ topicAllowed t allow = false /\ v' = v).
Proof.
  unfold eventsServer_Subscribe. intros Hs.
  destruct (find_first _ ts) as [t|] eqn:E.
  - apply find_first_Some in E as [Hin Ht]. apply negb_true_iff in Ht. simplify_eq. right. eauto.
  - apply find_first_None in E. simpl in Hs. simplify_eq. left. eexists. split; [done|]. split.
    + eapply Forall_impl; [exact E|]. intros t Ht. by apply negb_false_iff in Ht.
    + apply lookup_insert_eq.
Qed.
End Claims.

(** Event origins cannot be forged: the topic a module's server stamps
    determines the module, because ids hold no dot. *)
Theorem publish_origin b b' id id' t t' d d' now now' :
  manifest.idRe id = true -> manifest.idRe id' = true ->
  eventbus.Topic (eventbus.stamp b id t d now) = eventbus.Topic (eventbus.stamp b' id' t' d' now') ->
  id = id' /\ t = t'.
Proof.
  intros H1 H2 H. apply manifest.idRe_no_dot in H1, H2. simpl in H. unfold eventbus.full_topic in H.
  by apply (sapp_sep_inj ".") in H.
Qed.

(** *** Witnesses *)

Import (hints) store.

#[export] Instance null_transport : TransportBackend unit :=
  { T_Send _ _ _ _ _ t := (Ok false, t) }.
Definition stub_identity : Identity :=
  mkIdentity ("ephemeral-00", true, "") (fun _ _ => Err (mkError "not implemented" [] None)).
Definition demo_services : Services store.MemStore unit :=
  mkServices {["other" := {["k" := "v"]}]} eventbus.New policy.NewManager stub_identity tt [] [].
Definition demo_calls : list (list string * store.call * Z * request) :=
  [(["tok"], store.a_call, 0, StorePut "k" "mine"); (["bad"], store.a_call, 0, StoreDelete "k");
   (["tok"], store.a_call, 0, StoreDelete "k")].


Lemma serve_unauthenticated_witness :
  exists m, serve "sysinfo" "tok" [] ["tok"; "tok"] store.a_call 0 (StoreDelete "k") demo_services
            = (Err (status_error Unauthenticated m), demo_services).
Proof. by apply serve_unauthenticated. Defined.

Lemma subscribe_authorized_witness :
  let out := eventsServer_Subscribe ["sysinfo.*"] ["sysinfo.disk"; "*"] demo_services in
  (exists id, fst out = Ok (RSubscribed id) /\
     Forall (fun t => topicAllowed t ["sysinfo.*"] = true) ["sysinfo.disk"; "*"] /\
     eventbus.heap (Bus (snd out)) !! id = Some (eventbus.mkSubscription ["sysinfo.disk"; "*"] [] 0)) \/
  (exists t, fst out = Err (status_error PermissionDenied t) /\ t ∈ ["sysinfo.disk"; "*"] /\
     topicAllowed t ["sysinfo.*"] = false /\ snd out = demo_services).
Proof. intros out. apply subscribe_authorized. apply surjective_pairing. Defined.

Lemma publish_origin_witness :
  eventbus.Topic (eventbus.stamp eventbus.New "sysinfo" "disk.full" "" 0) = "sysinfo.disk.full" /\
  "sysinfo" = "sysinfo" /\ "disk.full" = "disk.full".
Proof.
  split; [reflexivity|].
  by apply (publish_origin eventbus.New eventbus.New "sysinfo" "sysinfo" "disk.full" "disk.full" "" "x" 0 1).
Defined.
End hostserv.
