(* ===== verification/LogStream.v ===== *)
(** * Logging (sdk/wlog, sdk/modulesdk/loghandler.go)

    The handler that ships a module's records to core over a stream, with the local
    handler as fallback, and what core's log server makes of them.  The stream is the
    environment: each call says whether it could be opened and whether the send went
    through.  Attribute values are the strings they print as. *)

From stdpp Require Import base list strings gmap.
From Stdlib Require Import ZArith Lia Ascii.
From S2P Require Import Prelude.
From S2P Require Import GoStrings.
From S2P Require Import Store.
From S2P Require Import HostServ.
Open Scope Z_scope.

Local Infix "+++" := String.append (at level 60, right associativity).

Module wlog.

Definition LevelDebug : Z := -4.
Definition LevelInfo : Z := 0.
Definition LevelWarn : Z := 4.
Definition LevelError : Z := 8.

(** [strings.ToLower] on the letters that matter here *)
Definition lower1 (c : ascii) : ascii :=
  let n := nat_of_ascii c in if (65 <=? n)%nat && (n <=? 90)%nat then ascii_of_nat (n + 32) else c.
Fixpoint to_lower (s : string) : string :=
  match s with "" => "" | String c r => String (lower1 c) (to_lower r) end.

(** [LevelFromEnv], for the value of the variable *)
Definition LevelFromEnv (env : string) : Z :=
  let l := to_lower env in
  if String.eqb l "debug" then LevelDebug
  else if String.eqb l "warn" then LevelWarn
  else if String.eqb l "error" then LevelError
  else LevelInfo.

(** A logger as [New] builds it: where it writes, from which level on, and the
    attributes every record carries. *)
Record Logger := mkLogger { lg_out : string; lg_level : Z; lg_with : list (string * string) }.
Definition New (w : string) (level : Z) (component : string) : Logger := mkLogger w level [("component", component)].
Definition Default (env component : string) : Logger := New "stderr" (LevelFromEnv env) component.
(** What a logger writes of a record: nothing below its level, its own attributes
    before the record's otherwise. *)
Definition log (lg : Logger) (level : Z) (msg : string) (attrs : list (string * string)) :
  option (Z * string * list (string * string)) :=
  if level <? lg_level lg then None else Some (level, msg, lg_with lg ++ attrs).

(** Whatever the variable holds, warnings and errors are written unless it asks for
    errors only, errors always, and every line names its component first. *)
Lemma Default_never_silences env component level msg attrs :
  LevelError <= level -> log (Default env component) level msg attrs = Some (level, msg, ("component", component) :: attrs).
Proof.
  intros H. unfold log, Default, New. simpl.
  assert (LevelFromEnv env <= LevelError) as Hle.
  { unfold LevelFromEnv. repeat (destruct (String.eqb _ _); [done|]). done. }
  rewrite (proj2 (Z.ltb_ge _ _)) by lia. done.
Qed.
End wlog.

Module loghandler.
Import (hints) store hostserv.

Notation attr := (string * string)%type.
Record record := mkRecord { Level : Z; Message : string; Time : Z; Attrs : list attr }.

(** A handler of the standard library, as far as attributes go: the groups that are
    open and the attributes given before, each under the groups open at that time.
    A qualified key is its path with dots. *)
Record slog_handler := mkHandler { groups : string; given : list attr }.
Definition qualify (g k : string) : string := if String.eqb g "" then k else g +++ "." +++ k.
Definition slog_WithAttrs (l : list attr) (h : slog_handler) : slog_handler :=
  mkHandler (groups h) (given h ++ (prod_map (qualify (groups h)) id <$> l)).
Definition slog_WithGroup (name : string) (h : slog_handler) : slog_handler :=
  mkHandler (qualify (groups h) name) (given h).
(** What it prints of a record. *)
Definition slog_attrs (h : slog_handler) (r : record) : list attr :=
  given h ++ (prod_map (qualify (groups h)) id <$> Attrs r).

(** [streamHandler]; a stream is named by a number, [client] is [client != nil]. *)
Record streamHandler := mkStream {
  fallback : slog_handler; client : bool; stream : option nat; broken : bool;
  attrs : list attr; group : string }.

Definition newStreamHandler (fb : slog_handler) (c : bool) : streamHandler := mkStream fb c None false [] "".

(** [WithAttrs], [WithGroup]: a copy, which takes the stream along. *)
Definition WithAttrs (l : list attr) (h : streamHandler) : streamHandler :=
  mkStream (slog_WithAttrs l (fallback h)) (client h) (stream h) false (attrs h ++ l) (group h).
Definition WithGroup (name : string) (h : streamHandler) : streamHandler :=
  mkStream (slog_WithGroup name (fallback h)) (client h) (stream h) false (attrs h) (qualify (group h) name).

(** What one call meets: the stream [client.Write] opens, and whether a send on a
    stream works. *)
Record env := mkEnv { opens : option nat; sends : nat -> bool }.

(** [send] *)
Definition try_send (e : env) (id : nat) (h : streamHandler) : bool * streamHandler :=
  if sends e id then (true, mkStream (fallback h) (client h) (Some id) (broken h) (attrs h) (group h))
  else (false, mkStream (fallback h) (client h) None true (attrs h) (group h)).
Definition send (e : env) (h : streamHandler) : bool * streamHandler :=
  if broken h || negb (client h) then (false, h)
  else match stream h with
       | Some id => try_send e id h
       | None =>
           match opens e with
           | None => (false, mkStream (fallback h) (client h) None true (attrs h) (group h))
           | Some id => try_send e id h
           end
       end.

(** [Handle]: the attributes go into a map, so the last of a key stays; the level is
    cut to 32 bits. *)
Definition int32 (n : Z) : Z := (n + 2 ^ 31) mod 2 ^ 32 - 2 ^ 31.
Definition put_all (l : list attr) (m : gmap string string) : gmap string string :=
  fold_left (fun m a => <[a.1 := a.2]> m) l m.
Definition wire (h : streamHandler) (r : record) : hostserv.LogRecord :=
  hostserv.mkLogRecord (int32 (Level r)) (Message r) (Time r)
    (put_all (prod_map (qualify (group h)) id <$> Attrs r) (put_all (attrs h) ∅)).

Inductive outcome := Sent (id : nat) (r : hostserv.LogRecord) | Local (r : record).
Definition Handle (e : env) (r : record) (h : streamHandler) : outcome * streamHandler :=
  let (ok, h') := send e h in
  (if ok then match stream h' with Some id => Sent id (wire h r) | None => Local r end else Local r, h').

Fixpoint Handle_all (l : list (env * record)) (h : streamHandler) : list outcome * streamHandler :=
  match l with
  | [] => ([], h)
  | (e, r) :: l' => let (o, h1) := Handle e r h in let (os, h2) := Handle_all l' h1 in (o :: os, h2)
  end.

(** What leaves on the stream, in order. *)
Definition sent_of (o : outcome) : option hostserv.LogRecord := match o with Sent _ r => Some r | Local _ => None end.

(** ** No record is lost *)

Lemma send_same_logger e h : let h' := snd (send e h) in
  attrs h' = attrs h /\ group h' = group h /\ fallback h' = fallback h /\ client h' = client h.
Proof.
  unfold send, try_send. destruct (broken h || negb (client h)); [done|].
  destruct (stream h) as [id|]; [by destruct (sends e id)|]. destruct (opens e) as [id|]; [by destruct (sends e id)|done].
Qed.

Lemma wire_same h h' r : attrs h' = attrs h -> group h' = group h -> wire h' r = wire h r.
Proof. intros Ha Hg. unfold wire. by rewrite Ha, Hg. Qed.

(** One record: shipped on the handler's stream, or local for good. *)
Lemma Handle_cases e r h : broken h = false -> client h = true -> let (o, h') := Handle e r h in
  (exists id, o = Sent id (wire h r) /\ stream h' = Some id /\ broken h' = false /\ (forall id0, stream h = Some id0 -> id = id0)) \/
  (o = Local r /\ broken h' = true).
Proof.
  intros Hb Hc. unfold Handle, send, try_send. rewrite Hb, Hc. simpl.
  destruct (stream h) as [id|]; [|destruct (opens e) as [id|]; [|by right]];
    (destruct (sends e id); [left; exists id; split_and!; [done..|congruence] | by right]).
Qed.

Lemma Handle_all_broken l h : broken h = true -> Handle_all l h = ((fun x => Local x.2) <$> l, h).
Proof.
  intros Hb. induction l as [|[e r] l IH]; [done|]. simpl. unfold Handle, send. rewrite Hb. simpl. by rewrite IH.
Qed.

(** [split_at l id n] says the first [n] records were shipped on [id], the rest were
    handled locally. *)
Definition split_at (h : streamHandler) (l : list (env * record)) (id n : nat) : list outcome :=
  ((fun x => Sent id (wire h x.2)) <$> take n l) ++ ((fun x => Local x.2) <$> drop n l).

Lemma Handle_all_split l h : broken h = false -> client h = true ->
  exists id n, fst (Handle_all l h) = split_at h l id n /\ (n <= length l)%nat /\
    (forall id0, stream h = Some id0 -> id = id0).
Proof.
  revert h. induction l as [|[e r] l IH]; intros h Hb Hc.
  { exists (default O (stream h)), O. split_and!; [done|simpl; lia|]. by intros id0 ->. }
  pose proof (Handle_cases e r h Hb Hc) as H. pose proof (send_same_logger e h) as (Ka & Kg & _ & Kc). simpl.
  assert (snd (Handle e r h) = snd (send e h)) as Es by (unfold Handle; by destruct (send e h)).
  destruct (Handle e r h) as [o h1]. simpl in Es. subst h1.
  destruct H as [(id & -> & Hs & Hb1 & Hid)|[-> Hb1]].
  - destruct (IH _ Hb1 (eq_trans Kc Hc)) as (id' & n & Hl & Hn & Hid'). rewrite (Hid' _ Hs) in Hl.
    destruct (Handle_all l (snd (send e h))) as [os h2]. simpl in *. subst os. exists id, (S n).
    split_and!; [|lia|done]. unfold split_at. simpl. f_equal. f_equal. apply list_fmap_ext. intros i x _. f_equal.
    by apply wire_same.
  - rewrite Handle_all_broken by done. exists (default O (stream h)), O. split_and!; [done|simpl; lia|]. by intros id0 ->.
Qed.

(** Every record a logger handles goes to exactly one place and order is kept: there
    is a point up to which all were shipped, on one stream, and after which all were
    written locally.  What was shipped reaches core's log in order, under the
    module's id, with its message and, within 32 bits, its level. *)
Theorem log_never_lost {S T} {SB : store.StoreBackend S} {TB : hostserv.TransportBackend T}
    moduleID (v : hostserv.Services S T) h l :
  broken h = false -> client h = true -> Forall (fun x => - 2 ^ 31 <= Level x.2 < 2 ^ 31) l ->
  exists id n, (n <= length l)%nat /\
    fst (Handle_all l h) = ((fun x => Sent id (wire h x.2)) <$> take n l) ++ ((fun x => Local x.2) <$> drop n l) /\
    hostserv.Log (snd (hostserv.logServer_Write moduleID (omap sent_of (fst (Handle_all l h))) v)) =
      hostserv.Log v ++ ((fun x => hostserv.mkLogLine (Level x.2) (Message x.2)
        (("module", moduleID) :: map_to_list (hostserv.lr_Attrs (wire h x.2)))) <$> take n l).
Proof.
  intros Hb Hc Hl. destruct (Handle_all_split l h Hb Hc) as (id & n & E & Hn & _). exists id, n.
  split; [done|]. split; [exact E|]. rewrite E. unfold split_at, hostserv.logServer_Write. cbn [snd hostserv.with_log hostserv.Log].
  f_equal. rewrite omap_app.
  assert (omap sent_of ((fun x => Local x.2) <$> drop n l) = []) as ->
    by (induction (drop n l) as [|? ? IH]; [done|exact IH]).
  rewrite app_nil_r. pose proof (Forall_take _ n _ Hl) as Ht. clear E Hl Hn.
  induction Ht as [|x t Hx _ IH]; [done|]. simpl. f_equal; [|exact IH].
  unfold hostserv.log_record. simpl. f_equal. unfold int32. rewrite Z.mod_small; lia.
Qed.

(** ** What the attributes look like *)

(** Which handlers derive from which: attributes, then groups. *)
Inductive derive := DAttrs (l : list attr) | DGroup (name : string).
Definition derived (ds : list derive) (h : streamHandler) : streamHandler :=
  fold_left (fun h d => match d with DAttrs l => WithAttrs l h | DGroup g => WithGroup g h end) ds h.
Definition is_group (d : derive) : bool := match d with DGroup _ => true | DAttrs _ => false end.

(** The value a reader of a list of attributes sees for a key: the last one. *)
Definition last_value (k : string) (l : list attr) : option string := snd <$> last (filter (fun a => a.1 = k) l).

Lemma put_all_lookup l m k : put_all l m !! k = match last_value k l with Some x => Some x | None => m !! k end.
Proof.
  revert m. induction l as [|[k0 x0] l IH] using rev_ind; intros m; [done|].
  unfold put_all in *. rewrite fold_left_app. simpl. unfold last_value. rewrite filter_app, filter_cons, filter_nil. simpl.
  destruct (decide (k0 = k)) as [->|Hne].
  - rewrite lookup_insert_eq, last_snoc. done.
  - rewrite lookup_insert_ne by done. rewrite app_nil_r. apply IH.
Qed.

Lemma put_all_app a b m : put_all (a ++ b) m = put_all b (put_all a m).
Proof. unfold put_all. apply fold_left_app. Qed.

Lemma derived_app a b h : derived (a ++ b) h = derived b (derived a h).
Proof. unfold derived. apply fold_left_app. Qed.

(** The two handlers agree on the open groups, and on the attributes as long as none
    was given inside a group. *)
Lemma derived_group ds h : group h = groups (fallback h) -> group (derived ds h) = groups (fallback (derived ds h)).
Proof.
  revert h. induction ds as [|[l|g] ds IH]; intros h H; [done|..]; simpl; apply IH; simpl; [done|]. by rewrite H.
Qed.
Lemma derived_attrs ds h : Forall (fun d => is_group d = false) ds -> group h = "" -> groups (fallback h) = "" ->
  given (fallback (derived ds h)) = given (fallback h) ++ drop (length (attrs h)) (attrs (derived ds h)) /\
  attrs h `prefix_of` attrs (derived ds h).
Proof.
  intros Hd. revert h. induction Hd as [|[l|g] ds Hg _ IH]; intros h H1 H2; [|simpl|done].
  { simpl. rewrite drop_all, app_nil_r. done. }
  destruct (IH (WithAttrs l h)) as [E P]; [done..|]. cbn [fallback WithAttrs slog_WithAttrs given attrs] in E, P.
  assert ((prod_map (qualify (groups (fallback h))) id <$> l) = l) as El.
  { rewrite H2. clear. induction l as [|[] l IHl]; [done|]. rewrite fmap_cons. f_equal. exact IHl. }
  rewrite El in E. destruct P as [t Ht]. fold (derived ds (WithAttrs l h)). rewrite Ht in *. split.
  - rewrite E. rewrite drop_app_length. rewrite <-(app_assoc (attrs h)), drop_app_length. by rewrite app_assoc.
  - exists (l ++ t). by rewrite app_assoc.
Qed.
Lemma derived_groups ds h : Forall (fun d => is_group d = true) ds ->
  given (fallback (derived ds h)) = given (fallback h) /\ attrs (derived ds h) = attrs h.
Proof.
  intros Hd. revert h. induction Hd as [|[l|g] ds Hg _ IH]; intros h; [done|done|]. simpl. by destruct (IH (WithGroup g h)) as [-> ->].
Qed.

(** A record looks the same on both ways, for a logger that got its attributes before
    its groups: the value of every key core sees is the last one the local handler
    would print for it. *)
Theorem stream_attrs_equiv da dg r k :
  Forall (fun d => is_group d = false) da -> Forall (fun d => is_group d = true) dg ->
  let h := derived (da ++ dg) (newStreamHandler (mkHandler "" []) true) in
  hostserv.lr_Attrs (wire h r) !! k = last_value k (slog_attrs (fallback h) r).
Proof.
  intros Ha Hg h. pose proof (derived_group (da ++ dg) (newStreamHandler (mkHandler "" []) true) eq_refl) as G. fold h in G.
  assert (given (fallback h) = attrs h) as Hgv.
  { subst h. rewrite derived_app. destruct (derived_groups dg (derived da (newStreamHandler (mkHandler "" []) true)) Hg) as [-> ->].
    by destruct (derived_attrs da (newStreamHandler (mkHandler "" []) true) Ha) as [-> _]. }
  unfold wire, slog_attrs. simpl. rewrite <-put_all_app, put_all_lookup, Hgv, G, lookup_empty. by destruct (last_value _ _).
Qed.

(** Not so for attributes given inside a group: the stream drops the group from their
    keys, so two attributes the local handler keeps apart become one. *)
Theorem group_attrs_collide :
  let h := derived [DAttrs [("id", "7")]; DGroup "disk"; DAttrs [("id", "sda")]] (newStreamHandler (mkHandler "" []) true) in
  let r := mkRecord 0 "full" 0 [] in
  slog_attrs (fallback h) r = [("id", "7"); ("disk.id", "sda")] /\
  hostserv.lr_Attrs (wire h r) = {["id" := "sda"]}.
Proof. by vm_compute. Qed.

(** An attribute the module calls [module] stands beside the one core adds. *)
Example module_attr_twice :
  hostserv.ll_Attrs (hostserv.log_record "sysinfo" (hostserv.mkLogRecord 0 "m" 0 {["module" := "core"]})) =
  [("module", "sysinfo"); ("module", "core")].
Proof. reflexivity. Qed.

(** *** Witnesses *)

Definition flaky (n : nat) (i : nat) : env := mkEnv (Some 3%nat) (fun _ => (i <? n)%nat).
Definition three : list (env * record) :=
  imap (fun i m => (flaky 2 i, mkRecord 0 m 0 [])) ["a"; "b"; "c"].

Lemma log_never_lost_witness :
  exists id n, (n <= length three)%nat /\
    fst (Handle_all three (newStreamHandler (mkHandler "" []) true)) =
      ((fun x => Sent id (wire (newStreamHandler (mkHandler "" []) true) x.2)) <$> take n three) ++
      ((fun x => Local x.2) <$> drop n three) /\
    hostserv.Log (snd (hostserv.logServer_Write "sysinfo"
        (omap sent_of (fst (Handle_all three (newStreamHandler (mkHandler "" []) true)))) hostserv.demo_services)) =
      hostserv.Log hostserv.demo_services ++ ((fun x => hostserv.mkLogLine (Level x.2) (Message x.2)
        (("module", "sysinfo") :: map_to_list (hostserv.lr_Attrs (wire (newStreamHandler (mkHandler "" []) true) x.2)))) <$> take n three).
Proof. apply (log_never_lost "sysinfo" hostserv.demo_services); [done|done|]. repeat constructor; simpl; lia. Defined.

Lemma stream_attrs_equiv_witness :
  let h := derived ([DAttrs [("a", "1")]] ++ [DGroup "g"]) (newStreamHandler (mkHandler "" []) true) in
  hostserv.lr_Attrs (wire h (mkRecord 0 "m" 0 [("b", "2")])) !! "g.b" =
  last_value "g.b" (slog_attrs (fallback h) (mkRecord 0 "m" 0 [("b", "2")])).
Proof. apply (stream_attrs_equiv [DAttrs [("a", "1")]] [DGroup "g"]); repeat constructor. Defined.
End loghandler.
