(* ===== verification/ModuleSdk.v ===== *)
(** * The module side (sdk/modulesdk)

    The lifecycle server core drives ([moduleServer]), the job runner it owns,
    the namespaced store client, and the start-up decision of [serve].  The
    module's own code is the environment: each call says how it went. *)

From stdpp Require Import base list strings gmap.
From Stdlib Require Import ZArith Lia Ascii.
From S2P Require Import Prelude.
From S2P Require Import GoStrings.
From S2P Require Import Base64.
From S2P Require Import Handshake.
From S2P Require Import Store.
From S2P Require Import HostServ.
Open Scope Z_scope.
Open Scope go_scope.

Local Infix "+++" := String.append (at level 60, right associativity).

Module modulesdk.

Definition Protocol : Z := 1.

Inductive moduleState := stateCreated | stateInited | stateStarted | stateStopped.
#[export] Instance moduleState_eq_dec : EqDecision moduleState.
Proof. solve_decision. Defined.

(** What the server did to the module and to its host client, in order. *)
Inductive effect :=
| DialHost (ok : bool) | CloseHost | ModuleInit (ok : bool) | ModuleStart (ok : bool)
| ModuleStop (ok : bool) | SetConfig (ok : bool) | StartJobs | StopJobs.
#[export] Instance effect_eq_dec : EqDecision effect.
Proof. solve_decision. Defined.

(** [moduleServer], with the part of [hostClient] the lifecycle touches: whether
    it is connected and whether jobs run ([jobCancel != nil]). *)
Record moduleServer := mkServer {
  state : moduleState; host : bool; jobs : bool; shutdown : bool; effects : list effect }.

Definition new_server : moduleServer := mkServer stateCreated false false false [].

Definition did (e : effect) (s : moduleServer) : moduleServer :=
  mkServer (state s) (host s) (jobs s) (shutdown s) (effects s ++ [e]).
Definition set_state (st : moduleState) (s : moduleServer) : moduleServer :=
  mkServer st (host s) (jobs s) (shutdown s) (effects s).
Definition set_host (b : bool) (s : moduleServer) : moduleServer :=
  mkServer (state s) b (jobs s) (shutdown s) (effects s).
Definition set_jobs (b : bool) (s : moduleServer) : moduleServer :=
  mkServer (state s) (host s) b (shutdown s) (effects s).

Inductive code := OK | FailedPrecondition | InvalidArgument | Unavailable | Internal.

(** How the module's code and the host connection behave during one [Init]:
    [config_ok] is [None] for a module that takes no configuration. *)
Record init_env := mkInitEnv { config_ok : option bool; dial_ok : bool; init_ok : bool }.

(** [hostClient.startJobs] and [stopJobs] *)
Definition startJobs (s : moduleServer) : moduleServer :=
  if jobs s then s else set_jobs true (did StartJobs s).
Definition stopJobs (s : moduleServer) : moduleServer :=
  if jobs s then set_jobs false (did StopJobs s) else s.

(** [Init]: [own] is the module's own id. *)
Definition Init (own : string) (req_id : string) (req_protocol : Z) (e : init_env) (s : moduleServer) :
  code * moduleServer :=
  if negb (bool_decide (state s = stateCreated)) then (FailedPrecondition, s)
  else if negb (String.eqb req_id own) then (FailedPrecondition, s)
  else if negb (req_protocol =? Protocol) then (FailedPrecondition, s)
  else
    let s := match config_ok e with Some b => did (SetConfig b) s | None => s end in
    if bool_decide (config_ok e = Some false) then (InvalidArgument, s)
    else if negb (dial_ok e) then (Unavailable, did (DialHost false) s)
    else
      let s := set_host true (did (DialHost true) s) in
      if negb (init_ok e) then (Internal, set_host false (did CloseHost (did (ModuleInit false) s)))
      else (OK, set_state stateInited (did (ModuleInit true) s)).

(** [Start] *)
Definition Start (start_ok : bool) (s : moduleServer) : code * moduleServer :=
  if negb (bool_decide (state s = stateInited)) then (FailedPrecondition, s)
  else if negb start_ok then (Internal, did (ModuleStart false) s)
  else (OK, set_state stateStarted (startJobs (did (ModuleStart true) s))).

(** [stopLocked] and [Stop] *)
Definition stopLocked (stop_ok : bool) (s : moduleServer) : code * moduleServer :=
  match state s with
  | stateStopped | stateCreated | stateInited => (OK, set_state stateStopped s)
  | stateStarted =>
      let s := stopJobs s in
      if negb stop_ok then (Internal, did (ModuleStop false) s)
      else (OK, set_state stateStopped (did (ModuleStop true) s))
  end.
Definition Stop (stop_ok : bool) (s : moduleServer) : code * moduleServer := stopLocked stop_ok s.

(** [Shutdown]: a failed stop does not ask the process to exit. *)
Definition Shutdown (stop_ok : bool) (s : moduleServer) : code * moduleServer :=
  match stopLocked stop_ok s with
  | (OK, s') => (OK, mkServer (state s') (host s') (jobs s') true (effects s'))
  | (c, s') => (c, s')
  end.

(** ** Every sequence of calls *)

Inductive rpc :=
| RInit (id : string) (protocol : Z) (e : init_env) | RStart (ok : bool) | RStop (ok : bool) | RShutdown (ok : bool).
Definition handle (own : string) (r : rpc) (s : moduleServer) : code * moduleServer :=
  match r with
  | RInit id p e => Init own id p e s
  | RStart ok => Start ok s
  | RStop ok => Stop ok s
  | RShutdown ok => Shutdown ok s
  end.
Definition handle_all (own : string) (rs : list rpc) (s : moduleServer) : moduleServer :=
  fold_left (fun s r => snd (handle own r s)) rs s.

(** The discipline a module may rely on, as an automaton over what is done to
    it: initialised at most once, started at most once and only after that,
    stopped only while started, jobs only while started. *)
Inductive phase := Fresh | Ready | Running (jobs : bool) | Halted.
Definition next (p : phase) (e : effect) : option phase :=
  match p, e with
  | Fresh, (SetConfig _ | DialHost _ | CloseHost | ModuleInit false) => Some Fresh
  | Fresh, ModuleInit true => Some Ready
  | Ready, ModuleStart false => Some Ready
  | Ready, ModuleStart true => Some (Running false)
  | Running false, StartJobs => Some (Running true)
  | Running true, StopJobs => Some (Running false)
  | Running false, ModuleStop false => Some (Running false)
  | Running false, ModuleStop true => Some Halted
  | _, _ => None
  end.
Definition accept (l : list effect) : option phase :=
  fold_left (fun p e => p ≫= fun q => next q e) l (Some Fresh).

Lemma accept_snoc l e : accept (l ++ [e]) = accept l ≫= fun q => next q e.
Proof. unfold accept. by rewrite fold_left_app. Qed.

(** The server's state agrees with the automaton. *)
Definition agrees (s : moduleServer) : Prop :=
  match state s with
  | stateCreated => accept (effects s) = Some Fresh /\ jobs s = false
  | stateInited => accept (effects s) = Some Ready /\ jobs s = false
  | stateStarted => accept (effects s) = Some (Running (jobs s))
  | stateStopped => is_Some (accept (effects s)) /\ jobs s = false
  end.

Lemma agrees_handle own r s : agrees s -> agrees (snd (handle own r s)).
Proof.
  intros H. assert (forall ok, agrees (snd (stopLocked ok s))) as Hstop.
  { intros ok. unfold stopLocked, agrees in *. destruct (state s) eqn:E; simpl.
    - destruct H as [-> ->]. eauto.
    - destruct H as [-> ->]. eauto.
    - unfold stopJobs. destruct (jobs s) eqn:Ej, ok; simpl; rewrite ?E, ?Ej, !accept_snoc, H; simpl; eauto.
    - done. }
  destruct r as [id p e|ok|ok|ok]; simpl; [| |apply Hstop|].
  - unfold Init. destruct (bool_decide _) eqn:E; simpl; [|done]. apply bool_decide_eq_true in E.
    destruct (String.eqb id own); simpl; [|done]. destruct (p =? Protocol); simpl; [|done].
    unfold agrees in *. rewrite E in H. destruct H as [H Hj].
    destruct e as [[[]|] [] []]; simpl; rewrite ?E, ?accept_snoc, H, ?Hj; simpl; eauto.
  - unfold Start. destruct (bool_decide _) eqn:E; simpl; [|done]. apply bool_decide_eq_true in E.
    unfold agrees in *. rewrite E in H. destruct H as [H Hj].
    destruct ok; simpl; [unfold startJobs; simpl; rewrite Hj; simpl|]; rewrite ?E, !accept_snoc, H; simpl; eauto.
  - specialize (Hstop ok). unfold Shutdown. destruct (stopLocked ok s) as [[] s']; done.
Qed.

Lemma agrees_all own rs s : agrees s -> agrees (handle_all own rs s).
Proof.
  revert s. induction rs as [|r rs IH]; intros s H; simpl; [done|]. by apply IH, agrees_handle.
Qed.

(** C25. Whatever core (or a confused core) calls and however the module behaves,
    the module sees the declared lifecycle: one successful Init, then one
    successful Start, jobs started after it and stopped before Stop, nothing
    after a successful Stop; and no job runs outside the started state. *)
Theorem lifecycle_discipline own rs :
  let s := handle_all own rs new_server in
  is_Some (accept (effects s)) /\ (jobs s = true -> state s = stateStarted).
Proof.
  intros s. assert (agrees s) as H by (by apply agrees_all).
  unfold agrees in H. destruct (state s); [destruct H as [H Hj]..| |destruct H as [H Hj]];
    (split; [by rewrite ?H; eauto | congruence]).
Qed.

(** Stop is idempotent: once it has succeeded, further Stop and Shutdown
    calls succeed, whatever the module would do, without touching it again. *)
Theorem stop_idempotent ok ok' s s' :
  Stop ok s = (OK, s') ->
  fst (Stop ok' s') = OK /\ effects (snd (Stop ok' s')) = effects s' /\
  fst (Shutdown ok' s') = OK /\ effects (snd (Shutdown ok' s')) = effects s'.
Proof.
  intros H. assert (state s' = stateStopped) as Hs.
  { unfold Stop, stopLocked in H. destruct (state s); simplify_eq; [done..| |done].
    destruct ok; simpl in H; by simplify_eq. }
  unfold Stop, Shutdown, stopLocked. by rewrite Hs.
Qed.

Definition good_env : init_env := mkInitEnv None true true.
Lemma stop_idempotent_witness :
  let s := snd (Start true (snd (Init "m" "m" 1 good_env new_server))) in
  let s' := snd (Stop true s) in
  fst (Stop false s') = OK /\ effects (snd (Stop false s')) = effects s' /\
  fst (Shutdown false s') = OK /\ effects (snd (Shutdown false s')) = effects s'.
Proof. intros s s'. apply (stop_idempotent true false s s'). reflexivity. Defined.

(** ** The store client *)

Definition ns_prefix (ns : string) : string := if String.eqb ns "" then "" else ns +++ "/".

Section Client.
Context {S T : Type} {SB : store.StoreBackend S} {TB : hostserv.TransportBackend T}.
Context (moduleID token : string) (allow : list string).
Notation services := (hostserv.Services S T).

(** A unary call as the client's interceptor makes it: the token rides along and
    the status comes back as a sentinel error. *)
Definition invoke_at (now : Z) (c : store.call) (r : hostserv.request) (v : services) :
  result werror.error hostserv.reply * services :=
  let (out, v') := hostserv.serve moduleID token allow [token] c now r v in
  (match out with
   | Ok x => Ok x
   | Err e => match werror.sentinelErr (Some e) with Some e' => Err e' | None => Err e end
   end, v').
(** ... when the time at core does not matter. *)
Definition invoke (c : store.call) (r : hostserv.request) (v : services) :
  result werror.error hostserv.reply * services := invoke_at 0 c r v.

Definition bad_reply : werror.error := werror.mkError "unexpected reply" [] None.

(** [storeClient]'s methods *)
Definition client_Get (ns : string) (c : store.call) (key : string) (v : services) :
  result werror.error (option string) :=
  r <-? fst (invoke c (hostserv.StoreGet (ns_prefix ns +++ key)) v) ;;
  match r with hostserv.RValue x => Ok x | _ => Err bad_reply end.
Definition client_Put (ns : string) (c : store.call) (key value : string) (v : services) :
  result werror.error unit * services :=
  let (out, v') := invoke c (hostserv.StorePut (ns_prefix ns +++ key) value) v in
  ((do? out ;; Ok tt), v').
Definition client_Delete (ns : string) (c : store.call) (key : string) (v : services) :
  result werror.error unit * services :=
  let (out, v') := invoke c (hostserv.StoreDelete (ns_prefix ns +++ key)) v in
  ((do? out ;; Ok tt), v').
Definition client_List (ns : string) (c : store.call) (p : string) (v : services) :
  result werror.error (list string) :=
  r <-? fst (invoke c (hostserv.StoreList (ns_prefix ns +++ p)) v) ;;
  match r with
  | hostserv.RKeys ks =>
      Ok (if String.eqb (ns_prefix ns) "" then ks else trim_prefix (ns_prefix ns) <$> ks)
  | _ => Err bad_reply
  end.

Context {SL : store.StoreLaws S}.

(** The part of the module's namespace a client handle sees. *)
Definition client_view (ns : string) (v : services) (key : string) : option string :=
  store.view (hostserv.Store v) moduleID (ns_prefix ns +++ key).

Lemma sapp_inj_l (a b c : string) : a +++ b = a +++ c -> b = c.
Proof. induction a as [|x a IH]; simpl; intros H; [done|]. injection H. auto. Qed.

Lemma has_prefix_app_l (a p k : string) : has_prefix (a +++ p) (a +++ k) = has_prefix p k.
Proof.
  apply eq_true_iff_eq. rewrite !has_prefix_true. split; intros [r Hr]; exists r.
  - rewrite sapp_assoc in Hr. by apply sapp_inj_l in Hr.
  - by rewrite Hr, sapp_assoc.
Qed.

Lemma trim_prefix_app (a k : string) : trim_prefix a (a +++ k) = k.
Proof.
  unfold trim_prefix. destruct (cut_prefix a (a +++ k)) as [r|] eqn:E; simpl.
  - apply cut_prefix_Some in E. symmetry. by apply (sapp_inj_l a).
  - exfalso. assert (cut_prefix a (a +++ k) = Some k) by (by apply cut_prefix_Some). congruence.
Qed.

Lemma serve_own c r (v : services) :
  hostserv.serve moduleID token allow [token] c 0 r v = hostserv.dispatch moduleID allow c 0 r v.
Proof. unfold hostserv.serve. simpl. by rewrite String.eqb_refl. Qed.

(** What the server's [List] answers, seen through the client's trimming. *)
Lemma client_List_spec ns c p v l :
  store.wf (hostserv.Store v) -> client_List ns c p v = Ok l ->
  NoDup l /\ forall k, k ∈ l <-> has_prefix p k = true /\ is_Some (client_view ns v k).
Proof.
  intros Hwf Hl. unfold client_List, invoke, invoke_at in Hl. rewrite serve_own in Hl. simpl in Hl.
  unfold hostserv.storeServer_List in Hl.
  destruct (store.List c moduleID (ns_prefix ns +++ p) (hostserv.Store v)) as [ks|] eqn:E; simpl in Hl;
    [|done]. apply store.List_view in E as [Hnd Hks]; [|done].
  assert (forall k, k ∈ ks -> exists k', k = ns_prefix ns +++ k') as Hpre.
  { intros k [Hp _]%Hks. apply has_prefix_true in Hp as [r ->]. eexists. apply sapp_assoc. }
  assert (l = trim_prefix (ns_prefix ns) <$> ks) as ->.
  { destruct (String.eqb_spec (ns_prefix ns) "") as [He|]; simplify_eq; [|done].
    rewrite He. clear. induction l as [|x l IH]; [done|]. rewrite fmap_cons, <-IH. by destruct x. }
  split.
  - apply NoDup_fmap_2_strong; [|done]. intros x y [x' ->]%Hpre [y' ->]%Hpre.
    rewrite !trim_prefix_app. congruence.
  - intros k. rewrite list_elem_of_fmap. split.
    + intros (k' & -> & Hin). destruct (Hpre _ Hin) as [r ->]. apply Hks in Hin as [Hp Hs].
      rewrite trim_prefix_app. rewrite has_prefix_app_l in Hp. done.
    + intros [Hp Hs]. exists (ns_prefix ns +++ k). rewrite trim_prefix_app. split; [done|].
      apply Hks. by rewrite has_prefix_app_l.
Qed.

(** The SDK's namespaced store is a map of its own: a successful Get reads
    the handle's view, Put sets exactly one key of it, and List enumerates
    exactly the keys with the given prefix, prefix handling included. *)
Theorem store_client_map ns c key value p v :
  store.wf (hostserv.Store v) ->
  (forall r, client_Get ns c key v = Ok r -> r = client_view ns v key) /\
  (forall v', client_Put ns c key value v = (Ok tt, v') ->
     forall k, client_view ns v' k = if String.eqb k key then Some value else client_view ns v k) /\
  (forall l, client_List ns c p v = Ok l ->
     NoDup l /\ forall k, k ∈ l <-> has_prefix p k = true /\ is_Some (client_view ns v k)).
Proof.
  intros Hwf. split_and!.
  - intros r Hr. unfold client_Get, invoke, invoke_at in Hr. rewrite serve_own in Hr. simpl in Hr.
    unfold hostserv.storeServer_Get in Hr.
    destruct (store.Get c moduleID _ (hostserv.Store v)) as [x|] eqn:E; simpl in Hr; [|done].
    simplify_eq. by apply store.Get_view in E.
  - intros v' Hp. unfold client_Put, invoke, invoke_at in Hp. rewrite serve_own in Hp. simpl in Hp.
    unfold hostserv.storeServer_Put in Hp.
    destruct (store.Put _ _ _ _ _) as [r s'] eqn:E. destruct r as [[]|]; simpl in Hp; [|done].
    simplify_eq. intros k. unfold client_view. simpl.
    apply store.Put_view in E as [_ Hv]; [|done]. rewrite Hv. simpl.
    destruct (String.eqb_spec k key) as [->|Hne]; [by rewrite bool_decide_true|].
    rewrite bool_decide_false; [done|]. intros Heq. injection Heq as Heq. by apply sapp_inj_l in Heq.
  - intros l. by apply client_List_spec.
Qed.

(** Two differently named handles of one module never share a key. *)
Theorem client_namespaces_disjoint ns ns' k k' :
  ns <> ns' -> ns <> "" -> ns' <> "" -> contains "/" ns = false -> contains "/" ns' = false ->
  ns_prefix ns +++ k <> ns_prefix ns' +++ k'.
Proof.
  intros Hne H1 H2 H3 H4 Heq. unfold ns_prefix in Heq.
  destruct (String.eqb_spec ns ""), (String.eqb_spec ns' ""); try done.
  rewrite !sapp_assoc in Heq. by apply (sapp_sep_inj "/") in Heq as [? _].
Qed.
End Client.

Import (hints) store.
Import (hints) hostserv.

Lemma store_client_map_witness :
  let v := hostserv.demo_services in
  (forall r, client_Get "other" "t" [] "" store.a_call "k" v = Ok r -> r = client_view "other" "" v "k") /\
  (forall v', client_Put "other" "t" [] "" store.a_call "k" "w" v = (Ok tt, v') ->
     forall k, client_view "other" "" v' k = if String.eqb k "k" then Some "w" else client_view "other" "" v k) /\
  (forall l, client_List "other" "t" [] "" store.a_call "" v = Ok l ->
     NoDup l /\ forall k, k ∈ l <-> has_prefix "" k = true /\ is_Some (client_view "other" "" v k)).
Proof. intros v. by apply store_client_map. Defined.

Lemma client_namespaces_disjoint_witness : ns_prefix "a" +++ "b/c" <> ns_prefix "ab" +++ "c".
Proof. by apply client_namespaces_disjoint. Defined.

(** ** Start-up: negotiation and the handshake line *)

Record environment := mkEnv {
  EnvProtocolMin : string; EnvProtocolMax : string; EnvToken : string; EnvHostAddr : string;
  EnvSocketDir : string }.

(** How [Serve] ends before serving, or the line it prints. *)
Inductive startup := Exit (code : Z) | Printed (line : string).

(** [moduleAddr] on unix; core sets a clean absolute directory. *)
Definition moduleAddr (dir id : string) : option string :=
  if String.eqb dir "" then None else Some (dir +++ "/" +++ id +++ ".sock").

(** [serve] up to the handshake answer, with [Serve]'s exit codes. *)
Definition serve (id : string) (env : environment) (listen_ok : bool) : startup :=
  match handshake.ParseWindow (EnvProtocolMin env) (EnvProtocolMax env) with
  | Err _ => Exit 1
  | Ok window =>
      if negb (handshake.Contains window Protocol) then Exit handshake.ExitProtocolUnsupported
      else if String.eqb (EnvToken env) "" || String.eqb (EnvHostAddr env) "" then Exit 1
      else match moduleAddr (EnvSocketDir env) id with
      | None => Exit 1
      | Some addr =>
          if negb listen_ok then Exit 1
          else Printed (handshake.Format (handshake.mkLine Protocol handshake.NetworkUnix addr) +++
                        String (ascii_of_nat 10) "")
      end
  end.

(** The environment [launch] builds. *)
Definition launch_env (w : handshake.Window) (token hostAddr sockDir : string) : environment :=
  mkEnv (format_uint (handshake.w_Min w)) (format_uint (handshake.w_Max w)) token hostAddr sockDir.

Lemma sock_suffix_trimmed x : strip_one space_suffixes (srev (x +++ ".sock")) = None.
Proof. rewrite srev_sapp. reflexivity. Qed.

(** The line a module prints for its address. *)
Definition answer (dir id : string) : string :=
  handshake.Format (handshake.mkLine Protocol handshake.NetworkUnix (dir +++ "/" +++ id +++ ".sock")).

Lemma serve_answers id w token hostAddr dir :
  0 < handshake.w_Min w -> handshake.w_Min w <= handshake.w_Max w < 2 ^ 32 ->
  token <> "" -> hostAddr <> "" -> dir <> "" ->
  serve id (launch_env w token hostAddr dir) true =
    if handshake.Contains w Protocol then Printed (answer dir id +++ String (ascii_of_nat 10) "")
    else Exit handshake.ExitProtocolUnsupported.
Proof.
  intros H1 H2 Ht Hh Hd. unfold serve, launch_env.
  cbn [EnvProtocolMin EnvProtocolMax EnvToken EnvHostAddr EnvSocketDir].
  rewrite handshake.ParseWindow_env by done.
  destruct (handshake.Contains w Protocol); cbn [negb]; [|done].
  destruct (String.eqb_spec token ""), (String.eqb_spec hostAddr ""); try done. cbn [orb].
  unfold moduleAddr. by destruct (String.eqb_spec dir "").
Qed.

Lemma answer_parses id dir : dir <> "" -> contains "|" (dir +++ "/" +++ id +++ ".sock") = false ->
  handshake.Parse (answer dir id) =
    Ok (handshake.mkLine Protocol handshake.NetworkUnix (dir +++ "/" +++ id +++ ".sock")).
Proof.
  intros Hd Hbar. apply handshake.Parse_Format_line.
  split_and!; cbn [handshake.l_Protocol handshake.l_Network handshake.l_Addr].
  - done.
  - done.
  - by left.
  - by destruct dir.
  - done.
  - replace (dir +++ "/" +++ id +++ ".sock") with ((dir +++ "/" +++ id) +++ ".sock")
      by (by rewrite !sapp_assoc). apply sock_suffix_trimmed.
Qed.

(** End-to-end negotiation: a module started with the environment core builds
    for a window either finds its protocol inside it, and prints a line core
    parses as this protocol and this address, or exits with the refusal code. *)
Theorem negotiation id w token hostAddr dir :
  0 < handshake.w_Min w -> handshake.w_Min w <= handshake.w_Max w < 2 ^ 32 ->
  token <> "" -> hostAddr <> "" -> dir <> "" -> contains "|" (dir +++ "/" +++ id +++ ".sock") = false ->
  if handshake.Contains w Protocol then
    exists line, serve id (launch_env w token hostAddr dir) true = Printed (line +++ String (ascii_of_nat 10) "") /\
      handshake.Parse line =
        Ok (handshake.mkLine Protocol handshake.NetworkUnix (dir +++ "/" +++ id +++ ".sock"))
  else serve id (launch_env w token hostAddr dir) true = Exit 78.
Proof.
  intros H1 H2 Ht Hh Hd Hbar. rewrite serve_answers by done. destruct (handshake.Contains w Protocol); [|done].
  exists (answer dir id). split; [done|]. by apply answer_parses.
Qed.

Lemma negotiation_witness :
  exists line, serve "sysinfo" (launch_env (handshake.mkWindow 1 2) "t" "/h" "/run/m") true
      = Printed (line +++ String (ascii_of_nat 10) "") /\
    handshake.Parse line = Ok (handshake.mkLine 1 "unix" "/run/m/sysinfo.sock").
Proof. by apply (negotiation "sysinfo" (handshake.mkWindow 1 2) "t" "/h" "/run/m"). Defined.
(** [moduleAddr] on Windows: [nonce] is what [crypto/rand] returned, if it did. *)
Definition moduleAddr_windows (nonce : option string) (id : string) : option string :=
  (fun n => "\\.\pipe\weave-" +++ id +++ "-" +++ hex_encode n) <$> nonce.

(** ** The end of a module's process

    The [select] at the end of [serve], what follows it, and [Serve]'s exit code. *)
Inductive ending := ShutdownAsked | HostLost | Signalled | ServerFailed.

Definition serve_end (w : ending) (s : moduleServer) : Z * moduleServer :=
  match w with
  | ServerFailed => (1, s)
  | _ => (0, if host s then did CloseHost (set_host false (stopJobs s)) else s)
  end.

Lemma serve_end_code w s : fst (serve_end w s) = 0 <-> w <> ServerFailed.
Proof. by destruct w. Qed.

(** A started module holds its host connection. *)
Lemma started_host own rs : let s := handle_all own rs new_server in
  (state s = stateInited \/ state s = stateStarted -> host s = true) /\
  (shutdown s = true -> state s = stateStopped).
Proof.
  induction rs as [|r rs IH] using rev_ind; [by split; [intros [[=]|[=]]|]|].
  unfold handle_all in *. rewrite fold_left_app. cbn [fold_left].
  set (s := fold_left _ rs new_server) in *. destruct IH as [Hh Hd].
  destruct r as [id p e|ok|ok|ok]; cbn [handle].
  - unfold Init. destruct (bool_decide _) eqn:E; simpl; [|done]. apply bool_decide_eq_true in E.
    destruct (String.eqb id own); simpl; [|done]. destruct (p =? Protocol); simpl; [|done].
    destruct e as [[[]|] [] []]; simpl; rewrite ?E; (split; [try done; try by intros [[=]|[=]]|]); intros H; apply Hd in H; congruence.
  - unfold Start. destruct (bool_decide _) eqn:E; simpl; [|done]. apply bool_decide_eq_true in E.
    destruct ok; simpl; [unfold startJobs; simpl; destruct (jobs s); simpl|]; (split; [by auto|]);
      intros H; apply Hd in H; congruence.
  - unfold Stop, stopLocked. destruct (state s) eqn:E; simpl; [by split; [intros [[=]|[=]]|]..| |by split; [intros [[=]|[=]]|]].
    destruct ok; simpl; unfold stopJobs; destruct (jobs s); simpl; rewrite ?E; split; auto; by intros [[=]|[=]].
  - unfold Shutdown, stopLocked. destruct (state s) eqn:E; simpl; [by split; [intros [[=]|[=]]|]..| |by split; [intros [[=]|[=]]|]].
    destruct ok; simpl; unfold stopJobs; destruct (jobs s); simpl; rewrite ?E; split; auto; by intros [[=]|[=]].
Qed.

(** However core drove the module and whatever ends the process: a clean exit leaves
    no job running and no host connection, the module's own [Stop] ran before an
    exit core asked for, and only then: a started module that loses core or gets a
    signal exits with its jobs stopped but without its [Stop]. *)
Theorem module_exit own rs w :
  let s := handle_all own rs new_server in
  let '(c, s') := serve_end w s in
  (c = 0 -> jobs s' = false /\ host s' = false) /\
  (w = ShutdownAsked -> shutdown s = true -> state s' = stateStopped) /\
  (state s = stateStarted -> shutdown s = false /\ forall ok, ModuleStop ok ∈ effects s' -> ModuleStop ok ∈ effects s).
Proof.
  intros s. pose proof (started_host own rs) as [Hh Hd]. fold s in Hh, Hd.
  assert (agrees s) as Ha by (by apply agrees_all). unfold agrees in Ha.
  assert (state s = stateStarted -> shutdown s = false) as Hn
    by (intros E; destruct (shutdown s); [by rewrite Hd in E|done]).
  assert (forall ok, ModuleStop ok ∈ effects (did CloseHost (set_host false (stopJobs s))) -> ModuleStop ok ∈ effects s) as He.
  { intros ok. simpl. rewrite elem_of_app, list_elem_of_singleton. intros [H|[=]]. revert H.
    unfold stopJobs. destruct (jobs s); simpl; [|done]. rewrite elem_of_app, list_elem_of_singleton. by intros [|[=]]. }
  assert (jobs (did CloseHost (set_host false (stopJobs s))) = false) as Hj
    by (unfold stopJobs; by destruct (jobs s) eqn:E).
  assert (host s = false -> jobs s = false) as Hhj.
  { intros E. destruct (state s) eqn:Es; try by destruct Ha. by rewrite Hh in E by auto. }
  destruct w; simpl; try (split_and!; [done|done|by auto]).
  all: destruct (host s) eqn:E; (split_and!; [by auto| |by auto]);
    intros _ H; rewrite <-(Hd H); unfold stopJobs; simpl; by destruct (jobs s).
Qed.
End modulesdk.
