(* ===== verification/HvChannel.v ===== *)
(** * The hypervisor channel (sdk/hvchannel, internal/transport/hypervisor*.go)

    Framing, the envelope codec, the challenge-response authentication and the
    single read loop that gates every frame on it.  JSON decoding and Ed25519 are
    parameters; a decoding failure says which kind of error Go reports, because
    the read loop branches on it. *)

From stdpp Require Import base list strings gmap.
From Stdlib Require Import ZArith Lia Ascii.
From S2P Require Import Prelude.
From S2P Require Import GoStrings.
From S2P Require Import Base64.
From S2P Require Import Store.
From S2P Require Import Signing.
Open Scope Z_scope.
Open Scope go_scope.

Local Infix "+++" := String.append (at level 60, right associativity).

Module hvchannel.

(** ** Framing *)

Definition MaxFrameSize : Z := 512 * 2 ^ 20.

(** [binary.BigEndian.PutUint32] and [Uint32] *)
Definition put_u32 (n : Z) : string :=
  String (byte_of (n / 2 ^ 24 mod 256)) (String (byte_of (n / 2 ^ 16 mod 256))
    (String (byte_of (n / 2 ^ 8 mod 256)) (String (byte_of (n mod 256)) ""))).
Definition get_u32 (a b c d : ascii) : Z :=
  byte_val a * 2 ^ 24 + byte_val b * 2 ^ 16 + byte_val c * 2 ^ 8 + byte_val d.

Inductive error :=
| EOF | ErrUnexpectedEOF | ErrTooLarge (n : Z) | ErrWrite
| ErrSyntax | ErrType        (* json.SyntaxError, json.UnmarshalTypeError *)
| ErrOther.                  (* any other decoding error *)

Definition slen (s : string) : Z := Z.of_nat (String.length s).

Definition WriteFrame (payload : string) : result error string :=
  do? guard (MaxFrameSize <? slen payload) (ErrTooLarge (slen payload)) ;;
  Ok (put_u32 (slen payload mod 2 ^ 32) +++ payload).

(** [io.ReadFull] on what the stream still holds: [EOF] when there is nothing at
    all, [ErrUnexpectedEOF] when there is not enough. *)
Definition ReadFull (n : nat) (stream : string) : result error (string * string) :=
  if (n <=? String.length stream)%nat
  then Ok (String.substring 0 n stream, String.substring n (String.length stream - n) stream)
  else if String.eqb stream "" then Err EOF else Err ErrUnexpectedEOF.

Definition ReadFrame (stream : string) : result error (string * string) :=
  hdr <-? ReadFull 4 stream ;;
  match fst hdr with
  | String a (String b (String c (String d ""))) =>
      let n := get_u32 a b c d in
      do? guard (MaxFrameSize <? n) (ErrTooLarge n) ;;
      ReadFull (Z.to_nat n) (snd hdr)
  | _ => Err ErrUnexpectedEOF
  end.

Lemma get_put_u32 n : 0 <= n < 2 ^ 32 ->
  get_u32 (byte_of (n / 2 ^ 24 mod 256)) (byte_of (n / 2 ^ 16 mod 256))
          (byte_of (n / 2 ^ 8 mod 256)) (byte_of (n mod 256)) = n.
Proof.
  intros H. unfold get_u32. rewrite !byte_val_of by (apply Z.mod_pos_bound; lia).
  pose proof (Z.div_mod n 256). pose proof (Z.div_mod (n / 256) 256). pose proof (Z.div_mod (n / 256 / 256) 256).
  change (2 ^ 8) with 256. change (2 ^ 16) with (256 * 256). change (2 ^ 24) with (256 * 256 * 256).
  rewrite <-!Z.div_div by lia.
  assert (n / 256 / 256 / 256 mod 256 = n / 256 / 256 / 256) as ->; [|lia].
  apply Z.mod_small. split; [repeat apply Z.div_pos; lia|].
  rewrite !Z.div_div by lia. apply Z.div_lt_upper_bound; lia.
Qed.

Lemma ReadFull_app p rest : ReadFull (String.length p) (p +++ rest) = Ok (p, rest).
Proof.
  unfold ReadFull. replace (_ <=? _)%nat with true
    by (symmetry; apply Nat.leb_le; rewrite slength_app; lia).
  by rewrite store.substring_app_l, store.substring_app_r.
Qed.

Lemma ReadFrame_WriteFrame payload bytes rest :
  WriteFrame payload = Ok bytes -> ReadFrame (bytes +++ rest) = Ok (payload, rest).
Proof.
  unfold WriteFrame. intros H. bind_inv H. bool_to_prop. simplify_eq.
  assert (0 <= slen payload <= MaxFrameSize) as Hl by (unfold slen in *; lia).
  unfold MaxFrameSize in *. rewrite (Z.mod_small (slen payload)) by lia.
  unfold ReadFrame, put_u32. simpl String.append.
  set (b1 := byte_of (slen payload / 2 ^ 24 mod 256)). set (b2 := byte_of (slen payload / 2 ^ 16 mod 256)).
  set (b3 := byte_of (slen payload / 2 ^ 8 mod 256)). set (b4 := byte_of (slen payload mod 256)).
  pose proof (ReadFull_app (String b1 (String b2 (String b3 (String b4 "")))) (payload +++ rest)) as Hh.
  simpl String.append in Hh. simpl String.length in Hh. rewrite Hh. cbn [rbind fst snd].
  unfold b1, b2, b3, b4. rewrite get_put_u32 by lia.
  replace (_ <? slen payload) with false by (symmetry; apply Z.ltb_ge; unfold MaxFrameSize; lia).
  cbn [guard rbind]. unfold slen. rewrite Nat2Z.id. apply ReadFull_app.
Qed.

(** Writing a sequence of payloads and reading frames until the stream ends. *)
Fixpoint write_all (ps : list string) : result error string :=
  match ps with
  | [] => Ok ""
  | p :: ps' => b <-? WriteFrame p ;; bs <-? write_all ps' ;; Ok (b +++ bs)
  end.
Fixpoint read_all (fuel : nat) (stream : string) : list string * error :=
  match fuel with
  | O => ([], EOF)
  | S n =>
      match ReadFrame stream with
      | Ok (p, rest) => let (ps, e) := read_all n rest in (p :: ps, e)
      | Err e => ([], e)
      end
  end.

(** Frames stay aligned: what one end writes, payload after payload, the
    other reads back as exactly those payloads and then a clean end of stream. *)
Theorem frames_roundtrip ps bytes :
  write_all ps = Ok bytes -> forall fuel, (length ps < fuel)%nat -> read_all fuel bytes = (ps, EOF).
Proof.
  revert bytes. induction ps as [|p ps IH]; intros bytes H [|fuel] Hf; simpl in *; try lia.
  - by simplify_eq.
  - bind_inv H. simplify_eq. rewrite (ReadFrame_WriteFrame _ _ _ Hb).
    rewrite (IH _ Hb0) by lia. done.
Qed.

Lemma frames_roundtrip_witness :
  exists bytes, write_all ["hello"; ""; "x"] = Ok bytes /\ read_all 4 bytes = (["hello"; ""; "x"], EOF).
Proof. eexists. split; [reflexivity|]. by apply frames_roundtrip; [|simpl; lia]. Defined.

(** A stream that ends right after a header is reported as a clean end of
    stream, not as a truncated frame. *)
Theorem ReadFrame_header_only n : 0 < n <= MaxFrameSize -> ReadFrame (put_u32 n) = Err EOF.
Proof.
  intros H. unfold MaxFrameSize in H. unfold ReadFrame.
  pose proof (ReadFull_app (put_u32 n) "") as Hh. rewrite sapp_nil_r in Hh.
  change (String.length (put_u32 n)) with 4%nat in Hh. rewrite Hh. unfold put_u32. cbn [rbind fst snd].
  rewrite get_put_u32 by lia.
  replace (MaxFrameSize <? n) with false by (symmetry; apply Z.ltb_ge; unfold MaxFrameSize; lia).
  cbn [guard rbind]. unfold ReadFull. simpl String.length.
  replace (Z.to_nat n <=? 0)%nat with false by (symmetry; apply Nat.leb_gt; lia). done.
Qed.

Lemma ReadFrame_header_only_witness : ReadFrame (put_u32 5) = Err EOF.
Proof. apply ReadFrame_header_only. unfold MaxFrameSize. lia. Defined.

(** ** Authentication *)

Definition ControlModule : string := "hvchannel".
Definition KindAuthBegin : string := "auth.begin".
Definition KindAuthChallenge : string := "auth.challenge".
Definition KindAuthResponse : string := "auth.response".
Definition KindAuthResult : string := "auth.result".
Definition PreAuthKind : string := "guestweave.presence.hello".

Definition AllowedBeforeAuth (kind : string) : bool := has_prefix PreAuthKind kind.

Definition NonceSize : nat := 32.
Definition KeySize : nat := 32.
Definition PrivateKeySize : nat := 64.

Record AuthResponse := mkAuthResponse { r_PublicKey : string; r_Signature : string }.
Inductive reply := AuthChallenge (nonce : string) | AuthResult (ok : bool) (reason : string).

Definition authDomain : string := "weave-hvchannel-auth" +++ String signing.NUL "".
Definition SigningMessage (nonce : string) : string := authDomain +++ nonce.

(** [NewNonce]: a buffer filled from the entropy source. *)
Definition NewNonce (entropy : option string) : option string := store.fill NonceSize <$> entropy.

(** [Envelope] *)
Record Envelope := mkEnvelope { Module_ : string; Kind : string; Data : string }.

(** [channelAuth]: the trusted key (empty: none), the outstanding nonce (empty:
    none), and whether the connection is authenticated. *)
Record channelAuth := mkAuth { trusted : string; nonce : string; ok : bool }.

(** What the guest does, in order. *)
Inductive output := Delivered (e : Envelope) | Replied (kind : string) (r : reply).

Section Auth.
Context (ed_verify : string -> string -> string -> bool) (ed_sign : string -> string -> string)
  (ed_public : string -> string).
Context (decode_envelope : string -> result error Envelope) (encode_envelope : Envelope -> string).
Context (decode_response : string -> option AuthResponse).

(** [Sign] *)
Definition Sign (priv challenge : string) : option AuthResponse :=
  if negb (String.length priv =? PrivateKeySize)%nat then None
  else if negb (String.length challenge =? NonceSize)%nat then None
  else Some (mkAuthResponse (ed_public priv) (ed_sign priv (SigningMessage challenge))).

(** [Verify]: the reason, or nothing. *)
Definition Verify (trusted nonce : string) (resp : AuthResponse) : result string unit :=
  do? guard (negb (String.length trusted =? KeySize)%nat) "no trusted key configured" ;;
  do? guard (negb (String.length nonce =? NonceSize)%nat) "no outstanding challenge" ;;
  do? guard (negb (String.eqb (r_PublicKey resp) trusted))
        "response offers a different public key than this guest trusts" ;;
  guard (negb (ed_verify trusted (SigningMessage nonce) (r_Signature resp)))
        "signature does not match the challenge".

(** [loadChannelKey] on the contents of the file; [newChannelAuth]: an unusable
    key file gives an auth that trusts nobody. *)
Definition loadChannelKey (content : option string) : option string :=
  raw ← content; key ← base64.DecodeString (trim_space raw);
  if (String.length key =? KeySize)%nat then Some key else None.
Definition newChannelAuth (content : option string) : channelAuth :=
  mkAuth (default "" (loadChannelKey content)) "" false.

(** [allows] *)
Definition allows (kind : string) (a : channelAuth) : bool := AllowedBeforeAuth kind || ok a.

(** [handle]: the reply, if any, and the new state. *)
Definition handle (entropy : option string) (kind data : string) (a : channelAuth) :
  option (string * reply) * channelAuth :=
  if String.eqb kind KindAuthBegin then
    match NewNonce entropy with
    | None => (Some (KindAuthResult, AuthResult false "no challenge available"), a)
    | Some n => (Some (KindAuthChallenge, AuthChallenge n), mkAuth (trusted a) n (ok a))
    end
  else if String.eqb kind KindAuthResponse then
    match decode_response data with
    | None => (Some (KindAuthResult, AuthResult false "malformed response"), a)
    | Some resp =>
        let a' := mkAuth (trusted a) "" (ok a) in
        match Verify (trusted a) (nonce a) resp with
        | Err reason => (Some (KindAuthResult, AuthResult false reason), a')
        | Ok _ => (Some (KindAuthResult, AuthResult true ""), mkAuth (trusted a) "" true)
        end
    end
  else (None, a).

(** [ReadEnvelope] *)
Definition ReadEnvelope (stream : string) : result error (result error Envelope * string) :=
  p <-? ReadFrame stream ;; Ok (decode_envelope (fst p), snd p).

Definition isFrameDecodeError (e : error) : bool :=
  match e with ErrSyntax | ErrType => true | _ => false end.

(** One decoded frame in [readLoop]. *)
Definition on_envelope (entropy : option string) (env : Envelope) (a : channelAuth) : list output * channelAuth :=
  if String.eqb (Module_ env) ControlModule then
    let (r, a') := handle entropy (Kind env) (Data env) a in
    (match r with Some (k, x) => [Replied k x] | None => [] end, a')
  else if negb (allows (Kind env) a) then
    ([Replied KindAuthResult (AuthResult false "channel is not authenticated")], a)
  else ([Delivered env], a).

(** [readLoop] over what the wire carries; [es] is what the entropy source gives
    frame by frame.  The result is what the guest did and the rest of the
    stream the loop never looked at. *)
Fixpoint readLoop (fuel : nat) (es : list (option string)) (stream : string) (a : channelAuth) :
  list output * channelAuth :=
  match fuel with
  | O => ([], a)
  | S n =>
      match ReadEnvelope stream with
      | Err _ => ([], a)
      | Ok (Err e, rest) => if isFrameDecodeError e then readLoop n (tail es) rest a else ([], a)
      | Ok (Ok env, rest) =>
          let (out, a1) := on_envelope (default None (head es)) env a in
          let (outs, a2) := readLoop n (tail es) rest a1 in (out ++ outs, a2)
      end
  end.

(** [HypervisorPeer.Send]: the bytes written, or the refusal. *)
Definition Send (module kind data : string) (a : channelAuth) : result error string :=
  do? guard (negb (allows kind a)) ErrWrite ;;
  WriteFrame (encode_envelope (mkEnvelope module kind data)).

(** ** Properties *)

Lemma Verify_Ok t n resp : Verify t n resp = Ok tt ->
  String.length t = KeySize /\ String.length n = NonceSize /\ r_PublicKey resp = t /\
  ed_verify t (SigningMessage n) (r_Signature resp) = true.
Proof.
  unfold Verify. intros H. bind_inv H. apply guard_Ok in H. bool_to_prop.
  repeat match goal with Hn : (_ =? _)%nat = true |- _ => apply Nat.eqb_eq in Hn end. done.
Qed.

(** A proof of possession for a challenge of this connection. *)
Definition proved (t : string) (past : list output) : Prop :=
  exists n sig, Replied KindAuthChallenge (AuthChallenge n) ∈ past /\ String.length n = NonceSize /\
    String.length t = KeySize /\ ed_verify t (SigningMessage n) sig = true.

Definition auth_inv (t : string) (past : list output) (a : channelAuth) : Prop :=
  trusted a = t /\ (ok a = true -> proved t past) /\
  (nonce a <> "" -> Replied KindAuthChallenge (AuthChallenge (nonce a)) ∈ past).

Lemma proved_mono t p q : proved t p -> proved t (p ++ q).
Proof. intros (n & s & Hin & H). exists n, s. split; [apply elem_of_app; by left | done]. Qed.

Lemma auth_inv_app t past out a : auth_inv t past a -> auth_inv t (past ++ out) a.
Proof.
  intros (Ht & Hok & Hn). split_and!; [done | intros; by apply proved_mono, Hok|].
  intros H. apply elem_of_app. left. by apply Hn.
Qed.

Definition replies (r : option (string * reply)) : list output :=
  match r with Some (k, x) => [Replied k x] | None => [] end.

Lemma handle_inv t past ent kind data a r a' :
  auth_inv t past a -> handle ent kind data a = (r, a') -> auth_inv t (past ++ replies r) a'.
Proof.
  intros Hi H. pose proof Hi as (Ht & Hok & Hn). unfold handle in H.
  destruct (String.eqb kind KindAuthBegin).
  - destruct (NewNonce ent) as [n|]; simplify_eq; [|by apply auth_inv_app].
    split_and!; simpl; [done | intros; by apply proved_mono, Hok|].
    intros _. apply elem_of_app. right. left.
  - destruct (String.eqb kind KindAuthResponse); [|simplify_eq; by apply auth_inv_app].
    destruct (decode_response data) as [resp|]; [|simplify_eq; by apply auth_inv_app].
    destruct (Verify (trusted a) (nonce a) resp) as [[]|] eqn:Ev; simplify_eq;
      (split_and!; simpl; [done | |done]); [|intros; by apply proved_mono, Hok].
    intros _. apply proved_mono. apply Verify_Ok in Ev as (H1 & H2 & _ & H4).
    exists (nonce a), (r_Signature resp). split_and!; [|done..].
    apply Hn. intros Hz. by rewrite Hz in H2.
Qed.

Lemma on_envelope_inv t past ent env a out a' :
  auth_inv t past a -> on_envelope ent env a = (out, a') ->
  auth_inv t (past ++ out) a' /\
  (forall e, Delivered e ∈ out -> AllowedBeforeAuth (Kind e) = true \/ proved t past).
Proof.
  intros Hi H. unfold on_envelope in H. destruct (String.eqb (Module_ env) ControlModule).
  - destruct (handle ent (Kind env) (Data env) a) as [r a1] eqn:E. simplify_eq.
    split; [by apply (handle_inv _ _ _ _ _ _ _ _ Hi E)|]. intros e He.
    destruct r as [[k x]|]; [by apply list_elem_of_singleton in He | by apply elem_of_nil in He].
  - destruct (allows (Kind env) a) eqn:E; simpl in H; simplify_eq; (split; [by apply auth_inv_app|]);
      intros e He; apply list_elem_of_singleton in He; simplify_eq.
    apply orb_true_iff in E as [E|E]; [by left | right]. by apply Hi.
Qed.

Lemma readLoop_inv t fuel : forall es stream past a outs a',
  auth_inv t past a -> readLoop fuel es stream a = (outs, a') ->
  forall p q e, outs = p ++ Delivered e :: q -> AllowedBeforeAuth (Kind e) = true \/ proved t (past ++ p).
Proof.
  induction fuel as [|n IH]; intros es stream past a outs a' Hi H p q e Hout; simpl in H;
    [simplify_eq; by destruct p|].
  destruct (ReadEnvelope stream) as [[[env|de] rest]|]; [| |simplify_eq; by destruct p].
  - destruct (on_envelope _ env a) as [out a1] eqn:E1. destruct (readLoop n (tail es) rest a1) as [os a2] eqn:E2.
    simplify_eq. destruct (on_envelope_inv _ _ _ _ _ _ _ Hi E1) as [Hi1 Hd].
    assert ((exists p', p = out ++ p' /\ os = p' ++ Delivered e :: q) \/ (Delivered e ∈ out /\ exists q', out = p ++ Delivered e :: q'))
      as [(p' & -> & Hos)|[Hin _]].
    { apply app_eq_inv in H as [(k & -> & Hk)|(k & -> & Hk)]; [|by left; eauto].
      destruct k as [|x k]; simpl in *; [left; exists []; by rewrite !app_nil_r|]. simplify_eq.
      right. split; [apply elem_of_app; right; left | by eexists]. }
    + rewrite app_assoc. by eapply (IH _ _ _ _ _ _ Hi1 E2).
    + destruct (Hd e Hin) as [?|Hp]; [by left | right; by apply proved_mono].
  - destruct (isFrameDecodeError de); [|simplify_eq; by destruct p]. by eapply IH.
Qed.

(** No frame crosses an unauthenticated channel: whatever bytes arrive, a
    frame is handed to a module only if its kind is the hello exemption, or the
    peer has proved, earlier on this connection, possession of the trusted key
    by signing a challenge the guest had issued on it. *)
Theorem readLoop_gated fuel es stream content outs a' p q e :
  let a := newChannelAuth content in
  readLoop fuel es stream a = (outs, a') -> outs = p ++ Delivered e :: q ->
  has_prefix PreAuthKind (Kind e) = true \/
  exists n sig, Replied KindAuthChallenge (AuthChallenge n) ∈ p /\ String.length n = NonceSize /\
    String.length (trusted a) = KeySize /\ ed_verify (trusted a) (SigningMessage n) sig = true.
Proof.
  intros a H Hout. apply (readLoop_inv (trusted a) fuel es stream [] a outs a') with (q := q); [|done|done].
  by split_and!.
Qed.

(** Fail closed, both ways: a guest without a usable key file never becomes
    authenticated, and it sends nothing but hello frames either. *)
Theorem unprovisioned_refuses content fuel es stream outs a' module kind data :
  loadChannelKey content = None -> readLoop fuel es stream (newChannelAuth content) = (outs, a') ->
  ok a' = false /\ (has_prefix PreAuthKind kind = false -> Send module kind data a' = Err ErrWrite).
Proof.
  intros Hk H. assert (trusted a' = "" /\ ok a' = false) as [Ht Ho].
  { assert (forall fuel es stream a outs a', trusted a = "" /\ ok a = false ->
      readLoop fuel es stream a = (outs, a') -> trusted a' = "" /\ ok a' = false) as Hgen.
    { clear. induction fuel as [|n IH]; intros es stream a outs a' Ha H; simpl in H; [by simplify_eq|].
      destruct (ReadEnvelope stream) as [[[env|de] rest]|]; [| |by simplify_eq].
      - destruct (on_envelope _ env a) as [out a1] eqn:E1, (readLoop n (tail es) rest a1) as [os a2] eqn:E2.
        simplify_eq. eapply IH; [|exact E2]. destruct Ha as [H1 H2].
        unfold on_envelope, handle in E1. rewrite H1 in E1.
        repeat case_match; simplify_eq; simpl; try done.
      - destruct (isFrameDecodeError de); [by eapply IH | by simplify_eq]. }
    eapply Hgen; [|exact H]. unfold newChannelAuth. rewrite Hk. done. }
  split; [done|]. intros Hp. unfold Send, allows, AllowedBeforeAuth. by rewrite Hp, Ho.
Qed.

(** A challenge is single-use: after a well-formed response, right or wrong,
    every further response is refused until a new challenge is issued. *)
Theorem response_single_use ent ent' data data' resp resp' a :
  decode_response data = Some resp -> decode_response data' = Some resp' ->
  let a1 := snd (handle ent KindAuthResponse data a) in
  exists reason, handle ent' KindAuthResponse data' a1 =
    (Some (KindAuthResult, AuthResult false reason), a1).
Proof.
  intros H H' a1. assert (nonce a1 = "" /\ a1 = mkAuth (trusted a1) "" (ok a1)) as [Hn Ha].
  { unfold a1, handle. simpl. rewrite H. by destruct (Verify _ _ _) as [[]|]. }
  unfold handle. simpl. rewrite H'. unfold Verify. rewrite Hn.
  destruct (String.length (trusted a1) =? KeySize)%nat; simpl; eexists; by rewrite <-Ha.
Qed.

(** The read loop drops one message on a JSON syntax or type error but stops
    altogether on any other decoding error, such as a payload field that is not
    base64, and never looks at the frames behind it. *)
Theorem readLoop_stops_on_other_error n es payload bytes rest a :
  WriteFrame payload = Ok bytes -> decode_envelope payload = Err ErrOther ->
  readLoop (S n) es (bytes +++ rest) a = ([], a).
Proof.
  intros Hw Hd. simpl. unfold ReadEnvelope. rewrite (ReadFrame_WriteFrame _ _ _ Hw). simpl. by rewrite Hd.
Qed.
End Auth.

(** *** Witnesses: a three-frame conversation *)

Definition demo_decode (p : string) : result error Envelope :=
  if String.eqb p "B" then Ok (mkEnvelope ControlModule KindAuthBegin "")
  else if String.eqb p "R" then Ok (mkEnvelope ControlModule KindAuthResponse "")
  else if String.eqb p "D" then Ok (mkEnvelope "guest" "guest.exec" "uname")
  else Err ErrOther.
Definition demo_verify (k m s : string) : bool := String.eqb s "sig".
Definition demo_trusted : string := repeat_char 32 "k".
Definition demo_response (d : string) : option AuthResponse := Some (mkAuthResponse demo_trusted "sig").
Definition demo_file : option string := Some (base64.EncodeToString demo_trusted).
Definition demo_stream : string :=
  match write_all ["B"; "R"; "D"] with Ok b => b | Err _ => "" end.
Definition demo_outs : list output * channelAuth :=
  readLoop demo_verify demo_decode demo_response 4 [Some "entropy"] demo_stream (newChannelAuth demo_file).

Lemma readLoop_gated_witness :
  exists p e, fst demo_outs = p ++ [Delivered e] /\ has_prefix PreAuthKind (Kind e) = false /\
  (has_prefix PreAuthKind (Kind e) = true \/
   exists n sig, Replied KindAuthChallenge (AuthChallenge n) ∈ p /\ String.length n = NonceSize /\
     String.length (trusted (newChannelAuth demo_file)) = KeySize /\
     demo_verify (trusted (newChannelAuth demo_file)) (SigningMessage n) sig = true).
Proof.
  exists (removelast (fst demo_outs)), (mkEnvelope "guest" "guest.exec" "uname").
  split; [by vm_compute|]. split; [done|].
  apply (readLoop_gated demo_verify demo_decode demo_response 4 [Some "entropy"] demo_stream demo_file
           (fst demo_outs) (snd demo_outs) (removelast (fst demo_outs)) []); [apply surjective_pairing | by vm_compute].
Defined.

Lemma unprovisioned_refuses_witness :
  let out := readLoop demo_verify demo_decode demo_response 4 [Some "entropy"] demo_stream (newChannelAuth None) in
  ok (snd out) = false /\
  (has_prefix PreAuthKind "guest.exec" = false -> Send (fun _ => "") "guest" "guest.exec" "" (snd out) = Err ErrWrite).
Proof.
  intros out.
  apply (unprovisioned_refuses demo_verify demo_decode (fun _ => "") demo_response None 4 [Some "entropy"]
           demo_stream (fst out) (snd out) "guest" "guest.exec" ""); [done | apply surjective_pairing].
Defined.

Lemma response_single_use_witness :
  let a1 := snd (handle demo_verify demo_response None KindAuthResponse "" (mkAuth demo_trusted demo_trusted false)) in
  exists reason, handle demo_verify demo_response None KindAuthResponse "" a1 =
    (Some (KindAuthResult, AuthResult false reason), a1).
Proof.
  by apply (response_single_use demo_verify demo_response None None "" "" (mkAuthResponse demo_trusted "sig")
           (mkAuthResponse demo_trusted "sig") (mkAuth demo_trusted demo_trusted false)).
Defined.

Lemma readLoop_stops_on_other_error_witness :
  exists bytes, WriteFrame "junk" = Ok bytes /\
    readLoop demo_verify demo_decode demo_response 4 [] (bytes +++ demo_stream) (newChannelAuth demo_file)
    = ([], newChannelAuth demo_file).
Proof.
  eexists. split; [reflexivity|].
  by apply (readLoop_stops_on_other_error demo_verify demo_decode demo_response 3 [] "junk").
Defined.
End hvchannel.
