(* ===== verification/Transport.v ===== *)
(** * The channel mux (internal/transport/transport.go)

    Modules address a peer and core routes: a message goes to its peer at once,
    or into an offline queue kept in the encrypted store under zero-padded keys
    and drained in key order when the peer answers again.  The queue is proved
    against [StoreLaws] and the peers against [PeerLaws]; [HTTPPeer] is the
    GateWeave peer over an HTTP client given as a parameter.  Each method is one
    step: the mutexes of the mux serialise the parts that share state, except for
    [deliver] against the end of a stream, which [Streams] takes apart. *)

From stdpp Require Import base list strings gmap sorting countable.
From Stdlib Require Import ZArith Lia Ascii.
From S2P Require Import Prelude.
From S2P Require Import GoStrings.
From S2P Require Import StringOrder.
From S2P Require Import Json.
From S2P Require Import Store.
From S2P Require Import EventBus.
From S2P Require Import HostServ.
Open Scope go_scope.
Open Scope Z_scope.

Local Infix "+++" := String.append (at level 60, right associativity).

Module transport.
Import (hints) store.

Definition queueNamespace : string := "core.transport".
Definition queue_prefix : string := "queue/".

(** [agentv1.Peer], an open enumeration. *)
Definition PEER_GATEWEAVE : Z := 1.
Definition PEER_HYPERVISOR : Z := 2.

(** [Peer]: [Send] delivers one message now or returns an error. *)
Class Peer (P : Type) := {
  peer_Send : string -> string -> string -> P -> bool * P }.

Notation message := (string * string * string)%type.

(** [acked] is what the peer has acknowledged. *)
Class PeerLaws (P : Type) `{!Peer P} := {
  acked : P -> list message;
  Send_acked m k d p ok p' : peer_Send m k d p = (ok, p') ->
    acked p' = if ok then acked p ++ [(m, k, d)] else acked p }.

(** [queuedMessage] *)
Record queuedMessage := mkQueued { Module_ : string; Peer_ : Z; Kind : string; Data : string }.

(** [agentv1.TransportMessage] *)
Record TransportMessage := mkTM { tm_peer : Z; tm_kind : string; tm_data : string }.

(** [Mux].  A [Receive] channel is its identity and its buffered messages. *)
Record Mux (P S : Type) := mkMux {
  GateWeave : option P; Hypervisor : option P; Queue : option S; MaxQueued : Z;
  nextID : Z; seeded : bool; dropped : Z;
  subs : gmap string (list (nat * list TransportMessage)); fresh_ch : nat }.
Arguments mkMux {P S}.
Arguments GateWeave {P S}. Arguments Hypervisor {P S}. Arguments Queue {P S}.
Arguments MaxQueued {P S}. Arguments nextID {P S}. Arguments seeded {P S}.
Arguments dropped {P S}. Arguments subs {P S}. Arguments fresh_ch {P S}.

Definition defaultMaxQueued : Z := 10000.

(** [fmt.Sscanf(k, "queue/%020d", &n)]: the literal, blanks other than a new
    line, and at most twenty digits; what follows is not looked at. *)
Definition blanks : list string := filter (fun e => e <> newline) space_encodings.
Fixpoint take_digits (w : nat) (s : string) : string :=
  match w, s with
  | S w', String c s' => if is_digit c then String c (take_digits w' s') else ""
  | _, _ => ""
  end.
Definition scan_key (k : string) : option Z :=
  match cut_prefix queue_prefix k with
  | Some r => parse_uint 64 (take_digits 20 (trim_left blanks r))
  | None => None
  end.

(** [fmt.Sprintf("queue/%020d", n)] *)
Definition queue_key (n : Z) : string := queue_prefix +++ zero_padded 20 n.

Section Mux.
Context {P S : Type} `{!Peer P} {SB : store.StoreBackend S} {JQ : JSON queuedMessage}.
Notation mux := (Mux P S).

(** Field updates. *)
Definition with_queue (s : S) (m : mux) : mux :=
  mkMux (GateWeave m) (Hypervisor m) (Some s) (MaxQueued m) (nextID m) (seeded m) (dropped m) (subs m) (fresh_ch m).
Definition with_id (n : Z) (m : mux) : mux :=
  mkMux (GateWeave m) (Hypervisor m) (Queue m) (MaxQueued m) n true (dropped m) (subs m) (fresh_ch m).
Definition with_dropped (d : Z) (m : mux) : mux :=
  mkMux (GateWeave m) (Hypervisor m) (Queue m) (MaxQueued m) (nextID m) (seeded m) d (subs m) (fresh_ch m).
Definition with_subs (ss : gmap string (list (nat * list TransportMessage))) (f : nat) (m : mux) : mux :=
  mkMux (GateWeave m) (Hypervisor m) (Queue m) (MaxQueued m) (nextID m) (seeded m) (dropped m) ss f.

Definition maxQueued (m : mux) : Z := if 0 <? MaxQueued m then MaxQueued m else defaultMaxQueued.
Definition Dropped (m : mux) : Z := dropped m.

Definition peerFor (peer : Z) (m : mux) : option P :=
  if peer =? PEER_HYPERVISOR then Hypervisor m else GateWeave m.
Definition set_peer (peer : Z) (p : P) (m : mux) : mux :=
  if peer =? PEER_HYPERVISOR
  then mkMux (GateWeave m) (Some p) (Queue m) (MaxQueued m) (nextID m) (seeded m) (dropped m) (subs m) (fresh_ch m)
  else mkMux (Some p) (Hypervisor m) (Queue m) (MaxQueued m) (nextID m) (seeded m) (dropped m) (subs m) (fresh_ch m).

(** The loop of [seedNextIDLocked]. *)
Definition seed_from (keys : list string) (n0 : Z) : Z :=
  fold_left (fun n k => match scan_key k with Some v => if n <? v then v else n | None => n end) keys n0.

(** [seedNextIDLocked]: the counter it leaves. *)
Definition seedNextIDLocked (bg : store.call) (m : mux) : mux :=
  if seeded m then with_id (nextID m) m
  else match Queue m with
  | None => with_id (nextID m) m
  | Some s =>
      match store.List bg queueNamespace queue_prefix s with
      | Err _ => with_id (nextID m) m
      | Ok keys => with_id (seed_from keys (nextID m)) m
      end
  end.

(** The deletions of [enforceCap]: their errors are ignored. *)
Fixpoint delete_all (bg : store.call) (keys : list string) (s : S) : S :=
  match keys with
  | [] => s
  | k :: ks => delete_all bg ks (snd (store.Delete bg queueNamespace k s))
  end.

Definition enforceCap (bg : store.call) (m : mux) : mux :=
  match Queue m with
  | None => m
  | Some s =>
      match store.List bg queueNamespace queue_prefix s with
      | Err _ => m
      | Ok keys =>
          let over := Z.of_nat (length keys) - maxQueued m in
          if over <=? 0 then m
          else
            let victims := take (Z.to_nat over) (sort_strings keys) in
            with_dropped (eventbus.u64 (dropped m + over)) (with_queue (delete_all bg victims s) m)
      end
  end.

Definition enqueue (bg : store.call) (module : string) (peer : Z) (kind data : string) (m : mux) : mux :=
  match Queue m with
  | None => m
  | Some s =>
      let raw := marshal (mkQueued module peer kind data) in
      let m1 := seedNextIDLocked bg m in
      let m2 := with_id (eventbus.u64 (nextID m1 + 1)) m1 in
      match store.Put bg queueNamespace (queue_key (nextID m2)) raw s with
      | (Err _, s') => with_queue s' m2
      | (Ok _, s') => enforceCap bg (with_queue s' m2)
      end
  end.

(** The loop of [flush] over the sorted keys, with the number of unreadable
    messages it dropped. *)
Fixpoint flush_keys (bg : store.call) (peer : Z) (keys : list string) (p : P) (s : S) (d : Z) : P * S * Z :=
  match keys with
  | [] => (p, s, d)
  | key :: rest =>
      match store.Get bg queueNamespace key s with
      | Err _ | Ok None => flush_keys bg peer rest p s d
      | Ok (Some raw) =>
          match unmarshal raw with
          | None => flush_keys bg peer rest p (snd (store.Delete bg queueNamespace key s)) (eventbus.u64 (d + 1))
          | Some qm =>
              if negb (Peer_ qm =? peer) then flush_keys bg peer rest p s d
              else
                let (ok, p') := peer_Send (Module_ qm) (Kind qm) (Data qm) p in
                if ok
                then flush_keys bg peer rest p' (snd (store.Delete bg queueNamespace key s)) d
                else (p', s, d)
          end
      end
  end.

Definition flush (bg : store.call) (peer : Z) (p : P) (m : mux) : mux :=
  match Queue m with
  | None => set_peer peer p m
  | Some s =>
      match store.List bg queueNamespace queue_prefix s with
      | Err _ | Ok [] => set_peer peer p m
      | Ok keys =>
          let '(p', s', d) := flush_keys bg peer (sort_strings keys) p s (dropped m) in
          with_dropped d (with_queue s' (set_peer peer p' m))
      end
  end.

Definition Flush (bg : store.call) (peer : Z) (m : mux) : mux :=
  match peerFor peer m with Some p => flush bg peer p m | None => m end.

(** [peer.String()] *)
Definition peer_string (peer : Z) : string :=
  if peer =? 0 then "PEER_UNSPECIFIED" else if peer =? PEER_GATEWEAVE then "PEER_GATEWEAVE"
  else if peer =? PEER_HYPERVISOR then "PEER_HYPERVISOR"
  else if peer <? 0 then "-" +++ format_uint (- peer) else format_uint peer.

(** [fmt.Errorf("peer %s <why>: %w", peer, werror.ErrUnavailable)] *)
Definition unavailable (peer : Z) (why : string) : werror.error :=
  werror.mkError ("peer " +++ peer_string peer +++ " " +++ why +++ ": " +++ werror.text werror.ErrUnavailable)
    [werror.ErrUnavailable] None.

Definition Send (bg : store.call) (module : string) (peer : Z) (kind data : string) (queueOffline : bool) (m : mux) :
  result werror.error bool * mux :=
  match peerFor peer m with
  | Some p =>
      let (ok, p') := peer_Send module kind data p in
      if ok then (Ok true, flush bg peer p' m)
      else if queueOffline then (Ok false, enqueue bg module peer kind data (set_peer peer p' m))
      else (Err (unavailable peer "unreachable"), set_peer peer p' m)
  | None =>
      if queueOffline then (Ok false, enqueue bg module peer kind data m)
      else (Err (unavailable peer "not connected"), m)
  end.

(** ** Inbound: [Receive] and [deliver] *)

Definition inboundBuffer : nat := 64.

(** [Receive] up to the return of the channel, and what its goroutine does when
    the context ends. *)
Definition Receive (module : string) (m : mux) : nat * mux :=
  let ch := fresh_ch m in
  (ch, with_subs (<[module := default [] (subs m !! module) ++ [(ch, [])]]> (subs m)) (Datatypes.S ch) m).
Fixpoint remove_first (ch : nat) (l : list (nat * list TransportMessage)) : list (nat * list TransportMessage) :=
  match l with
  | [] => []
  | c :: l' => if (c.1 =? ch)%nat then l' else c :: remove_first ch l'
  end.
Definition Receive_done (module : string) (ch : nat) (m : mux) : mux :=
  with_subs (<[module := remove_first ch (default [] (subs m !! module))]> (subs m)) (fresh_ch m) m.

(** The non-blocking send of [deliver]. *)
Definition offer (msg : TransportMessage) (c : nat * list TransportMessage) : nat * list TransportMessage :=
  if (length c.2 <? inboundBuffer)%nat then (c.1, c.2 ++ [msg]) else c.

Definition deliver (module kind data : string) (m : mux) : mux :=
  match subs m !! module with
  | None | Some [] => m
  | Some l => with_subs (<[module := offer (mkTM PEER_HYPERVISOR kind data) <$> l]> (subs m)) (fresh_ch m) m
  end.
End Mux.

(** The mux behind module servers. *)
Definition Mux_backend {P S : Type} `{!Peer P} {SB : store.StoreBackend S} {JQ : JSON queuedMessage}
  (bg : store.call) : hostserv.TransportBackend (Mux P S) := {| hostserv.T_Send := Send bg |}.

(** ** [HTTPPeer] *)

(** [http.Client]: one POST, its status code or a transport error. *)
Class HTTPClient (H : Type) := { Do : string -> string -> H -> option Z * H }.
(** [answered] is what the server side got and how it answered. *)
Class HTTPLaws (H : Type) `{!HTTPClient H} := {
  answered : H -> list (string * Z);
  Do_answered u b h r h' : Do u b h = (r, h') ->
    answered h' = match r with Some c => answered h ++ [(b, c)] | None => answered h end }.

(** The posted document. *)
Record post := mkPost { device_id : string; p_module : string; p_kind : string; p_data : string }.

Record HTTPPeer (H : Type) := mkHTTPPeer { URL : string; Device : string; Client : H }.
Arguments mkHTTPPeer {H}. Arguments URL {H}. Arguments Device {H}. Arguments Client {H}.

Section HTTP.
Context {H : Type} `{!HTTPClient H} {JP : JSON post} (url_ok : string -> bool).

Definition HTTPPeer_Send (module kind data : string) (h : HTTPPeer H) : bool * HTTPPeer H :=
  let body := marshal (mkPost (Device h) module kind data) in
  if negb (url_ok (URL h)) then (false, h)
  else
    let (r, c) := Do (URL h) body (Client h) in
    (match r with
     | None => false
     | Some code => negb (negb (code =? 200) && negb (code =? 202))
     end, mkHTTPPeer (URL h) (Device h) c).

Definition HTTPPeer_peer : Peer (HTTPPeer H) := {| peer_Send := HTTPPeer_Send |}.

(** What the endpoint accepted. *)
Definition accepted (x : string * Z) : option message :=
  if (x.2 =? 200) || (x.2 =? 202)
  then (fun p => (p_module p, p_kind p, p_data p)) <$> unmarshal x.1 else None.

#[local] Existing Instance HTTPPeer_peer.
Program Definition HTTPPeer_laws `{!JSONLaws post, !HTTPLaws H} : PeerLaws (HTTPPeer H) :=
  {| acked h := omap accepted (answered (Client h)) |}.
Next Obligation.
  intros JL HL m k d p ok p' E. unfold peer_Send, HTTPPeer_peer, HTTPPeer_Send in E.
  destruct (url_ok (URL p)); simpl in E; [|by simplify_eq].
  destruct (Do _ _ _) as [r c] eqn:Ed. apply Do_answered in Ed. simplify_eq. simpl. rewrite Ed.
  destruct r as [code|]; [|done]. rewrite omap_app. unfold omap at 2. simpl. unfold accepted at 2. simpl.
  autorewrite with go_simp. simpl. destruct (code =? 200), (code =? 202); simpl; try done; by rewrite app_nil_r.
Qed.
End HTTP.

(** ** Queue keys *)

Lemma id_width n : 0 <= n < 2 ^ 64 -> 0 <= n < 10 ^ Z.of_nat 20.
Proof. intros H. assert (2 ^ 64 < 10 ^ Z.of_nat 20) by (vm_compute; done). lia. Qed.
#[local] Hint Resolve id_width : core.

Lemma queue_key_inj n m : 0 <= n < 2 ^ 64 -> 0 <= m < 2 ^ 64 -> queue_key n = queue_key m -> n = m.
Proof. intros Hn Hm E%sapp_inv_l. eapply (zero_padded_inj 20); eauto. lia. Qed.

Lemma queue_key_le n m : 0 <= n < 2 ^ 64 -> 0 <= m < 2 ^ 64 -> str_le (queue_key n) (queue_key m) <-> n <= m.
Proof. intros Hn Hm. unfold queue_key. rewrite str_le_app. apply zero_padded_le; eauto. lia. Qed.

Lemma queue_key_prefix n : has_prefix queue_prefix (queue_key n) = true.
Proof. apply has_prefix_true. by eexists. Qed.

Lemma take_digits_all s w : all_chars is_digit s = true -> String.length s = w -> take_digits w s = s.
Proof.
  intros Hs <-. induction s as [|c s IH]; simpl in *; [done|].
  apply andb_true_iff in Hs as [-> Hs]. by rewrite IH.
Qed.

(** No blank starts with a digit. *)
Lemma trim_left_digit c s : is_digit c = true -> trim_left blanks (String c s) = String c s.
Proof.
  intros Hc. apply trim_left_id, strip_one_None.
  assert (Forall (fun e => match e with String d _ => negb (is_digit d) | "" => false end = true) blanks) as Hb
    by decide_now.
  intros e r He E. apply (proj1 (list.Forall_forall _ _) Hb) in He. destruct e as [|d e]; [done|].
  simpl in E, He. apply negb_true_iff in He. congruence.
Qed.

(** [Sscanf] inverts [Sprintf] on every counter value. *)
Lemma scan_queue_key n : 0 <= n < 2 ^ 64 -> scan_key (queue_key n) = Some n.
Proof.
  intros Hn. unfold scan_key, queue_key.
  destruct (cut_prefix _ _) as [r|] eqn:E.
  2:{ exfalso. by apply (proj1 (cut_prefix_None _ _) E (zero_padded 20 n)). }
  apply cut_prefix_Some in E. apply sapp_inv_l in E as <-.
  pose proof (zero_padded_digits 20 n ltac:(lia) (id_width _ Hn)) as Hd.
  pose proof (zero_padded_length 20 n ltac:(lia) (id_width _ Hn)) as Hl.
  pose proof (zero_padded_decimal 20 n ltac:(lia) (id_width _ Hn)) as Hv.
  destruct (zero_padded 20 n) as [|c r] eqn:Ez; [done|].
  rewrite trim_left_digit by (simpl in Hd; by apply andb_true_iff in Hd as [? ?]).
  rewrite take_digits_all by done. unfold parse_uint. rewrite parse_digits_decimal, Hv by done.
  replace (0 * _ + n) with n by lia. by rewrite (proj2 (Z.ltb_lt _ _)) by lia.
Qed.

(** ** The queue as a sequence

    The abstract offline queue: messages oldest first, each with its number. *)

Definition lastn {A} (c : nat) (l : list A) : list A := drop (length l - c) l.

Lemma lastn_app {A} (c : nat) (l l' : list A) : lastn c (lastn c l ++ l') = lastn c (l ++ l').
Proof.
  unfold lastn. rewrite !length_app, length_drop, !drop_app, drop_drop, length_drop.
  destruct (decide (c <= length l)%nat); f_equal; f_equal; lia.
Qed.

Lemma lastn_fmap {A B} (f : A -> B) c (l : list A) : f <$> lastn c l = lastn c (f <$> l).
Proof. unfold lastn. by rewrite fmap_drop, length_fmap. Qed.

Lemma lastn_short {A} (c : nat) (l : list A) : (length l <= c)%nat -> lastn c l = l.
Proof. intros H. unfold lastn. by replace (length l - c)%nat with 0%nat by lia. Qed.

Section Queue.
Context {P S : Type} `{!Peer P} {SB : store.StoreBackend S} {SL : store.StoreLaws S} {JQ : JSON queuedMessage}.
Notation view_q s k := (store.view s queueNamespace k).

Definition ids_ok (ids : list Z) : Prop := StronglySorted Z.lt ids /\ Forall (fun n => 0 < n < 2 ^ 64) ids.

(** The store holds exactly the queue [q] under the queue prefix. *)
Definition queue_is (s : S) (q : list (Z * string)) : Prop :=
  store.wf s /\ ids_ok q.*1 /\
  forall k v, has_prefix queue_prefix k = true /\ view_q s k = Some v <->
              exists n, (n, v) ∈ q /\ k = queue_key n.

Lemma elem_fst n (v : string) (q : list (Z * string)) : (n, v) ∈ q -> n ∈ q.*1.
Proof. intros H. apply list_elem_of_fmap. by exists (n, v). Qed.

Lemma ids_keys_sorted ids : ids_ok ids -> StronglySorted str_le (queue_key <$> ids) /\ NoDup (queue_key <$> ids).
Proof.
  intros [Hs Hf]. induction Hs as [|n ids Hs IH Hall]; [split; constructor|].
  apply Forall_cons_1 in Hf as [Hn Hf]. destruct (IH Hf) as [IH1 IH2]. rewrite fmap_cons. split; constructor; try done.
  - apply Forall_fmap. rewrite list.Forall_forall in Hall, Hf |- *. intros x Hx. simpl.
    apply queue_key_le; [lia| |]; specialize (Hall x Hx); specialize (Hf x Hx); lia.
  - rewrite list_elem_of_fmap. intros (x & E & Hx). rewrite list.Forall_forall in Hall, Hf.
    specialize (Hall x Hx). specialize (Hf x Hx). apply queue_key_inj in E; lia.
Qed.

Lemma queue_keys_elem s q bg l k : queue_is s q -> store.List bg queueNamespace queue_prefix s = Ok l ->
  k ∈ l <-> k ∈ queue_key <$> q.*1.
Proof.
  intros (Hwf & _ & Hq) Hl. apply store.List_view in Hl as [_ Hl]; [|done]. rewrite Hl.
  rewrite list_elem_of_fmap. split.
  - intros [Hp [v Hv]]. destruct (proj1 (Hq k v) (conj Hp Hv)) as (n & Hn & ->). exists n.
    split; [done|]. apply list_elem_of_fmap. by exists (n, v).
  - intros (n & -> & ([n' v] & -> & Hin)%list_elem_of_fmap). simpl.
    destruct (proj2 (Hq (queue_key n') v)) as [Hp Hv]; [by exists n'|]. by rewrite Hv.
Qed.

(** Listing and sorting enumerates the queue oldest first. *)
Lemma queue_sorted_keys s q bg l : queue_is s q -> store.List bg queueNamespace queue_prefix s = Ok l ->
  sort_strings l = queue_key <$> q.*1.
Proof.
  intros Hq Hl. pose proof Hq as (Hwf & Hids & _). destruct (ids_keys_sorted _ Hids) as [Hs Hn].
  apply sort_strings_unique; [done | by apply store.List_view in Hl as [? _] | done |].
  intros k. by eapply queue_keys_elem.
Qed.

Lemma queue_length s q bg l : queue_is s q -> store.List bg queueNamespace queue_prefix s = Ok l ->
  length l = length q.
Proof.
  intros Hq Hl. pose proof (queue_sorted_keys _ _ _ _ Hq Hl) as E.
  rewrite <-(Permutation_length (sort_strings_perm l)), E. by rewrite !length_fmap.
Qed.

Lemma ids_ok_snoc ids n : ids_ok ids -> Forall (fun i => i < n) ids -> 0 < n < 2 ^ 64 -> ids_ok (ids ++ [n]).
Proof.
  intros [Hs Hf] Hlt Hn. split; [|by apply Forall_app_2; [|constructor]].
  clear Hf. induction Hs as [|i ids Hs IH Hall]; simpl; [by repeat constructor|].
  apply Forall_cons_1 in Hlt as [Hi Hlt]. constructor; [by apply IH|].
  apply Forall_app_2; [done|]. by constructor.
Qed.

(** [Put] under a number above all others appends. *)
Lemma put_appends s q n v bg r s' :
  queue_is s q -> Forall (fun i => i < n) q.*1 -> 0 < n < 2 ^ 64 ->
  store.Put bg queueNamespace (queue_key n) v s = (Ok r, s') -> queue_is s' (q ++ [(n, v)]).
Proof.
  intros (Hwf & Hids & Hq) Hlt Hn E. apply store.Put_view in E as [Hwf' Hv]; [|done]. simpl in Hv.
  split_and!; [done | rewrite fmap_app; by apply ids_ok_snoc |].
  intros k w. rewrite Hv. case_bool_decide as Ek.
  - simplify_eq. split.
    + intros [_ ?]. simplify_eq. exists n. split; [set_solver | done].
    + intros (n' & Hin & Ek). split; [apply queue_key_prefix|].
      apply elem_of_app in Hin as [Hin|Hin%list_elem_of_singleton]; [|by simplify_eq].
      exfalso. pose proof (elem_fst _ _ _ Hin) as Hin'.
      destruct Hids as [_ Hf]. rewrite list.Forall_forall in Hlt, Hf. specialize (Hlt _ Hin'). specialize (Hf _ Hin').
      apply queue_key_inj in Ek; lia.
  - rewrite Hq. split; intros (n' & Hin & ->); exists n'; (split; [|done]); [set_solver|].
    apply elem_of_app in Hin as [?|Hin%list_elem_of_singleton]; [done|]. by simplify_eq.
Qed.

Lemma ids_ok_remove (q1 q2 : list Z) n : ids_ok (q1 ++ n :: q2) -> ids_ok (q1 ++ q2) /\ n ∉ q1 ++ q2.
Proof.
  intros [Hs Hf]. split; [split|].
  - clear Hf. induction q1 as [|i q1 IH]; simpl in *; [by inversion Hs|].
    inversion Hs as [|? ? Hs' Hall]; subst. constructor; [by apply IH|].
    apply Forall_app in Hall as [? Hall]. apply Forall_app_2; [done|]. by inversion Hall.
  - apply Forall_app in Hf as [? Hf]. apply Forall_app_2; [done|]. by inversion Hf.
  - clear Hf. induction q1 as [|i q1 IH]; simpl in *; inversion Hs as [|? ? Hs' Hall]; subst.
    + intros Hin. rewrite list.Forall_forall in Hall. specialize (Hall n Hin). lia.
    + rewrite list.Forall_forall in Hall. apply not_elem_of_cons. split; [|by apply IH].
      specialize (Hall n ltac:(set_solver)). lia.
Qed.

(** [Delete] removes one entry. *)
Lemma delete_removes s q1 q2 n v bg r s' :
  queue_is s (q1 ++ (n, v) :: q2) ->
  store.Delete bg queueNamespace (queue_key n) s = (Ok r, s') -> queue_is s' (q1 ++ q2).
Proof.
  intros (Hwf & Hids & Hq) E. apply store.Delete_view in E as [Hwf' Hv]; [|done]. simpl in Hv.
  rewrite fmap_app, fmap_cons in Hids. destruct (ids_ok_remove _ _ _ Hids) as [Hids' Hnot].
  rewrite <-fmap_app in Hids', Hnot. split_and!; [done..|]. intros k w. rewrite Hv. simpl in Hnot.
  destruct Hids as [_ Hf]. rewrite <-fmap_cons, <-fmap_app in Hf. rewrite list.Forall_forall in Hf.
  case_bool_decide as Ek; [simplify_eq|].
  - split; [by intros [_ ?]|]. intros (n' & Hin & Ek). exfalso.
    pose proof (elem_fst _ _ _ Hin) as Hn'.
    assert (n = n') as ->; [|done].
    assert (0 < n < 2 ^ 64) by (apply Hf, (elem_fst _ v); set_solver).
    assert (0 < n' < 2 ^ 64) by (apply Hf, (elem_fst _ w); set_solver).
    apply queue_key_inj; [lia..|done].
  - rewrite Hq. split; intros (n' & Hin & ->); exists n'; (split; [|done]); [|set_solver].
    assert ((n', w) <> (n, v)) by congruence. set_solver.
Qed.

(** *** Numbering *)

Lemma seed_from_spec keys n0 :
  n0 <= seed_from keys n0 /\
  (forall k n, k ∈ keys -> scan_key k = Some n -> n <= seed_from keys n0) /\
  forall b, n0 <= b -> (forall k n, k ∈ keys -> scan_key k = Some n -> n <= b) -> seed_from keys n0 <= b.
Proof.
  unfold seed_from. revert n0. induction keys as [|k keys IH]; intros n0; simpl.
  { split_and!; [lia | set_solver | done]. }
  set (n1 := match scan_key k with Some v => if n0 <? v then v else n0 | None => n0 end).
  destruct (IH n1) as (I1 & I2 & I3).
  assert (n0 <= n1 /\ (forall n, scan_key k = Some n -> n <= n1) /\
          (forall b, n0 <= b -> (forall n, scan_key k = Some n -> n <= b) -> n1 <= b)) as (J1 & J2 & J3).
  { subst n1. destruct (scan_key k) as [v|]; [|by split_and!; [lia|intros ? ?|]].
    destruct (Z.ltb_spec n0 v); split_and!; intros; simplify_eq; try lia; eauto. }
  split_and!; [lia| |].
  - intros k' n [->|Hin]%elem_of_cons Hn; [specialize (J2 _ Hn); lia | eauto].
  - intros b Hb Hall. apply I3; [apply J3; [done|] |]; intros; eapply Hall; eauto; set_solver.
Qed.

(** The mux holds the queue [q] and no number in use is above [b]. *)
Record mux_is (m : Mux P S) (q : list (Z * string)) (b : Z) : Prop := {
  mi_store : exists s, Queue m = Some s /\ queue_is s q;
  mi_next : 0 <= nextID m <= b;
  mi_ids : Forall (fun n => n <= b) q.*1;
  mi_seeded : seeded m = true -> Forall (fun n => n <= nextID m) q.*1 }.

(** A background call on a store in working order. *)
Record reliable (bg : store.call) : Prop := {
  r_live : store.ctx_done bg = false;
  r_put k v s : store.wf s -> is_ok (fst (store.Put bg queueNamespace k v s)) = true;
  r_delete k s : store.wf s -> is_ok (fst (store.Delete bg queueNamespace k s)) = true;
  r_list s : store.wf s -> is_ok (store.List bg queueNamespace queue_prefix s) = true }.

Lemma seed_above bg m q b : reliable bg -> mux_is m q b -> 0 <= b < 2 ^ 64 ->
  let m1 := seedNextIDLocked bg m in
  nextID m <= nextID m1 <= b /\ Forall (fun n => n <= nextID m1) q.*1 /\
  Queue m1 = Queue m /\ MaxQueued m1 = MaxQueued m /\ GateWeave m1 = GateWeave m /\ Hypervisor m1 = Hypervisor m.
Proof.
  intros R [(s & Hs & Hq) Hn Hi Hsd] Hb. unfold seedNextIDLocked.
  destruct (seeded m) eqn:E; simpl; [split_and!; try done; try lia; by apply Hsd|].
  rewrite Hs. pose proof (r_list _ R s (proj1 Hq)) as Hl.
  destruct (store.List _ _ _ s) as [l|] eqn:El; [|done]. simpl.
  destruct (seed_from_spec l (nextID m)) as (S1 & S2 & S3).
  pose proof Hq as (_ & [_ Hf] & _). rewrite list.Forall_forall in Hf, Hi.
  assert (forall k n, k ∈ l -> scan_key k = Some n -> n ∈ q.*1) as Hk.
  { intros k n Hin Hsc. rewrite (queue_keys_elem _ _ _ _ _ Hq El) in Hin.
    apply list_elem_of_fmap in Hin as (n' & -> & Hn'). specialize (Hf _ Hn').
    rewrite scan_queue_key in Hsc by lia. by simplify_eq. }
  split_and!; try done; [apply S3; [lia|]; eauto |].
  apply list.Forall_forall. intros n Hin. apply (S2 (queue_key n)).
  - rewrite (queue_keys_elem _ _ _ _ _ Hq El). apply list_elem_of_fmap. eauto.
  - specialize (Hf _ Hin). apply scan_queue_key. lia.
Qed.

(** *** [enforceCap] *)

Lemma delete_all_drops bg j q s : reliable bg -> queue_is s q ->
  queue_is (delete_all bg (take j (queue_key <$> q.*1)) s) (drop j q).
Proof.
  intros R. revert q s. induction j as [|j IH]; intros [|[n v] q] s Hq; try done. simpl.
  pose proof (r_delete _ R (queue_key n) s (proj1 Hq)) as Hd.
  destruct (store.Delete _ _ _ s) as [r s'] eqn:E. simpl in *. destruct r; [|done].
  apply IH. by eapply (delete_removes s []).
Qed.

Definition cap (m : Mux P S) : nat := Z.to_nat (maxQueued m).

Lemma cap_pos (m : Mux P S) : 0 < maxQueued m.
Proof. unfold maxQueued, defaultMaxQueued. destruct (Z.ltb_spec 0 (MaxQueued m)); lia. Qed.

Lemma enforceCap_spec bg m s q : reliable bg -> Queue m = Some s -> queue_is s q ->
  let m' := enforceCap bg m in
  (exists s', Queue m' = Some s' /\ queue_is s' (lastn (cap m) q)) /\
  nextID m' = nextID m /\ seeded m' = seeded m /\ MaxQueued m' = MaxQueued m /\
  GateWeave m' = GateWeave m /\ Hypervisor m' = Hypervisor m.
Proof.
  intros R Hs Hq. unfold enforceCap. rewrite Hs. pose proof (r_list _ R s (proj1 Hq)) as Hl.
  destruct (store.List _ _ _ s) as [l|] eqn:El; [|done].
  rewrite (queue_length _ _ _ _ Hq El). pose proof (cap_pos m).
  destruct (Z.leb_spec (Z.of_nat (length q) - maxQueued m) 0).
  - rewrite lastn_short by (unfold cap; lia). split_and!; eauto.
  - rewrite (queue_sorted_keys _ _ _ _ Hq El). split_and!; try done. eexists. split; [done|].
    unfold lastn. replace (length q - cap m)%nat with (Z.to_nat (Z.of_nat (length q) - maxQueued m))
      by (unfold cap; lia). by apply delete_all_drops.
Qed.

Lemma lastn_Forall {A} (Q : A -> Prop) c l : Forall Q l -> Forall Q (lastn c l).
Proof. apply Forall_drop. Qed.

(** [enqueue] appends, and drops the oldest beyond the cap. *)
Lemma enqueue_spec bg module peer kind data m q b :
  reliable bg -> mux_is m q b -> 0 <= b -> b + 1 < 2 ^ 64 ->
  let m' := enqueue bg module peer kind data m in
  let raw := marshal (mkQueued module peer kind data) in
  (exists n, mux_is m' (lastn (cap m) (q ++ [(n, raw)])) (b + 1)) /\ MaxQueued m' = MaxQueued m /\
  GateWeave m' = GateWeave m /\ Hypervisor m' = Hypervisor m.
Proof.
  intros R Hm Hb0 Hb. unfold enqueue. pose proof Hm as [(s & Hs & Hq) Hn Hi _]. rewrite Hs.
  destruct (seed_above bg m q b R Hm ltac:(lia)) as (Hn1 & Hab & Hs1 & Hc1 & Hg & Hh).
  set (m1 := seedNextIDLocked bg m) in *. simpl. rewrite eventbus.u64_small by lia.
  set (n := nextID m1 + 1). pose proof (r_put _ R (queue_key n) (marshal (mkQueued module peer kind data)) s (proj1 Hq)) as Hp.
  destruct (store.Put _ _ _ _ s) as [[u|] s'] eqn:Ep; [|done]. clear Hp.
  assert (Forall (fun i => i < n) q.*1) as Hlt by (eapply list.Forall_impl; [exact Hab|]; intros x Hx; simpl in *; lia).
  assert (queue_is s' (q ++ [(n, marshal (mkQueued module peer kind data))])) as Hq' by (eapply put_appends; eauto; lia).
  destruct (enforceCap_spec bg (with_queue s' (with_id n m1)) s' _ R eq_refl Hq') as ((s2 & Hs2 & Hq2) & E1 & E2 & E3 & E4 & E5).
  assert (cap (with_queue s' (with_id n m1)) = cap m) as Ecap by (unfold cap, maxQueued; simpl; by rewrite Hc1).
  rewrite Ecap in Hq2. split_and!; [|by rewrite E3|by rewrite E4|by rewrite E5]. exists n.
  assert (Forall (fun i => i <= n) (q ++ [(n, marshal (mkQueued module peer kind data))]).*1) as Hle.
  { rewrite fmap_app. apply Forall_app_2; [eapply list.Forall_impl; [exact Hlt|]; intros; simpl in *; lia|]. constructor; [simpl; lia|constructor]. }
  assert (forall c, Forall (fun i => i <= n) (lastn c (q ++ [(n, marshal (mkQueued module peer kind data))])).*1) as Hle'.
  { intros c. unfold lastn. rewrite fmap_drop. by apply Forall_drop. }
  split; [eauto | rewrite E1; simpl; lia | eapply list.Forall_impl; [apply Hle'|]; intros; simpl in *; lia |].
  intros _. rewrite E1. simpl. apply Hle'.
Qed.

(** *** Draining *)

(** The drain of an abstract queue: what stays, and the peer. *)
Fixpoint spec_flush (peer : Z) (q : list (Z * string)) (p : P) : list (Z * string) * P :=
  match q with
  | [] => ([], p)
  | (n, raw) :: q' =>
      match unmarshal raw with
      | None => spec_flush peer q' p
      | Some qm =>
          if negb (Peer_ qm =? peer) then let (r, p') := spec_flush peer q' p in ((n, raw) :: r, p')
          else let (ok, p') := peer_Send (Module_ qm) (Kind qm) (Data qm) p in
               if ok then spec_flush peer q' p' else ((n, raw) :: q', p')
      end
  end.

Lemma queue_get s q n v bg : queue_is s q -> (n, v) ∈ q -> reliable bg ->
  store.Get bg queueNamespace (queue_key n) s = Ok (Some v).
Proof.
  intros (Hwf & _ & Hq) Hin R. pose proof (store.Get_live bg queueNamespace (queue_key n) s Hwf (r_live _ R)) as Hl.
  destruct (store.Get _ _ _ s) as [o|] eqn:E; [|done]. apply store.Get_view in E; [|done].
  destruct (proj2 (Hq (queue_key n) v)) as [_ Hv]; [eauto|]. by rewrite E, Hv.
Qed.

Lemma delete_ok s q1 q2 n v bg : reliable bg -> queue_is s (q1 ++ (n, v) :: q2) ->
  queue_is (snd (store.Delete bg queueNamespace (queue_key n) s)) (q1 ++ q2).
Proof.
  intros R Hq. pose proof (r_delete _ R (queue_key n) s (proj1 Hq)) as Hd.
  destruct (store.Delete _ _ _ s) as [[u|] s'] eqn:E; [|done]. by eapply delete_removes.
Qed.

(** The loop drains the stored queue as the abstract one is drained; [kept] is
    what earlier iterations left in place. *)
Lemma flush_keys_spec bg peer q kept p s d p' s' d' : reliable bg -> queue_is s (kept ++ q) ->
  flush_keys bg peer (queue_key <$> q.*1) p s d = (p', s', d') ->
  queue_is s' (kept ++ (spec_flush peer q p).1) /\ p' = (spec_flush peer q p).2.
Proof.
  intros R. revert kept p s d. induction q as [|[n raw] q IH]; intros kept p s d Hq H.
  { simpl in *. by simplify_eq. }
  simpl in *. rewrite (queue_get _ _ n raw bg Hq ltac:(set_solver) R) in H.
  destruct (unmarshal raw) as [qm|]; [|eapply IH; [by eapply delete_ok | done]].
  destruct (negb _).
  - destruct (spec_flush peer q p) as [r p1] eqn:E. simpl.
    replace (kept ++ (n, raw) :: q) with ((kept ++ [(n, raw)]) ++ q) in Hq by (by rewrite <-app_assoc).
    destruct (IH _ _ _ _ Hq H) as [H1 H2]. rewrite E in H1, H2. by rewrite <-app_assoc in H1.
  - destruct (peer_Send _ _ _ p) as [[] p1]; [|by simplify_eq].
    eapply IH; [by eapply delete_ok | done].
Qed.

Lemma flush_spec bg peer p m s q : reliable bg -> Queue m = Some s -> queue_is s q ->
  let m' := flush bg peer p m in
  (exists s', Queue m' = Some s' /\ queue_is s' (spec_flush peer q p).1) /\
  peerFor peer m' = Some (spec_flush peer q p).2.
Proof.
  intros R Hs Hq. unfold flush. rewrite Hs. pose proof (r_list _ R s (proj1 Hq)) as Hl.
  destruct (store.List _ _ _ s) as [l|] eqn:El; [|done].
  pose proof (queue_sorted_keys _ _ _ _ Hq El) as Hk. pose proof (queue_length _ _ _ _ Hq El) as Hlen.
  assert (forall x, peerFor peer (set_peer peer x m) = Some x) as Hpeer
    by (intros x; unfold peerFor, set_peer; by destruct (peer =? PEER_HYPERVISOR)).
  destruct l as [|k l].
  - destruct q as [|x q]; [|done]. simpl. split; [|done]. exists s. split; [|done].
    unfold set_peer. by destruct (peer =? PEER_HYPERVISOR).
  - rewrite Hk. destruct (flush_keys _ _ _ p s _) as [[p' s'] d] eqn:E.
    destruct (flush_keys_spec bg peer q [] p s _ _ _ _ R Hq E) as [H1 ->]. split; [by eexists|].
    rewrite <-Hpeer. unfold peerFor, set_peer. by destruct (peer =? PEER_HYPERVISOR).
Qed.

Context {PL : PeerLaws P} {JL : JSONLaws queuedMessage}.

(** A queue of one peer's messages, drained to a peer that takes everything. *)
Lemma spec_flush_all peer (ms : list message) q p :
  (forall m k d p, fst (peer_Send m k d p) = true) ->
  q.*2 = (fun '(m, k, d) => marshal (mkQueued m peer k d)) <$> ms ->
  (spec_flush peer q p).1 = [] /\ acked (spec_flush peer q p).2 = acked p ++ ms.
Proof.
  intros Hup. revert q p. induction ms as [|[[m k] d] ms IH]; intros [|[n raw] q] p Hq; try done.
  { simpl. by rewrite app_nil_r. }
  simpl in *. simplify_eq. rewrite unmarshal_marshal. simpl. rewrite Z.eqb_refl. simpl.
  destruct (peer_Send m k d p) as [ok p'] eqn:E. pose proof (Hup m k d p) as Hok. rewrite E in Hok. simpl in Hok.
  subst ok. apply Send_acked in E. destruct (IH q p') as [I1 I2]; [done|]. split; [done|].
  by rewrite I2, E, <-app_assoc.
Qed.

(** [enqueue] for each message, in turn, and the mux of a restarted process. *)
Definition enqueue_all (bg : store.call) (peer : Z) (ms : list message) (m : Mux P S) : Mux P S :=
  fold_left (fun m '(mo, k, d) => enqueue bg mo peer k d m) ms m.
Definition restart (m : Mux P S) : Mux P S :=
  mkMux (GateWeave m) (Hypervisor m) (Queue m) (MaxQueued m) 0 false 0 ∅ 0%nat.

Lemma enqueue_all_spec bg peer ms m q b : reliable bg -> mux_is m q b -> 0 <= b ->
  b + Z.of_nat (length ms) < 2 ^ 64 -> (length q <= cap m)%nat ->
  let m' := enqueue_all bg peer ms m in
  (exists q', mux_is m' q' (b + Z.of_nat (length ms)) /\ (length q' <= cap m)%nat /\
     q'.*2 = lastn (cap m) (q.*2 ++ ((fun '(mo, k, d) => marshal (mkQueued mo peer k d)) <$> ms))) /\
  MaxQueued m' = MaxQueued m /\ GateWeave m' = GateWeave m /\ Hypervisor m' = Hypervisor m.
Proof.
  intros R. revert m q b. induction ms as [|[[mo k] d] ms IH]; intros m q b Hm Hb0 Hb Hq; simpl in *.
  - split_and!; try done. exists q. rewrite Z.add_0_r, app_nil_r. split_and!; try done.
    rewrite lastn_short; [done|]. by rewrite length_fmap.
  - destruct (enqueue_spec bg mo peer k d m q b R Hm Hb0 ltac:(lia)) as ([n Hm1] & E1 & E2 & E3).
    set (m1 := enqueue bg mo peer k d m) in *.
    assert (cap m1 = cap m) as Ec by (unfold cap, maxQueued; by rewrite E1).
    destruct (IH m1 _ _ Hm1 ltac:(lia) ltac:(lia)) as ((q' & Hq' & Hl' & Hc') & F1 & F2 & F3).
    { rewrite Ec. unfold lastn. rewrite length_drop. lia. }
    split_and!; [|congruence..]. exists q'. rewrite Ec in Hl', Hc'.
    split_and!; [by replace (b + Z.of_nat (Datatypes.S (length ms))) with (b + 1 + Z.of_nat (length ms)) by lia|done|].
    by rewrite Hc', lastn_fmap, fmap_app, lastn_app, <-app_assoc.
Qed.

Lemma restart_is m q b : mux_is m q b -> 0 <= b -> mux_is (restart m) q b.
Proof. intros [Hs Hn Hi _] Hb. by split. Qed.

(** C12. Store and forward: messages for a disconnected peer are queued, survive a
    restart of the agent, and when the peer is back are delivered in the order
    they were sent, after which the queue is empty; if they exceed the cap, the
    oldest are the ones missing and nothing else is lost, reordered or sent
    twice. *)
Theorem offline_fifo bg peer ms1 ms2 (m0 : Mux P S) s0 p :
  reliable bg -> Queue m0 = Some s0 -> queue_is s0 [] -> nextID m0 = 0 ->
  Z.of_nat (length ms1 + length ms2) < 2 ^ 64 ->
  (forall m k d p, fst (peer_Send m k d p) = true) ->
  let m1 := enqueue_all bg peer ms2 (restart (enqueue_all bg peer ms1 m0)) in
  exists s' p', Queue (flush bg peer p m1) = Some s' /\ queue_is s' [] /\
    peerFor peer (flush bg peer p m1) = Some p' /\
    acked p' = acked p ++ lastn (cap m0) (ms1 ++ ms2).
Proof.
  intros R Hs0 Hq0 Hid Hlen Hup m1.
  assert (mux_is m0 [] 0) as Hm0 by (split; [eauto | lia | constructor | constructor]).
  destruct (enqueue_all_spec bg peer ms1 m0 [] 0 R Hm0) as ((q1 & Hq1 & Hl1 & Hc1) & Em & _); [simpl; lia..|].
  apply restart_is in Hq1; [|lia].
  assert (cap (restart (enqueue_all bg peer ms1 m0)) = cap m0) as Ec by (unfold cap, maxQueued; simpl; by rewrite Em).
  destruct (enqueue_all_spec bg peer ms2 _ _ _ R Hq1) as ((q2 & Hq2 & _ & Hc2) & _); [lia..|].
  rewrite Ec, Hc1 in Hc2. simpl in Hc2. rewrite lastn_app, <-fmap_app, <-lastn_fmap in Hc2.
  destruct Hq2 as [(s2 & Hs2 & Hq2) _ _ _].
  destruct (spec_flush_all peer _ q2 p Hup Hc2) as [Hnil Hack].
  destruct (flush_spec bg peer p m1 s2 q2 R Hs2 Hq2) as ((s' & Hs' & Hq') & Hp').
  rewrite Hnil in Hq'. exists s', (spec_flush peer q2 p).2. done.
Qed.

(** *** Draining an unreliable store *)

(** The queued message under a key, if it is readable and for [peer]. *)
Definition mine (peer : Z) (s : S) (k : string) : option message :=
  raw ← view_q s k; qm ← unmarshal raw;
  if Peer_ qm =? peer then Some (Module_ qm, Kind qm, Data qm) else None.

Definition unreadable (s : S) (k : string) : Prop :=
  exists raw, view_q s k = Some raw /\ unmarshal (T := queuedMessage) raw = None.

(** What a drain of [keys] did: [sent] went out. *)
Record drained (peer : Z) (keys : list string) (p p' : P) (s s' : S) (sent : list message) : Prop := {
  dr_acked : acked p' = acked p ++ sent;
  dr_prefix : sent `prefix_of` omap (mine peer s) keys;
  dr_wf : store.wf s';
  dr_frame m k : (m <> queueNamespace \/ k ∉ keys) -> store.view s' m k = store.view s m k;
  dr_kept k : k ∈ keys -> view_q s' k = view_q s k \/
    view_q s' k = None /\ (unreadable s k \/ exists x, mine peer s k = Some x /\ x ∈ sent) }.

(** One deletion, whether it worked or not. *)
Definition maybe_deleted (k : string) (s s1 : S) : Prop :=
  store.wf s1 /\ (forall m' k', (m', k') <> (queueNamespace, k) -> store.view s1 m' k' = store.view s m' k') /\
  (view_q s1 k = view_q s k \/ view_q s1 k = None).

Lemma delete_maybe bg k s : store.wf s -> maybe_deleted k s (snd (store.Delete bg queueNamespace k s)).
Proof.
  intros Hwf. destruct (store.Delete _ _ k s) as [r s1] eqn:E. apply store.Delete_view in E as [Hwf1 Hv]; [|done].
  split_and!; [done| |]; simpl.
  - intros m' k' Hne. rewrite Hv, bool_decide_false by done. by rewrite andb_false_r.
  - rewrite Hv, bool_decide_true by done. destruct (is_ok r); auto.
Qed.

Lemma maybe_deleted_refl k s : store.wf s -> maybe_deleted k s s.
Proof. intros H. split_and!; auto. Qed.

(** A drain that sends nothing. *)
Lemma drained_nothing peer keys p p' s : store.wf s -> acked p' = acked p -> drained peer keys p p' s s [].
Proof. intros Hwf E. split; [by rewrite E, app_nil_r | apply prefix_nil | done | done | by left]. Qed.

(** One iteration in front of a drain. *)
Lemma drained_cons peer k rest p p1 p' s s1 s' o sent :
  maybe_deleted k s s1 -> k ∉ rest -> acked p1 = acked p ++ option_list o -> mine peer s k = o ->
  (view_q s1 k = view_q s k \/ unreadable s k \/ is_Some o) ->
  drained peer rest p1 p' s1 s' sent -> drained peer (k :: rest) p p' s s' (option_list o ++ sent).
Proof.
  intros (Hwf1 & Hfr & Hdel) Hk Ha Hm Hwhy [D1 D2 D3 D4 D5].
  assert (forall k', k' ∈ rest -> view_q s1 k' = view_q s k') as Hrest by (intros k' Hk'; apply Hfr; set_solver).
  split; [by rewrite D1, Ha, <-app_assoc| |done| |].
  - assert (omap (mine peer s) (k :: rest) = option_list o ++ omap (mine peer s) rest) as ->
      by (simpl; rewrite Hm; by destruct o).
    apply prefix_app. replace (omap (mine peer s) rest) with (omap (mine peer s1) rest); [done|].
    apply list_omap_ext, Forall2_same_length_lookup_2; [done|]. intros i x y Hx Hy. simplify_eq.
    unfold mine. by rewrite Hrest by by eapply list_elem_of_lookup_2.
  - intros m' k' Hne. rewrite D4 by set_solver. apply Hfr. set_solver.
  - intros k' [->|Hk']%elem_of_cons.
    + rewrite D4 by auto. destruct Hdel as [E|E]; [by left|]. destruct Hwhy as [E'|[E'|[x ->]]]; [left; congruence|by right; auto|].
      right. split; [done|]. right. exists x. split; [done|]. simpl. set_solver.
    + rewrite <-(Hrest k') by done. destruct (D5 k' Hk') as [|[E Hw]]; [by left|]. right. split; [done|].
      unfold unreadable, mine in *. rewrite Hrest in Hw by done. destruct Hw as [|(x & ? & ?)]; [by left|].
      right. exists x. set_solver.
Qed.

Lemma flush_keys_drained bg peer keys p s d p' s' d' : store.ctx_done bg = false -> store.wf s -> NoDup keys ->
  (forall k, k ∈ keys -> is_Some (view_q s k)) ->
  flush_keys bg peer keys p s d = (p', s', d') -> exists sent, drained peer keys p p' s s' sent.
Proof.
  intros Hlive. revert p s d. induction keys as [|k rest IH]; intros p s d Hwf Hnd Hin H.
  { simpl in H. simplify_eq. exists []. by apply drained_nothing. }
  apply list.NoDup_cons in Hnd as [Hk Hnd]. simpl in H.
  pose proof (store.Get_live bg queueNamespace k s Hwf Hlive) as Hg.
  destruct (store.Get _ _ k s) as [o|] eqn:Eg; [|done]. apply store.Get_view in Eg; [|done]. clear Hg.
  destruct (Hin k ltac:(set_solver)) as [raw Hraw]. rewrite Hraw in Eg. subst o.
  assert (forall s1, maybe_deleted k s s1 -> forall k', k' ∈ rest -> is_Some (view_q s1 k')) as Hin1.
  { intros s1 (_ & Hfr & _) k' Hk'. rewrite Hfr by set_solver. apply Hin. set_solver. }
  destruct (unmarshal raw) as [qm|] eqn:Eu.
  2:{ pose proof (delete_maybe bg k s Hwf) as Hd. destruct (IH _ _ _ (proj1 Hd) Hnd (Hin1 _ Hd) H) as [sent Hs].
      exists sent. apply (drained_cons peer k rest p p p' s _ s' None sent Hd); simpl; auto.
      - by rewrite app_nil_r.
      - unfold mine. rewrite Hraw. simpl. by rewrite Eu.
      - right; left. exists raw. by rewrite Hraw, Eu. }
  assert (mine peer s k = if Peer_ qm =? peer then Some (Module_ qm, Kind qm, Data qm) else None) as Hmine.
  { unfold mine. rewrite Hraw. simpl. by rewrite Eu. }
  destruct (Peer_ qm =? peer); simpl in H.
  - destruct (peer_Send _ _ _ p) as [ok p1] eqn:Es. apply Send_acked in Es. destruct ok.
    + pose proof (delete_maybe bg k s Hwf) as Hd. destruct (IH _ _ _ (proj1 Hd) Hnd (Hin1 _ Hd) H) as [sent Hs].
      exists ((Module_ qm, Kind qm, Data qm) :: sent).
      by apply (drained_cons peer k rest p p1 p' s _ s' (Some _) sent Hd Hk Es Hmine); [right; right; eauto|].
    + simplify_eq. exists []. by apply drained_nothing.
  - pose proof (maybe_deleted_refl k s Hwf) as Hd. destruct (IH _ _ _ Hwf Hnd (Hin1 _ Hd) H) as [sent Hs].
    exists sent. apply (drained_cons peer k rest p p p' s s s' None sent Hd); simpl; auto. by rewrite app_nil_r.
Qed.

(** C13. A drain never loses a message, whatever the store and the peer do: what
    the peer acknowledges is a prefix of its readable messages in queue order,
    and an entry disappears from the store only if it was unreadable or its
    message is among those the peer acknowledged during this drain. *)
Theorem flush_no_loss bg peer p (m : Mux P S) s l :
  store.ctx_done bg = false -> Queue m = Some s -> store.wf s ->
  store.List bg queueNamespace queue_prefix s = Ok l ->
  exists p' s' sent, peerFor peer (flush bg peer p m) = Some p' /\ Queue (flush bg peer p m) = Some s' /\
    drained peer (sort_strings l) p p' s s' sent.
Proof.
  intros Hlive Hs Hwf Hl. unfold flush. rewrite Hs, Hl.
  pose proof (store.List_view bg queueNamespace queue_prefix s l Hwf Hl) as [Hnd Hin].
  assert (forall x, peerFor peer (set_peer peer x m) = Some x) as Hpeer
    by (intros x; unfold peerFor, set_peer; by destruct (peer =? PEER_HYPERVISOR)).
  destruct l as [|k l].
  - exists p, s, []. split_and!; [done | unfold set_peer; by destruct (peer =? PEER_HYPERVISOR)|].
    by apply drained_nothing.
  - destruct (flush_keys bg peer (sort_strings (k :: l)) p s (dropped m)) as [[p' s'] d] eqn:E.
    apply flush_keys_drained in E as [sent Hd]; [|done..| |].
    + exists p', s', sent. split_and!; [|done..]. rewrite <-Hpeer. unfold peerFor, set_peer.
      by destruct (peer =? PEER_HYPERVISOR).
    + by rewrite sort_strings_perm.
    + intros k'. rewrite sort_strings_perm. intros Hk'%Hin. tauto.
Qed.
End Queue.

(** ** A concrete mux: an in-memory store and a peer that takes everything *)

#[export] Instance queuedMessage_eq_dec : EqDecision queuedMessage.
Proof. solve_decision. Defined.
#[export] Instance queuedMessage_countable : Countable queuedMessage.
Proof.
  refine (inj_countable' (fun q => (Module_ q, Peer_ q, Kind q, Data q))
    (fun '(m, p, k, d) => mkQueued m p k d) _). by intros [].
Defined.
#[local] Instance queued_JSON : JSON queuedMessage := binary_JSON _.
#[local] Instance queued_JSONLaws : JSONLaws queuedMessage := binary_JSONLaws _.

#[local] Instance sink : Peer (list message) := {| peer_Send m k d p := (true, p ++ [(m, k, d)]) |}.
#[local] Program Instance sink_laws : PeerLaws (list message) := {| acked p := p |}.
Next Obligation. intros m k d p ok p' E. simpl in E. by simplify_eq. Qed.

Definition calm_call : store.call := store.mkCall false None.

Lemma mem_reliable : reliable (S := store.MemStore) calm_call.
Proof. by split. Qed.

Lemma empty_queue : queue_is store.NewMemStore [].
Proof. split_and!; [done | split; constructor |]. intros k v. split; [by intros [_ ?]|]. intros (n & Hn & _). set_solver. Qed.

Definition idle_mux : Mux (list message) store.MemStore :=
  mkMux None None (Some store.NewMemStore) 2 0 false 0 ∅ 0%nat.

Lemma offline_fifo_witness :
  exists s' p',
    let m1 := enqueue_all calm_call 2 [("m", "k", "three")]
                (restart (enqueue_all calm_call 2 [("m", "k", "one"); ("m", "k", "two")] idle_mux)) in
    Queue (flush calm_call 2 [] m1) = Some s' /\ queue_is s' [] /\
    peerFor 2 (flush calm_call 2 [] m1) = Some p' /\
    acked p' = acked [] ++ lastn (cap idle_mux) [("m", "k", "one"); ("m", "k", "two"); ("m", "k", "three")].
Proof.
  apply (offline_fifo calm_call 2 [("m", "k", "one"); ("m", "k", "two")] [("m", "k", "three")] idle_mux store.NewMemStore []);
    [apply mem_reliable | done | apply empty_queue | done | simpl; lia | done].
Defined.

Definition one_queued : store.MemStore :=
  snd (store.Put calm_call queueNamespace (queue_key 1) (marshal (mkQueued "m" 2 "k" "one")) store.NewMemStore).
Definition queued_mux : Mux (list message) store.MemStore := mkMux None None (Some one_queued) 2 0 false 0 ∅ 0%nat.

Lemma flush_no_loss_witness :
  exists p' s' sent, peerFor 2 (flush calm_call 2 [] queued_mux) = Some p' /\
    Queue (flush calm_call 2 [] queued_mux) = Some s' /\
    drained 2 (sort_strings [queue_key 1]) [] p' one_queued s' sent.
Proof. apply (flush_no_loss calm_call 2 [] queued_mux one_queued [queue_key 1]); try done; vm_compute; reflexivity. Defined.
End transport.
