(* ===== verification/HvPeer.v ===== *)
(** * The hypervisor peer (internal/transport/hypervisor.go, hypervisor_open_*.go)

    The connection core owns: the writer with its sticky error, the gate in front of
    it, the read loop that feeds the mux and writes replies, and [ConnectHypervisor].
    [HvChannel] has the protocol; here it meets the mux and its offline queue, and the
    theorems are about the bytes the host reads. *)

From stdpp Require Import base list strings gmap.
From Stdlib Require Import ZArith Lia Ascii.
From S2P Require Import Prelude.
From S2P Require Import GoStrings.
From S2P Require Import GoText.
From S2P Require Import Json.
From S2P Require Import Store.
From S2P Require Import HostServ.
From S2P Require Import HvChannel.
From S2P Require Import Transport.
Open Scope Z_scope.
Open Scope go_scope.

Local Infix "+++" := String.append (at level 60, right associativity).

Module hvpeer.
Import hvchannel.
Import (hints) store transport.

(** ** Opening the device *)

(** [os.OpenFile] says whether the node is a terminal; [term.MakeRaw] may fail. *)
Inductive open_act := Opened (dev : string) | MadeRaw (dev : string) | Closed (dev : string).

(** [openDevice] on unix *)
Definition openDevice_unix (open : string -> option bool) (make_raw : string -> bool) (attrs : gmap string string) :
  option string * list open_act :=
  let dev := default "" (attrs !! "device") in
  if String.eqb dev "" then (None, [])
  else match open dev with
  | None => (None, [])
  | Some false => (Some dev, [Opened dev])
  | Some true => if make_raw dev then (Some dev, [Opened dev; MadeRaw dev]) else (None, [Opened dev; Closed dev])
  end.

(** [openDevice] on Windows: the probed device, then the known ones. *)
Definition windowsHypervisorDevices : list string := ["\\.\Global\org.weave.agent.0"; "\\.\COM2"].
Fixpoint first_open (open : string -> option bool) (ds : list string) : option string :=
  match ds with
  | [] => None
  | d :: ds' => if open d is Some _ then Some d else first_open open ds'
  end.
Definition openDevice_windows (open : string -> option bool) (attrs : gmap string string) : option string :=
  let d := default "" (attrs !! "device") in
  first_open open ((if String.eqb d "" then [] else [d]) ++ windowsHypervisorDevices).

(** ** The peer *)

(** [HypervisorPeer]: the bytes the device took; the envelopes whose frame it took
    whole; [failed], the error a [bufio.Writer] keeps once a write failed; and what
    the device does with the frames to come, [Some n]: it takes [n] bytes at most and
    fails within the frame. *)
Record HypervisorPeer := mkHv {
  auth : channelAuth; wire : string; sent : list Envelope; failed : bool; device : list (option nat) }.

Definition with_auth (a : channelAuth) (p : HypervisorPeer) : HypervisorPeer :=
  mkHv a (wire p) (sent p) (failed p) (device p).

(** [newHypervisorPeer] over [newChannelAuth] for the contents of the key file *)
Definition newHypervisorPeer (ds : list (option nat)) (key : option string) : HypervisorPeer :=
  mkHv (newChannelAuth key) "" [] false ds.

Section Peer.
Context (encode : Envelope -> string) (encode_reply : reply -> string).

(** [WriteEnvelope]: the bytes *)
Definition WriteEnvelope (e : Envelope) : result error string := WriteFrame (encode e).

(** [send] *)
Definition send (e : Envelope) (p : HypervisorPeer) : bool * HypervisorPeer :=
  match WriteEnvelope e with
  | Err _ => (false, p)
  | Ok bytes =>
      if failed p then (false, p)
      else match device p with
      | Some n :: ds =>
          (false, mkHv (auth p) (wire p +++ stake (Nat.min n (String.length bytes - 1)) bytes) (sent p) true ds)
      | ds => (true, mkHv (auth p) (wire p +++ bytes) (sent p ++ [e]) false (tail ds))
      end
  end.

(** [Send] *)
Definition Send (module kind data : string) (p : HypervisorPeer) : bool * HypervisorPeer :=
  if negb (allows kind (auth p)) then (false, p) else send (mkEnvelope module kind data) p.

(** [reply] *)
Definition reply_ (kind : string) (r : reply) (p : HypervisorPeer) : HypervisorPeer :=
  snd (send (mkEnvelope ControlModule kind (encode_reply r)) p).

#[export] Instance hv_Peer : transport.Peer HypervisorPeer := {| transport.peer_Send := Send |}.

Definition message_of (e : Envelope) : string * string * string := (Module_ e, Kind e, Data e).

Lemma send_cases e p : let (ok, p') := send e p in
  auth p' = auth p /\
  if ok then sent p' = sent p ++ [e] /\ failed p' = false /\
             exists bytes, WriteEnvelope e = Ok bytes /\ wire p' = wire p +++ bytes /\ failed p = false
  else sent p' = sent p.
Proof.
  unfold send. destruct (WriteEnvelope e) as [bytes|]; [|done]. destruct (failed p); [done|].
  destruct (device p) as [|[n|] ds]; simpl; split_and!; eauto.
Qed.

#[export] Program Instance hv_PeerLaws : transport.PeerLaws HypervisorPeer :=
  {| transport.acked p := message_of <$> sent p |}.
Next Obligation.
  intros m k d p ok p' E. simpl in E. unfold Send in E. destruct (negb _); [by simplify_eq|].
  pose proof (send_cases (mkEnvelope m k d) p) as H. rewrite E in H. destruct H as [_ H].
  destruct ok; [destruct H as [-> _]; by rewrite fmap_app | by rewrite H].
Qed.

(** ** What the host reads *)

(** Every whole frame on the wire is an envelope sent, in order; only a failed
    writer leaves a part of a frame behind them. *)
Definition wire_ok (p : HypervisorPeer) : Prop :=
  exists frames part, write_all (encode <$> sent p) = Ok frames /\ wire p = frames +++ part /\
    (failed p = false -> part = "") /\
    (part <> "" -> exists e bytes n, WriteEnvelope e = Ok bytes /\ (n < String.length bytes)%nat /\ part = stake n bytes).

Lemma write_all_app a b x y : write_all a = Ok x -> write_all b = Ok y -> write_all (a ++ b) = Ok (x +++ y).
Proof.
  revert x. induction a as [|p a IH]; intros x Ha Hb; simpl in *; [by simplify_eq|].
  bind_inv Ha. simplify_eq. rewrite Hb0. cbn [rbind]. erewrite IH by done. cbn [rbind]. by rewrite sapp_assoc.
Qed.

Lemma wire_ok_send e p : wire_ok p -> wire_ok (snd (send e p)).
Proof.
  intros (frames & part & Hf & Hw & Hc & Hp). unfold send. destruct (WriteEnvelope e) as [bytes|] eqn:E; [|by exists frames, part].
  destruct (failed p) eqn:Ef; [exists frames, part; split_and!; [done|done|cbn [snd]; by rewrite Ef|done]|]. rewrite (Hc eq_refl), sapp_nil_r in Hw.
  assert (forall ds, wire_ok (mkHv (auth p) (wire p +++ bytes) (sent p ++ [e]) false ds)) as Hok.
  { intros ds. exists (frames +++ bytes), "". rewrite sapp_nil_r. simpl. rewrite Hw. split_and!; try done.
    rewrite fmap_app. eapply write_all_app; [done|]. simpl. unfold WriteEnvelope in E. rewrite E. cbn [rbind].
    by rewrite sapp_nil_r. }
  destruct (device p) as [|[n|] ds]; simpl; [apply Hok| |apply Hok].
  exists frames, (stake (Nat.min n (String.length bytes - 1)) bytes). rewrite Hw. split_and!; try done.
  intros _. exists e, bytes, (Nat.min n (String.length bytes - 1)). split_and!; try done.
  unfold WriteEnvelope, WriteFrame in E. bind_inv E. simplify_eq. simpl. lia.
Qed.

(** A frame cut short is not read as a frame. *)
Lemma ReadFull_Ok n s a b : ReadFull n s = Ok (a, b) -> s = a +++ b /\ String.length a = n.
Proof.
  unfold ReadFull. destruct (Nat.leb_spec n (String.length s)) as [Hn|]; [|by destruct (String.eqb _ _)].
  intros [= <- <-]. revert n Hn. induction s as [|c s IH]; intros [|n] Hn; simpl in *; try lia; try done.
  - split; [|done]. f_equal. clear. by induction s as [|c s IH]; simpl; [|f_equal].
  - destruct (IH n ltac:(lia)) as [E1 E2]. split; [by f_equal|by f_equal].
Qed.
Lemma ReadFull_more n s t a b : ReadFull n s = Ok (a, b) -> ReadFull n (s +++ t) = Ok (a, b +++ t).
Proof. intros [-> <-]%ReadFull_Ok. rewrite sapp_assoc. apply ReadFull_app. Qed.
Lemma ReadFrame_more s t a b : ReadFrame s = Ok (a, b) -> ReadFrame (s +++ t) = Ok (a, b +++ t).
Proof.
  unfold ReadFrame. intros H. destruct (ReadFull 4 s) as [[h r]|] eqn:E; [|done]. rewrite (ReadFull_more _ _ t _ _ E).
  cbn [rbind fst snd] in *. destruct h as [|x1 [|x2 [|x3 [|x4 []]]]]; try done.
  destruct (guard _ _); [|done]. cbn [rbind] in *. by apply ReadFull_more.
Qed.
Lemma ReadFrame_cut payload bytes n :
  WriteFrame payload = Ok bytes -> (n < String.length bytes)%nat -> is_ok (ReadFrame (stake n bytes)) = false.
Proof.
  intros H Hn. destruct (ReadFrame (stake n bytes)) as [[a b]|] eqn:E; [|done]. exfalso.
  apply (ReadFrame_more _ (sdrop n bytes)) in E. rewrite stake_sdrop in E.
  pose proof (ReadFrame_WriteFrame payload bytes "" H) as Hr. rewrite sapp_nil_r in Hr. rewrite Hr in E. simplify_eq.
  apply (f_equal String.length) in H0. rewrite slength_app, sdrop_length in H0. simpl in H0. lia.
Qed.

(** Reading past whole frames. *)
Lemma read_all_app ps bytes rest fuel : write_all ps = Ok bytes -> (length ps <= fuel)%nat ->
  read_all fuel (bytes +++ rest) = (ps ++ fst (read_all (fuel - length ps) rest), snd (read_all (fuel - length ps) rest)).
Proof.
  revert bytes fuel. induction ps as [|p ps IH]; intros bytes fuel H Hf; simpl in *.
  - simplify_eq. rewrite Nat.sub_0_r. apply surjective_pairing.
  - bind_inv H. simplify_eq. destruct fuel as [|fuel]; [lia|]. simpl. rewrite sapp_assoc.
    rewrite (ReadFrame_WriteFrame _ _ _ Hb). rewrite (IH _ fuel Hb0) by lia. done.
Qed.

(** What the host reads is what was sent, whole and in order. *)
Lemma host_reads p fuel : wire_ok p -> (length (sent p) < fuel)%nat ->
  fst (read_all fuel (wire p)) = encode <$> sent p.
Proof.
  intros (frames & part & Hf & Hw & _ & Hp) Hl. rewrite Hw, (read_all_app _ _ _ _ Hf) by (rewrite length_fmap; lia).
  rewrite length_fmap. cbn [fst]. destruct (fuel - length (sent p))%nat as [|k] eqn:Ek; [lia|].
  enough (fst (read_all (S k) part) = []) as -> by (by rewrite app_nil_r).
  destruct (decide (part = "")) as [->|Hne]; [done|]. destruct (Hp Hne) as (e & bytes & n & He & Hn & ->).
  simpl. pose proof (ReadFrame_cut _ _ _ He Hn) as Hc. by destruct (ReadFrame (stake n bytes)) as [[]|].
Qed.

(** ** The peer in the mux *)

(** The management plane's peer is of another kind. *)
Context {Q S : Type} {PQ : transport.Peer Q} {QL : transport.PeerLaws Q}.
Context {SB : store.StoreBackend S} {SL : store.StoreLaws S} {JQ : JSON transport.queuedMessage}.
Notation peer := (HypervisorPeer + Q)%type.
Notation mux := (transport.Mux peer S).

#[export] Instance sum_Peer : transport.Peer peer := {|
  transport.peer_Send m k d p :=
    match p with
    | inl h => let (ok, h') := Send m k d h in (ok, inl h')
    | inr q => let (ok, q') := transport.peer_Send m k d q in (ok, inr q')
    end |}.
#[export] Program Instance sum_PeerLaws : transport.PeerLaws peer :=
  {| transport.acked p := match p with inl h => transport.acked h | inr q => transport.acked q end |}.
Next Obligation.
  intros m k d [h|q] ok p' E; simpl in E.
  - destruct (Send m k d h) as [ok1 h'] eqn:Es. simplify_eq. by apply (transport.Send_acked (P := HypervisorPeer)).
  - destruct (transport.peer_Send m k d q) as [ok1 q'] eqn:Es. simplify_eq. by apply transport.Send_acked.
Qed.

(** [ConnectHypervisor]: [opened] is what [openDevice] gave, [key] the key file. *)
Definition ConnectHypervisor (bg : store.call) (opened : option (list (option nat))) (key : option string) (m : mux) : bool * mux :=
  match opened with
  | None => (false, m)
  | Some ds =>
      (true, transport.Flush bg transport.PEER_HYPERVISOR
               (transport.set_peer transport.PEER_HYPERVISOR (inl (newHypervisorPeer ds key)) m))
  end.

(** What one output of the read loop does: a message goes to the receivers of its
    module, a reply to the wire. *)
Definition on_peer (f : HypervisorPeer -> HypervisorPeer) (m : mux) : mux :=
  match transport.Hypervisor m with
  | Some (inl h) => transport.set_peer transport.PEER_HYPERVISOR (inl (f h)) m
  | _ => m
  end.
Definition perform (m : mux) (o : output) : mux :=
  match o with
  | Delivered e => transport.deliver (Module_ e) (Kind e) (Data e) m
  | Replied k r => on_peer (reply_ k r) m
  end.

Context (ed_verify : string -> string -> string -> bool) (decode : string -> result error Envelope)
  (decode_response : string -> option AuthResponse).
Notation on_envelope := (on_envelope ed_verify decode_response).
Notation read_loop := (readLoop ed_verify decode decode_response).

(** [readLoop] as it runs: each frame is decided on the peer's current state and acted
    on before the next is read. *)
Fixpoint run_loop (fuel : nat) (es : list (option string)) (stream : string) (m : mux) : mux :=
  match fuel with
  | O => m
  | Datatypes.S n =>
      match ReadEnvelope decode stream, transport.Hypervisor m with
      | Ok (Err e, rest), _ => if isFrameDecodeError e then run_loop n (tail es) rest m else m
      | Ok (Ok env, rest), Some (inl h) =>
          let (out, a) := on_envelope (default None (head es)) env (auth h) in
          run_loop n (tail es) rest (fold_left perform out (on_peer (with_auth a) m))
      | _, _ => m
      end
  end.

(** ** The loop acts as its decisions say *)

Lemma send_with_auth a e p : send e (with_auth a p) = (fst (send e p), with_auth a (snd (send e p))).
Proof.
  unfold send. destruct (WriteEnvelope e); [|done]. simpl. destruct (failed p); [done|].
  by destruct (device p) as [|[n|] ds].
Qed.

Lemma perform_auth a m o : perform (on_peer (with_auth a) m) o = on_peer (with_auth a) (perform m o).
Proof.
  destruct m as [g [[h|q]|] qu mx nx sd dr sb fr], o as [e|k r]; unfold perform, on_peer; simpl; try done;
    try (unfold transport.deliver; simpl; by destruct (sb !! Module_ e) as [[]|]).
  unfold reply_. rewrite send_with_auth. done.
Qed.
Lemma performs_auth a outs m : fold_left perform outs (on_peer (with_auth a) m) = on_peer (with_auth a) (fold_left perform outs m).
Proof. revert m. induction outs as [|o outs IH]; intros m; simpl; [done|]. by rewrite perform_auth, IH. Qed.

Lemma on_peer_auth_twice a b m : on_peer (with_auth a) (on_peer (with_auth b) m) = on_peer (with_auth a) m.
Proof. by destruct m as [g [[h|q]|] qu mx nx sd dr sb fr]. Qed.

(** The fields the loop leaves alone. *)
Definition same_rest (m m' : mux) : Prop :=
  transport.Queue m' = transport.Queue m /\ transport.GateWeave m' = transport.GateWeave m /\
  transport.MaxQueued m' = transport.MaxQueued m.
Lemma perform_rest m o : same_rest m (perform m o).
Proof.
  destruct m as [g [[h|q]|] qu mx nx sd dr sb fr], o as [e|k r]; unfold perform, on_peer, transport.deliver; simpl; try done;
    by destruct (sb !! Module_ e) as [[]|].
Qed.
Lemma performs_rest outs m : same_rest m (fold_left perform outs m).
Proof.
  revert m. induction outs as [|o outs IH]; intros m; simpl; [done|].
  destruct (perform_rest m o) as (H1 & H2 & H3), (IH (perform m o)) as (I1 & I2 & I3).
  unfold same_rest. by rewrite I1, I2, I3.
Qed.

(** The peer through a run of outputs: its authentication is untouched, its wire stays
    well formed. *)
Lemma performs_peer outs m h : transport.Hypervisor m = Some (inl h) ->
  exists h', transport.Hypervisor (fold_left perform outs m) = Some (inl h') /\ auth h' = auth h /\ (wire_ok h -> wire_ok h').
Proof.
  revert m h. induction outs as [|o outs IH]; intros m h Hm; simpl; [eauto|].
  assert (exists h1, transport.Hypervisor (perform m o) = Some (inl h1) /\ auth h1 = auth h /\ (wire_ok h -> wire_ok h1)) as (h1 & H1 & H2 & H3).
  { destruct o as [e|k r]; simpl.
    - exists h. split; [|done]. unfold transport.deliver. by destruct (transport.subs m !! Module_ e) as [[]|].
    - unfold on_peer. rewrite Hm. eexists. split; [done|]. unfold reply_. split; [|apply wire_ok_send].
      pose proof (send_cases (mkEnvelope ControlModule k (encode_reply r)) h) as H. by destruct (send _ h) as [[] h1]; destruct H. }
  destruct (IH _ _ H1) as (h' & E1 & E2 & E3). exists h'. split_and!; [done|congruence|auto].
Qed.

(** The loop is its decisions, in order, and then their effects. *)
Theorem run_loop_refines fuel es stream m h : transport.Hypervisor m = Some (inl h) ->
  run_loop fuel es stream m =
    on_peer (with_auth (snd (read_loop fuel es stream (auth h)))) (fold_left perform (fst (read_loop fuel es stream (auth h))) m).
Proof.
  revert es stream m h. induction fuel as [|n IH]; intros es stream m h Hm; simpl.
  { unfold on_peer. rewrite Hm. destruct m; simpl in *. subst. by destruct h. }
  destruct (ReadEnvelope decode stream) as [[[env|e] rest]|].
  - rewrite Hm. destruct (on_envelope (default None (head es)) env (auth h)) as [out a] eqn:E.
    destruct (read_loop n (tail es) rest a) as [outs a'] eqn:Er. simpl. rewrite fold_left_app, performs_auth.
    destruct (performs_peer out m h Hm) as (h1 & H1 & _).
    assert (transport.Hypervisor (on_peer (with_auth a) (fold_left perform out m)) = Some (inl (with_auth a h1))) as H2
      by (unfold on_peer; by rewrite H1).
    rewrite (IH _ _ _ _ H2). simpl. rewrite Er. simpl. by rewrite performs_auth, on_peer_auth_twice.
  - destruct (isFrameDecodeError e); [by apply IH|]. simpl. unfold on_peer. rewrite Hm. destruct m; simpl in *. subst. by destruct h.
  - simpl. unfold on_peer. rewrite Hm. destruct m; simpl in *. subst. by destruct h.
Qed.

(** ** Inbound: what reaches a receiver *)

(** The messages waiting in the receive streams of a module. *)
Definition waiting (m : mux) (module : string) (x : transport.TransportMessage) : Prop :=
  exists l c, transport.subs m !! module = Some l /\ c ∈ l /\ x ∈ c.2.

Lemma waiting_perform m o module x : waiting (perform m o) module x ->
  waiting m module x \/ exists e, o = Delivered e /\ Module_ e = module /\ x = transport.mkTM transport.PEER_HYPERVISOR (Kind e) (Data e).
Proof.
  intros (l & c & Hl & Hc & Hx). destruct o as [e|k r]; simpl in Hl.
  - unfold transport.deliver in Hl. destruct (transport.subs m !! Module_ e) as [[|c0 l0]|] eqn:E; [by left; exists l, c| |by left; exists l, c].
    change (transport.subs (transport.with_subs ?a ?b m)) with a in Hl.
    destruct (decide (module = Module_ e)) as [->|Hne].
    + rewrite lookup_insert_eq in Hl. injection Hl as <-. apply (list_elem_of_fmap (transport.offer _) (c0 :: l0)) in Hc as (c1 & -> & Hc1).
      unfold transport.offer in Hx. destruct (length c1.2 <? _)%nat; simpl in Hx; [|left; by exists (c0 :: l0), c1].
      apply elem_of_app in Hx as [Hx|Hx%list_elem_of_singleton]; [left; by exists (c0 :: l0), c1|]. right. by exists e.
    + rewrite lookup_insert_ne in Hl by done. left. by exists l, c.
  - left. exists l, c. split_and!; [|done|done]. unfold on_peer in Hl. by destruct (transport.Hypervisor m) as [[h|q]|].
Qed.

Lemma waiting_performs outs m module x : waiting (fold_left perform outs m) module x ->
  waiting m module x \/ exists p e q, outs = p ++ Delivered e :: q /\ Module_ e = module /\
    x = transport.mkTM transport.PEER_HYPERVISOR (Kind e) (Data e).
Proof.
  revert m. induction outs as [|o outs IH]; intros m H; simpl in H; [by left|].
  destruct (IH _ H) as [H1|(p & e & q & -> & He & Hx)].
  - destruct (waiting_perform _ _ _ _ H1) as [?|(e & -> & He & Hx)]; [by left|]. right. by exists [], e, outs.
  - right. by exists (o :: p), e, q.
Qed.


(** ** Outbound: connecting and draining *)

Notation HYP := transport.PEER_HYPERVISOR.

Lemma Send_auth mo k d h : auth (snd (Send mo k d h)) = auth h.
Proof.
  unfold Send. destruct (negb _); [done|]. pose proof (send_cases (mkEnvelope mo k d) h) as H.
  by destruct (send _ h) as [[] h']; destruct H.
Qed.

Lemma Send_wire mo k d h : wire_ok h -> wire_ok (snd (Send mo k d h)).
Proof. unfold Send. destruct (negb _); [done|]. apply wire_ok_send. Qed.

(** A drain keeps the peer a hypervisor peer. *)
Lemma spec_flush_peer q h : exists h', (transport.spec_flush HYP q (inl h : peer)).2 = inl h' /\ auth h' = auth h /\ (wire_ok h -> wire_ok h').
Proof.
  revert h. induction q as [|[n raw] q IH]; intros h; cbn [transport.spec_flush]; [eauto|].
  destruct (unmarshal raw) as [qm|]; [|apply IH]. destruct (negb _).
  - destruct (IH h) as (h' & E & H). destruct (transport.spec_flush HYP q (inl h)) as [r p']. simpl in *. eauto.
  - simpl. pose proof (Send_auth (transport.Module_ qm) (transport.Kind qm) (transport.Data qm) h) as Ea.
    pose proof (Send_wire (transport.Module_ qm) (transport.Kind qm) (transport.Data qm) h) as Ew.
    destruct (Send _ _ _ h) as [[] h1]; simpl in *; [|eauto]. destruct (IH h1) as (h' & E & H1 & H2).
    exists h'. split_and!; [done|congruence|auto].
Qed.

(** A drain over an unauthenticated channel stops at the first message the gate holds
    back, at the latest. *)
Lemma spec_flush_gated q1 n raw qm q2 h :
  ok (auth h) = false -> unmarshal raw = Some qm -> transport.Peer_ qm = HYP -> AllowedBeforeAuth (transport.Kind qm) = false ->
  exists q1', (transport.spec_flush HYP (q1 ++ (n, raw) :: q2) (inl h : peer)).1 = q1' ++ (n, raw) :: q2.
Proof.
  intros Ha Hu Hp Hk. revert h Ha. induction q1 as [|[n1 r1] q1 IH]; intros h Ha; cbn [app transport.spec_flush].
  - rewrite Hu, Hp. cbn [Z.eqb negb]. simpl. unfold Send, allows. rewrite Hk, Ha. simpl. by exists [].
  - destruct (unmarshal r1) as [qm1|]; [|by apply IH]. destruct (negb _).
    + destruct (IH h Ha) as [q1' E]. destruct (transport.spec_flush HYP (q1 ++ (n, raw) :: q2) (inl h)) as [r p']. simpl in *.
      subst r. by exists ((n1, r1) :: q1').
    + simpl. pose proof (Send_auth (transport.Module_ qm1) (transport.Kind qm1) (transport.Data qm1) h) as E.
      destruct (Send _ _ _ h) as [[] h1]; simpl in *; [apply IH; congruence|]. by exists ((n1, r1) :: q1).
Qed.


(** *** The channel once authenticated *)

Definition fits (e : Envelope) : Prop := slen (encode e) <= MaxFrameSize.
(** A peer that takes everything. *)
Definition up (h : HypervisorPeer) : Prop :=
  ok (auth h) = true /\ failed h = false /\ Forall (fun x => x = None) (device h).

Lemma up_Send mo k d h : up h -> fits (mkEnvelope mo k d) ->
  exists h', Send mo k d h = (true, h') /\ up h' /\ sent h' = sent h ++ [mkEnvelope mo k d].
Proof.
  intros (Ha & Hf & Hd) Hfit. unfold Send, allows. rewrite Ha, orb_true_r. cbn [negb]. unfold send, WriteEnvelope, WriteFrame.
  unfold fits in Hfit. replace (MaxFrameSize <? _) with false by (symmetry; apply Z.ltb_ge; done). cbn [guard rbind]. rewrite Hf.
  destruct Hd as [|x ds -> Hd]; eexists; (split; [reflexivity|]); by repeat split.
Qed.

(** The queue from the channel's side: what it will be sent, and what is not for it. *)
Definition pending (q : list (Z * string)) : list Envelope :=
  omap (fun x => qm ← unmarshal x.2;
                 if transport.Peer_ qm =? HYP then Some (mkEnvelope (transport.Module_ qm) (transport.Kind qm) (transport.Data qm)) else None) q.
Definition others (q : list (Z * string)) : list (Z * string) :=
  List.filter (fun x => match unmarshal x.2 with Some qm => negb (transport.Peer_ qm =? HYP) | None => false end) q.

Lemma spec_flush_up q h : up h -> Forall fits (pending q) ->
  exists h', transport.spec_flush HYP q (inl h : peer) = (others q, inl h') /\ up h' /\ sent h' = sent h ++ pending q.
Proof.
  revert h. induction q as [|[n raw] q IH]; intros h Hup Hf; cbn [transport.spec_flush].
  { exists h. by rewrite app_nil_r. }
  unfold others, pending in *. simpl in *. destruct (unmarshal raw) as [qm|]; simpl in *; [|by apply IH].
  destruct (transport.Peer_ qm =? HYP) eqn:Ep; simpl in *.
  - apply Forall_cons_1 in Hf as [Hf1 Hf].
    destruct (up_Send (transport.Module_ qm) (transport.Kind qm) (transport.Data qm) h Hup Hf1) as (h1 & E1 & Hup1 & Es). rewrite E1.
    destruct (IH h1 Hup1 Hf) as (h' & -> & Hup' & Es'). exists h'. split_and!; [done|done|]. by rewrite Es', Es, <-app_assoc.
  - destruct (IH h Hup Hf) as (h' & -> & Hup' & Es'). by exists h'.
Qed.

(** Store and forward to the host: over an authenticated channel in order, a send goes
    out at once and brings everything that was queued for the host with it, oldest
    first; the host reads exactly those envelopes behind what it had read before, and
    the queue keeps the messages of the other peer only. *)
Theorem hv_forward bg (m : mux) h s q mo k d qo r m' fuel :
  transport.reliable (S := S) bg -> transport.Hypervisor m = Some (inl h) -> transport.Queue m = Some s -> transport.queue_is s q ->
  up h -> wire_ok h -> Forall fits (mkEnvelope mo k d :: pending q) -> (forall e, decode (encode e) = Ok e) ->
  transport.Send bg mo HYP k d qo m = (r, m') ->
  let all := sent h ++ mkEnvelope mo k d :: pending q in (length all < fuel)%nat ->
  r = Ok true /\
  (exists h', transport.Hypervisor m' = Some (inl h') /\ decode <$> fst (read_all fuel (wire h')) = Ok <$> all) /\
  (exists s', transport.Queue m' = Some s' /\ transport.queue_is s' (others q)).
Proof.
  intros R Hm Hs Hq Hup Hw Hf Hdec H all Hl. apply Forall_cons_1 in Hf as [Hf1 Hf].
  destruct (up_Send mo k d h Hup Hf1) as (h1 & E1 & Hup1 & Es1).
  pose proof (Send_wire mo k d h Hw) as Hw1. rewrite E1 in Hw1. cbn [snd] in Hw1.
  unfold transport.Send in H. assert (transport.peerFor HYP m = Some (inl h)) as Hp by exact Hm. rewrite Hp in H.
  cbn [transport.peer_Send sum_Peer] in H. rewrite E1 in H. simplify_eq. split; [done|].
  destruct (transport.flush_spec bg HYP (inl h1 : peer) m s q R Hs Hq) as ((s' & Hs' & Hq') & Hpe).
  destruct (spec_flush_up q h1 Hup1 Hf) as (h' & Ef & Hup' & Es'). rewrite Ef in Hpe, Hq'. split; [|eauto].
  destruct (spec_flush_peer q h1) as (h2 & Eh & _ & Hw2). rewrite Ef in Eh. cbn [snd] in Eh. simplify_eq.
  exists h2. split; [exact Hpe|].
  assert (sent h2 = all) as Ea by (by rewrite Es', Es1, <-app_assoc).
  rewrite host_reads by (try rewrite Ea; auto). rewrite Ea. rewrite <-list_fmap_compose. apply list_fmap_ext. intros i e _. apply Hdec.
Qed.
End Peer.

(** *** Witnesses: a message waits in the queue; the host authenticates *)

#[export] Instance Envelope_eq_dec : EqDecision Envelope.
Proof. solve_decision. Defined.
#[export] Instance Envelope_countable : Countable Envelope.
Proof. refine (inj_countable' (fun e => (Module_ e, Kind e, Data e)) (fun '(m, k, d) => mkEnvelope m k d) _). by intros []. Defined.

Definition demo_encode (e : Envelope) : string := @marshal _ (binary_JSON Envelope) e.
Definition demo_decode (s : string) : result error Envelope :=
  match @unmarshal _ (binary_JSON Envelope) s with Some e => Ok e | None => Err ErrSyntax end.
Lemma demo_decode_encode e : demo_decode (demo_encode e) = Ok e.
Proof. unfold demo_decode, demo_encode. by rewrite (@unmarshal_marshal _ _ (binary_JSONLaws Envelope)). Qed.

#[local] Instance nobody : transport.Peer unit := {| transport.peer_Send _ _ _ p := (false, p) |}.
#[local] Program Instance nobody_laws : transport.PeerLaws unit := {| transport.acked _ := [] |}.
Next Obligation. intros m k d p ok p' E. simpl in E. by simplify_eq. Qed.
#[local] Instance demo_queued : JSON transport.queuedMessage := binary_JSON _.

Definition raw_one : string := marshal (transport.mkQueued "guest" 2 "guest.exec" "out").
Definition one_waiting : store.MemStore :=
  snd (store.Put transport.calm_call transport.queueNamespace (transport.queue_key 1) raw_one store.NewMemStore).
Lemma one_waiting_is : transport.queue_is one_waiting [(1, raw_one)].
Proof.
  apply (transport.put_appends store.NewMemStore [] 1 raw_one transport.calm_call tt one_waiting transport.empty_queue);
    [constructor|lia|reflexivity].
Qed.
Definition waiting_mux : transport.Mux (HypervisorPeer + unit) store.MemStore :=
  transport.mkMux None None (Some one_waiting) 2 0 false 0 ∅ 0%nat.

(** The host's side of a handshake, as in [HvChannel]. *)
Definition hello_stream : string :=
  match write_all (demo_encode <$> [mkEnvelope ControlModule KindAuthBegin ""; mkEnvelope ControlModule KindAuthResponse ""]) with
  | Ok b => b | Err _ => "" end.
Definition run_demo (m : transport.Mux (HypervisorPeer + unit) store.MemStore) : transport.Mux (HypervisorPeer + unit) store.MemStore :=
  run_loop demo_encode (fun _ => "reply") demo_verify demo_decode demo_response 3 [Some "entropy"; None] hello_stream m.


Definition ready : HypervisorPeer := mkHv (mkAuth demo_trusted "" true) "" [] false [].
Definition ready_mux : transport.Mux (HypervisorPeer + unit) store.MemStore :=
  transport.mkMux None (Some (inl ready)) (Some one_waiting) 2 0 false 0 ∅ 0%nat.
Definition forwarded : result werror.error bool * transport.Mux (HypervisorPeer + unit) store.MemStore :=
  @transport.Send _ _ (sum_Peer demo_encode) _ _ transport.calm_call "guest" 2 "guest.exec" "now" false ready_mux.

Lemma hv_forward_witness :
  fst forwarded = Ok true /\
  (exists h', transport.Hypervisor (snd forwarded) = Some (inl h') /\
     demo_decode <$> fst (read_all 3 (wire h')) = Ok <$> [mkEnvelope "guest" "guest.exec" "now"; mkEnvelope "guest" "guest.exec" "out"]) /\
  (exists s', transport.Queue (snd forwarded) = Some s' /\ transport.queue_is s' []).
Proof.
  assert (pending [(1, raw_one)] = [mkEnvelope "guest" "guest.exec" "out"]) as Ep by (vm_compute; reflexivity).
  assert (others [(1, raw_one)] = []) as Eo by (vm_compute; reflexivity).
  destruct (hv_forward demo_encode demo_decode transport.calm_call ready_mux ready one_waiting [(1, raw_one)]
    "guest" "guest.exec" "now" false (fst forwarded) (snd forwarded) 3) as (H1 & H2 & H3).
  - apply transport.mem_reliable.
  - reflexivity.
  - reflexivity.
  - apply one_waiting_is.
  - by repeat split.
  - exists "", "". by split_and!.
  - rewrite Ep. repeat constructor; apply Z.leb_le; vm_compute; reflexivity.
  - exact demo_decode_encode.
  - apply surjective_pairing.
  - rewrite Ep. vm_compute. lia.
  - rewrite Ep in H2. rewrite Eo in H3. split; [exact H1|]. split; [exact H2|exact H3].
Defined.

Definition listening : transport.Mux (HypervisorPeer + unit) store.MemStore :=
  transport.mkMux None (Some (inl (newHypervisorPeer [] demo_file))) None 2 0 false 0 {["guest" := [(0%nat, [])]]} 1%nat.
Definition exec_stream : string :=
  hello_stream +++ match write_all [demo_encode (mkEnvelope "guest" "guest.exec" "uname")] with Ok b => b | Err _ => "" end.
Definition heard : transport.Mux (HypervisorPeer + unit) store.MemStore :=
  run_loop demo_encode (fun _ => "reply") demo_verify demo_decode demo_response 4 [Some "entropy"; None; None] exec_stream listening.

End hvpeer.
