(* ===== verification/Launch.v ===== *)
(** * Launching a module (internal/supervise/launch.go, spawn_unix.go)

    One launch takes a module from a binary on disk to a started process:
    verify, socket directory, host server, privilege drop, exec, handshake,
    Init, Start.  Every answer of the outside world is a field of [launch_env];
    the result is what [launch] returns with the trace of what it did, so that
    "verified before exec" and "nothing left behind on failure" are statements
    about the trace.  The two [io.Writer] sinks that read a module's standard
    streams are here too. *)

From stdpp Require Import base list strings gmap.
From Stdlib Require Import ZArith Lia Ascii.
From S2P Require Import Prelude.
From S2P Require Import GoStrings.
From S2P Require Import Handshake.
From S2P Require Import Manifest.
Open Scope go_scope.
Open Scope Z_scope.

Local Infix "+++" := String.append (at level 60, right associativity).

Module launch.
Import manifest.

(** [Spec] *)
Record Spec := mkSpec { s_Manifest : Manifest; s_BinPath : string; s_Config : string }.

(** [Verifier] *)
Notation Verifier := (string -> Manifest -> bool).

(** ** Privilege (spawn_unix.go) *)

(** The account database and core's own credentials: [lookup] gives the uid and
    gid texts of an account. *)
Record unix := mkUnix { geteuid : Z; getuid : Z; darwin : bool; lookup : string -> option (string * string) }.

Definition serviceAccount (u : unix) : string := if darwin u then "_weaveagent" else "weave-agent".

Inductive priv_error :=
| ErrSession (s : string) | ErrAccount | ErrUid | ErrGid | ErrPrivilege (p : string)
| ErrOpenToken | ErrRestrict.                (* the last two on Windows *)

Definition dropCreds (u : unix) (m : Manifest) : result priv_error (option (Z * Z)) :=
  do? guard (negb (String.eqb (m_Session m) SessionSystem)) (ErrSession (m_Session m)) ;;
  if negb (geteuid u =? 0) then Ok None
  else if String.eqb (m_Privilege m) PrivilegeSystem then Ok None
  else if String.eqb (m_Privilege m) PrivilegeService then
    ug <-? of_option ErrAccount (lookup u (serviceAccount u)) ;;
    uid <-? of_option ErrUid (parse_uint 32 ug.1) ;;
    gid <-? of_option ErrGid (parse_uint 32 ug.2) ;;
    Ok (Some (uid, gid))
  else Err (ErrPrivilege (m_Privilege m)).

(** The attributes a child is started with: the signal it gets when core dies (9 is
    SIGKILL; 0 is none) and the credentials it runs under, [None] for core's own. *)
Record SysProcAttr := mkAttr { Pdeathsig : Z; Credential : option (Z * Z) }.
(** [setPdeathsig]: Linux has the signal, macOS has not. *)
Definition setPdeathsig (u : unix) (a : SysProcAttr) : SysProcAttr :=
  if darwin u then a else mkAttr 9 (Credential a).
(** [applyPrivilege], on a command that has no attributes yet *)
Definition applyPrivilege (u : unix) (m : Manifest) : result priv_error SysProcAttr :=
  drop <-? dropCreds u m ;;
  let attr := setPdeathsig u (mkAttr 0 None) in
  Ok (match drop with Some c => mkAttr (Pdeathsig attr) (Some c) | None => attr end).

(** [authorizeModulePeer]; [None] is a platform that cannot tell the peer's uid. *)
Definition authorizeModulePeer (u : unix) (m : Manifest) (peer : option Z) : bool :=
  match peer with
  | None => true
  | Some p =>
      (p =? 0) || (p =? getuid u) ||
      match dropCreds u m with Ok (Some (uid, _)) => p =? uid | _ => false end
  end.

Inductive PrivilegeLevel := LevelSystem | LevelUser | LevelService.
Definition privilegeLevel (m : Manifest) : PrivilegeLevel :=
  if String.eqb (m_Privilege m) PrivilegeSystem then LevelSystem
  else if String.eqb (m_Privilege m) PrivilegeUser then LevelUser
  else LevelService.

(** ** What a launch does and what it meets *)

Inductive effect :=
| Verify (bin : string) (ok : bool)
| RemoveSockDir | MakeSockDir
| Listen                                  (* the host server is up *)
| Chown (path : string) (uid gid : Z)
| Exec (bin : string) (env : list string) (cred : option (Z * Z))
| Kill | CloseJob | StopHost
| Reaped                                  (* the process is known to have exited *)
| Dial | CloseConn
| CallInit (protocol : Z) (id : string) (caps : list string) (config : string) (p : PrivilegeLevel) (watchdog : Z)
| CallStart | CallStop | CallShutdown.

(** What comes first after the spawn. *)
Inductive first_event := FirstLine (raw : string) | ExitedEarly (code : Z) | TimedOut | Cancelled.

(** [InitResponse] *)
Record init_response := mkInit { Requires : list string; HealthIntervalSeconds : Z; Surfaces : list string }.

Record launch_env := mkLaunchEnv {
  le_unix : unix;
  le_rm : bool; le_mkdir : bool;
  le_rand : option string;                 (* 16 bytes, in hexadecimal *)
  le_listen : bool; le_chown_dir : bool; le_chown_sock : bool;
  le_exec : option Z;                      (* the pid *)
  le_post : bool;
  le_first : first_event;
  le_dial : bool;
  le_init : option init_response;
  le_start : bool }.

Inductive error :=
| ErrVerify | ErrSockDir | ErrRand | ErrListen | ErrPerms | ErrPriv (e : priv_error)
| ErrExec | ErrContain | ErrProtocolUnsupported | ErrEarlyExit | ErrTimeout | ErrCtx
| ErrHandshake (e : handshake.error) | ErrWindow (p : Z) | ErrDial | ErrInit
| ErrMissing (names : list string) | ErrStart.

(** [proc], without its harness. *)
Record proc := mkProc { p_pid : Z; p_line : handshake.Line; p_init : init_response }.

(** A computation that may return early and records what it does. *)
Definition W (A : Type) : Type := result error A * list effect.
Definition wret {A} (a : A) : W A := (Ok a, []).
Definition wfail {A} (cleanup : list effect) (e : error) : W A := (Err e, cleanup).
Definition wdo (e : effect) : W unit := (Ok tt, [e]).
Definition wbind {A B} (c : W A) (k : A -> W B) : W B :=
  match c with
  | (Err e, t) => (Err e, t)
  | (Ok a, t) => let (r, t') := k a in (r, t ++ t')
  end.
(** [if !ok { return fail(err) }] *)
Definition check (ok : bool) (cleanup : list effect) (e : error) : W unit :=
  if ok then wret tt else wfail cleanup e.
Definition of_opt {A} (o : option A) (cleanup : list effect) (e : error) : W A :=
  match o with Some a => wret a | None => wfail cleanup e end.

Local Notation "x <-- c1 ;; c2" := (wbind c1 (fun x => c2)) (at level 60, c1 at next level, right associativity).
Local Notation "'run' c1 ;; c2" := (wbind c1 (fun _ => c2)) (at level 60, c1 at next level, right associativity).

(** What the supervisor contributes to a launch. *)
Record launcher := mkLauncher {
  la_verify : Verifier; la_Window : handshake.Window; la_Caps : gmap string (gmap string string);
  la_ModuleRunDir : string -> string; la_watchdog : Z; la_Environ : list string }.

(** Steps 1 to 3: verification, socket directory, host server. *)
Definition set_up (l : launcher) (s : Spec) (e : launch_env) : W (string * string * string) :=
  let ok := la_verify l (s_BinPath s) (s_Manifest s) in
  run wdo (Verify (s_BinPath s) ok) ;; run check ok [] ErrVerify ;;
  let sockDir := la_ModuleRunDir l (m_ID (s_Manifest s)) in
  run wdo RemoveSockDir ;; run check (le_rm e) [] ErrSockDir ;;
  run wdo MakeSockDir ;; run check (le_mkdir e) [] ErrSockDir ;;
  token <-- of_opt (le_rand e) [] ErrRand ;;
  let hostAddr := sockDir +++ "/host.sock" in
  run check (le_listen e) [] ErrListen ;; run wdo Listen ;;
  wret (token, hostAddr, sockDir).

(** [prepareSocketDir] *)
Definition prepareSocketDir (u : unix) (e : launch_env) (dir hostAddr : string) (m : Manifest) : W unit :=
  match dropCreds u m with
  | Err _ => wfail [StopHost] ErrPerms
  | Ok None => wret tt
  | Ok (Some (uid, gid)) =>
      run wdo (Chown dir uid gid) ;; run check (le_chown_dir e) [StopHost] ErrPerms ;;
      run wdo (Chown hostAddr uid gid) ;; check (le_chown_sock e) [StopHost] ErrPerms
  end.

Definition env_of (l : launcher) (token hostAddr sockDir : string) : list string :=
  la_Environ l ++
  ["WEAVE_PROTOCOL_MIN=" +++ format_uint (handshake.w_Min (la_Window l));
   "WEAVE_PROTOCOL_MAX=" +++ format_uint (handshake.w_Max (la_Window l));
   "WEAVE_HANDSHAKE_TOKEN=" +++ token; "WEAVE_HOST_ADDR=" +++ hostAddr; "WEAVE_SOCKET_DIR=" +++ sockDir].

(** Step 4: spawn. *)
Definition spawn (l : launcher) (s : Spec) (e : launch_env) (token hostAddr sockDir : string) : W Z :=
  run prepareSocketDir (le_unix e) e sockDir hostAddr (s_Manifest s) ;;
  attr <-- match applyPrivilege (le_unix e) (s_Manifest s) with
           | Ok a => wret a | Err pe => wfail [StopHost] (ErrPriv pe) end ;;
  pid <-- of_opt (le_exec e) [StopHost] ErrExec ;;
  run wdo (Exec (s_BinPath s) (env_of l token hostAddr sockDir) (Credential attr)) ;;
  run check (le_post e) [Kill; StopHost] ErrContain ;;
  wret pid.

(** [cleanupProc] *)
Definition cleanupProc : list effect := [Kill; CloseJob; StopHost].

(** Step 5: the handshake line. *)
Definition shake (l : launcher) (e : launch_env) : W handshake.Line :=
  raw <-- match le_first e with
          | FirstLine raw => wret raw
          | ExitedEarly code =>
              wfail [Reaped; CloseJob; StopHost]
                (if code =? handshake.ExitProtocolUnsupported then ErrProtocolUnsupported else ErrEarlyExit)
          | TimedOut => wfail cleanupProc ErrTimeout
          | Cancelled => wfail cleanupProc ErrCtx
          end ;;
  line <-- match handshake.Parse raw with Ok x => wret x | Err he => wfail cleanupProc (ErrHandshake he) end ;;
  run check (handshake.Contains (la_Window l) (handshake.l_Protocol line)) cleanupProc
        (ErrWindow (handshake.l_Protocol line)) ;;
  wret line.

Definition missing_caps (l : launcher) (names : list string) : list string :=
  filter (fun n => la_Caps l !! n = None) names.

(** Step 6: dial, Init, the runtime requirements, Start. *)
Definition engage (l : launcher) (s : Spec) (e : launch_env) (line : handshake.Line) : W init_response :=
  run check (le_dial e) cleanupProc ErrDial ;; run wdo Dial ;;
  run wdo (CallInit (handshake.l_Protocol line) (m_ID (s_Manifest s)) (map_to_list (la_Caps l)).*1 (s_Config s)
             (privilegeLevel (s_Manifest s)) (la_watchdog l)) ;;
  resp <-- of_opt (le_init e) (CloseConn :: cleanupProc) ErrInit ;;
  run check (bool_decide (missing_caps l (Requires resp) = [])) (CloseConn :: cleanupProc)
        (ErrMissing (missing_caps l (Requires resp))) ;;
  run wdo CallStart ;; run check (le_start e) (CloseConn :: cleanupProc) ErrStart ;;
  wret resp.

Definition launch (l : launcher) (s : Spec) (e : launch_env) : W proc :=
  x <-- set_up l s e ;;
  let '(token, hostAddr, sockDir) := x in
  pid <-- spawn l s e token hostAddr sockDir ;;
  line <-- shake l e ;;
  resp <-- engage l s e line ;;
  wret (mkProc pid line resp).

(** ** Ending a process *)

Definition teardown : list effect := [CloseConn; StopHost; CloseJob].
(** [proc.kill] *)
Definition kill : list effect := [Kill; Reaped] ++ teardown.
(** [proc.stop]; [in_time]: the process exits within the grace period. *)
Definition stop (in_time : bool) : list effect :=
  [CallStop; CallShutdown] ++ (if in_time then [Reaped] else [Kill; Reaped]) ++ teardown.

(** ** Resources: what a trace leaves alive *)

Record live := mkLive { host_up : bool; proc_up : bool; conn_up : bool }.
Definition none_live : live := mkLive false false false.
Definition after (v : live) (e : effect) : live :=
  match e with
  | Listen => mkLive true (proc_up v) (conn_up v)
  | StopHost => mkLive false (proc_up v) (conn_up v)
  | Exec _ _ _ => mkLive (host_up v) true (conn_up v)
  | Kill | Reaped => mkLive (host_up v) false (conn_up v)
  | Dial => mkLive (host_up v) (proc_up v) true
  | CloseConn => mkLive (host_up v) (proc_up v) false
  | _ => v
  end.
Definition alive (t : list effect) : live := fold_left after t none_live.

(** ** The standard-stream sinks *)

Definition newline_char : ascii := ascii_of_nat 10.

(** [bytes.IndexByte(s, '\n')], as the text before and after. *)
Fixpoint cut_line (s : string) : option (string * string) :=
  match s with
  | EmptyString => None
  | String c r =>
      if Ascii.eqb c newline_char then Some ("", r)
      else match cut_line r with Some (a, b) => Some (String c a, b) | None => None end
  end.

(** [lineCapture]; [ch] is the channel's one slot. *)
Record lineCapture := mkCapture { c_max : nat; c_buf : string; c_done : bool; c_ch : option string }.
Definition emit (line : string) (w : lineCapture) : lineCapture :=
  mkCapture (c_max w) "" true (match c_ch w with None => Some line | x => x end).
Definition capture_Write (p : string) (w : lineCapture) : lineCapture :=
  if c_done w then w
  else
    let buf := c_buf w +++ p in
    match cut_line buf with
    | Some (line, _) => emit line w
    | None =>
        if (0 <? c_max w)%nat && (c_max w <? String.length buf)%nat then emit "" w
        else mkCapture (c_max w) buf false (c_ch w)
    end.
Definition new_capture (max : nat) : lineCapture := mkCapture max "" false None.
Definition capture_all (ps : list string) (w : lineCapture) : lineCapture :=
  fold_left (fun w p => capture_Write p w) ps w.

(** [lineLog]; the loop runs once per complete line of the buffer. *)
Record lineLog := mkLog { l_buf : string; l_lines : list string }.
Fixpoint log_lines (fuel : nat) (w : lineLog) : lineLog :=
  match fuel with
  | O => w
  | S n => match cut_line (l_buf w) with
           | None => w
           | Some (line, rest) => log_lines n (mkLog rest (l_lines w ++ [line]))
           end
  end.
Definition log_Write (p : string) (w : lineLog) : lineLog :=
  let buf := l_buf w +++ p in log_lines (S (String.length buf)) (mkLog buf (l_lines w)).
Definition log_all (ps : list string) (w : lineLog) : lineLog := fold_left (fun w p => log_Write p w) ps w.

(** ** Launch: verification, privilege, resources *)

(** Case analysis along a launch: every early return is a leaf. *)
Ltac launch_cases H :=
  unfold launch, set_up, spawn, shake, engage, prepareSocketDir, check, of_opt, wbind, wret, wfail, wdo in H;
  repeat (split_match H; simplify_eq); simpl in *.

(** C4. Verify before exec: in every launch, whatever it meets, the binary that
    is executed is the specified one and the first thing done was a successful
    verification of it against its manifest. *)
Theorem launch_verified l s e r t bin env cred :
  launch l s e = (r, t) -> Exec bin env cred ∈ t ->
  bin = s_BinPath s /\ la_verify l bin (s_Manifest s) = true /\ head t = Some (Verify bin true).
Proof. intros H Hin. launch_cases H; set_solver. Qed.

(** What a child is started with follows [dropCreds]; on Linux it dies with core. *)
Lemma applyPrivilege_spec u m a : applyPrivilege u m = Ok a <->
  dropCreds u m = Ok (Credential a) /\ Pdeathsig a = if darwin u then 0 else 9.
Proof.
  unfold applyPrivilege, setPdeathsig. destruct (dropCreds u m) as [c|]; simpl; [|split; [done|intros [? _]; done]].
  destruct a as [sig cr]. simpl. destruct c as [c|], (darwin u); simpl; split; naive_solver.
Qed.

Lemma exec_cred l s e r t bin env cred :
  launch l s e = (r, t) -> Exec bin env cred ∈ t -> dropCreds (le_unix e) (s_Manifest s) = Ok cred.
Proof.
  intros H Hin. destruct (applyPrivilege (le_unix e) (s_Manifest s)) as [a|] eqn:Ea.
  - pose proof (proj1 (proj1 (applyPrivilege_spec _ _ _) Ea)) as Hd.
    enough (cred = Credential a) as -> by done. clear Hd. launch_cases H; set_solver.
  - exfalso. launch_cases H; set_solver.
Qed.

(** C30. Privilege: when core runs as root, a launch executes a module either with
    the credentials of the service account, both numbers read from the account
    database, or, for a module whose manifest asks for system privilege, with
    core's own; a user-privilege module, or one for another session, is never
    executed. *)
Theorem launch_privilege l s e r t bin env cred :
  launch l s e = (r, t) -> Exec bin env cred ∈ t -> geteuid (le_unix e) = 0 ->
  m_Session (s_Manifest s) = SessionSystem /\
  (m_Privilege (s_Manifest s) = PrivilegeSystem /\ cred = None \/
   m_Privilege (s_Manifest s) = PrivilegeService /\
   exists u g uid gid, lookup (le_unix e) (serviceAccount (le_unix e)) = Some (u, g) /\
     parse_uint 32 u = Some uid /\ parse_uint 32 g = Some gid /\ cred = Some (uid, gid)).
Proof.
  intros H Hin Hroot. pose proof (exec_cred _ _ _ _ _ _ _ _ H Hin) as Hc. clear H Hin.
  unfold dropCreds in Hc. rewrite Hroot in Hc. simpl in Hc.
  destruct (String.eqb_spec (m_Session (s_Manifest s)) SessionSystem); [|done]. simpl in Hc. split; [done|].
  destruct (String.eqb_spec (m_Privilege (s_Manifest s)) PrivilegeSystem); [left; by simplify_eq|].
  destruct (String.eqb_spec (m_Privilege (s_Manifest s)) PrivilegeService); [right|done].
  destruct (lookup _ _) as [[u g]|]; simpl in Hc; [|done].
  destruct (parse_uint 32 u) as [uid|] eqn:Eu; simpl in Hc; [|done].
  destruct (parse_uint 32 g) as [gid|] eqn:Eg; simpl in Hc; [|done].
  simplify_eq. split; [done|]. by exists u, g, uid, gid.
Qed.

(** A launch that fails, at whatever step, leaves no host server, process or
    connection behind, and one that succeeds leaves exactly one of each. *)
Lemma launch_alive l s e r t :
  launch l s e = (r, t) -> alive t = match r with Ok _ => mkLive true true true | Err _ => none_live end.
Proof. intros H. by launch_cases H. Qed.

(** Every launch begins with the verification, and there is no other. *)
Definition is_verify (e : effect) : bool := match e with Verify _ _ => true | _ => false end.
Lemma launch_one_verify l s e r t : launch l s e = (r, t) -> length (List.filter is_verify t) = 1%nat.
Proof. intros H. by launch_cases H. Qed.

Lemma filter_nil_Forall {A} (P : A -> Prop) `{!forall x, Decision (P x)} (l : list A) :
  filter P l = [] -> Forall (fun x => ~ P x) l.
Proof.
  induction l as [|x l IH]; [by constructor|]. rewrite filter_cons. case_decide; [done|]. by constructor; auto.
Qed.

(** Admission: a module that launches printed a well-formed handshake line
    with a protocol of core's window, and core has every capability it asked for
    at Init; no module is sent Init under a protocol outside the window. *)
Theorem launch_admission l s e r t :
  launch l s e = (r, t) ->
  (forall p id caps cfg lvl wd, CallInit p id caps cfg lvl wd ∈ t ->
     handshake.Contains (la_Window l) p = true /\ id = m_ID (s_Manifest s)) /\
  forall p, r = Ok p ->
    (exists raw, le_first e = FirstLine raw /\ handshake.Parse raw = Ok (p_line p)) /\
    handshake.Contains (la_Window l) (handshake.l_Protocol (p_line p)) = true /\
    Forall (fun n => is_Some (la_Caps l !! n)) (Requires (p_init p)).
Proof.
  intros H. split; [intros; launch_cases H; set_solver|]. intros p ->. launch_cases H.
  all: split; [by eexists|]; split; [done|].
  all: match goal with E : bool_decide _ = true |- _ => apply bool_decide_eq_true in E; apply filter_nil_Forall in E;
         eapply Forall_impl; [exact E|]; intros n Hn; simpl in Hn; by destruct (la_Caps l !! n); [eexists|] end.
Qed.

(** ** The sinks do not depend on how the stream is cut into writes *)

Lemma cut_line_app s t a b : cut_line s = Some (a, b) -> cut_line (s +++ t) = Some (a, b +++ t).
Proof.
  revert a b. induction s as [|c s IH]; intros a b H; simpl in *; [done|].
  destruct (Ascii.eqb c newline_char); [by simplify_eq|].
  destruct (cut_line s) as [[a' b']|] eqn:E; [|done]. simplify_eq. by rewrite (IH a' b eq_refl).
Qed.

Lemma cut_line_len s a b : cut_line s = Some (a, b) -> s = a +++ String newline_char b.
Proof.
  revert a b. induction s as [|c s IH]; intros a b H; simpl in *; [done|].
  destruct (Ascii.eqb_spec c newline_char); [by simplify_eq|].
  destruct (cut_line s) as [[a' b']|] eqn:E; [|done]. simplify_eq. simpl. by rewrite <-(IH a' b eq_refl).
Qed.

(** A prefix of the stream that holds no line yet is not longer than the line. *)
Lemma cut_line_prefix s t a b : cut_line s = None -> cut_line (s +++ t) = Some (a, b) ->
  (String.length s <= String.length a)%nat.
Proof.
  revert a b. induction s as [|c s IH]; intros a b Hs H; simpl in *; [lia|].
  destruct (Ascii.eqb c newline_char); [done|].
  destruct (cut_line s) as [[]|] eqn:E; [done|].
  destruct (cut_line (s +++ t)) as [[a' b']|] eqn:E'; [|done]. simplify_eq. simpl.
  specialize (IH a' b eq_refl eq_refl). lia.
Qed.

Lemma capture_done ps w : c_done w = true -> capture_all ps w = w.
Proof. intros H. induction ps as [|p ps IH]; [done|]. simpl. unfold capture_Write. by rewrite H. Qed.

Definition concat_all (ps : list string) : string := foldr String.append "" ps.

(** The handshake is read the same however the module's output is chopped
    into writes: the first line of the whole output, if it fits the cap, is what
    is reported, once, and nothing after it matters. *)
Theorem capture_first_line max ps line rest :
  cut_line (concat_all ps) = Some (line, rest) -> (String.length line <= max)%nat ->
  c_ch (capture_all ps (new_capture max)) = Some line.
Proof.
  intros H Hlen.
  assert (forall buf, cut_line buf = None -> cut_line (buf +++ concat_all ps) = Some (line, rest) ->
    c_ch (capture_all ps (mkCapture max buf false None)) = Some line) as Hgen; [|by apply (Hgen "")].
  clear H. induction ps as [|p ps IH]; intros buf Hbuf H; simpl in *.
  - rewrite sapp_nil_r in H. congruence.
  - unfold capture_Write. simpl. destruct (cut_line (buf +++ p)) as [[line' r]|] eqn:E.
    + rewrite capture_done by done. simpl. apply (cut_line_app _ (concat_all ps)) in E.
      rewrite sapp_assoc in E. by simplify_eq.
    + rewrite <-sapp_assoc in H. pose proof (cut_line_prefix _ _ _ _ E H).
      rewrite (proj2 (Nat.ltb_ge max _)) by lia. rewrite andb_false_r. by apply IH.
Qed.

Lemma cut_line_split s : split newline_char s =
  match cut_line s with Some (a, b) => a :: split newline_char b | None => [s] end.
Proof.
  induction s as [|c s IH]; simpl; [done|]. destruct (Ascii.eqb c newline_char); [done|].
  rewrite IH. by destruct (cut_line s) as [[a b]|].
Qed.

Lemma log_lines_spec fuel w : (String.length (l_buf w) < fuel)%nat ->
  let w' := log_lines fuel w in
  cut_line (l_buf w') = None /\
  forall t, l_lines w' ++ split newline_char (l_buf w' +++ t) = l_lines w ++ split newline_char (l_buf w +++ t).
Proof.
  revert w. induction fuel as [|n IH]; intros w Hf; [lia|]. simpl.
  destruct (cut_line (l_buf w)) as [[line rest]|] eqn:E; [|done].
  pose proof (cut_line_len _ _ _ E) as El. destruct (IH (mkLog rest (l_lines w ++ [line]))) as [I1 I2].
  { simpl. rewrite El, slength_app in Hf. simpl in Hf. lia. }
  split; [done|]. intros t. rewrite I2. simpl. rewrite <-app_assoc. f_equal. simpl.
  rewrite (cut_line_split (l_buf w +++ t)). by rewrite (cut_line_app _ t _ _ E).
Qed.

(** The log of a module's standard error is its complete lines, in order,
    however the stream is chopped into writes; what follows the last newline
    stays in the buffer and is never logged. *)
Theorem log_complete_lines ps :
  let w := log_all ps (mkLog "" []) in
  l_lines w ++ [l_buf w] = split newline_char (concat_all ps).
Proof.
  assert (forall w, cut_line (l_buf w) = None -> let w' := log_all ps w in
    cut_line (l_buf w') = None /\
    l_lines w' ++ split newline_char (l_buf w') = l_lines w ++ split newline_char (l_buf w +++ concat_all ps)) as Hgen.
  { induction ps as [|p ps IH]; intros w Hw; simpl; [by rewrite sapp_nil_r|].
    destruct (log_lines_spec (S (String.length (l_buf w +++ p))) (mkLog (l_buf w +++ p) (l_lines w)))
      as [L1 L2]; [simpl; lia|].
    destruct (IH (log_Write p w) L1) as [I1 I2]. split; [done|]. rewrite I2. unfold log_Write. rewrite L2. simpl. by rewrite sapp_assoc. }
  simpl. destruct (Hgen (mkLog "" []) eq_refl) as [H1 H2]. rewrite cut_line_split, H1 in H2. exact H2.
Qed.

(** ** A concrete launch *)

Definition demo_manifest : Manifest :=
  mkManifest 1 "sysinfo" "1.2.0" 1 "A" PrivilegeService SessionSystem [] ["platform.osinfo"] [] None [].
Definition demo_spec : Spec := mkSpec demo_manifest "/opt/sysinfo" "{}".
Definition demo_launcher : launcher :=
  mkLauncher (fun bin _ => String.eqb bin "/opt/sysinfo") (handshake.mkWindow 1 2)
    {["platform.osinfo" := ∅]} (fun id => "/run/modules/" +++ id) 0 [].
Definition demo_unix : unix := mkUnix 0 0 false (fun a => if String.eqb a "weave-agent" then Some ("998", "997") else None).
Definition demo_init : init_response := mkInit ["platform.osinfo"] 0 [].
Definition demo_env (start_ok : bool) : launch_env :=
  mkLaunchEnv demo_unix true true (Some "00112233445566778899aabbccddeeff") true true true (Some 4242) true
    (FirstLine "WEAVE|1|1|unix|/run/modules/sysinfo/sysinfo.sock") true (Some demo_init) start_ok.
Definition demo_trace (start_ok : bool) : list effect := (launch demo_launcher demo_spec (demo_env start_ok)).2.
Definition demo_proc : proc :=
  mkProc 4242 (handshake.mkLine 1 "unix" "/run/modules/sysinfo/sysinfo.sock") demo_init.
Definition demo_exec : effect :=
  Exec "/opt/sysinfo" (env_of demo_launcher "00112233445566778899aabbccddeeff" "/run/modules/sysinfo/host.sock" "/run/modules/sysinfo")
    (Some (998, 997)).

Lemma demo_launch : launch demo_launcher demo_spec (demo_env true) = (Ok demo_proc, demo_trace true).
Proof. vm_compute. reflexivity. Qed.
Lemma demo_executes : demo_exec ∈ demo_trace true.
Proof. unfold demo_trace. vm_compute. do 6 right. left. Qed.

Lemma launch_verified_witness :
  "/opt/sysinfo" = s_BinPath demo_spec /\ la_verify demo_launcher "/opt/sysinfo" demo_manifest = true /\
  head (demo_trace true) = Some (Verify "/opt/sysinfo" true).
Proof. exact (launch_verified _ _ _ _ _ _ _ _ demo_launch demo_executes). Defined.

Lemma launch_privilege_witness :
  m_Session demo_manifest = SessionSystem /\
  (m_Privilege demo_manifest = PrivilegeSystem /\ Some (998, 997) = None \/
   m_Privilege demo_manifest = PrivilegeService /\
   exists u g uid gid, lookup demo_unix (serviceAccount demo_unix) = Some (u, g) /\
     parse_uint 32 u = Some uid /\ parse_uint 32 g = Some gid /\ Some (998, 997) = Some (uid, gid)).
Proof. exact (launch_privilege _ _ _ _ _ _ _ _ demo_launch demo_executes eq_refl). Defined.

Lemma launch_admission_witness :
  (forall p id caps cfg lvl wd, CallInit p id caps cfg lvl wd ∈ demo_trace true ->
     handshake.Contains (la_Window demo_launcher) p = true /\ id = "sysinfo") /\
  forall p, (Ok demo_proc : result error proc) = Ok p ->
    (exists raw, le_first (demo_env true) = FirstLine raw /\ handshake.Parse raw = Ok (p_line p)) /\
    handshake.Contains (la_Window demo_launcher) (handshake.l_Protocol (p_line p)) = true /\
    Forall (fun n => is_Some (la_Caps demo_launcher !! n)) (Requires (p_init p)).
Proof. exact (launch_admission _ _ _ _ _ demo_launch). Defined.

Lemma capture_first_line_witness :
  c_ch (capture_all ["WEAVE|1|1"; "|unix|/s" +++ String newline_char "noise"; "more"] (new_capture (Z.to_nat 65536))) = Some "WEAVE|1|1|unix|/s".
Proof.
  eapply capture_first_line; [reflexivity|]. apply Nat.leb_le. reflexivity.
Defined.
End launch.
