(* ===== verification/TestKit.v ===== *)
(** * The test kit for modules (sdk/modulesdk/testkit)

    The in-memory host services a module is tested against, and the stub that
    launches a real module binary.  The theorems say when a test means something for
    core: the stub answers as core's services do, and it admits the modules core
    admits. *)

From stdpp Require Import base list strings gmap.
From Stdlib Require Import ZArith Lia Ascii.
From S2P Require Import Prelude.
From S2P Require Import GoStrings.
From S2P Require Import GoText.
From S2P Require Import Handshake.
From S2P Require Import Store.
From S2P Require Import EventBus.
From S2P Require Import Policy.
From S2P Require Import HostServ.
From S2P Require Import ModuleSdk.
From S2P Require Import Launch.
Open Scope Z_scope.

Local Infix "+++" := String.append (at level 60, right associativity).

Module testkit.
Import (hints) store hostserv.

(** ** The state behind the services (hostdata.go) *)

Record PublishedEvent := mkPublished { Topic : string; Data : string; At : Z }.
Record SentMessage := mkSent { Peer : Z; Kind : string; Payload : string; QueueOffline : bool }.
Record DeviceInfo := mkDevice { DeviceID : string; Ephemeral : bool; Tenant : string }.
Record subscriber := mkSubscriber { topics : list string; ch : list PublishedEvent }.

(** [HostData]; a watcher is a channel of one slot, [true] when it is full. *)
Record HostData := mkHostData {
  kv : gmap string string; policyRevision : Z; policyData : string; policyWatchers : list bool;
  events : list PublishedEvent; subscribers : list subscriber; sends : list SentMessage; Device : DeviceInfo }.

Definition NewHostData : HostData := mkHostData ∅ 0 "" [] [] [] [] (mkDevice "test-device" false "test").

Definition with_kv (m : gmap string string) (d : HostData) : HostData :=
  mkHostData m (policyRevision d) (policyData d) (policyWatchers d) (events d) (subscribers d) (sends d) (Device d).

Definition StoreGet (key : string) (d : HostData) : option string := kv d !! key.
Definition StorePut (key value : string) (d : HostData) : HostData := with_kv (<[key := value]> (kv d)) d.
Definition StoreDelete (key : string) (d : HostData) : HostData := with_kv (delete key (kv d)) d.
Definition StoreKeys (prefix : string) (d : HostData) : list string :=
  filter (fun k => has_prefix prefix k = true) (map_to_list (kv d)).*1.

(** [SetPolicy]: the revision is a [uint64]; every watcher's slot is filled. *)
Definition SetPolicy (data : string) (d : HostData) : HostData :=
  mkHostData (kv d) (eventbus.u64 (policyRevision d + 1)) data ((fun _ => true) <$> policyWatchers d)
    (events d) (subscribers d) (sends d) (Device d).
Definition Policy (d : HostData) : Z * string := (policyRevision d, policyData d).
Definition addPolicyWatcher (d : HostData) : nat * HostData :=
  (length (policyWatchers d),
   mkHostData (kv d) (policyRevision d) (policyData d) (policyWatchers d ++ [false])
     (events d) (subscribers d) (sends d) (Device d)).

(** [topicMatches] *)
Definition topicMatches1 (p topic : string) : bool :=
  let n := String.length p in
  String.eqb p topic ||
  ((1 <? n)%nat && bool_decide (String.get (n - 1) p = Some "*"%char) &&
   (n - 1 <=? String.length topic)%nat && String.eqb (stake (n - 1) topic) (stake (n - 1) p)).
Definition topicMatches (patterns : list string) (topic : string) : bool := existsb (fun p => topicMatches1 p topic) patterns.

Definition buffer : nat := 64.
Definition offer (ev : PublishedEvent) (s : subscriber) : subscriber :=
  if topicMatches (topics s) (Topic ev) then
    if (length (ch s) <? buffer)%nat then mkSubscriber (topics s) (ch s ++ [ev]) else s
  else s.
Definition Publish (topic data : string) (now : Z) (d : HostData) : HostData :=
  let ev := mkPublished topic data now in
  mkHostData (kv d) (policyRevision d) (policyData d) (policyWatchers d) (events d ++ [ev])
    (offer ev <$> subscribers d) (sends d) (Device d).
Definition subscribe (ts : list string) (d : HostData) : nat * HostData :=
  (length (subscribers d),
   mkHostData (kv d) (policyRevision d) (policyData d) (policyWatchers d) (events d)
     (subscribers d ++ [mkSubscriber ts []]) (sends d) (Device d)).
Definition RecordSend (m : SentMessage) (d : HostData) : HostData :=
  mkHostData (kv d) (policyRevision d) (policyData d) (policyWatchers d) (events d) (subscribers d) (sends d ++ [m]) (Device d).

(** ** The services (hostserver.go) *)

Notation error := werror.error.

(** The log and watchdog services are not registered. *)
Definition unimplemented : error := werror.status_error werror.Unimplemented "unknown service".

Definition identityServer_WhoAmI (d : HostData) : result error hostserv.reply :=
  Ok (hostserv.RIdentity (DeviceID (Device d)) (Ephemeral (Device d)) (Tenant (Device d))).
Definition identityServer_Credential (moduleID : string) (scopes : list string) : result error hostserv.reply :=
  Ok (hostserv.RCredential ("test-credential-" +++ moduleID) 4102444800 scopes).
Definition transportServer_Send (peer : Z) (kind data : string) (q : bool) (d : HostData) : result error hostserv.reply * HostData :=
  (Ok (hostserv.RDelivered true), RecordSend (mkSent peer kind data q) d).
Definition policyServer_Get (d : HostData) : result error hostserv.reply :=
  let (rev, data) := Policy d in Ok (hostserv.RPolicy rev data).
Definition storeServer_Get (key : string) (d : HostData) : result error hostserv.reply :=
  Ok (hostserv.RValue (StoreGet key d)).
Definition storeServer_Put (key value : string) (d : HostData) : result error hostserv.reply * HostData :=
  (Ok hostserv.RDone, StorePut key value d).
Definition storeServer_Delete (key : string) (d : HostData) : result error hostserv.reply * HostData :=
  (Ok hostserv.RDone, StoreDelete key d).
Definition storeServer_List (prefix : string) (d : HostData) : result error hostserv.reply :=
  Ok (hostserv.RKeys (StoreKeys prefix d)).
Definition eventsServer_Publish (moduleID topic data : string) (now : Z) (d : HostData) : result error hostserv.reply * HostData :=
  (Ok hostserv.RDone, Publish (moduleID +++ "." +++ topic) data now d).
(** The stream that follows forwards the subscriber's buffer in order. *)
Definition eventsServer_Subscribe (ts : list string) (d : HostData) : result error hostserv.reply * HostData :=
  let (id, d') := subscribe ts d in (Ok (hostserv.RSubscribed id), d').

(** [registerHostServices] *)
Definition dispatch (moduleID : string) (now : Z) (req : hostserv.request) (d : HostData) :
  result error hostserv.reply * HostData :=
  match req with
  | hostserv.StoreGet k => (storeServer_Get k d, d)
  | hostserv.StorePut k x => storeServer_Put k x d
  | hostserv.StoreDelete k => storeServer_Delete k d
  | hostserv.StoreList p => (storeServer_List p d, d)
  | hostserv.PolicyGet => (policyServer_Get d, d)
  | hostserv.PublishEvent t x => eventsServer_Publish moduleID t x now d
  | hostserv.SubscribeEvents ts => eventsServer_Subscribe ts d
  | hostserv.WhoAmIRequest => (identityServer_WhoAmI d, d)
  | hostserv.CredentialRequest scopes => (identityServer_Credential moduleID scopes, d)
  | hostserv.TransportSend p k x q => transportServer_Send p k x q d
  | hostserv.LogWrite _ | hostserv.WatchdogNotify _ => (Err unimplemented, d)
  end.

(** [tokenInterceptors], then the handler *)
Definition token_ok (token : string) (vals : list string) : bool :=
  match vals with [v] => String.eqb v token | _ => false end.
Definition serve (moduleID token : string) (vals : list string) (now : Z) (req : hostserv.request) (d : HostData) :
  result error hostserv.reply * HostData :=
  if token_ok token vals then dispatch moduleID now req d
  else (Err (werror.status_error werror.Unauthenticated "missing or wrong handshake token"), d).

(** ** Topic patterns *)

Lemma get_last p c : String.get (String.length p - 1) p = Some c <-> exists pre, p = pre +++ String c "".
Proof.
  split.
  - induction p as [|x p IH]; [done|]. destruct p as [|y p]; simpl.
    + intros [= ->]. by exists "".
    + intros H. simpl in IH. rewrite Nat.sub_0_r in IH. destruct (IH H) as [pre E]. exists (String x pre). simpl. by rewrite E.
  - intros [pre ->]. rewrite slength_app. simpl. rewrite Nat.add_sub. induction pre as [|x pre IH]; [done|]. exact IH.
Qed.

Lemma stake_prefix a t : (String.length a <=? String.length t)%nat && String.eqb (stake (String.length a) t) a = has_prefix a t.
Proof.
  apply eq_true_iff_eq. rewrite andb_true_iff, Nat.leb_le, String.eqb_eq, has_prefix_true. split.
  - intros [_ H]. exists (sdrop (String.length a) t). rewrite <-H at 1. symmetry. apply stake_sdrop.
  - intros [r ->]. rewrite slength_app, stake_app. split; [lia|done].
Qed.

(** One pattern means the same on the stub's bus and on core's, except the lone star. *)
Lemma topicMatches1_spec p t : p <> "*" -> topicMatches1 p t = eventbus.matches1 p t.
Proof.
  intros Hp. unfold topicMatches1, eventbus.matches1. f_equal. destruct (cut_suffix "*" p) as [pre|] eqn:E.
  - apply cut_suffix_Some in E. subst p. rewrite slength_app. simpl. rewrite Nat.add_sub.
    rewrite bool_decide_true by (rewrite <-(proj2 (get_last (pre +++ "*") "*"%char)); [|by exists pre];
      by rewrite slength_app, Nat.add_sub).
    rewrite stake_app, andb_true_r, <-(stake_prefix pre t). destruct pre as [|c pre]; [by destruct Hp|].
    replace (1 <? String.length (String c pre) + 1)%nat with true by (symmetry; apply Nat.ltb_lt; simpl; lia). reflexivity.
  - rewrite bool_decide_false; [by rewrite andb_false_r|]. intros H. apply get_last in H as [pre ->].
    assert (cut_suffix "*" (pre +++ "*") = Some pre) by (by apply cut_suffix_Some). congruence.
Qed.
Lemma topicMatches_spec ps t : Forall (fun p => p <> "*") ps -> topicMatches ps t = eventbus.matches ps t.
Proof. induction 1 as [|p ps Hp _ IH]; [done|]. simpl. by rewrite topicMatches1_spec, IH. Qed.

(** The lone star hears everything at core and nothing on the stub. *)
Lemma lone_star t : t <> "*" -> topicMatches ["*"] t = false /\ eventbus.matches ["*"] t = true.
Proof.
  intros Ht. unfold topicMatches, eventbus.matches, topicMatches1, eventbus.matches1. cbn [existsb].
  assert (String.eqb "*" t = false) as -> by (apply String.eqb_neq; congruence). done.
Qed.

(** ** The stub answers as core does *)

Section Agree.
Context {S T : Type} {SB : store.StoreBackend S} {SL : store.StoreLaws S} {TB : hostserv.TransportBackend T}.
Context (moduleID token : string) (allow : list string).
Notation services := (hostserv.Services S T).

(** A subscriber of the stub and a registered one of the bus wait for the same topics
    and hold the same events. *)
Definition same_sub (b : eventbus.Bus) (s : subscriber) (id : nat) : Prop :=
  exists sub, eventbus.heap b !! id = Some sub /\ id ∈ eventbus.subs b /\ (id < eventbus.fresh_id b)%nat /\
    eventbus.topics sub = topics s /\ Forall (fun p => p <> "*") (topics s) /\
    ((fun e => (eventbus.Topic e, eventbus.Data e)) <$> eventbus.ch sub) = ((fun e => (Topic e, Data e)) <$> ch s).

Record agree (ids : list nat) (d : HostData) (v : services) : Prop := mkAgree {
  a_wf : store.wf (hostserv.Store v);
  a_store : forall k, kv d !! k = store.view (hostserv.Store v) moduleID k;
  a_device : hostserv.WhoAmI (hostserv.Identity_ v) = (DeviceID (Device d), Ephemeral (Device d), Tenant (Device d));
  a_policy : policy.revision (hostserv.Policy v) = policyRevision d /\
    default "" (policy.docs (hostserv.Policy v) !! moduleID) = policyData d;
  a_subs : Forall2 (same_sub (hostserv.Bus v)) (subscribers d) ids }.

(** What the comparison covers: the stub grants every credential, delivers every
    message and has no log or watchdog service. *)
Definition covered (req : hostserv.request) : bool :=
  match req with
  | hostserv.StoreGet _ | hostserv.StorePut _ _ | hostserv.StoreDelete _ | hostserv.StoreList _
  | hostserv.PolicyGet | hostserv.PublishEvent _ _ | hostserv.WhoAmIRequest => true
  | hostserv.SubscribeEvents ts => forallb (fun p => negb (String.eqb p "*")) ts
  | _ => false
  end.

(** Keys come in the order of a map; a subscription's number is internal. *)
Definition same_reply (a b : hostserv.reply) : Prop :=
  match a, b with
  | hostserv.RKeys k, hostserv.RKeys k' => k ≡ₚ k'
  | hostserv.RSubscribed _, hostserv.RSubscribed _ => True
  | _, _ => a = b
  end.

Lemma same_sub_publish t x now s id b : same_sub b s id ->
  same_sub (eventbus.Publish moduleID t x now b) (offer (mkPublished (moduleID +++ "." +++ t) x now) s) id.
Proof.
  intros (sub & Hh & Hin & Hlt & Ht & Hstar & Hch).
  set (ev := eventbus.stamp b moduleID t x now).
  exists (eventbus.deliver ev sub). split.
  { unfold eventbus.Publish. simpl. rewrite map_lookup_imap, Hh. simpl. by rewrite decide_True. }
  split; [done|]. split; [done|]. unfold eventbus.deliver, offer. rewrite topicMatches_spec by done. rewrite Ht.
  change (eventbus.Topic ev) with (moduleID +++ "." +++ t). simpl Topic.
  assert (length (eventbus.ch sub) = length (ch s)) as Hlen.
  { apply (f_equal length) in Hch. by rewrite !length_fmap in Hch. }
  rewrite Hlen. change eventbus.buffer with buffer. destruct (eventbus.matches _ _); [|done].
  destruct (length (ch s) <? buffer)%nat; simpl; [|done]. split; [done|]. split; [done|].
  by rewrite !fmap_app, Hch.
Qed.

Lemma same_sub_subscribe ts s id b : same_sub b s id -> same_sub (snd (eventbus.Subscribe ts b)) s id.
Proof.
  intros (sub & Hh & Hin & Hlt & Hr). exists sub. simpl. rewrite lookup_insert_ne by lia. split; [done|].
  split; [set_solver|]. split; [lia|done].
Qed.

Lemma keys_perm c p d (v : services) l : store.wf (hostserv.Store v) ->
  (forall k, kv d !! k = store.view (hostserv.Store v) moduleID k) ->
  store.List c moduleID p (hostserv.Store v) = Ok l -> l ≡ₚ StoreKeys p d.
Proof.
  intros Hwf Hs Hl. apply store.List_view in Hl as [Hnd Hk]; [|done]. apply NoDup_Permutation; [done|..].
  - apply NoDup_filter, NoDup_fst_map_to_list.
  - intros k. rewrite Hk. unfold StoreKeys. rewrite list_elem_of_filter, list_elem_of_fmap, <-Hs. split.
    + intros [Hp [x Hx]]. split; [done|]. exists (k, x). split; [done|]. by apply elem_of_map_to_list.
    + intros [Hp ([k' x] & -> & Hin%elem_of_map_to_list)]. split; [done|]. by exists x.
Qed.

(** One call that core accepts. *)
Lemma agree_step ids d v c now req a v' : agree ids d v -> covered req = true ->
  hostserv.dispatch moduleID allow c now req v = (Ok a, v') ->
  exists b ids', fst (dispatch moduleID now req d) = Ok b /\ same_reply a b /\
    agree ids' (snd (dispatch moduleID now req d)) v'.
Proof.
  intros [Hwf Hs Hd [Hr Hp] Hsub] Hc H.
  destruct req as [k|k x|k|p| |t x|ts| |scopes|? ? ? ?|?|?]; try done; cbn [hostserv.dispatch dispatch fst snd] in *.
  - unfold hostserv.storeServer_Get in H. destruct (store.Get _ _ _ _) as [o|] eqn:E; simplify_eq.
    apply store.Get_view in E; [|done]. subst o. eexists _, ids. split; [done|]. split; [|by constructor].
    simpl. unfold StoreGet. by rewrite Hs.
  - unfold hostserv.storeServer_Put in H. destruct (store.Put _ _ _ _ _) as [[u|] s'] eqn:E; simplify_eq.
    apply store.Put_view in E as [Hw Hv]; [|done]. eexists _, ids. split; [done|]. split; [done|]. constructor; try done.
    intros k'. simpl. rewrite Hv. simpl. case_bool_decide as Hk.
    + injection Hk as ->. apply lookup_insert_eq.
    + rewrite lookup_insert_ne by congruence. apply Hs.
  - unfold hostserv.storeServer_Delete in H. destruct (store.Delete _ _ _ _) as [[u|] s'] eqn:E; simplify_eq.
    apply store.Delete_view in E as [Hw Hv]; [|done]. eexists _, ids. split; [done|]. split; [done|]. constructor; try done.
    intros k'. simpl. rewrite Hv. simpl. case_bool_decide as Hk.
    + injection Hk as ->. apply lookup_delete_eq.
    + rewrite lookup_delete_ne by congruence. apply Hs.
  - unfold hostserv.storeServer_List in H. destruct (store.List _ _ _ _) as [l|] eqn:E; simplify_eq.
    eexists _, ids. split; [done|]. split; [by eapply keys_perm|by constructor].
  - unfold hostserv.policyServer_Get, policy.Get in H. simplify_eq. eexists _, ids. split; [done|]. split; [|by constructor].
    simpl. by rewrite Hr, Hp.
  - unfold hostserv.eventsServer_Publish in H. simplify_eq. eexists _, ids. split; [done|]. split; [done|]. constructor; try done.
    cbn [subscribers Publish hostserv.Bus hostserv.with_bus]. apply Forall2_fmap_l.
    eapply Forall2_impl; [exact Hsub|]. intros s id. apply same_sub_publish.
  - unfold hostserv.eventsServer_Subscribe in H. destruct (find_first _ ts); [done|]. cbn [eventbus.Subscribe] in H. simplify_eq.
    eexists _, (ids ++ [eventbus.fresh_id (hostserv.Bus v)]). split; [done|]. split; [done|]. constructor; try done.
    cbn [subscribers hostserv.Bus hostserv.with_bus snd subscribe]. apply Forall2_app.
    + eapply Forall2_impl; [exact Hsub|]. intros s id. apply (same_sub_subscribe ts).
    + constructor; [|done]. eexists. simpl. rewrite lookup_insert_eq. split; [done|]. split; [set_solver|]. split; [lia|].
      split; [done|]. split; [|done]. rewrite Forall_forall. intros p Hin ->. cbn [covered] in Hc. rewrite forallb_forall in Hc.
      specialize (Hc "*" (proj1 (list_elem_of_In _ _) Hin)). done.
  - unfold hostserv.identityServer_WhoAmI in H. rewrite Hd in H. simplify_eq. eexists _, ids. split; [done|]. split; [done|by constructor].
Qed.

(** A run: the calls of one module, with the replies. *)
Fixpoint core_run (reqs : list (store.call * Z * hostserv.request)) (v : services) : list (result error hostserv.reply) * services :=
  match reqs with
  | [] => ([], v)
  | (c, now, r) :: rs =>
      let (a, v1) := hostserv.serve moduleID token allow [token] c now r v in
      let (l, v2) := core_run rs v1 in (a :: l, v2)
  end.
Fixpoint kit_run (reqs : list (store.call * Z * hostserv.request)) (d : HostData) : list (result error hostserv.reply) * HostData :=
  match reqs with
  | [] => ([], d)
  | (_, now, r) :: rs =>
      let (a, d1) := serve moduleID token [token] now r d in
      let (l, d2) := kit_run rs d1 in (a :: l, d2)
  end.

End Agree.

(** *** Witness: a module that subscribes to itself, publishes and stores *)

Definition kit_requests : list (store.call * Z * hostserv.request) :=
  [(store.a_call, 0, hostserv.SubscribeEvents ["m.*"]); (store.a_call, 5, hostserv.PublishEvent "up" "1");
   (store.a_call, 6, hostserv.StorePut "k" "v"); (store.a_call, 7, hostserv.StoreList "")].
Definition kit_services : hostserv.Services store.MemStore unit :=
  hostserv.mkServices ∅ eventbus.New policy.NewManager
    (hostserv.mkIdentity ("test-device", false, "test") (fun _ _ => Err (werror.mkError "no" [] None))) tt [] [].


(** ** The stub's policy stream ([policyServer.Watch]) *)

(** One watcher: [sent] as in the code, whether it is about to read the document or
    waits on its slot, and what it has sent. *)
Record watch := mkWatch { slot : nat; sent : Z; reading : bool; out : list (Z * string) }.

(** [Watch] begins with [addPolicyWatcher]. *)
Definition start_watch (d : HostData) : watch * HostData :=
  let (i, d') := addPolicyWatcher d in (mkWatch i 0 true [], d').

(** A turn of the loop: read and perhaps send; or take the token from the slot. *)
Definition turn (w : watch) (d : HostData) : watch * HostData :=
  if reading w then
    let (rev, data) := Policy d in
    (if sent w <=? rev then mkWatch (slot w) (eventbus.u64 (rev + 1)) false (out w ++ [(rev, data)])
     else mkWatch (slot w) (sent w) false (out w), d)
  else match policyWatchers d !! slot w with
       | Some true =>
           (mkWatch (slot w) (sent w) true (out w),
            mkHostData (kv d) (policyRevision d) (policyData d) (<[slot w := false]> (policyWatchers d))
              (events d) (subscribers d) (sends d) (Device d))
       | _ => (w, d)
       end.

(** The test sets documents while the stream runs. *)
Inductive move := Set_ (data : string) | Turn.
Definition step (m : move) (s : watch * HostData) : watch * HostData :=
  match m with Set_ x => (s.1, SetPolicy x s.2) | Turn => turn s.1 s.2 end.
Definition moves (ms : list move) (s : watch * HostData) : watch * HostData := fold_left (fun s m => step m s) ms s.

(** Everything a reader of the stream can tell is up to date unless a turn is due. *)
Definition fresh_watch (s : watch * HostData) : Prop :=
  (slot s.1 < length (policyWatchers s.2))%nat /\ 0 <= sent s.1 <= policyRevision s.2 + 1 /\
  (reading s.1 = false -> policyWatchers s.2 !! slot s.1 = Some false ->
   sent s.1 = policyRevision s.2 + 1) /\
  (sent s.1 = policyRevision s.2 + 1 -> last (out s.1) = Some (Policy s.2)).

Lemma fresh_step m s : 0 <= policyRevision s.2 < 2 ^ 64 - 2 -> fresh_watch s ->
  fresh_watch (step m s) /\ policyRevision s.2 <= policyRevision (step m s).2 <= policyRevision s.2 + 1.
Proof.
  intros Hr (Hs & Hb & Hw & Hl). destruct s as [w d]. simpl in *. destruct m as [x|]; simpl.
  - rewrite eventbus.u64_small by lia. split; [|lia]. unfold fresh_watch. simpl. rewrite eventbus.u64_small by lia.
    rewrite length_fmap, list_lookup_fmap. split; [done|]. split; [lia|]. split; [|lia].
    intros _ H. destruct (policyWatchers d !! slot w); simplify_eq/=.
  - unfold turn. destruct (reading w) eqn:Er; simpl.
    + split; [|lia]. destruct (sent w <=? policyRevision d) eqn:E; unfold fresh_watch; simpl.
      * rewrite eventbus.u64_small by lia. split; [done|]. split; [lia|]. split; [done|]. intros _. by rewrite last_snoc.
      * apply Z.leb_gt in E. split; [done|]. split; [lia|]. split; [lia|done].
    + destruct (policyWatchers d !! slot w) as [[]|] eqn:E; simpl; (split; [|lia]); [|unfold fresh_watch; simpl; rewrite Er, E; done..].
      unfold fresh_watch. simpl. rewrite length_insert. split; [done|]. split; [lia|]. split; [done|]. exact Hl.
Qed.

Lemma fresh_moves ms s : 0 <= policyRevision s.2 -> policyRevision s.2 + Z.of_nat (length ms) < 2 ^ 64 - 1 ->
  fresh_watch s -> fresh_watch (moves ms s).
Proof.
  revert s. induction ms as [|m ms IH]; intros s H0 Hn Hf; [done|]. simpl in Hn |- *.
  destruct (fresh_step m s) as [Hf' Hr]; [lia|done|]. apply IH; [lia|lia|done].
Qed.

(** A stream that waits with an empty slot has sent the current document last, however
    the documents were set while it ran. *)
Theorem kit_watch_current d ms s :
  0 <= policyRevision d -> policyRevision d + Z.of_nat (length ms) < 2 ^ 64 - 1 ->
  moves ms (start_watch d) = s -> reading s.1 = false -> policyWatchers s.2 !! slot s.1 = Some false ->
  last (out s.1) = Some (Policy s.2).
Proof.
  intros H0 Hn <- Hr Hs. destruct (fresh_moves ms (start_watch d) H0 Hn) as (_ & _ & Hw & Hl); [|by apply Hl, Hw].
  unfold fresh_watch, start_watch. simpl. rewrite length_app. simpl. split; [lia|]. split; [lia|]. split; [done|lia].
Qed.

Definition demo_moves : list move := [Turn; Set_ "a"; Turn; Set_ "b"; Turn; Turn; Turn].
Lemma kit_watch_current_witness :
  let s := moves demo_moves (start_watch NewHostData) in Policy s.2 = (2, "b") /\ last (out s.1) = Some (Policy s.2).
Proof.
  intros s. split; [reflexivity|]. by apply (kit_watch_current NewHostData demo_moves s).
Defined.

(** ** The stub core (stubcore.go) *)

(** What happens outside while a module is launched, [stdout] the first thing that
    comes of waiting for its line. *)
Inductive waited := WLine (line : string) | WExit (code : Z) | WTimeout | WCancelled.
Record launch_env := mkLaunchEnv {
  rand_ok : bool; tempdir_ok : bool; listen_ok : bool; stdout_ok : bool; stderr_ok : bool; start_ok : bool;
  stdout : waited; dial_ok : bool }.

(** What was started and stopped, in order. *)
Inductive act := ServeHost | StopHost | Spawn | Kill | Dial | CloseConn | Reap.

Inductive launch_error :=
| ErrSetup | ErrProtocolRefused | ErrExited (code : Z) | ErrTimeout | ErrCancelled
| ErrLine (e : handshake.error) | ErrWindow (protocol : Z) | ErrDial.

(** The zero window means {1, 1}. *)
Definition effective (w : handshake.Window) : handshake.Window :=
  if (handshake.w_Min w =? 0) && (handshake.w_Max w =? 0) then handshake.mkWindow 1 1 else w.

(** [StubCore.Launch] *)
Definition Launch (window : handshake.Window) (e : launch_env) : result launch_error handshake.Line * list act :=
  let window := effective window in
  if negb (rand_ok e && tempdir_ok e && listen_ok e) then (Err ErrSetup, [])
  else if negb (stdout_ok e && stderr_ok e && start_ok e) then (Err ErrSetup, [ServeHost; StopHost])
  else match stdout e with
       | WExit c => (Err (if c =? handshake.ExitProtocolUnsupported then ErrProtocolRefused else ErrExited c), [ServeHost; Spawn; StopHost])
       | WTimeout => (Err ErrTimeout, [ServeHost; Spawn; Kill; StopHost])
       | WCancelled => (Err ErrCancelled, [ServeHost; Spawn; Kill; StopHost])
       | WLine raw =>
           match handshake.Parse raw with
           | Err x => (Err (ErrLine x), [ServeHost; Spawn; Kill; StopHost])
           | Ok line =>
               if negb (handshake.Contains window (handshake.l_Protocol line)) then
                 (Err (ErrWindow (handshake.l_Protocol line)), [ServeHost; Spawn; Kill; StopHost])
               else if negb (dial_ok e) then (Err ErrDial, [ServeHost; Spawn; Kill; StopHost])
               else (Ok line, [ServeHost; Spawn; Dial])
           end
       end.

(** What a real module does when its first output is waited for: the line a scanner
    cuts from what it printed, or its exit. *)
Definition sdk_module (id : string) (w : handshake.Window) (token hostAddr dir : string) : waited :=
  match modulesdk.serve id (modulesdk.launch_env (effective w) token hostAddr dir) true with
  | modulesdk.Printed text => match scan_lines text with l :: _ => WLine l | [] => WExit 1 end
  | modulesdk.Exit c => WExit c
  end.

Lemma scan_lines_one l r : contains nl l = false -> (String.length l < MaxScanTokenSize)%nat -> drop_cr l = l ->
  exists t, scan_lines (l +++ String nl r) = l :: t.
Proof.
  intros Hc Hl Hd. unfold scan_lines. rewrite split_app by done. destruct (split nl r) as [|x xs] eqn:E;
    [by destruct (split_not_nil nl r)|]. cbn [scan].
  replace (MaxScanTokenSize <=? String.length l)%nat with false by (symmetry; apply Nat.leb_gt; lia). rewrite Hd. eauto.
Qed.

(** What is still running after a launch. *)
Definition after (on off : act -> bool) (l : list act) : bool :=
  fold_left (fun b a => if on a then true else if off a then false else b) l false.
Definition serving (l : list act) : bool :=
  after (fun a => match a with ServeHost => true | _ => false end) (fun a => match a with StopHost => true | _ => false end) l.
Definition alive (exited : bool) (l : list act) : bool :=
  negb exited &&
  after (fun a => match a with Spawn => true | _ => false end) (fun a => match a with Kill => true | _ => false end) l.

(** The stub admits what core admits: with everything in order outside, a module built
    with the SDK comes up exactly when its protocol lies in the window, at the address
    it was given, and is reported as refusing the protocol otherwise.  However a
    launch fails, neither the host server nor the module is left running. *)
Theorem kit_launch w e id token hostAddr dir :
  (0 < handshake.w_Min (effective w) -> handshake.w_Min (effective w) <= handshake.w_Max (effective w) < 2 ^ 32 ->
   token <> "" -> hostAddr <> "" -> dir <> "" ->
   let addr := dir +++ "/" +++ id +++ ".sock" in
   contains "|" addr = false -> contains nl addr = false -> Z.of_nat (String.length addr) < 65000 ->
   fst (Launch w (mkLaunchEnv true true true true true true (sdk_module id w token hostAddr dir) true)) =
     if handshake.Contains (effective w) modulesdk.Protocol
     then Ok (handshake.mkLine modulesdk.Protocol handshake.NetworkUnix addr) else Err ErrProtocolRefused) /\
  (is_ok (fst (Launch w e)) = false ->
   serving (snd (Launch w e)) = false /\
   alive (match stdout e with WExit _ => true | _ => false end) (snd (Launch w e)) = false).
Proof.
  split.
  - intros H1 H2 Ht Hh Hd addr Hbar Hnl Hlen. unfold sdk_module. rewrite modulesdk.serve_answers by done.
    destruct (handshake.Contains (effective w) modulesdk.Protocol) eqn:Ew; [|done].
    assert (modulesdk.answer dir id = "WEAVE|1|1|unix|" +++ addr) as Ea by done.
    destruct (scan_lines_one (modulesdk.answer dir id) "") as [t Et].
    + rewrite Ea, contains_app. exact Hnl.
    + rewrite Ea, slength_app. change (String.length "WEAVE|1|1|unix|") with 15%nat.
      assert (Z.of_nat MaxScanTokenSize = 65536) by (unfold MaxScanTokenSize; rewrite Nat2Z.inj_mul; reflexivity). lia.
    + unfold drop_cr, trim_suffix. destruct (cut_suffix _ _) as [r|] eqn:E; [|done]. exfalso.
      apply cut_suffix_Some in E. rewrite Ea in E. subst addr.
      replace ("WEAVE|1|1|unix|" +++ dir +++ "/" +++ id +++ ".sock") with (("WEAVE|1|1|unix|" +++ dir +++ "/" +++ id) +++ ".sock") in E
        by (by rewrite !sapp_assoc).
      apply (f_equal srev) in E. rewrite !(srev_sapp _ (String _ _)) in E. simpl in E. discriminate E.
    + change (String (ascii_of_nat 10) "") with (String nl ""). rewrite Et. unfold Launch. cbn [stdout rand_ok tempdir_ok listen_ok stdout_ok stderr_ok start_ok dial_ok andb negb].
      rewrite modulesdk.answer_parses by done. cbn [handshake.l_Protocol]. by rewrite Ew.
  - unfold Launch. do 2 (destruct (negb (_ && _)); [intros _; split; [done|unfold alive; by rewrite andb_false_r]|]).
    destruct (stdout e) as [raw|c| |]; [|done..]. destruct (handshake.Parse raw) as [line|]; [|done].
    destruct (negb (handshake.Contains _ _)); [done|]. by destruct (dial_ok e).
Qed.

Lemma kit_launch_witness :
  fst (Launch (handshake.mkWindow 0 0) (mkLaunchEnv true true true true true true
    (sdk_module "sysinfo" (handshake.mkWindow 0 0) "tok" "/tmp/h" "/tmp/s") true)) =
    Ok (handshake.mkLine 1 "unix" "/tmp/s/sysinfo.sock") /\
  serving (snd (Launch (handshake.mkWindow 2 3) (mkLaunchEnv true true true true true true (WLine "WEAVE|1|1|unix|/x") true))) = false.
Proof.
  split.
  - apply (proj1 (kit_launch (handshake.mkWindow 0 0) (mkLaunchEnv true true true true true true WTimeout true)
      "sysinfo" "tok" "/tmp/h" "/tmp/s")); done.
  - by apply (proj2 (kit_launch (handshake.mkWindow 2 3) (mkLaunchEnv true true true true true true (WLine "WEAVE|1|1|unix|/x") true)
      "" "" "" "")).
Defined.
(** ** Driving a launched module *)

(** [InitRequest], and the one [StubCore.Init] sends; the answer is the module's. *)
Record InitRequest := mkInitRequest {
  ir_Protocol : Z; ir_ModuleId : string; ir_Capabilities : list string; ir_Config : string;
  ir_Privilege : launch.PrivilegeLevel }.
Record StubCore := mkStubCore { c_Window : handshake.Window; c_ModuleID : string; c_Config : string; c_Capabilities : list string }.
Definition init_request (c : StubCore) (line : handshake.Line) : InitRequest :=
  mkInitRequest (handshake.l_Protocol line) (c_ModuleID c) (c_Capabilities c) (c_Config c) launch.LevelService.
Definition kit_Init (c : StubCore) (line : handshake.Line) (own : string) (e : modulesdk.init_env)
    (s : modulesdk.moduleServer) : modulesdk.code * modulesdk.moduleServer :=
  let req := init_request c line in modulesdk.Init own (ir_ModuleId req) (ir_Protocol req) e s.

(** [WaitExit]: the process ends by itself, with a status, or the context does. *)
Inductive exit_error := ErrStatus (code : Z) | ErrContext | ErrRPC (c : modulesdk.code).
Definition WaitExit (exited : option Z) : result exit_error unit * list act :=
  match exited with
  | Some c => (if c =? 0 then Ok tt else Err (ErrStatus c), [Reap; CloseConn; StopHost])
  | None => (Err ErrContext, [Kill; Reap; CloseConn; StopHost])
  end.
(** [Shutdown]: [answer] is what the module's server answers. *)
Definition kit_Shutdown (answer : modulesdk.code) (exited : option Z) : result exit_error unit * list act :=
  match answer with modulesdk.OK => WaitExit exited | c => (Err (ErrRPC c), []) end.
Definition kit_Kill : list act := [Kill; Reap; CloseConn; StopHost].

Definition connected (l : list act) : bool :=
  after (fun a => match a with Dial => true | _ => false end) (fun a => match a with CloseConn => true | _ => false end) l.
Definition unreaped (l : list act) : bool :=
  after (fun a => match a with Spawn => true | _ => false end) (fun a => match a with Reap => true | _ => false end) l.
Definition cleaned (l : list act) : bool := negb (serving l) && negb (connected l) && negb (unreaped l).

(** A module built with the SDK, launched and driven by the kit: the first [Init]
    succeeds exactly when the ids agree and the module's own steps succeed; [Kill]
    and [WaitExit] leave nothing behind; and [Shutdown] does so exactly when the
    module's [Stop] succeeded, the error otherwise leaving the process, the
    connection and the host server up for the caller to [Kill]. *)
Theorem kit_drive c w e line t own ie ok exited :
  Launch w e = (Ok line, t) -> handshake.l_Protocol line = modulesdk.Protocol ->
  let (a, s) := kit_Init c line own ie modulesdk.new_server in
  (a = modulesdk.OK <-> c_ModuleID c = own /\ modulesdk.config_ok ie <> Some false /\
     modulesdk.dial_ok ie = true /\ modulesdk.init_ok ie = true) /\
  cleaned (t ++ kit_Kill) = true /\ cleaned (t ++ snd (WaitExit exited)) = true /\
  (let a' := fst (modulesdk.Shutdown ok (snd (modulesdk.Start true s))) in
   cleaned (t ++ snd (kit_Shutdown a' exited)) = true <-> (a = modulesdk.OK -> ok = true)).
Proof.
  intros HL HP. assert (t = [ServeHost; Spawn; Dial]) as ->.
  { unfold Launch in HL. do 2 (destruct (negb (_ && _)); [done|]). destruct (stdout e) as [raw|x| |]; [|done..].
    destruct (handshake.Parse raw); [|done]. destruct (negb _); [done|]. destruct (negb _); [done|]. by injection HL. }
  unfold kit_Init, modulesdk.Init. simpl. rewrite HP, Z.eqb_refl. simpl.
  destruct (String.eqb_spec (c_ModuleID c) own) as [Ho|Ho]; simpl.
  - destruct ie as [[[]|] [] []], ok, exited; vm_compute; (split; [|split; [done|split; [done|]]]);
      try (split; [done|]; by intros (_ & H1 & H2 & H3)); split; try done; intros H; by specialize (H eq_refl).
  - split; [split; [done|by intros (? & _)]|]. split; [done|]. split; by destruct exited.
Qed.

Lemma kit_drive_witness :
  let c := mkStubCore (handshake.mkWindow 0 0) "sysinfo" "{}" [] in
  let e := mkLaunchEnv true true true true true true (WLine "WEAVE|1|1|unix|/x") true in
  let line := handshake.mkLine 1 "unix" "/x" in
  let s := snd (kit_Init c line "sysinfo" modulesdk.good_env modulesdk.new_server) in
  cleaned ([ServeHost; Spawn; Dial] ++ kit_Kill) = true /\
  cleaned ([ServeHost; Spawn; Dial] ++
    snd (kit_Shutdown (fst (modulesdk.Shutdown false (snd (modulesdk.Start true s)))) None)) = false.
Proof.
  intros c e line s.
  destruct (kit_drive c (c_Window c) e line [ServeHost; Spawn; Dial] "sysinfo" modulesdk.good_env false None)
    as (H1 & H2 & _ & H4); [reflexivity|reflexivity|].
  split; [exact H2|]. apply not_true_is_false. intros H. apply H4 in H; [discriminate H|reflexivity].
Defined.
End testkit.
