(* ===== verification/Supervisor.v ===== *)
(** * The supervisor (internal/supervise/supervisor.go, sdk/retry)

    One runner per module: launch, monitor, back off, relaunch, until it is
    stopped, refused, or over its start limit.  A run is a function of the
    successive [round]s, each holding what the outside world did during one
    launch: its answers to the launch, the events the monitor saw, the times it
    read.  The registry ([Add], [StopModule], [Replace]) is a map of runners. *)

From stdpp Require Import base list strings gmap.
From Stdlib Require Import ZArith Lia Ascii.
From S2P Require Import Prelude.
From S2P Require Import GoStrings.
From S2P Require Import Manifest.
From S2P Require Import Handshake.
From S2P Require Import Launch.
Open Scope Z_scope.

Local Infix "+++" := String.append (at level 60, right associativity).

(** ** Back-off (sdk/retry) *)

Module retry.

(** [Backoff]; times in nanoseconds, the factor an integer (the platform's is 2,
    and products below 2^53 are exact in floating point). *)
Record Backoff := mkBackoff { Initial : Z; Max : Z; Factor : Z }.
Definition second : Z := 10 ^ 9.
Definition New : Backoff := mkBackoff second (120 * second) 2.
Definition zero : Backoff := mkBackoff 0 0 0.

(** The loop of [Delay] from [d], with its [break]. *)
Fixpoint curve (b : Backoff) (attempt : nat) (d : Z) : Z :=
  match attempt with
  | O => d
  | S n => let d' := d * Factor b in if Max b <=? d' then Max b else curve b n d'
  end.

(** [Delay]; [draw d] is [time.Duration(rand.Float64() * d)]. *)
Definition Delay (b : Backoff) (draw : Z -> Z) (attempt : nat) : Z := draw (curve b attempt (Initial b)).

Definition is_draw (draw : Z -> Z) : Prop := forall d, 0 <= d -> 0 <= draw d <= d.

Lemma curve_min b n d : 1 <= Factor b -> 0 <= d <= Max b ->
  curve b n d = Z.min (Max b) (d * Factor b ^ Z.of_nat n).
Proof.
  intros HF. revert d. induction n as [|n IH]; intros d Hd; cbn [curve].
  - rewrite Z.mul_1_r. lia.
  - pose proof (Z.pow_pos_nonneg (Factor b) (Z.of_nat n) ltac:(lia) ltac:(lia)) as Hp.
    rewrite Nat2Z.inj_succ, Z.pow_succ_r, Z.mul_assoc by lia.
    destruct (Z.leb_spec (Max b) (d * Factor b)).
    + rewrite Z.min_l; [done|]. nia.
    + apply IH. nia.
Qed.

(** The delay curve: within the cap and a factor of at least one, the delay
    before attempt [n] is at most [min(Max, Initial * Factor^n)], so it never
    exceeds the cap, and the bound never shrinks from one attempt to the next. *)
Theorem Delay_bounded b draw n :
  is_draw draw -> 1 <= Factor b -> 0 <= Initial b <= Max b ->
  0 <= Delay b draw n <= Z.min (Max b) (Initial b * Factor b ^ Z.of_nat n) /\
  curve b n (Initial b) <= curve b (S n) (Initial b) <= Max b.
Proof.
  intros Hd HF Hi. unfold Delay. rewrite !curve_min by done.
  pose proof (Z.pow_pos_nonneg (Factor b) (Z.of_nat n) ltac:(lia) ltac:(lia)).
  assert (0 <= Initial b * Factor b ^ Z.of_nat n) by nia.
  split; [apply Hd; lia|]. rewrite Nat2Z.inj_succ, Z.pow_succ_r by lia. nia.
Qed.

Lemma Delay_bounded_witness :
  0 <= Delay New (fun d => d / 2) 3 <= Z.min (Max New) (Initial New * Factor New ^ Z.of_nat 3) /\
  curve New 3 (Initial New) <= curve New 4 (Initial New) <= Max New.
Proof.
  apply Delay_bounded; [|vm_compute; done..].
  intros d Hd. split; [apply Z.div_pos; lia | apply Z.div_le_upper_bound; lia].
Defined.
End retry.

Module supervise.
Import launch manifest.

(** ** Settings and their defaults *)

Record Supervisor := mkSup {
  sup_launcher : launcher;
  Backoff_ : retry.Backoff; StartLimitBurst : Z; StartLimitWindow : Z; HealthInterval : Z;
  HealthStrikes : Z; LaunchTimeout : Z; StableAfter : Z; WatchdogInterval : Z }.

Definition or_default (v d : Z) : Z := if 0 <? v then v else d.
Definition launchTimeout (s : Supervisor) : Z := or_default (LaunchTimeout s) (10 * retry.second).
Definition startLimitBurst (s : Supervisor) : Z := or_default (StartLimitBurst s) 5.
Definition startLimitWindow (s : Supervisor) : Z := or_default (StartLimitWindow s) (600 * retry.second).
Definition healthInterval (s : Supervisor) : Z := or_default (HealthInterval s) (30 * retry.second).
Definition healthStrikes (s : Supervisor) : Z := or_default (HealthStrikes s) 3.
Definition stableAfter (s : Supervisor) : Z := or_default (StableAfter s) (60 * retry.second).
Definition backoff (s : Supervisor) : retry.Backoff :=
  match Backoff_ s with
  | retry.mkBackoff 0 0 0 => retry.New
  | b => b
  end.
Definition watchdogInterval (s : Supervisor) : Z := WatchdogInterval s.

(** ** Runner state *)

Inductive State :=
| StatePending | StateStarting | StateRunning | StateBackoff | StateStartLimited
| StateUnsupportedProtocol | StateRequirementsUnmet | StateStopped.
#[export] Instance State_eq_dec : EqDecision State.
Proof. solve_decision. Defined.

Inductive health_status := HEALTHY | DEGRADED | UNHEALTHY | UNSPECIFIED.
#[export] Instance health_eq_dec : EqDecision health_status.
Proof. solve_decision. Defined.

Record runner := mkRunner {
  spec : Spec; state : State; detail : string; since : Z; pid : Z; restarts : Z;
  health : option health_status; protocol : Z; surfaces : list string; keepalive : Z }.

Definition u32 (n : Z) : Z := n mod 2 ^ 32.

Definition setState (now : Z) (st : State) (d : string) (r : runner) : runner :=
  mkRunner (spec r) st d now (pid r) (restarts r) (health r) (protocol r) (surfaces r) (keepalive r).
Definition set_health (h : health_status) (r : runner) : runner :=
  mkRunner (spec r) (state r) (detail r) (since r) (pid r) (restarts r) (Some h) (protocol r) (surfaces r) (keepalive r).
Definition set_keepalive (now : Z) (r : runner) : runner :=
  mkRunner (spec r) (state r) (detail r) (since r) (pid r) (restarts r) (health r) (protocol r) (surfaces r) now.
Definition set_proc (p : proc) (r : runner) : runner :=
  mkRunner (spec r) (state r) (detail r) (since r) (p_pid p) (restarts r) (health r)
    (handshake.l_Protocol (p_line p)) (Surfaces (p_init p)) (keepalive r).
Definition count_restart (r : runner) : runner :=
  mkRunner (spec r) (state r) (detail r) (since r) (pid r) (u32 (restarts r + 1)) (health r) (protocol r) (surfaces r) (keepalive r).

(** ** Monitoring *)

(** [pollHealth] on the answer of one Health call ([None]: it failed). *)
Definition pollHealth (s : Supervisor) (answer : option health_status) (r : runner) (strikes : Z) :
  bool * runner * Z :=
  let '(r', k) :=
    match answer with
    | None => (r, strikes + 1)
    | Some h => (set_health h r, match h with UNHEALTHY => strikes + 1 | _ => 0 end)
    end in
  (healthStrikes s <=? k, r', k).

(** What the monitor's [select] receives, in order. *)
Inductive event :=
| CtxDone (in_time : bool)
| Exited
| HealthTick (answer : option health_status)
| WatchdogTick (now : Z)
| Ping (now : Z).                       (* a [Keepalive] from the module *)

(** How the monitor ended; [Watching] when the events run out first. *)
Inductive verdict := Clean | Crashed | Watching.

Fixpoint watch (s : Supervisor) (evs : list event) (r : runner) (strikes : Z) : verdict * runner * list effect :=
  match evs with
  | [] => (Watching, r, [])
  | CtxDone in_time :: _ => (Clean, r, stop in_time)
  | Exited :: _ => (Crashed, r, Reaped :: teardown)
  | HealthTick a :: evs' =>
      let '(restart, r', k) := pollHealth s a r strikes in
      if restart then (Crashed, r', kill) else watch s evs' r' k
  | WatchdogTick now :: evs' =>
      if (0 <? watchdogInterval s) && (2 * watchdogInterval s <? now - keepalive r)
      then (Crashed, r, kill) else watch s evs' r strikes
  | Ping now :: evs' => watch s evs' (set_keepalive now r) strikes
  end.

(** [monitor]: the clock is seeded, health is polled at once, then the events. *)
Definition monitor (s : Supervisor) (started : Z) (first : option health_status) (evs : list event) (r : runner) :
  verdict * runner * list effect :=
  let r := if 0 <? watchdogInterval s then set_keepalive started r else r in
  let '(restart, r', k) := pollHealth s first r 0 in
  if restart then (Crashed, r', kill) else watch s evs r' k.

(** ** The run loop *)

Record round := mkRound {
  rd_cancelled : bool;              (* ctx.Err() at the top of the loop *)
  rd_launch : launch_env;
  rd_launch_cancelled : bool;       (* ctx.Err() after a failed launch *)
  rd_first : option health_status;  (* the poll at the start of monitor *)
  rd_events : list event;
  rd_start : Z;                     (* the clock when the module is up *)
  rd_uptime : Z;                    (* time.Since(startedAt) after monitor *)
  rd_now : Z;                       (* the clock at the crash accounting *)
  rd_draw : Z -> Z;
  rd_show : Z -> string;            (* Duration.Round(time.Millisecond).String() *)
  rd_wait_cancelled : bool }.

Inductive step :=
| Done                                    (* [run] returned *)
| Again (crashes : list Z) (attempt : nat)
| Up.                                     (* still being monitored *)

(** Crash accounting and the breaker. *)
Definition account (s : Supervisor) (rd : round) (crashes : list Z) (attempt : nat) (r : runner) : step * runner :=
  let now := rd_now rd in
  let crashes := filter (fun t => now - t <= startLimitWindow s) (crashes ++ [now]) in
  let r := count_restart r in
  if startLimitBurst s <=? Z.of_nat (length crashes)
  then (Done, setState now StateStartLimited "start limit reached: restarts exhausted" r)
  else
    let delay := retry.Delay (backoff s) (rd_draw rd) attempt in
    let r := setState now StateBackoff ("restarting after " +++ rd_show rd delay) r in
    if rd_wait_cancelled rd then (Done, setState now StateStopped "core shutting down" r)
    else (Again crashes (S attempt), r).

(** One iteration of [run]. *)
Definition one_round (s : Supervisor) (rd : round) (crashes : list Z) (attempt : nat) (r : runner) :
  step * runner * list effect :=
  if rd_cancelled rd then (Done, setState (rd_now rd) StateStopped "core shutting down" r, [])
  else
    let r := setState (rd_now rd) StateStarting "" r in
    let '(res, t) := launch (sup_launcher s) (spec r) (rd_launch rd) in
    match res with
    | Err ErrProtocolUnsupported => (Done, setState (rd_now rd) StateUnsupportedProtocol "" r, t)
    | Err _ =>
        if rd_launch_cancelled rd then (Done, setState (rd_now rd) StateStopped "core shutting down" r, t)
        else let (o, r') := account s rd crashes attempt r in (o, r', t)
    | Ok p =>
        let r := setState (rd_start rd) StateRunning "" (set_proc p r) in
        let '(v, r, t') := monitor s (rd_start rd) (rd_first rd) (rd_events rd) r in
        match v with
        | Watching => (Up, r, t ++ t')
        | Clean => (Done, setState (rd_now rd) StateStopped "" r, t ++ t')
        | Crashed =>
            let (crashes, attempt) := if stableAfter s <=? rd_uptime rd then ([], O) else (crashes, attempt) in
            let (o, r') := account s rd crashes attempt r in (o, r', t ++ t')
        end
    end.

Fixpoint run_from (s : Supervisor) (rds : list round) (crashes : list Z) (attempt : nat) (r : runner) :
  step * runner * list effect :=
  match rds with
  | [] => (Again crashes attempt, r, [])
  | rd :: rds' =>
      let '(o, r', t) := one_round s rd crashes attempt r in
      match o with
      | Again c a => let '(o2, r2, t2) := run_from s rds' c a r' in (o2, r2, t ++ t2)
      | _ => (o, r', t)
      end
  end.

Definition run (s : Supervisor) (rds : list round) (r : runner) : step * runner * list effect :=
  run_from s rds [] O r.

(** ** The registry *)

Record registry := mkRegistry { baseCtx : bool; runners : gmap string runner }.
Definition SetBaseContext (g : registry) : registry := mkRegistry true (runners g).

Inductive add_error := ErrNoBaseContext | ErrRegistered (id : string).

(** [capability.Set.Has] *)
Definition Has (caps : gmap string (gmap string string)) (names : list string) : list string :=
  filter (fun n => caps !! n = None) names.

Definition new_runner (now : Z) (sp : Spec) : runner := mkRunner sp StatePending "" now 0 0 None 0 [] 0.

(** [Add]; the flag says whether a supervision loop was started. *)
Definition Add (s : Supervisor) (now : Z) (sp : Spec) (g : registry) : result add_error bool * registry :=
  let id := m_ID (s_Manifest sp) in
  if negb (baseCtx g) then (Err ErrNoBaseContext, g)
  else match runners g !! id with
  | Some _ => (Err (ErrRegistered id), g)
  | None =>
      let missing := Has (la_Caps (sup_launcher s)) (m_Capabilities (s_Manifest sp)) in
      let r := new_runner now sp in
      if negb (bool_decide (missing = []))
      then (Ok false, mkRegistry true (<[id := setState now StateRequirementsUnmet
                                          ("missing capabilities: " +++ join ", " missing) r]> (runners g)))
      else (Ok true, mkRegistry true (<[id := r]> (runners g)))
  end.

(** [StopModule], once the runner has wound down. *)
Definition StopModule (id : string) (g : registry) : registry := mkRegistry (baseCtx g) (delete id (runners g)).
Definition Replace (s : Supervisor) (now : Z) (sp : Spec) (g : registry) : result add_error bool * registry :=
  Add s now sp (StopModule (m_ID (s_Manifest sp)) g).
Definition Keepalive (now : Z) (module : string) (g : registry) : registry :=
  match runners g !! module with
  | Some r => mkRegistry (baseCtx g) (<[module := set_keepalive now r]> (runners g))
  | None => g
  end.

(** [Status] *)
Record Status := mkStatus {
  st_ID : string; st_Version : string; st_Protocol : Z; st_State : State; st_Detail : string; st_PID : Z;
  st_Restarts : Z; st_Health : option health_status; st_Since : Z; st_Surfaces : list string }.
Definition status (r : runner) : Status :=
  mkStatus (m_ID (s_Manifest (spec r))) (m_Version (s_Manifest (spec r))) (protocol r) (state r) (detail r) (pid r)
    (restarts r) (health r) (since r) (surfaces r).
Definition Statuses (g : registry) : list Status := (fun kr => status kr.2) <$> map_to_list (runners g).

(** ** Lemmas: one round *)

Lemma alive_app t t' v : fold_left after t none_live = v -> alive (t ++ t') = fold_left after t' v.
Proof. intros <-. unfold alive. by rewrite fold_left_app. Qed.

Lemma pollHealth_spec s a r k b r' k' : pollHealth s a r k = (b, r', k') ->
  spec r' = spec r /\ restarts r' = restarts r /\ keepalive r' = keepalive r.
Proof. unfold pollHealth. destruct a; intros; by simplify_eq. Qed.

(** Whatever it sees, the monitor keeps the specification and the restart count,
    and releases everything unless it is still watching. *)
Lemma watch_spec s evs r k v r' t : watch s evs r k = (v, r', t) ->
  spec r' = spec r /\ restarts r' = restarts r /\
  fold_left after t (mkLive true true true) = match v with Watching => mkLive true true true | _ => none_live end /\
  List.filter is_verify t = [].
Proof.
  revert r k. induction evs as [|e evs IH]; intros r k H; simpl in H; [by simplify_eq|].
  destruct e as [in_time| |a|now|now].
  - simplify_eq. by destruct in_time.
  - by simplify_eq.
  - destruct (pollHealth s a r k) as [[b r1] k1] eqn:E. apply pollHealth_spec in E as (<- & <- & _).
    destruct b; [by simplify_eq | by eapply IH].
  - destruct (_ && _); [by simplify_eq | by eapply IH].
  - apply IH in H. done.
Qed.

Lemma monitor_spec s st a evs r v r' t : monitor s st a evs r = (v, r', t) ->
  spec r' = spec r /\ restarts r' = restarts r /\
  fold_left after t (mkLive true true true) = match v with Watching => mkLive true true true | _ => none_live end /\
  List.filter is_verify t = [].
Proof.
  unfold monitor. destruct (pollHealth _ _ _ _) as [[b r1] k1] eqn:E.
  apply pollHealth_spec in E as (E1 & E2 & _). intros H.
  assert (spec r1 = spec r /\ restarts r1 = restarts r) as [<- <-]
    by (rewrite E1, E2; by destruct (0 <? watchdogInterval s)).
  destruct b; [by simplify_eq | by eapply watch_spec].
Qed.

Lemma account_spec s rd c a r o r' : account s rd c a r = (o, r') ->
  spec r' = spec r /\ restarts r' = u32 (restarts r + 1) /\ o <> Up.
Proof.
  unfold account. intros H.
  destruct (_ <=? _); [by simplify_eq|]. destruct (rd_wait_cancelled rd); by simplify_eq.
Qed.

Lemma one_round_alive s rd c a r o r' t : one_round s rd c a r = (o, r', t) ->
  spec r' = spec r /\ alive t = match o with Up => mkLive true true true | _ => none_live end.
Proof.
  unfold one_round. destruct (rd_cancelled rd); [intros; by simplify_eq|].
  destruct (launch _ _ _) as [res t1] eqn:El. apply launch_alive in El. intros H.
  destruct res as [p|e].
  - destruct (monitor _ _ _ _ _) as [[v r1] t'] eqn:Em. apply monitor_spec in Em as (E1 & E2 & E3 & _).
    simpl in E1. destruct v; simplify_eq; try (split; [done|]; by rewrite (alive_app _ _ _ El)).
    destruct (if _ <=? _ then _ else _) as [c1 a1].
    destruct (account _ _ _ _ _) as [o1 r2] eqn:Ea. apply account_spec in Ea as (E4 & _ & E5). simplify_eq.
    split; [congruence|]. rewrite (alive_app _ _ _ El). by destruct o.
  - destruct e; try (destruct (rd_launch_cancelled rd); [by simplify_eq|];
      destruct (account _ _ _ _ _) as [o1 r2] eqn:Ea; apply account_spec in Ea as (E4 & _ & E5); simplify_eq;
      split; [by rewrite E4 | by destruct o]). by simplify_eq.
Qed.

Lemma run_from_alive s rds : forall c a r o r' t, run_from s rds c a r = (o, r', t) ->
  alive t = match o with Up => mkLive true true true | _ => none_live end.
Proof.
  induction rds as [|rd rds IH]; intros c a r o r' t H; simpl in H; [by simplify_eq|].
  destruct (one_round s rd c a r) as [[o1 r1] t1] eqn:E. apply one_round_alive in E as [_ E].
  destruct o1 as [|c1 a1|]; [by simplify_eq| |by simplify_eq].
  destruct (run_from s rds c1 a1 r1) as [[o2 r2] t2] eqn:E2. simplify_eq. apply IH in E2.
  by rewrite (alive_app _ _ _ E).
Qed.

(** C7. No leaks: however a supervised module's launches, crashes, health, pings
    and shutdown unfold, a runner that has ended or is backing off has left no
    host server, process or connection behind, and a runner whose module is up
    holds exactly one of each. *)
Theorem run_no_leak s rds r o r' t :
  run s rds r = (o, r', t) ->
  alive t = match o with Up => mkLive true true true | _ => none_live end.
Proof. apply run_from_alive. Qed.

(** ** Winding down *)

(** The round as it goes when the context ends during it: the monitor sees the end
    after its events, and every later look at the context finds it done. *)
Definition cancel (in_time : bool) (rd : round) : round :=
  mkRound (rd_cancelled rd) (rd_launch rd) true (rd_first rd) (rd_events rd ++ [CtxDone in_time]) (rd_start rd)
    (rd_uptime rd) (rd_now rd) (rd_draw rd) (rd_show rd) true.

(** The states a runner ends in. *)
Definition ended (st : State) : Prop := st = StateStopped \/ st = StateStartLimited \/ st = StateUnsupportedProtocol.

Lemma watch_cancelled s in_time evs : forall r k, (watch s (evs ++ [CtxDone in_time]) r k).1.1 <> Watching.
Proof.
  induction evs as [|e evs IH]; intros r k; simpl; [done|].
  destruct e as [b| |a|now|now]; [done|done| |destruct (_ && _); [done|apply IH]|apply IH].
  destruct (pollHealth s a r k) as [[[] r1] k1]; [done|apply IH].
Qed.

Lemma account_done s rd c a r r' : account s rd c a r = (Done, r') -> ended (state r').
Proof.
  unfold account, ended. destruct (_ <=? _); [intros; simplify_eq; by auto|].
  destruct (rd_wait_cancelled rd); intros; simplify_eq; by auto.
Qed.

Lemma one_round_done s rd c a r r' t : one_round s rd c a r = (Done, r', t) -> ended (state r').
Proof.
  unfold one_round. destruct (rd_cancelled rd); [intros; simplify_eq; by left|].
  destruct (launch _ _ _) as [res t1]. destruct res as [p|e].
  - destruct (monitor _ _ _ _ _) as [[v r1] t']. destruct v; [intros; simplify_eq; by left| |done].
    destruct (if _ <=? _ then _ else _) as [c1 a1]. destruct (account _ _ _ _ _) as [o r2] eqn:Ea.
    intros; simplify_eq; by apply account_done in Ea.
  - assert ((if rd_launch_cancelled rd
      then (Done, setState (rd_now rd) StateStopped "core shutting down" (setState (rd_now rd) StateStarting "" r), t1)
      else let (o, r') := account s rd c a (setState (rd_now rd) StateStarting "" r) in (o, r', t1)) = (Done, r', t) ->
      ended (state r')) as Hacc.
    { destruct (rd_launch_cancelled rd); [intros; simplify_eq; by left|].
      destruct (account _ _ _ _ _) as [o r2] eqn:Ea. intros; simplify_eq; by apply account_done in Ea. }
    destruct e; try exact Hacc. intros; simplify_eq. unfold ended. simpl. auto.
Qed.

Lemma account_cancelled s rd c a r : rd_wait_cancelled rd = true -> (account s rd c a r).1 = Done.
Proof. intros H. unfold account. destruct (_ <=? _); [done|]. by rewrite H. Qed.

Lemma one_round_cancelled s rd b c a r : (one_round s (cancel b rd) c a r).1.1 = Done.
Proof.
  unfold one_round. cbn [cancel rd_cancelled rd_launch rd_launch_cancelled rd_first rd_events rd_start rd_uptime rd_now].
  destruct (rd_cancelled rd); [done|]. destruct (launch _ _ _) as [res t1]. destruct res as [p|e]; [|by destruct e].
  destruct (monitor _ _ _ _ _) as [[v r1] t'] eqn:Em.
  assert (v <> Watching) as Hv.
  { unfold monitor in Em. destruct (pollHealth _ _ _ _) as [[[] r2] k]; [by simplify_eq|].
    match type of Em with watch ?s (?evs ++ _) ?r ?k = _ => pose proof (watch_cancelled s b evs r k) as Hw end.
    by rewrite Em in Hw. }
  destruct v; [done| |done]. destruct (if _ <=? _ then _ else _) as [c1 a1].
  pose proof (account_cancelled s (cancel b rd) c1 a1 r1 eq_refl) as Ha. unfold cancel in Ha.
  destruct (account _ _ _ _ _) as [o r2]. done.
Qed.

(** Cancellation winds every runner down: from any point its launches and crashes have
    led to, the round during which the context ends is its last; the runner ends in a
    final state and has left no host server, process or connection behind. *)
Theorem cancel_winds_down s rds rd b r :
  (run s rds r).1.1 <> Up ->
  exists r' t, run s (rds ++ [cancel b rd]) r = (Done, r', t) /\ alive t = none_live /\ ended (state r').
Proof.
  unfold run. intros H.
  enough (exists r' t, run_from s (rds ++ [cancel b rd]) [] O r = (Done, r', t) /\ ended (state r')) as (r' & t & Hr & He).
  { exists r', t. split_and!; [done| |done]. by apply run_from_alive in Hr. }
  revert H. generalize (@nil Z) O. intros c a. revert c a r.
  induction rds as [|rd0 rds IH]; intros c a r H; simpl in *.
  - pose proof (one_round_cancelled s rd b c a r) as Hd.
    destruct (one_round s (cancel b rd) c a r) as [[o r'] t] eqn:E. simpl in Hd. subst.
    apply one_round_done in E. eauto.
  - destruct (one_round s rd0 c a r) as [[[|c1 a1|] r2] t2] eqn:E; [apply one_round_done in E; eauto| |done].
    destruct (IH c1 a1 r2) as (r' & t & -> & He); [|eauto].
    by destruct (run_from s rds c1 a1 r2) as [[]].
Qed.

(** ** The start limit *)

(** A round in which the module fails without having been stable: the launch
    fails, or the module dies or is killed early. *)
Definition quick (s : Supervisor) (sp : Spec) (rd : round) : Prop :=
  rd_cancelled rd = false /\ rd_wait_cancelled rd = false /\
  match (launch (sup_launcher s) sp (rd_launch rd)).1 with
  | Err ErrProtocolUnsupported => False
  | Err _ => rd_launch_cancelled rd = false
  | Ok _ => (forall r, (monitor s (rd_start rd) (rd_first rd) (rd_events rd) r).1.1 = Crashed) /\
            rd_uptime rd < stableAfter s
  end.

Lemma one_round_quick s rd c a r : quick s (spec r) rd -> exists r1 t,
  one_round s rd c a r = (let (o, r') := account s rd c a r1 in (o, r', t)) /\
  spec r1 = spec r /\ restarts r1 = restarts r /\ length (List.filter is_verify t) = 1%nat.
Proof.
  intros (H1 & _ & H3). unfold one_round. rewrite H1. cbn [setState spec] in *.
  destruct (launch _ _ _) as [res t] eqn:El. apply launch_one_verify in El. simpl in H3.
  destruct res as [p|e].
  - destruct H3 as [Hm Hup].
    destruct (monitor _ _ _ _ _) as [[v r1] t'] eqn:Em.
    assert (v = Crashed) as ->. { rewrite <-(Hm (setState (rd_start rd) StateRunning "" (set_proc p (setState (rd_now rd) StateStarting "" r)))). by rewrite Em. }
    apply monitor_spec in Em as (E1 & E2 & _ & E4). rewrite (proj2 (Z.leb_gt _ _)) by done.
    exists r1, (t ++ t'). split; [by destruct (account _ _ _ _ _)|]. split_and!; [done..|].
    by rewrite List.filter_app, E4, app_nil_r.
  - destruct e; try done; rewrite H3; (exists (setState (rd_now rd) StateStarting "" r), t; split; [by destruct (account _ _ _ _ _)|done]).
Qed.

Lemma burst_pos s : 0 < startLimitBurst s.
Proof. unfold startLimitBurst, or_default. destruct (Z.ltb_spec 0 (StartLimitBurst s)); lia. Qed.
Lemma window_pos s : 0 < startLimitWindow s.
Proof. unfold startLimitWindow, or_default, retry.second. destruct (Z.ltb_spec 0 (StartLimitWindow s)); lia. Qed.

Lemma filter_all (P : Z -> Prop) `{!forall x, Decision (P x)} l : Forall P l -> filter P l = l.
Proof. induction 1 as [|x l Hx Hl IH]; [done|]. by rewrite filter_cons_True, IH. Qed.

(** The crash list while every round fails quickly inside one window. *)
Lemma run_quick s rds c a r :
  Forall (quick s (spec r)) rds ->
  (forall rd t, rd ∈ rds -> t ∈ c ++ (rd_now <$> rds) -> rd_now rd - t <= startLimitWindow s) ->
  Z.of_nat (length c) < startLimitBurst s <= Z.of_nat (length c + length rds) ->
  exists r' t, run_from s rds c a r = (Done, r', t) /\ state r' = StateStartLimited /\
    Z.of_nat (length c + length (List.filter is_verify t)) = startLimitBurst s.
Proof.
  revert c a r. induction rds as [|rd rds IH]; intros c a r Hq Hw Hlen; [simpl in Hlen; lia|].
  apply Forall_cons_1 in Hq as [Hq1 Hq]. cbn [run_from].
  destruct (one_round_quick s rd c a r Hq1) as (r1 & t & -> & Hs & _ & Hv).
  destruct (account s rd c a r1) as [o r2] eqn:Ea. pose proof (account_spec _ _ _ _ _ _ _ Ea) as (Hs2 & _).
  unfold account in Ea. rewrite filter_all in Ea.
  2:{ apply Forall_forall. intros x Hx. apply Hw; [set_solver|]. rewrite fmap_cons. set_solver. }
  rewrite length_app in Ea. cbn [length] in Ea. destruct (Z.leb_spec (startLimitBurst s) (Z.of_nat (length c + 1))).
  - simplify_eq. eexists _, t. split; [done|]. split; [done|]. rewrite Hv. lia.
  - destruct Hq1 as (_ & Hwc & _). rewrite Hwc in Ea. simplify_eq.
    destruct (IH (c ++ [rd_now rd]) (S a) (setState (rd_now rd) StateBackoff ("restarting after " +++ rd_show rd (retry.Delay (backoff s) (rd_draw rd) a)) (count_restart r1))) as (r' & t' & Hr & Hst & Hc).
    + eapply Forall_impl; [exact Hq|]. intros x Hx. cbn. by rewrite Hs.
    + intros x y Hx Hy. apply Hw; [set_solver|]. rewrite fmap_cons. set_solver.
    + rewrite length_app. simpl in *. lia.
    + rewrite Hr. eexists r', _. split; [done|]. split; [done|]. rewrite List.filter_app, !length_app in *. simpl in *. lia.
Qed.

(** C8. The start limit trips: if every launch of a module fails, or it dies
    before it was stable, all within one window, the runner stops for good as
    start-limited after exactly as many launches as the limit allows. *)
Theorem start_limit_trips s rds r :
  Forall (quick s (spec r)) rds ->
  (forall rd rd', rd ∈ rds -> rd' ∈ rds -> rd_now rd - rd_now rd' <= startLimitWindow s) ->
  startLimitBurst s <= Z.of_nat (length rds) ->
  exists r' t, run s rds r = (Done, r', t) /\ state r' = StateStartLimited /\
    Z.of_nat (length (List.filter is_verify t)) = startLimitBurst s.
Proof.
  intros Hq Hw Hlen. pose proof (burst_pos s).
  apply (run_quick s rds [] O r Hq); [|simpl; lia].
  intros rd t Hrd (rd' & -> & Hrd')%list_elem_of_fmap. by apply Hw.
Qed.

(** ** Only crashes in the window count *)

(** Crash times on record are times of past rounds, and enough of them lie in the
    window when the limit trips. *)
Definition limit_ok (s : Supervisor) (past : list Z) (rd : round) (o : step) (r' : runner) : Prop :=
  (forall c' a', o = Again c' a' -> state r' <> StateStartLimited /\ c' `sublist_of` past ++ [rd_now rd]) /\
  (state r' = StateStartLimited -> exists ts, ts `sublist_of` past ++ [rd_now rd] /\
     startLimitBurst s <= Z.of_nat (length ts) /\ Forall (fun t => since r' - t <= startLimitWindow s) ts).

Lemma account_crashes s rd c a r past o r' : c `sublist_of` past -> account s rd c a r = (o, r') ->
  limit_ok s past rd o r'.
Proof.
  intros Hc H. set (ts := filter (fun t => rd_now rd - t <= startLimitWindow s) (c ++ [rd_now rd])).
  assert (ts `sublist_of` past ++ [rd_now rd]) as Hts.
  { etrans; [apply sublist_filter|]. by apply sublist_app. }
  unfold account in H. fold ts in H. destruct (Z.leb_spec (startLimitBurst s) (Z.of_nat (length ts))).
  - simplify_eq. split; [done|]. intros _. exists ts. split_and!; [done..|]. simpl.
    apply Forall_forall. intros t Ht. by apply list_elem_of_filter in Ht as [? _].
  - destruct (rd_wait_cancelled rd); simplify_eq; by split; intros; simplify_eq.
Qed.

Lemma watch_state s evs r k v r' t : watch s evs r k = (v, r', t) -> state r' = state r.
Proof.
  revert r k. induction evs as [|e evs IH]; intros r k H; simpl in H; [by simplify_eq|].
  destruct e as [in_time| |a|now|now]; try by simplify_eq.
  - unfold pollHealth in H. destruct a; destruct (_ <=? _); try (by simplify_eq); apply IH in H; done.
  - destruct (_ && _); [by simplify_eq | by eapply IH].
  - apply IH in H. done.
Qed.

Lemma monitor_state s st a evs r v r' t : monitor s st a evs r = (v, r', t) -> state r' = state r.
Proof.
  unfold monitor, pollHealth. intros H.
  destruct a; destruct (0 <? watchdogInterval s); destruct (_ <=? _); try (by simplify_eq); apply watch_state in H; done.
Qed.

Lemma one_round_crashes s rd c a r past o r' t : c `sublist_of` past -> one_round s rd c a r = (o, r', t) ->
  limit_ok s past rd o r'.
Proof.
  intros Hc. unfold one_round. destruct (rd_cancelled rd); [by intros; simplify_eq|].
  destruct (launch _ _ _) as [[p|e] t1]; intros H.
  - destruct (monitor _ _ _ _ _) as [[v r1] t'] eqn:Em. pose proof (monitor_state _ _ _ _ _ _ _ _ Em) as Hst.
    destruct v; [by simplify_eq| |by simplify_eq; split; [done|]; rewrite Hst].
    destruct (if stableAfter s <=? rd_uptime rd then ([], O) else (c, a)) as [c1 a1] eqn:E.
    assert (c1 `sublist_of` past) as Hc1 by (destruct (_ <=? _); simplify_eq; [apply sublist_nil_l | done]).
    destruct (account s rd c1 a1 r1) as [o1 r2] eqn:Ea. simplify_eq. by eapply account_crashes.
  - assert (forall x y, account s rd c a (setState (rd_now rd) StateStarting "" r) = (x, y) -> (x, y, t1) = (o, r', t) ->
      limit_ok s past rd o r') as Hacc by (intros x y Ea ?; simplify_eq; by eapply account_crashes).
    destruct e; try by simplify_eq.
    all: destruct (rd_launch_cancelled rd); [by simplify_eq|]; destruct (account _ _ _ _ _) as [x y] eqn:Ea; by apply (Hacc x y).
Qed.

(** The start limit is not tripped without cause: a runner that ends
    start-limited had at least the limit's number of failed rounds, the last of
    them now and all of them within the window before it. *)
Theorem start_limit_sound s rds r o r' t :
  run s rds r = (o, r', t) -> state r <> StateStartLimited -> state r' = StateStartLimited ->
  exists ts, ts `sublist_of` (rd_now <$> rds) /\ startLimitBurst s <= Z.of_nat (length ts) /\
    Forall (fun x => since r' - x <= startLimitWindow s) ts.
Proof.
  intros H Hr Hl.
  assert (forall past c a r t, c `sublist_of` past -> state r <> StateStartLimited -> run_from s rds c a r = (o, r', t) ->
    exists ts, ts `sublist_of` past ++ (rd_now <$> rds) /\ startLimitBurst s <= Z.of_nat (length ts) /\
      Forall (fun x => since r' - x <= startLimitWindow s) ts) as Hgen; [|by eapply (Hgen [] [])].
  clear H Hr. induction rds as [|rd rds IH]; intros past c a r0 t0 Hc Hr0 H; simpl in H; [by simplify_eq|].
  destruct (one_round s rd c a r0) as [[o1 r1] t1] eqn:E.
  pose proof (one_round_crashes _ _ _ _ _ past _ _ _ Hc E) as [Ha Hs]. rewrite fmap_cons.
  assert (state r1 = StateStartLimited -> r1 = r' -> exists ts, ts `sublist_of` past ++ rd_now rd :: (rd_now <$> rds) /\
    startLimitBurst s <= Z.of_nat (length ts) /\ Forall (fun x => since r' - x <= startLimitWindow s) ts) as Hhere.
  { intros Hst ->. destruct (Hs Hst) as (ts & Hsub & ? & ?). exists ts. split_and!; [|done..].
    etrans; [exact Hsub|]. apply sublist_app; [done|]. apply sublist_skip, sublist_nil_l. }
  destruct o1 as [|c1 a1|]; [by simplify_eq; apply Hhere| |by simplify_eq; apply Hhere].
  destruct (run_from s rds c1 a1 r1) as [[o2 r2] t2] eqn:E2. simplify_eq.
  destruct (Ha _ _ eq_refl) as [Hst Hc1].
  destruct (IH (past ++ [rd_now rd]) c1 a1 r1 t2) as (ts & Hsub & ? & ?); [done..|].
  exists ts. split_and!; [|done..]. by rewrite <-app_assoc in Hsub.
Qed.

(** ** Health strikes *)

Definition bad (a : option health_status) : Prop := a = None \/ a = Some UNHEALTHY.

(** [n] consecutive bad answers somewhere in [l]. *)
Definition bad_streak (n : Z) (l : list (option health_status)) : Prop :=
  exists pre streak post, l = pre ++ streak ++ post /\ Forall bad streak /\ Z.of_nat (length streak) = n.
(** Bad answers from the start of [l], enough to complete [k] up to [n]. *)
Definition bad_start (n k : Z) (l : list (option health_status)) : Prop :=
  exists streak post, l = streak ++ post /\ Forall bad streak /\ k + Z.of_nat (length streak) = n.

Lemma strikes_pos s : 0 < healthStrikes s.
Proof. unfold healthStrikes, or_default. destruct (Z.ltb_spec 0 (HealthStrikes s)); lia. Qed.

Lemma pollHealth_strikes s a r k : let '(b, _, k') := pollHealth s a r k in
  b = (healthStrikes s <=? k') /\ (bad a /\ k' = k + 1 \/ ~ bad a /\ k' = 0).
Proof. unfold pollHealth, bad. destruct a as [[]|]; (split; [done|]); naive_solver. Qed.

Lemma streak_cons n a l : 0 < n -> bad_streak n (a :: l) <-> (bad a /\ bad_start n 1 l) \/ bad_streak n l.
Proof.
  intros Hn. split.
  - intros ([|x pre] & streak & post & E & Hb & Hl); simpl in E.
    + destruct streak as [|y streak]; [simpl in Hl; lia|]. simpl in E. simplify_eq. apply Forall_cons_1 in Hb as [Hy Hb]. left.
      split; [done|]. exists streak, post. split_and!; [done..|simpl in *; lia].
    + right. simplify_eq. by exists pre, streak, post.
  - intros [[Ha (streak & post & -> & Hb & Hl)]|(pre & streak & post & -> & Hb & Hl)].
    + exists [], (a :: streak), post. split_and!; [done|by constructor|simpl; lia].
    + by exists (a :: pre), streak, post.
Qed.

Lemma start_cons n k a l : k < n -> bad_start n k (a :: l) <-> bad a /\ bad_start n (k + 1) l.
Proof.
  intros Hk. split.
  - intros ([|y streak] & post & E & Hb & Hl); simpl in *; [lia|]. simplify_eq. apply Forall_cons_1 in Hb as [Hy Hb].
    split; [done|]. exists streak, post. split_and!; [done..|simpl in *; lia].
  - intros [Ha (streak & post & -> & Hb & Hl)]. exists (a :: streak), post. split_and!; [done|by constructor|simpl; lia].
Qed.

Lemma start_zero n l : 0 < n -> bad_start n 0 l -> bad_streak n l.
Proof. intros Hn (streak & post & -> & Hb & Hl). exists [], streak, post. by rewrite Z.add_0_l in Hl. Qed.

Lemma start_reached n l : bad_start n n l.
Proof. exists [], l. split_and!; [done|constructor|simpl; lia]. Qed.

Lemma watch_polls s l r k : 0 <= k < healthStrikes s ->
  (watch s (HealthTick <$> l) r k).1.1 = Crashed <-> bad_start (healthStrikes s) k l \/ bad_streak (healthStrikes s) l.
Proof.
  pose proof (strikes_pos s) as Hp. revert r k. induction l as [|a l IH]; intros r k Hk.
  - split; [done|]. intros [(st & po & E & _ & Hl)|(pr & st & po & E & _ & Hl)]; exfalso.
    + symmetry in E. apply app_eq_nil in E as [-> _]. simpl in Hl. lia.
    + symmetry in E. apply app_eq_nil in E as [_ E]. apply app_eq_nil in E as [-> _]. simpl in Hl. lia.
  - cbn [fmap list_fmap watch]. pose proof (pollHealth_strikes s a r k) as Hs.
    destruct (pollHealth s a r k) as [[b r'] k']. destruct Hs as [-> Hk'].
    rewrite streak_cons, start_cons by lia.
    destruct Hk' as [[Ha ->]|[Ha ->]].
    + destruct (Z.leb_spec (healthStrikes s) (k + 1)) as [Hge|Hlt]; simpl.
      * split; [|done]. intros _. left. split; [done|].
        replace (k + 1) with (healthStrikes s) by lia. apply start_reached.
      * rewrite (IH r' (k + 1)) by lia. split.
        -- intros [?|?]; [by left | by right; right].
        -- intros [[_ ?]|[[_ Hst]|?]]; [by left| |by right].
           destruct (decide (k = 0)) as [->|]; [by left|].
           destruct Hst as (st & po & -> & Hb & Hl). left.
           exists (take (Z.to_nat (healthStrikes s - (k + 1))) st), (drop (Z.to_nat (healthStrikes s - (k + 1))) st ++ po).
           split_and!; [by rewrite app_assoc, take_drop | by apply Forall_take | rewrite length_take; lia].
    + rewrite (proj2 (Z.leb_gt (healthStrikes s) 0)) by lia. simpl.
      rewrite (IH r' 0) by lia. split.
      * intros [?|?]; [by right; right; apply start_zero | by right; right].
      * intros [[? _]|[[? _]|?]]; [done|done|by right].
Qed.

(** Health strikes: with nothing but health polls happening, the monitor
    kills the module exactly when the configured number of consecutive polls
    failed or answered unhealthy, counting the poll made at launch; any better
    answer in between starts the count afresh. *)
Theorem health_strikes_exact s started first l r :
  (monitor s started first (HealthTick <$> l) r).1.1 = Crashed <->
  bad_streak (healthStrikes s) (first :: l).
Proof.
  unfold monitor. set (r0 := if 0 <? watchdogInterval s then set_keepalive started r else r).
  pose proof (strikes_pos s) as Hp. pose proof (watch_polls s (first :: l) r0 0 ltac:(lia)) as H.
  cbn [fmap list_fmap watch] in H. destruct (pollHealth s first r0 0) as [[b r1] k].
  destruct b; rewrite H; split; auto; intros [?|?]; auto using start_zero.
Qed.

(** ** The watchdog *)

(** The last ping before the end of [evs], or the launch. *)
Definition last_ping (started : Z) (evs : list event) : Z :=
  fold_left (fun k e => match e with Ping now => now | _ => k end) evs started.

Definition only_pings (evs : list event) : Prop :=
  Forall (fun e => match e with Ping _ | WatchdogTick _ => True | _ => False end) evs.

(** The watchdog: a module is killed by it exactly when some tick comes more
    than two intervals after the last ping, the launch counting as one; a module
    that pings often enough is never killed by it, one that hangs always is. *)
Theorem watchdog_exact s evs r k :
  0 < watchdogInterval s -> only_pings evs ->
  (watch s evs r k).1.1 = Crashed <->
  exists pre now post, evs = pre ++ WatchdogTick now :: post /\
    2 * watchdogInterval s < now - last_ping (keepalive r) pre.
Proof.
  intros Hw. revert r. induction evs as [|e evs IH]; intros r Ho.
  { split; [done|]. by intros ([|] & now & post & E & _). }
  apply Forall_cons_1 in Ho as [He Ho]. destruct e as [| |a|now|now]; try done; cbn [watch].
  - rewrite (proj2 (Z.ltb_lt 0 _)) by done. cbn [andb].
    destruct (Z.ltb_spec (2 * watchdogInterval s) (now - keepalive r)) as [Hlate|Hok].
    + split; [|done]. intros _. by exists [], now, evs.
    + rewrite IH by done. split.
      * intros (pre & n & post & -> & H). by exists (WatchdogTick now :: pre), n, post.
      * intros ([|x pre] & n & post & E & H); simpl in E; simplify_eq; [unfold last_ping in H; simpl in H; lia|]. by exists pre, n, post.
  - rewrite IH by done. split.
    + intros (pre & n & post & -> & H). by exists (Ping now :: pre), n, post.
    + intros ([|x pre] & n & post & E & H); simpl in E; simplify_eq. by exists pre, n, post.
Qed.

(** ** Admission *)

Lemma Has_nil caps names : Has caps names = [] <-> Forall (fun n => is_Some (caps !! n)) names.
Proof.
  unfold Has. split.
  - intros H%filter_nil_Forall. eapply Forall_impl; [exact H|]. intros n Hn. simpl in Hn.
    by destruct (caps !! n); [eexists|].
  - induction 1 as [|n names [x Hx] _ IH]; [done|]. rewrite filter_cons_False; [done|]. by rewrite Hx.
Qed.

(** Admission to the registry: with the base context set, a hot swap always
    registers the new specification under its id and touches no other module;
    its supervision loop starts exactly when the host has every capability the
    manifest names, and otherwise the module is listed as unmet and never runs. *)
Theorem replace_admits s now sp g :
  baseCtx g = true ->
  let id := m_ID (s_Manifest sp) in
  exists started r,
    Replace s now sp g = (Ok started, mkRegistry true (<[id := r]> (runners g))) /\ spec r = sp /\
    (started = true <-> Forall (fun n => is_Some (la_Caps (sup_launcher s) !! n)) (m_Capabilities (s_Manifest sp))) /\
    state r = if started then StatePending else StateRequirementsUnmet.
Proof.
  intros Hb id. unfold Replace, Add, StopModule. simpl. rewrite Hb. simpl. rewrite lookup_delete_eq.
  case_bool_decide as E; simpl; rewrite ?insert_delete_eq; eexists _, _; (split; [reflexivity|]);
    rewrite <-Has_nil; naive_solver.
Qed.

(** ** A concrete supervisor: a module that never starts, two tries allowed *)

Definition demo_sup : Supervisor := mkSup demo_launcher retry.zero 2 0 0 0 0 0 10.
Definition failing (now : Z) : round :=
  mkRound false (demo_env false) false None [] now 0 now (fun d => d / 2) (fun _ => "1s") false.
Definition demo_rounds : list round := [failing 1; failing 2; failing 3].
Definition demo_runner : runner := new_runner 0 demo_spec.
Definition demo_run : step * runner * list effect := run demo_sup demo_rounds demo_runner.

Lemma run_no_leak_witness : alive demo_run.2 = none_live.
Proof. apply (run_no_leak demo_sup demo_rounds demo_runner Done demo_run.1.2). vm_compute. reflexivity. Defined.

Lemma cancel_winds_down_witness :
  exists r' t, run demo_sup ([failing 1] ++ [cancel false (failing 2)]) demo_runner = (Done, r', t) /\
    alive t = none_live /\ ended (state r').
Proof. apply (cancel_winds_down demo_sup [failing 1] (failing 2) false demo_runner). vm_compute. discriminate. Defined.

Lemma demo_quick : Forall (quick demo_sup (spec demo_runner)) demo_rounds.
Proof. solve_Forall; (split; [reflexivity|split; [reflexivity|vm_compute; reflexivity]]). Qed.

Lemma start_limit_trips_witness :
  exists r' t, run demo_sup demo_rounds demo_runner = (Done, r', t) /\ state r' = StateStartLimited /\
    Z.of_nat (length (List.filter is_verify t)) = startLimitBurst demo_sup.
Proof.
  apply start_limit_trips.
  - apply demo_quick.
  - assert (Forall (fun rd => 1 <= rd_now rd <= 3) demo_rounds) as H by (solve_Forall; simpl; lia).
    rewrite Forall_forall in H. intros rd rd' H1%H H2%H.
    pose proof (window_pos demo_sup). assert (startLimitWindow demo_sup = 600 * retry.second) as -> by reflexivity.
    unfold retry.second. lia.
  - discriminate.
Defined.

Lemma start_limit_sound_witness :
  exists ts, ts `sublist_of` (rd_now <$> demo_rounds) /\ startLimitBurst demo_sup <= Z.of_nat (length ts) /\
    Forall (fun x => since demo_run.1.2 - x <= startLimitWindow demo_sup) ts.
Proof.
  apply (start_limit_sound demo_sup demo_rounds demo_runner Done demo_run.1.2 demo_run.2);
    [vm_compute; reflexivity | discriminate | vm_compute; reflexivity].
Defined.

Lemma watchdog_exact_witness :
  (watch demo_sup [WatchdogTick 10; Ping 15; WatchdogTick 40] demo_runner 0).1.1 = Crashed <->
  exists pre now post, [WatchdogTick 10; Ping 15; WatchdogTick 40] = pre ++ WatchdogTick now :: post /\
    2 * watchdogInterval demo_sup < now - last_ping (keepalive demo_runner) pre.
Proof. apply watchdog_exact; [reflexivity|]. repeat constructor. Defined.

Lemma replace_admits_witness :
  exists started r,
    Replace demo_sup 5 demo_spec (mkRegistry true ∅) = (Ok started, mkRegistry true (<["sysinfo" := r]> ∅)) /\ spec r = demo_spec /\
    (started = true <-> Forall (fun n => is_Some (la_Caps demo_launcher !! n)) ["platform.osinfo"]) /\
    state r = if started then StatePending else StateRequirementsUnmet.
Proof. apply (replace_admits demo_sup 5 demo_spec (mkRegistry true ∅)). reflexivity. Defined.
End supervise.
