(* ===== verification/Shutdown.v ===== *)
(** * How long a stop takes

    A service stop runs down a chain: the service manager signals weaveboot, weaveboot
    signals core and gives it some time ([runOnce] in internal/weaveboot/weaveboot.go),
    core stops its modules side by side ([proc.stop] in internal/supervise/launch.go),
    and a module's server answers while the module's own code stops
    (sdk/modulesdk/lifecycle.go).  Each link has its own limits; durations are in
    nanoseconds. *)

From stdpp Require Import base list.
From Stdlib Require Import ZArith Lia.
From S2P Require Import Prelude.
From S2P Require Import Supervisor.
Open Scope Z_scope.

Module stopping.
Notation second := retry.second.

(** ** A module *)

(** What a module does when it is stopped: when the Stop and the Shutdown call are
    answered, when the process exits after that, each counted from its own start and
    [None] for never; and how long a killed process takes to be reaped. *)
Record answers := mkAnswers { a_stop : option Z; a_shutdown : option Z; a_exit : option Z; a_reap : Z }.

(** A call under [context.WithTimeout]. *)
Definition bounded (limit : Z) (t : option Z) : Z := match t with Some d => Z.min d limit | None => limit end.

Definition stopTimeout : Z := 15 * second.
Definition shutdownTimeout : Z := 5 * second.
Definition exitTimeout : Z := 5 * second.
Definition stopDeadline : Z := 10 * second.     (* [DeadlineSeconds] of the request *)

(** [proc.stop]: how long it takes and whether the process had to be killed. *)
Definition proc_stop (a : answers) : Z * bool :=
  let t := bounded stopTimeout (a_stop a) + bounded shutdownTimeout (a_shutdown a) in
  match a_exit a with
  | Some d => if d <=? exitTimeout then (t + d, false) else (t + exitTimeout + a_reap a, true)
  | None => (t + exitTimeout + a_reap a, true)
  end.

(** A module built with the SDK: its [Stop] takes [stop], if it ends at all; the
    server's lock is held meanwhile, so a Shutdown call waits for it; the process exits
    [exit] after that. *)
Definition sdk_answers (stop : option Z) (exit reap : Z) : answers :=
  match stop with
  | Some d => mkAnswers (Some d) (Some (Z.max 0 (d - stopTimeout)))
                (Some (exit + Z.max 0 (d - stopTimeout - shutdownTimeout))) reap
  | None => mkAnswers None None None reap
  end.

(** ** Core and weaveboot *)

(** Every supervision loop stops its own module; [closing] is what core does after it
    has waited for them all. *)
Definition core_needs (ms : list answers) (closing : Z) : Z := foldr (fun a t => Z.max (proc_stop a).1 t) 0 ms + closing.

(** [terminateSignal] and the end of [runOnce] after the context is done. *)
Inductive signal := SIGTERM | SIGKILL.
Definition terminateSignal (windows : bool) : signal := if windows then SIGKILL else SIGTERM.
Definition WaitDelay : Z := 15 * second.
Inductive ended := Drained (at_ : Z) | Killed (at_ : Z).
Definition runOnce_end (windows : bool) (needs : Z) : ended :=
  match terminateSignal windows with
  | SIGKILL => Killed 0
  | SIGTERM => if needs <? WaitDelay then Drained needs else Killed WaitDelay
  end.

(** ** Properties *)

Definition valid (a : answers) : Prop :=
  (forall d, a_stop a = Some d -> 0 <= d) /\ (forall d, a_shutdown a = Some d -> 0 <= d) /\
  (forall d, a_exit a = Some d -> 0 <= d) /\ 0 <= a_reap a.

Lemma second_pos : 0 < second.
Proof. reflexivity. Qed.

Lemma bounded_range limit t : 0 <= limit -> (forall d, t = Some d -> 0 <= d) -> 0 <= bounded limit t <= limit.
Proof. intros Hl Ht. destruct t as [d|]; simpl; [specialize (Ht d eq_refl)|]; lia. Qed.

(** Stopping a module takes at most 25 seconds and what it takes to reap it. *)
Lemma proc_stop_bound a : valid a -> 0 <= (proc_stop a).1 <= 25 * second + a_reap a.
Proof.
  intros (H1 & H2 & H3 & H4). pose proof second_pos.
  pose proof (bounded_range stopTimeout (a_stop a) ltac:(unfold stopTimeout; lia) H1).
  pose proof (bounded_range shutdownTimeout (a_shutdown a) ltac:(unfold shutdownTimeout; lia) H2).
  unfold proc_stop, stopTimeout, shutdownTimeout, exitTimeout in *.
  destruct (a_exit a) as [d|]; [specialize (H3 d eq_refl); destruct (Z.leb_spec d (5 * second))|]; simpl; lia.
Qed.

Lemma core_needs_le ms closing t : 0 <= t -> Forall (fun a => (proc_stop a).1 <= t) ms -> core_needs ms closing <= t + closing.
Proof. intros Ht H. unfold core_needs. induction H as [|a ms Ha Hms IH]; simpl; lia. Qed.
Lemma core_needs_ge ms closing a : a ∈ ms -> 0 <= closing -> (proc_stop a).1 <= core_needs ms closing.
Proof.
  intros Ha Hc. unfold core_needs. induction ms as [|b ms IH]; [by apply not_elem_of_nil in Ha|].
  apply elem_of_cons in Ha as [<-|Ha]; simpl; [lia|]. specialize (IH Ha). lia.
Qed.

(** An SDK module that keeps the deadline it is given. *)
Lemma sdk_in_time d exit reap : 0 <= d <= stopDeadline -> 0 <= exit <= exitTimeout ->
  proc_stop (sdk_answers (Some d) exit reap) = (d + exit, false).
Proof.
  intros Hd He. pose proof second_pos. unfold proc_stop, sdk_answers, bounded, stopTimeout, shutdownTimeout, exitTimeout, stopDeadline in *.
  cbn [a_stop a_shutdown a_exit]. rewrite !Z.max_l by lia. rewrite Z.add_0_r, (proj2 (Z.leb_le _ _)) by lia.
  f_equal. lia.
Qed.


(** It does not fit when one does not: a module whose [Stop] does not end within 15
    seconds uses up all of weaveboot's patience, so core is killed with its store open
    and before it has stopped the module, although core's own plan, at most 25 seconds and the
    reaping, would have killed the module and finished. *)
Theorem hung_stop_kills_core ms closing stop exit reap :
  0 <= closing -> 0 <= exit -> 0 <= reap -> (forall d, stop = Some d -> 15 * second <= d) ->
  sdk_answers stop exit reap ∈ ms ->
  runOnce_end false (core_needs ms closing) = Killed (15 * second) /\
  (stop = None -> proc_stop (sdk_answers stop exit reap) = (25 * second + reap, true)).
Proof.
  intros Hc He Hr Hs Hin. pose proof second_pos. split.
  - assert (15 * second <= core_needs ms closing) as Hge.
    { etrans; [|by eapply core_needs_ge]. unfold proc_stop, bounded, stopTimeout, shutdownTimeout, exitTimeout.
      destruct stop as [d|]; cbn [sdk_answers a_stop a_shutdown a_exit a_reap]; [|simpl; lia].
      specialize (Hs d eq_refl). unfold stopTimeout, shutdownTimeout.
      destruct (Z.leb_spec (exit + Z.max 0 (d - 15 * second - 5 * second)) (5 * second)); simpl; lia. }
    unfold runOnce_end, WaitDelay. simpl. by rewrite (proj2 (Z.ltb_ge _ _)).
  - intros ->. unfold proc_stop, bounded, stopTimeout, shutdownTimeout, exitTimeout. simpl. f_equal; lia.
Qed.

(** Core's part of a stop is bounded whatever its modules do. *)
Theorem core_stop_bounded ms closing reap :
  0 <= reap -> Forall (fun a => valid a /\ a_reap a <= reap) ms -> core_needs ms closing <= 25 * second + reap + closing.
Proof.
  intros Hr Hms. pose proof second_pos. apply core_needs_le; [lia|]. eapply Forall_impl; [exact Hms|].
  intros a [Hv Ha]. apply proc_stop_bound in Hv. lia.
Qed.

(** *** Witnesses *)


Lemma hung_stop_kills_core_witness :
  runOnce_end false (core_needs [sdk_answers (Some 0) 0 0; sdk_answers None 0 0] 0) = Killed (15 * second) /\
  proc_stop (sdk_answers None 0 0) = (25 * second + 0, true).
Proof.
  destruct (hung_stop_kills_core [sdk_answers (Some 0) 0 0; sdk_answers None 0 0] 0 None 0 0) as [H1 H2];
    [lia|lia|lia|discriminate|right; left|].
  split; [exact H1|exact (H2 eq_refl)].
Defined.

Lemma core_stop_bounded_witness : core_needs [sdk_answers None 0 second; sdk_answers (Some 0) 0 0] 0 <= 25 * second + second + 0.
Proof.
  apply core_stop_bounded; [unfold retry.second; lia|].
  repeat constructor; simpl; unfold retry.second; try lia; intros d [= <-]; lia.
Defined.
End stopping.
