(* ===== verification/Lifecycle.v ===== *)
(** * Installing modules (internal/lifecycle)

    Fetch, verify, stage, promote behind a health gate, keep one previous
    version, roll back.  The manager works on the file system of [FileSystem]
    (so every call can fail or be the crash point) and on the rest of the agent:
    the supervisor's registry, the statuses it will report to the gate, and the
    store that keeps the highest channel sequence.  The per-module mutex makes
    each operation on one module run alone, which is how they are modelled. *)

From stdpp Require Import base list strings gmap.
From Stdlib Require Import ZArith Lia Ascii.
From S2P Require Import Prelude.
From S2P Require Import GoStrings.
From S2P Require Import Paths.
From S2P Require Import FileSystem.
From S2P Require Import Json.
From S2P Require Import Manifest.
From S2P Require Import Base64.
From S2P Require Import Signing.
From S2P Require Import Store.
From S2P Require Import Launch.
From S2P Require Import Supervisor.
Open Scope Z_scope.

Local Infix "+++" := String.append (at level 60, right associativity).

Module lifecycle.
Import os manifest.
Import (hints) store supervise.
Open Scope os_scope.

(** ** State outside the file system *)

(** One turn of the health gate: the clock in the loop condition, the status it
    reads ([None]: the module is gone), the clock of the stability test, and
    whether the caller's context ends during the pause. *)
Record poll := mkPoll {
  po_now : Z; po_status : option (supervise.State * option supervise.health_status);
  po_clock : Z; po_ctx_done : bool }.

Record sys (S : Type) := mkSys {
  sys_reg : supervise.registry; sys_obs : list poll; sys_clock : Z; sys_seq : option S }.
Arguments mkSys {S}. Arguments sys_reg {S}. Arguments sys_obs {S}. Arguments sys_clock {S}. Arguments sys_seq {S}.

(** [Manager]'s configuration, with the host it runs on. *)
Record Manager := mkManager {
  ModulesDir : path; StagingDir : path; Windows : bool; GOOS : string; GOARCH : string;
  Verifier : path -> Manifest -> fs -> bool;
  RootPub : option string; ManifestURL : string; GateTimeout : Z; GateStable : Z;
  Sup : supervise.Supervisor }.

Definition ms : Z := 10 ^ 6.

(** ** The health gate *)

Definition gateTimeout (g : Manager) : Z := if GateTimeout g =? 0 then 30 * retry.second else GateTimeout g.
Definition gateStable (g : Manager) : Z := if GateStable g =? 0 then 3 * retry.second else GateStable g.

(** The loop of [healthGate]; [healthySince] is [None] for the zero time.  The
    observations are the turns there is time for, so that running out of them is
    the deadline. *)
Fixpoint gate (stable deadline : Z) (obs : list poll) (healthySince : option Z) : result errno unit * list poll :=
  match obs with
  | [] => (Err (EMsg "health gate timed out"), [])
  | p :: rest =>
      if negb (po_now p <? deadline) then (Err (EMsg "health gate timed out"), obs)
      else
        let pause (h : option Z) :=
          if po_ctx_done p then (Err (EMsg "context"), rest) else gate stable deadline rest h in
        match po_status p with
        | None => (Err (EMsg "module vanished from supervisor"), rest)
        | Some (supervise.StateRunning, Some supervise.HEALTHY) =>
            match healthySince with
            | None => pause (Some (po_clock p))
            | Some t => if stable <=? po_clock p - t then (Ok tt, rest) else pause (Some t)
            end
        | Some ((supervise.StateStartLimited | supervise.StateUnsupportedProtocol |
                 supervise.StateRequirementsUnmet), _) => (Err (EMsg "module state"), rest)
        | Some _ => pause None
        end
  end.

(** [statusOf]: the first of the supervisor's statuses that has the id, and what one
    turn of the gate takes from it. *)
Definition statusOf (id : string) (reg : supervise.registry) : option supervise.Status :=
  find_first (fun st => String.eqb (supervise.st_ID st) id) (supervise.Statuses reg).
Definition gate_sees (id : string) (reg : supervise.registry) : option (supervise.State * option supervise.health_status) :=
  (fun st => (supervise.st_State st, supervise.st_Health st)) <$> statusOf id reg.

(** Every runner is registered under its own module's id. *)
Definition keyed (reg : supervise.registry) : Prop :=
  forall id r, supervise.runners reg !! id = Some r -> m_ID (launch.s_Manifest (supervise.spec r)) = id.

Lemma statusOf_keyed id reg : keyed reg -> statusOf id reg = supervise.status <$> supervise.runners reg !! id.
Proof.
  intros Hk. unfold statusOf, supervise.Statuses. destruct (find_first _ _) as [st|] eqn:E.
  - apply find_first_Some in E as [Hin Heq%String.eqb_eq].
    apply list_elem_of_fmap in Hin as ([k r] & -> & Hr%elem_of_map_to_list).
    simpl in Heq. rewrite (Hk _ _ Hr) in Heq. subst k. by rewrite Hr.
  - apply find_first_None in E. destruct (supervise.runners reg !! id) as [r|] eqn:Er; [|done].
    rewrite list.Forall_forall in E. exfalso. specialize (E (supervise.status r)).
    rewrite String.eqb_neq in E. apply E; [|exact (Hk _ _ Er)].
    apply list_elem_of_fmap. exists (id, r). split; [done|]. by apply elem_of_map_to_list.
Qed.

(** The supervisor keeps its registry keyed, so the gate sees the module it waits for
    and no other. *)
Lemma Replace_keyed s now sp reg : keyed reg -> keyed (snd (supervise.Replace s now sp reg)).
Proof.
  intros Hk. unfold supervise.Replace, supervise.Add, supervise.StopModule. cbn [supervise.baseCtx supervise.runners].
  destruct (supervise.baseCtx reg); simpl.
  - rewrite lookup_delete_eq. destruct (bool_decide _); simpl; intros id r; simpl;
      (destruct (decide (id = m_ID (launch.s_Manifest sp))) as [->|Hne];
       [rewrite lookup_insert_eq; by intros [= <-] | rewrite lookup_insert_ne, lookup_delete_ne by done; apply Hk]).
  - intros id r. simpl. rewrite lookup_delete_Some. intros [_ Hr]. by apply Hk.
Qed.

(** What the gate sees right after an install has handed the module over: pending, or
    refused for a capability the machine has not. *)
Lemma gate_sees_replaced s now sp reg : keyed reg -> supervise.baseCtx reg = true ->
  let id := m_ID (launch.s_Manifest sp) in
  gate_sees id (snd (supervise.Replace s now sp reg)) = Some (supervise.StatePending, None) \/
  gate_sees id (snd (supervise.Replace s now sp reg)) = Some (supervise.StateRequirementsUnmet, None).
Proof.
  intros Hk Hb id. unfold gate_sees. rewrite statusOf_keyed by by apply Replace_keyed.
  unfold supervise.Replace, supervise.Add, supervise.StopModule. cbn [supervise.baseCtx supervise.runners]. rewrite Hb. simpl.
  rewrite lookup_delete_eq. destruct (bool_decide _); simpl; rewrite lookup_insert_eq; [by left|by right].
Qed.

Section Manager.
Context {S : Type} {SB : store.StoreBackend S} {JM : JSON Manifest}.
Context {JK : JSON signing.PublicKey} {JS : JSON signing.Signature} {JC : JSON ChannelManifest}.
Context (ed_verify : string -> string -> string -> bool) (parse_rfc3339 : string -> option Z).
Context (sha256 : string -> string) (http : string -> option (Z * string)).
Context (g : Manager).
Notation IO := (M (sys S)).

(** [Supervisor.Replace] and [StopModule] on the registry. *)
Definition sup_Replace (sp : launch.Spec) : IO unit := fun w =>
  if negb (w_up w) then (Err ECRASHED, w)
  else
    let x := w_ext w in
    let (r, reg) := supervise.Replace (Sup g) (sys_clock x) sp (sys_reg x) in
    (match r with Ok _ => Ok tt | Err _ => Err (EMsg "supervise") end,
     mkWorld (w_fs w) (w_oracle w) true (w_seed w) (mkSys reg (sys_obs x) (sys_clock x) (sys_seq x))).
Definition sup_StopModule (id : string) : IO unit :=
  upd_ext (fun x => mkSys (supervise.StopModule id (sys_reg x)) (sys_obs x) (sys_clock x) (sys_seq x)).

Definition healthGate (id : string) : IO unit := fun w =>
  let x := w_ext w in
  let (r, rest) := gate (gateStable g) (sys_clock x + gateTimeout g) (sys_obs x) None in
  if w_up w then (r, mkWorld (w_fs w) (w_oracle w) true (w_seed w) (mkSys (sys_reg x) rest (sys_clock x) (sys_seq x)))
  else (Err ECRASHED, w).

(** ** Files *)

Definition binaryName (id : string) : string := if Windows g then id +++ ".exe" else id.

(** The loop of [findBinary] over the candidate names. *)
Fixpoint find_candidate (dir : path) (cands : list string) : IO path :=
  match cands with
  | [] => fail (EMsg "no binary")
  | c :: cs =>
      r <-! attempt (Stat (Join dir [c])) ;;
      match r with Ok false => ret (Join dir [c]) | _ => find_candidate dir cs end
  end.
Definition findBinary (dir : path) (id : string) : IO path :=
  find_candidate dir [binaryName id; "module"; "module.exe"].

(** [manifest.Load] *)
Definition loadManifest (p : path) : IO Manifest :=
  r <-! attempt (ReadFile p) ;;
  match manifest.Load (match r with Ok c => Some c | Err _ => None end) with
  | Ok m => ret m
  | Err _ => fail (EMsg "manifest")
  end.

Definition copyFile (src dst : path) : IO unit :=
  content <-! ReadFile src ;;
  do! Create dst ;;
  r <-! attempt (Write dst content) ;;
  match r with
  | Err e => do! ignore (Close dst) ;; fail e
  | Ok _ => Close dst
  end.

Definition writeFileString (p : path) (s : string) : IO unit :=
  do! MkdirAll (parent p) ;;
  replace_file true false (parent p) ".tmp-" p (s +++ String (ascii_of_nat 10) "").

Definition path_string (p : path) : string := "/" +++ join "/" p.

(** ** Staging, promotion, roll-back *)

Definition verify_now (p : path) (m : Manifest) : IO bool := observe (fun f => Ok (Verifier g p m f)).

Definition stageFiles (mf : Manifest) (binPath : path) (configPath : option path) : IO path :=
  let stage := Join (StagingDir g) [m_ID mf; m_Version mf] in
  do! RemoveAll stage ;;
  do! MkdirAll stage ;;
  let stagedBin := Join stage [binaryName (m_ID mf)] in
  do! copyFile binPath stagedBin ;;
  do! match configPath with
      | None => ret tt
      | Some c =>
          r <-! attempt (Stat c) ;;
          match r with
          | Ok _ => copyFile c (Join stage ["config.json"])
          | Err _ => ret tt
          end
      end ;;
  do! WriteFile (Join stage ["module.manifest.json"]) (marshal_indent mf) ;;
  r <-! attempt (verify_now stagedBin mf) ;;
  match r with
  | Ok true => ret stage
  | _ => do! ignore (RemoveAll stage) ;; fail (EMsg "staged binary failed verification")
  end.

Definition moduleDir (id : string) : path := Join (ModulesDir g) [id].

Definition activate (mf : Manifest) (verDir : path) : IO unit :=
  bin <-! findBinary verDir (m_ID mf) ;;
  r <-! attempt (ReadFile (Join verDir ["config.json"])) ;;
  let config := match r with Ok b => b | Err _ => "" end in
  do! sup_Replace (launch.mkSpec mf (path_string bin) config) ;;
  r <-! attempt (healthGate (m_ID mf)) ;;
  match r with
  | Err e => do! sup_StopModule (m_ID mf) ;; fail e
  | Ok _ => writeFileString (Join (moduleDir (m_ID mf)) ["current"]) (m_Version mf)
  end.

(** The loop of [prune]. *)
Fixpoint prune_entries (mdir : path) (keep prev : string) (entries : list (string * bool)) : IO unit :=
  match entries with
  | [] => ret tt
  | (name, _) :: es =>
      do! (if negb (String.eqb name keep) && negb (String.eqb name prev)
           then ignore (RemoveAll (Join mdir ["versions"; name])) else ret tt) ;;
      prune_entries mdir keep prev es
  end.
Definition prune (mdir : path) (keep prev : string) : IO unit :=
  r <-! attempt (ReadDir (Join mdir ["versions"])) ;;
  match r with Err _ => ret tt | Ok entries => prune_entries mdir keep prev entries end.

(** The roll-back inside [promote]: its failure is only logged. *)
Definition restore (mf : Manifest) (oldVersion : string) : IO unit :=
  let mdir := moduleDir (m_ID mf) in
  if negb (String.eqb oldVersion "") && negb (String.eqb oldVersion (m_Version mf)) then
    let oldDir := Join mdir ["versions"; oldVersion] in
    r <-! attempt (loadManifest (Join oldDir ["module.manifest.json"])) ;;
    match r with
    | Ok oldMf => ignore (activate oldMf oldDir)
    | Err _ => ret tt
    end
  else ret tt.

Definition retain (mf : Manifest) (oldVersion : string) : IO unit :=
  let mdir := moduleDir (m_ID mf) in
  if negb (String.eqb oldVersion "") && negb (String.eqb oldVersion (m_Version mf)) then
    do! ignore (writeFileString (Join mdir ["previous"]) oldVersion) ;;
    prune mdir (m_Version mf) oldVersion
  else ret tt.

(** The first lines of [promote]: the staged tree takes its place. *)
Definition move_in (stage verDir : path) : IO unit :=
  do! MkdirAll (parent verDir) ;;
  do! RemoveAll verDir ;;
  Rename stage verDir.

Definition promote (mf : Manifest) (stage : path) : IO unit :=
  let mdir := moduleDir (m_ID mf) in
  let verDir := Join mdir ["versions"; m_Version mf] in
  do! move_in stage verDir ;;
  r <-! attempt (ReadFile (Join mdir ["current"])) ;;
  let oldVersion := match r with Ok b => trim_space b | Err _ => "" end in
  r <-! attempt (activate mf verDir) ;;
  match r with
  | Err _ => do! restore mf oldVersion ;; fail (EMsg "promote failed health gate")
  | Ok _ => retain mf oldVersion
  end.

Definition InstallLocal (dir : path) : IO string :=
  mf <-! loadManifest (Join dir ["module.manifest.json"]) ;;
  bin <-! findBinary dir (m_ID mf) ;;
  stage <-! stageFiles mf bin (Some (Join dir ["config.json"])) ;;
  do! promote mf stage ;;
  ret (m_Version mf).

Definition Rollback (moduleID : string) : IO string :=
  let mdir := moduleDir moduleID in
  r <-! attempt (ReadFile (Join mdir ["previous"])) ;;
  match r with
  | Err _ => fail (EMsg "no previous version retained")
  | Ok prev =>
      let prevVersion := trim_space prev in
      let verDir := Join mdir ["versions"; prevVersion] in
      mf <-! loadManifest (Join verDir ["module.manifest.json"]) ;;
      r <-! attempt (ReadFile (Join mdir ["current"])) ;;
      let current := match r with Ok b => b | Err _ => "" end in
      do! activate mf verDir ;;
      do! ignore (writeFileString (Join mdir ["previous"]) (trim_space current)) ;;
      ret prevVersion
  end.

(** ** The channel *)

Definition manifestSeqNamespace : string := "core.manifest".

Definition lastSequence (c : store.call) (s : S) : Z :=
  match store.Get c manifestSeqNamespace "sequence" s with
  | Ok (Some raw) => default 0 (parse_uint 64 (trim_space raw))
  | _ => 0
  end.

(** [io.LimitReader] *)
Definition limited (n : Z) (s : string) : string := String.substring 0 (Z.to_nat n) s.

(** The closure [get] of [fetchChannel]. *)
Definition fetch_one (name : string) : option string :=
  match http (trim_suffix "/" (ManifestURL g) +++ "/" +++ name) with
  | Some (code, body) => if code =? 200 then Some (limited (8 * 2 ^ 20) body) else None
  | None => None
  end.

Inductive fetch_error := ErrFetch | ErrVerify | ErrExpired | ErrRollback (got last : Z).

(** [fetchChannel]; [root] is the pinned key. *)
Definition fetchChannel (root : string) (c : store.call) (now : Z) (seq : option S) :
  result fetch_error ChannelManifest * option S :=
  match fetch_one "manifest.json", fetch_one "manifest.json.sig", fetch_one "signing.pub", fetch_one "signing.pub.sig" with
  | Some m, Some ms, Some k, Some ks =>
      match signing.Verify ed_verify root (signing.mkBundle m ms k ks) with
      | Err _ => (Err ErrVerify, seq)
      | Ok ch =>
          if manifest.Expired parse_rfc3339 ch now then (Err ErrExpired, seq)
          else match seq with
          | None => (Ok ch, None)
          | Some s =>
              let last := lastSequence c s in
              if c_Sequence ch <? last then (Err (ErrRollback (c_Sequence ch) last), seq)
              else if last <? c_Sequence ch then
                (Ok ch, Some (snd (store.Put c manifestSeqNamespace "sequence" (format_uint (c_Sequence ch)) s)))
              else (Ok ch, seq)
          end
      end
  | _, _, _, _ => (Err ErrFetch, seq)
  end.

(** [download] *)
Definition download (url digest : string) (size : Z) : IO path :=
  match http url with
  | None => fail (EMsg "fetch")
  | Some (code, body) =>
      if negb (code =? 200) then fail (EMsg "artifact fetch")
      else
        tmp <-! CreateTemp (StagingDir g) "dl-" ;;
        let got := limited (size + 1) body in
        r <-! attempt (Write tmp got) ;;
        do! ignore (Close tmp) ;;
        match r with
        | Err e => do! ignore (Remove tmp) ;; fail e
        | Ok _ =>
            if negb (Z.of_nat (String.length got) =? size) then do! ignore (Remove tmp) ;; fail (EMsg "artifact size")
            else if negb (String.eqb ("sha256:" +++ hex_encode (sha256 got)) digest) then
              do! ignore (Remove tmp) ;; fail (EMsg "artifact digest")
            else ret tmp
        end
  end.

(** [Install]; [c] and [now] are the store call and the clock of the fetch. *)
Definition Install (c : store.call) (now : Z) (moduleID version : string) : IO string :=
  match RootPub g with
  | None => fail (EMsg "channel installs unavailable")
  | Some root =>
  if String.eqb (ManifestURL g) "" then fail (EMsg "channel installs unavailable")
  else
  x <-! get_ext ;;
  let (rc, seq) := fetchChannel root c now (sys_seq x) in
  do! upd_ext (fun x => mkSys (sys_reg x) (sys_obs x) (sys_clock x) seq) ;;
  match rc with
  | Err _ => fail (EMsg "channel")
  | Ok ch =>
  match manifest.Module_ ch moduleID with
  | None => fail (EMsg "module not in channel")
  | Some cm =>
  if negb (String.eqb version "") && negb (String.eqb (cm_Version cm) version) then fail (EMsg "other version in channel")
  else match manifest.ArtifactForHost (GOOS g) (GOARCH g) (cm_Artifacts cm) with
  | None => fail (EMsg "no artifact")
  | Some art =>
  tmp <-! download (ca_URL art) (ca_Digest art) (ca_Size art) ;;
  let mf := manifest.ModuleManifest cm [mkPlatform (GOOS g) (GOARCH g)] in
  r <-! attempt (match manifest.Validate mf with
                 | Err _ => fail (EMsg "channel manifest")
                 | Ok _ => stage <-! stageFiles mf tmp None ;; promote mf stage
                 end) ;;
  do! ignore (Remove tmp) ;;      (* deferred *)
  match r with Ok _ => ret (m_Version mf) | Err e => fail e end
  end end end end.
End Manager.

(** ** The gate *)

Definition healthy_now (deadline : Z) (p : poll) : Prop :=
  po_status p = Some (supervise.StateRunning, Some supervise.HEALTHY) /\ po_now p < deadline.

(** An unbroken run of healthy observations at least [stable] long. *)
Definition steady (stable deadline : Z) (seg : list poll) : Prop :=
  Forall (healthy_now deadline) seg /\
  exists a b, head seg = Some a /\ last seg = Some b /\ stable <= po_clock b - po_clock a.

Lemma gate_inv stable deadline obs h rest : gate stable deadline obs h = (Ok tt, rest) ->
  (exists seg b t, h = Some t /\ obs = seg ++ rest /\ Forall (healthy_now deadline) seg /\
     last seg = Some b /\ stable <= po_clock b - t) \/
  (exists pre seg, obs = pre ++ seg ++ rest /\ steady stable deadline seg).
Proof.
  revert h. induction obs as [|p obs IH]; intros h H; [done|]. cbn [gate] in H.
  destruct (Z.ltb_spec (po_now p) deadline) as [Hd|]; [|done]. cbn [negb] in H.
  assert (forall h', (if po_ctx_done p then (Err (EMsg "context"), obs) else gate stable deadline obs h') = (Ok tt, rest) ->
            gate stable deadline obs h' = (Ok tt, rest)) as Hpause by (intros h'; by destruct (po_ctx_done p)).
  assert (forall pre seg, obs = pre ++ seg ++ rest -> steady stable deadline seg ->
            exists pre seg, p :: obs = pre ++ seg ++ rest /\ steady stable deadline seg) as Hlater
    by (intros pre seg -> ?; by exists (p :: pre), seg).
  destruct (po_status p) as [[st hs]|] eqn:Es; [|done].
  assert (gate stable deadline obs None = (Ok tt, rest) -> exists pre seg, p :: obs = pre ++ seg ++ rest /\ steady stable deadline seg) as Hreset.
  { intros E. destruct (IH _ E) as [(? & ? & ? & ? & _)|(pre & seg & ? & ?)]; [done | eauto]. }
  destruct (decide (st = supervise.StateRunning /\ hs = Some supervise.HEALTHY)) as [[-> ->]|Hn].
  2:{ right. apply Hreset.
      destruct st; try done; try (by apply Hpause in H); destruct hs as [[]|]; try (by apply Hpause in H); naive_solver. }
  assert (healthy_now deadline p) as Hp by done.
  destruct h as [t|].
  - destruct (Z.leb_spec stable (po_clock p - t)).
    + simplify_eq. left. exists [p], p, t. split_and!; [done..|by constructor|done|done].
    + apply Hpause in H. destruct (IH _ H) as [(seg & b & t' & ? & -> & Hf & Hl & Hs)|(pre & seg & ? & ?)]; [|right; eauto].
      simplify_eq. left. exists (p :: seg), b, t'. split_and!; [done..|by constructor| |done].
      rewrite last_cons, Hl. done.
  - apply Hpause in H. right. destruct (IH _ H) as [(seg & b & t' & ? & -> & Hf & Hl & Hs)|(pre & seg & ? & ?)]; [|eauto].
    simplify_eq. exists [], (p :: seg). split; [done|]. split; [by constructor|]. exists p, b. split_and!; [done| |done].
    by rewrite last_cons, Hl.
Qed.

(** The gate opens only after an unbroken stretch of healthy observations. *)
Lemma gate_steady stable deadline obs rest : gate stable deadline obs None = (Ok tt, rest) ->
  exists pre seg, obs = pre ++ seg ++ rest /\ steady stable deadline seg.
Proof. intros [(? & ? & ? & ? & _)|H]%gate_inv; [done | exact H]. Qed.

Lemma gate_suffix stable deadline obs h r rest : gate stable deadline obs h = (r, rest) -> exists used, obs = used ++ rest.
Proof.
  revert h. induction obs as [|p obs IH]; intros h H; cbn [gate] in H; [exists []; by simplify_eq|].
  destruct (negb _); [exists []; by simplify_eq|].
  assert (forall h', (if po_ctx_done p then (Err (EMsg "context"), obs) else gate stable deadline obs h') = (r, rest) ->
            exists used, p :: obs = used ++ rest) as Hpause.
  { intros h' E. destruct (po_ctx_done p); [exists [p]; by simplify_eq|].
    destruct (IH _ E) as [used ->]. by exists (p :: used). }
  assert (forall e : result errno unit, (e, obs) = (r, rest) -> exists used, p :: obs = used ++ rest) as Hend
    by (intros e E; exists [p]; by simplify_eq).
  destruct (po_status p) as [[st hs]|]; [|by eapply Hend].
  destruct st, hs as [[]|]; try (by eapply Hpause); try (by eapply Hend).
  destruct h as [t|]; [|by eapply Hpause]. destruct (_ <=? _); [by eapply Hend | by eapply Hpause].
Qed.

(** ** Promotion *)

Section Promote.
Context {S : Type} {SB : store.StoreBackend S} {JM : JSON Manifest}.
Context (g : Manager).
Hypothesis Hmods : safe_path (ModulesDir g).
Hypothesis Hstag : safe_path (StagingDir g).
Hypothesis Hdis1 : below (ModulesDir g) (StagingDir g) = false.
Hypothesis Hdis2 : below (StagingDir g) (ModulesDir g) = false.
Implicit Types w : world (sys S).

Notation mdir id := (ModulesDir g ++ [id]).
Notation current id := ((ModulesDir g ++ [id]) ++ ["current"]).
Notation version_dir id v := ((ModulesDir g ++ [id]) ++ ["versions"; v]).
Notation stage_dir id v := (StagingDir g ++ [id; v]).

Lemma moduleDir_path id : safe_component id -> moduleDir g id = mdir id.
Proof. intros H. apply Join_safe; [done | safe_list]. Qed.

Lemma mdir_safe id : safe_component id -> safe_path (mdir id).
Proof. intros H. apply Forall_app. split; [done | safe_list]. Qed.

Lemma find_candidate_pure dir cands w : 
  w_fs (snd (find_candidate dir cands w)) = w_fs w /\ w_ext (snd (find_candidate (S := S) dir cands w)) = w_ext w.
Proof.
  split.
  - apply touches_none. induction cands as [|c cs IH]; simpl; footprint; done.
  - revert w. change (keeps_ext (find_candidate (S := S) dir cands)).
    induction cands as [|c cs IH]; simpl; ext_pure; done.
Qed.

(** The observations the gate was given contain a steady stretch. *)
Definition passed (x : sys S) : Prop :=
  exists pre seg post, sys_obs x = pre ++ seg ++ post /\
    steady (gateStable g) (sys_clock x + gateTimeout g) seg.

Lemma writeFileString_ext p t : keeps_ext (writeFileString (S := S) p t).
Proof. unfold writeFileString. ext_pure. Qed.

(** What [activate] does to its module's current marker; [passed] looks at the
    state it started from. *)
Lemma activate_spec mf verDir w r w' :
  safe_component (m_ID mf) -> activate g mf verDir w = (r, w') ->
  let new := Some (File (marker_line (m_Version mf))) in let cur := current (m_ID mf) in
  (exists used, sys_obs (w_ext w) = used ++ sys_obs (w_ext w')) /\
  sys_clock (w_ext w') = sys_clock (w_ext w) /\
  (r = Ok tt /\ w_fs w' !! cur = new /\ passed (w_ext w) /\ w_fs w' !! mdir (m_ID mf) = Some Dir \/
   exists e, r = Err e /\ (w_fs w' !! cur = w_fs w !! cur \/ w_fs w' !! cur = new /\ passed (w_ext w))).
Proof.
  intros Hid H new cur. unfold activate in H. unfold bind at 1 in H.
  destruct (find_candidate_pure verDir [binaryName g (m_ID mf); "module"; "module.exe"] w) as [F1 X1].
  fold (findBinary (S := S) g verDir (m_ID mf)) in F1, X1.
  destruct (findBinary g verDir (m_ID mf) w) as [[bin|e] w1]; simpl in F1, X1.
  2:{ simplify_eq. rewrite X1, F1. split_and!; [by exists []|done|right; eauto]. }
  rewrite bind_attempt in H.
  pose proof (touches_none _ w1 (touches_ReadFile _ (Join verDir ["config.json"]))) as F2.
  pose proof (keeps_atomic _ w1 : w_ext (snd (ReadFile (Join verDir ["config.json"]) w1)) = _) as X2.
  destruct (ReadFile (Join verDir ["config.json"]) w1) as [r2 w2]. cbn [fst snd] in *.
  unfold bind at 1 in H. unfold sup_Replace in H.
  destruct (w_up w2) eqn:Eup; cbn [negb] in H.
  2:{ simplify_eq. rewrite X2, X1, F2, F1. split_and!; [by exists []|done|right; eauto]. }
  destruct (supervise.Replace _ _ _ _) as [[b|e] reg].
  2:{ simplify_eq. simpl. rewrite X2, X1, F2, F1. split_and!; [by exists []|done|right; eauto]. }
  rewrite bind_attempt in H. unfold healthGate in H. simpl in H. rewrite X2, X1 in H.
  destruct (gate _ _ _ None) as [rg rest] eqn:Eg. cbn [fst snd] in H.
  pose proof (gate_suffix _ _ _ _ _ _ Eg) as Hsuf.
  destruct rg as [[]|e].
  - pose proof (gate_steady _ _ _ _ Eg) as (pre & seg & Hobs & Hst).
    assert (passed (w_ext w)) as Hp by (by exists pre, seg, rest).
    rewrite moduleDir_path, Join_safe in H by (done || by apply mdir_safe || safe_list).
    pose proof (writeFileString_ext cur (m_Version mf)) as Xw.
    match type of H with writeFileString _ _ ?w3 = _ => set (w3' := w3) in H; specialize (Xw w3') end.
    unfold cur in Xw. rewrite H in Xw. simpl in Xw. rewrite Xw. simpl.
    split; [done|]. split; [done|].
    pose proof (write_marker_dir true _ _ _ _ _ _ H) as [_ Hdir].
    apply (write_marker_atomic true) in H; [|done]. simpl in H. rewrite F2, F1 in H.
    destruct H as [[-> Hc]|(e & -> & [Hc|[_ Hc]])]; [left | right; eauto..].
    split_and!; [done..|]. apply Hdir; [done|]. by intros [_ ?]%app_eq_nil.
  - unfold bind, sup_StopModule, upd_ext, fail in H. simpl in H. simplify_eq. simpl. rewrite F2, F1.
    split; [done|]. split; [done|]. right. eauto.
Qed.

(** What [activate] can touch. *)
Definition marker_area (id : string) (q : path) : Prop :=
  below q (mdir id) = true \/ below (current id) q = true \/
  exists t, temp_name (mdir id) ".tmp-" t /\ below t q = true.

Lemma touches_sup_Replace P sp : touches P (sup_Replace (S := S) g sp).
Proof. intros w q _. unfold sup_Replace. destruct (negb _); [done|]. by destruct (supervise.Replace _ _ _ _). Qed.
Lemma touches_healthGate P id : touches P (healthGate (S := S) g id).
Proof. intros w q _. unfold healthGate. destruct (gate _ _ _ _). by destruct (w_up w). Qed.

Lemma touches_activate mf verDir : safe_component (m_ID mf) ->
  touches (marker_area (m_ID mf)) (activate (S := S) g mf verDir).
Proof.
  intros Hid. unfold activate. footprint.
  - intros w q _. unfold findBinary. by rewrite (proj1 (find_candidate_pure _ _ _)).
  - apply touches_sup_Replace.
  - apply touches_healthGate.
  - rewrite moduleDir_path, Join_safe by (done || by apply mdir_safe || safe_list).
    apply (touches_write_marker true).
  - unfold sup_StopModule. footprint.
Qed.

(** A marker write stays in its own module's directory, ... *)
Lemma marker_area_other id id' x rest : id' <> id -> ~ marker_area id (mdir id' ++ x :: rest).
Proof.
  intros Hne. unfold marker_area. repeat rewrite <-app_assoc. simpl.
  assert (forall y, below (ModulesDir g ++ id :: y) (ModulesDir g ++ id' :: x :: rest) = false) as Hb
    by (intros y; rewrite below_cat; by apply below_ne_head).
  intros [H|[H|(t & [n ->] & H)]].
  - rewrite below_shorter in H; [done|]. rewrite !length_app. simpl. lia.
  - by rewrite Hb in H.
  - rewrite <-app_assoc in H. simpl in H. by rewrite Hb in H.
Qed.

(** ... and out of its other entries. *)
Lemma marker_area_plain id x rest : x <> "current" -> has_prefix ".tmp-" x = false ->
  ~ marker_area id (mdir id ++ x :: rest).
Proof.
  intros Hne Hx. unfold marker_area.
  intros [H|[H|(t & [n ->] & H)]].
  - rewrite below_shorter in H; [done|]. rewrite !length_app. simpl. lia.
  - rewrite below_cat, below_ne_head in H; [done|]. by apply not_eq_sym.
  - rewrite below_cat, below_ne_head in H; [done|]. by apply not_eq_sym, not_temp_word.
Qed.

Lemma activate_frame mf verDir w id x rest : safe_component (m_ID mf) -> x <> "current" -> has_prefix ".tmp-" x = false ->
  w_fs (snd (activate (S := S) g mf verDir w)) !! (mdir id ++ x :: rest) = w_fs w !! (mdir id ++ x :: rest).
Proof.
  intros Hid Hx Ht. apply touches_activate; [done|]. destruct (decide (id = m_ID mf)) as [->|Hne].
  - by apply marker_area_plain.
  - by apply marker_area_other.
Qed.

(** The staged tree moved into place. *)
Lemma move_in_spec id v w r w' :
  safe_component id -> safe_component v -> w_fs w !! stage_dir id v = Some Dir ->
  move_in (S := S) (stage_dir id v) (version_dir id v) w = (r, w') ->
  w_ext w' = w_ext w /\
  (forall x rest, x <> "versions" -> w_fs w' !! (mdir id ++ x :: rest) = w_fs w !! (mdir id ++ x :: rest)) /\
  (forall c rest, c <> v -> w_fs w' !! (mdir id ++ "versions" :: c :: rest) = w_fs w !! (mdir id ++ "versions" :: c :: rest)) /\
  (r = Ok tt -> forall rest, w_fs w' !! (version_dir id v ++ rest) = w_fs w !! (stage_dir id v ++ rest)).
Proof.
  intros Hid Hv Hst H.
  assert (forall a b, below (StagingDir g ++ a) (ModulesDir g ++ b) = false) as Hsm.
  { intros a b. apply not_true_iff_false. intros Hb%below_up. by rewrite below_disjoint in Hb. }
  assert (forall a b, below (ModulesDir g ++ a) (StagingDir g ++ b) = false) as Hms.
  { intros a b. apply not_true_iff_false. intros Hb%below_up. by rewrite below_disjoint in Hb. }
  assert (parent (version_dir id v) = mdir id ++ ["versions"]) as Hpar
    by (by rewrite (app_assoc _ ["versions"] [v]), parent_app).
  assert (w_ext w' = w_ext w) as Hext.
  { assert (keeps_ext (move_in (S := S) (stage_dir id v) (version_dir id v))) as Hk by (unfold move_in; ext_pure).
    specialize (Hk w). by rewrite H in Hk. }
  assert (forall P, (forall q, below q (mdir id ++ ["versions"]) = true \/ below (version_dir id v) q = true \/
                        below (stage_dir id v) q = true -> P q) ->
     touches P (move_in (S := S) (stage_dir id v) (version_dir id v))) as Htouch.
  { intros P HP. unfold move_in. rewrite Hpar. footprint;
      (eapply touches_weaken; [first [apply touches_MkdirAll | apply touches_RemoveAll | apply touches_Rename]|]);
      intros q Hq; apply HP; naive_solver. }
  assert (forall q, below q (mdir id ++ ["versions"]) = false -> below (version_dir id v) q = false ->
            below (stage_dir id v) q = false -> w_fs w' !! q = w_fs w !! q) as Hfr.
  { intros q H1 H2 H3. change w' with (snd (r, w')). rewrite <-H.
    eapply touches_elim; [apply (Htouch _ (fun q Hq => Hq))|]. cbv beta. rewrite H1, H2, H3. by intros [?|[?|?]]. }
  split_and!; [done|..].
  - intros x rest Hx. apply Hfr.
    + rewrite below_cat. destruct rest; apply below_ne_head || apply below_shorter; simpl; try lia; done.
    + rewrite below_cat. by apply below_ne_head, not_eq_sym.
    + rewrite <-app_assoc. apply Hsm.
  - intros c rest Hc. apply Hfr.
    + apply below_shorter. rewrite !length_app. simpl. lia.
    + rewrite below_cat. change ("versions" :: c :: rest) with (["versions"] ++ c :: rest).
      change ["versions"; v] with (["versions"] ++ [v]). rewrite below_cat. by apply below_ne_head, not_eq_sym.
    + rewrite <-app_assoc. apply Hsm.
  - intros -> rest. unfold move_in in H. rewrite Hpar in H. unfold bind in H.
    destruct (MkdirAll _ w) as [[[]|] w1] eqn:E1; [|done].
    destruct (RemoveAll _ w1) as [[[]|] w2] eqn:E2; [|done].
    assert (forall b, w_fs w2 !! (StagingDir g ++ b) = w_fs w !! (StagingDir g ++ b)) as H2.
    { intros b. transitivity (w_fs w1 !! (StagingDir g ++ b)).
      - change w2 with (snd (@Ok errno unit tt, w2)). rewrite <-E2. apply touches_RemoveAll.
        cbv beta. rewrite <-app_assoc. by rewrite Hms.
      - change w1 with (snd (@Ok errno unit tt, w1)). rewrite <-E1. apply touches_MkdirAll.
        cbv beta. rewrite <-app_assoc. by rewrite Hsm. }
    apply atomic_Ok in H as [_ H]. go_inv H.
    destruct (rename_dir _ _ _ _ E ltac:(by rewrite H2)) as (Hb1 & Hb2 & ->).
    rewrite move_tree_lookup by done. unfold swap_below.
    rewrite below_disjoint, below_app, drop_app_length by done. by rewrite <-app_assoc, H2.
Qed.

(** ** Retention *)

(** Every version directory of the module has a plain name. *)
Definition plain_versions (id : string) (f : fs) : Prop :=
  forall c, is_Some (f !! (mdir id ++ ["versions"; c])) -> safe_component c.

Lemma plain_children id f c b : plain_versions id f -> (c, b) ∈ children f (mdir id ++ ["versions"]) -> safe_component c.
Proof.
  intros Hp Hin. apply children_spec in Hin as (n & Hn & _). apply Hp. rewrite <-app_assoc in Hn. by exists n.
Qed.

Lemma touches_prune_entries id keep prev entries : safe_component id ->
  Forall (fun e => safe_component e.1) entries ->
  touches (fun q => exists c, c <> keep /\ c <> prev /\ below (mdir id ++ ["versions"; c]) q = true)
    (prune_entries (S := S) (mdir id) keep prev entries).
Proof.
  intros Hid. induction 1 as [|[c b] es Hc _ IH]; simpl; [footprint|]. apply touches_bind; [|done].
  destruct (String.eqb_spec c keep), (String.eqb_spec c prev); simpl; footprint.
  rewrite Join_safe by (by apply mdir_safe || safe_list).
  eapply touches_weaken; [apply touches_RemoveAll|]. intros q Hq. by exists c.
Qed.

Lemma versions_path id : safe_component id -> Join (mdir id) ["versions"] = mdir id ++ ["versions"].
Proof. intros H. apply Join_safe; [by apply mdir_safe | safe_list]. Qed.

(** Whatever fails, pruning leaves the two versions to keep, and everything
    outside the versions directory, as they were. *)
Lemma prune_frame id keep prev w : safe_component id -> plain_versions id (w_fs w) ->
  let w' := snd (prune (S := S) (mdir id) keep prev w) in
  (forall x rest, x <> "versions" -> w_fs w' !! (mdir id ++ x :: rest) = w_fs w !! (mdir id ++ x :: rest)) /\
  (forall c rest, c = keep \/ c = prev ->
     w_fs w' !! (mdir id ++ "versions" :: c :: rest) = w_fs w !! (mdir id ++ "versions" :: c :: rest)) /\
  w_fs w' !! mdir id = w_fs w !! mdir id /\ w_ext w' = w_ext w.
Proof.
  intros Hid Hp. unfold prune. rewrite versions_path by done. rewrite bind_attempt.
  pose proof (touches_none _ w (touches_ReadDir _ (mdir id ++ ["versions"]))) as F1.
  pose proof (keeps_atomic _ w : w_ext (snd (ReadDir (mdir id ++ ["versions"]) w)) = _) as X1.
  destruct (ReadDir _ w) as [[es|] w1] eqn:E1; cbn [fst snd] in *; [|by unfold ret; simpl; rewrite F1].
  apply observe_Ok in E1 as [_ E1]. go_inv E1.
  assert (Forall (fun e => safe_component e.1) (children (w_fs w) (mdir id ++ ["versions"]))) as Hall.
  { apply Forall_forall. intros [c b] Hin. by eapply plain_children. }
  pose proof (touches_prune_entries id keep prev _ Hid Hall w1) as Ht. rewrite <-F1 in *. split_and!.
  - intros x rest Hx. apply Ht. intros (c & _ & _ & Hb). rewrite below_cat, below_ne_head in Hb; [done|]. by apply not_eq_sym.
  - intros c rest Hc. apply Ht. intros (c' & H1 & H2 & Hb). rewrite below_cat in Hb.
    change ("versions" :: c :: rest) with (["versions"] ++ c :: rest) in Hb.
    change ["versions"; c'] with (["versions"] ++ [c']) in Hb. rewrite below_cat, below_ne_head in Hb; [done|].
    destruct Hc as [->| ->]; done.
  - apply Ht. intros (c & _ & _ & Hb). by rewrite below_shorter in Hb by (rewrite (length_app (mdir id)); simpl; lia).
  - rewrite <-X1. assert (forall es, keeps_ext (prune_entries (S := S) (mdir id) keep prev es)) as Hk; [|apply Hk].
    clear. induction es as [|[c b] es IH]; simpl; ext_pure.
Qed.

Lemma retain_frame mf old w : safe_component (m_ID mf) -> plain_versions (m_ID mf) (w_fs w) ->
  let w' := snd (retain (S := S) g mf old w) in
  w_fs w' !! current (m_ID mf) = w_fs w !! current (m_ID mf) /\
  (forall rest, w_fs w' !! (version_dir (m_ID mf) (m_Version mf) ++ rest) = w_fs w !! (version_dir (m_ID mf) (m_Version mf) ++ rest)) /\
  (w_fs w !! mdir (m_ID mf) = Some Dir -> w_fs w' !! mdir (m_ID mf) = Some Dir).
Proof.
  intros Hid Hp. unfold retain. rewrite moduleDir_path by done. destruct (_ && _); [|done].
  rewrite bind_ignore, Join_safe by (by apply mdir_safe || safe_list).
  set (w1 := snd (writeFileString _ _ w)).
  assert (forall x rest, x <> "previous" -> has_prefix ".tmp-" x = false ->
    w_fs w1 !! (mdir (m_ID mf) ++ x :: rest) = w_fs w !! (mdir (m_ID mf) ++ x :: rest)) as F1
    by (intros; by apply (write_marker_frame true)).
  pose proof (write_marker_dir true _ _ _ w _ w1 (surjective_pairing _)) as [D1 _].
  destruct (prune_frame (m_ID mf) (m_Version mf) old w1 Hid) as (P1 & P2 & P3 & _).
  { intros c Hc. rewrite F1 in Hc by done. by apply Hp. }
  split_and!.
  - rewrite P1, F1 by done. done.
  - intros rest. rewrite <-app_assoc. simpl. rewrite P2 by auto. by rewrite F1.
  - intros Hd. rewrite P3. by apply D1.
Qed.

Lemma loadManifest_spec p w r w' : loadManifest (S := S) p w = (r, w') ->
  w_fs w' = w_fs w /\ w_ext w' = w_ext w /\
  forall m, r = Ok m -> exists data, w_fs w !! p = Some (File data) /\ manifest.Parse data = Ok m /\
    safe_component (m_ID m) /\ safe_component (m_Version m).
Proof.
  intros H. unfold loadManifest in H. rewrite bind_attempt in H.
  pose proof (touches_none _ w (touches_ReadFile _ p)) as F1.
  pose proof (keeps_atomic _ w : w_ext (snd (ReadFile p w)) = _) as X1.
  destruct (ReadFile p w) as [rr w1] eqn:E1. cbn [fst snd] in *.
  destruct (manifest.Load _) as [m|] eqn:El; unfold ret, fail in H; simplify_eq; (split_and!; [done..|]); [|done].
  intros m' ?. simplify_eq. destruct rr as [data|]; [|done]. apply observe_Ok in E1 as [_ E1]. go_inv E1.
  exists data. change (manifest.Parse data = Ok m') in El. split; [done|]. split; [done|]. unfold manifest.Parse in El. bind_inv El. simplify_eq.
  match goal with Hv : Validate _ = Ok ?u |- _ => destruct u; apply Validate_ids in Hv as (? & ? & _) end. eauto with go.
Qed.

(** [mf]'s module was switched back to what the marker named before: a manifest
    found under the old version, itself past the gate. *)
Definition restored (id v : string) (w w' : world (sys S)) : Prop :=
  exists content oldMf, w_fs w !! current id = Some (File content) /\ trim_space content <> v /\
    m_ID oldMf = id /\ w_fs w' !! current id = Some (File (marker_line (m_Version oldMf))) /\ passed (w_ext w) /\
    (safe_component (trim_space content) -> exists data,
       w_fs w !! (version_dir id (trim_space content) ++ ["module.manifest.json"]) = Some (File data) /\
       manifest.Parse data = Ok oldMf).

Lemma passed_later x used y : sys_obs x = used ++ sys_obs y -> sys_clock y = sys_clock x -> passed y -> passed x.
Proof.
  intros Hu Hc (pre & seg & post & Ho & Hs). exists (used ++ pre), seg, post. rewrite Hu, Ho, <-Hc.
  by rewrite <-app_assoc.
Qed.

Lemma restore_spec mf old w :
  safe_component (m_ID mf) ->
  let id := m_ID mf in let w' := snd (restore (S := S) g mf old w) in
  w_fs w' !! current id = w_fs w !! current id \/
  old <> "" /\ old <> m_Version mf /\
  exists oldMf, m_ID oldMf = id /\ w_fs w' !! current id = Some (File (marker_line (m_Version oldMf))) /\ passed (w_ext w) /\
    (safe_component old -> exists data,
       w_fs w !! (version_dir id old ++ ["module.manifest.json"]) = Some (File data) /\ manifest.Parse data = Ok oldMf).
Proof.
  intros Hid id. unfold restore. rewrite moduleDir_path by done.
  destruct (String.eqb_spec old ""), (String.eqb_spec old (m_Version mf)); simpl; try by left.
  rewrite bind_attempt. set (oldDir := Join (mdir (m_ID mf)) ["versions"; old]).
  destruct (loadManifest _ w) as [rm w1] eqn:El. apply loadManifest_spec in El as (F1 & X1 & Hm). cbn [fst snd].
  destruct rm as [oldMf|]; [|left; unfold ret; simpl; by rewrite F1].
  destruct (Hm _ eq_refl) as (data & Hdata & Hparse & Hsid & _). unfold ignore. simpl.
  destruct (decide (m_ID oldMf = id)) as [Heq|Hne].
  2:{ left. rewrite <-F1. apply touches_activate; [done|]. by apply marker_area_other, not_eq_sym. }
  destruct (activate g oldMf oldDir w1) as [r2 w2] eqn:Ea. apply activate_spec in Ea as (_ & _ & Hcases); [|done].
  rewrite Heq in Hcases. simpl. rewrite F1, X1 in Hcases.
  assert (w_fs w2 !! current id = Some (File (marker_line (m_Version oldMf))) -> passed (w_ext w) ->
    old <> "" /\ old <> m_Version mf /\
    exists oldMf, m_ID oldMf = id /\ w_fs w2 !! current id = Some (File (marker_line (m_Version oldMf))) /\ passed (w_ext w) /\
    (safe_component old -> exists data,
       w_fs w !! (version_dir id old ++ ["module.manifest.json"]) = Some (File data) /\ manifest.Parse data = Ok oldMf)) as Hnew.
  { intros Hc Hp. split_and!; [done..|]. exists oldMf. split_and!; [done..|]. intros Hold. exists data. split; [|done].
    rewrite <-Hdata. f_equal. unfold oldDir. rewrite (Join_safe (mdir (m_ID mf))) by (by apply mdir_safe || safe_list).
    rewrite Join_safe; [done| |safe_list]. apply Forall_app. split; [by apply mdir_safe | safe_list]. }
  destruct Hcases as [(_ & Hc & Hp & _)|(e & _ & [Hc|[Hc Hp]])]; [right; auto | by left | right; auto].
Qed.

Lemma restore_versions mf old w rest : safe_component (m_ID mf) ->
  w_fs (snd (restore (S := S) g mf old w)) !! (mdir (m_ID mf) ++ "versions" :: rest) =
  w_fs w !! (mdir (m_ID mf) ++ "versions" :: rest).
Proof.
  intros Hid. unfold restore. rewrite moduleDir_path by done. destruct (_ && _); [|done]. rewrite bind_attempt.
  destruct (loadManifest _ w) as [rm w1] eqn:El. apply loadManifest_spec in El as (F1 & _ & Hm). cbn [fst snd].
  destruct rm as [oldMf|]; [|unfold ret; simpl; by rewrite F1].
  destruct (Hm _ eq_refl) as (_ & _ & _ & Hsid & _). unfold ignore. simpl. rewrite <-F1. by apply activate_frame.
Qed.

(** The outcome of a promotion for the module's current marker. *)
Definition promoted (mf : Manifest) (w w' : world (sys S)) : Prop :=
  w_fs w' !! current (m_ID mf) = Some (File (marker_line (m_Version mf))) /\ passed (w_ext w) /\
  forall rest, w_fs w' !! (version_dir (m_ID mf) (m_Version mf) ++ rest) = w_fs w !! (stage_dir (m_ID mf) (m_Version mf) ++ rest).

Lemma promote_spec mf w r w' :
  safe_component (m_ID mf) -> safe_component (m_Version mf) ->
  w_fs w !! stage_dir (m_ID mf) (m_Version mf) = Some Dir -> plain_versions (m_ID mf) (w_fs w) ->
  promote g mf (stage_dir (m_ID mf) (m_Version mf)) w = (r, w') ->
  (r = Ok tt -> promoted mf w w' /\ w_fs w' !! mdir (m_ID mf) = Some Dir) /\
  (w_fs w' !! current (m_ID mf) = w_fs w !! current (m_ID mf) \/ promoted mf w w' \/
   restored (m_ID mf) (m_Version mf) w w').
Proof.
  intros Hid Hv Hst Hpl H. unfold promote in H. rewrite moduleDir_path in H by done.
  rewrite !(Join_safe (mdir (m_ID mf))) in H by (by apply mdir_safe || safe_list).
  set (id := m_ID mf) in *. set (v := m_Version mf) in *.
  unfold bind at 1 in H. destruct (move_in _ _ w) as [[[]|e] w1] eqn:E1.
  2:{ apply move_in_spec in E1 as (_ & F1 & _); [|done..]. simplify_eq. split; [done|]. left. by apply F1. }
  apply move_in_spec in E1 as (X1 & F1 & F1' & Hmoved); [|done..]. specialize (Hmoved eq_refl).
  rewrite bind_attempt in H.
  pose proof (touches_none _ w1 (touches_ReadFile _ (current id))) as F2.
  pose proof (keeps_atomic _ w1 : w_ext (snd (ReadFile (current id) w1)) = _) as X2.
  destruct (ReadFile (current id) w1) as [rc w2] eqn:E2. cbn [fst snd] in *. rewrite bind_attempt in H.
  set (old := match rc with Ok b => trim_space b | Err _ => "" end) in *.
  pose proof (fun x rest => activate_frame mf (version_dir id v) w2 id x rest Hid) as F3.
  destruct (activate g mf (version_dir id v) w2) as [ra w3] eqn:Ea. cbn [fst snd] in *.
  apply activate_spec in Ea as ((used & Hused) & Hclk & Hcases); [|done]. fold id v in Hcases. rewrite F2, X2, X1 in *.
  rewrite F1 in Hcases by done.
  assert (forall rest, w_fs w3 !! (version_dir id v ++ rest) = w_fs w !! (stage_dir id v ++ rest)) as Htree.
  { intros rest. rewrite <-Hmoved. repeat rewrite <-app_assoc. simpl. specialize (F3 "versions" (v :: rest) ltac:(done) ltac:(done)).
    repeat rewrite <-app_assoc in F3. simpl in F3. done. }
  destruct Hcases as [(-> & Hc & Hp & Hmd)|(e & -> & Hc)].
  - assert (plain_versions id (w_fs w3)) as Hpl3.
    { intros c Hcv. rewrite F3 in Hcv by done. destruct (decide (c = v)) as [->|Hne]; [done|].
      rewrite F1' in Hcv by done. by apply Hpl. }
    pose proof (retain_frame mf old w3 Hid Hpl3) as (R1 & R2 & R3). rewrite H in R1, R2, R3. simpl in R1, R2, R3. fold id v in R1, R2.
    assert (promoted mf w w') as Hprom by (unfold promoted; fold id v; split_and!; [by rewrite R1 | done | intros rest; by rewrite R2]).
    split; [auto|]. by right; left.
  - unfold bind, fail in H. pose proof (restore_spec mf old w3 Hid) as Hrest.
    pose proof (fun rest => restore_versions mf old w3 rest Hid) as Hver.
    destruct (restore g mf old w3) as [rr w4]. simpl in Hrest, Hver. fold id v in Hrest, Hver.
    assert (exists e', (Err e', w4) = (r, w')) as [e' He] by (destruct rr; eauto). simplify_eq. split; [done|].
    destruct Hrest as [Hr|(Hne & Hnv & oldMf & Ho1 & Ho2 & Ho3 & Ho4)].
    + destruct Hc as [Hc|[Hc Hp]]; [left; by rewrite Hr|]. right; left. unfold promoted. fold id v. split_and!; [by rewrite Hr|done|].
      intros rest. rewrite <-Htree. repeat rewrite <-(app_assoc (mdir id)). apply Hver.
    + right; right. destruct rc as [content|]; [|done]. apply observe_Ok in E2 as [_ E2].
      destruct (w_fs w1 !! current id) as [[c|]|] eqn:Ec; simplify_eq. rewrite F1 in Ec by done.
      exists content, oldMf. split_and!; [done..|by eapply passed_later|].
      intros Hs. destruct (Ho4 Hs) as (data & Hd & Hparse). exists data. split; [|done].
      rewrite <-Hd. repeat rewrite <-(app_assoc (mdir (m_ID mf))). cbn [app]. by rewrite F3, F1'.
Qed.

(** ** Staging *)

Notation staged_bin id v := (stage_dir id%string v ++ [binaryName g id%string]).

Lemma stage_path id v : safe_component id -> safe_component v -> Join (StagingDir g) [id; v] = stage_dir id v.
Proof. intros. apply Join_safe; [done | safe_list]. Qed.

Lemma stage_safe id v : safe_component id -> safe_component v -> safe_path (stage_dir id v).
Proof. intros. apply Forall_app. split; [done | safe_list]. Qed.

Lemma module_binary_safe id : idRe id = true -> safe_component (binaryName g id).
Proof.
  intros H. unfold binaryName. destruct (Windows g); [|by apply idRe_safe].
  apply idRe_safe in H as (H1 & H2 & H3 & H4 & H5 & H6). split_and!.
  - by destruct id.
  - intros E. apply (f_equal String.length) in E. rewrite slength_app in E. simpl in E. lia.
  - intros E. apply (f_equal String.length) in E. rewrite slength_app in E. simpl in E. lia.
  - by rewrite contains_app, H4.
  - by rewrite contains_app, H5.
  - by rewrite contains_app, H6.
Qed.

Lemma srev_exe_json a b : a +++ ".exe" <> b +++ ".json".
Proof. intros E. apply (f_equal srev) in E. by rewrite !srev_sapp in E. Qed.

(** The binary's name is not one of the other two files of a version. *)
Lemma binaryName_own id b : idRe id = true -> binaryName g id <> b +++ ".json".
Proof.
  intros H. unfold binaryName. destruct (Windows g); [apply srev_exe_json|].
  intros ->. apply idRe_no_dot in H. rewrite contains_app in H. by rewrite orb_true_r in H.
Qed.

Lemma touches_copyFile src dst : touches (eq dst) (copyFile (S := S) src dst).
Proof. unfold copyFile. footprint; first [apply touches_Create | apply touches_Write]. Qed.
Lemma touches_WriteFile p t : touches (eq p) (@WriteFile (sys S) p t).
Proof. unfold WriteFile. footprint; first [apply touches_Create | apply touches_Write]. Qed.

Lemma copyFile_Ok src dst w u w' : copyFile src dst w = (Ok u, w') ->
  exists content, w_fs w !! src = Some (File content) /\ w_fs w' !! dst = Some (File content).
Proof.
  intros H. unfold copyFile in H. apply bind_Ok in H as (content & w1 & E1 & H).
  apply observe_Ok in E1 as [F1 E1]. apply bind_Ok in H as ([] & w2 & E2 & H). rewrite bind_attempt in H.
  destruct (Write dst content w2) as [[[]|] w3] eqn:E3; cbn [fst snd] in H.
  - exists content. pose proof (Create_Write_Ok _ _ _ _ _ _ _ E2 E3) as Hd.
    apply observe_Ok in H as [-> _]. split; [|done]. by go_inv E1.
  - by apply bind_Ok in H as (? & ? & _ & ?).
Qed.

Section Stage.
Context (mf : Manifest) (Hid : idRe (m_ID mf) = true) (Hv : safe_component (m_Version mf)).
Notation id := (m_ID mf).
Notation v := (m_Version mf).

Lemma stage_file_path name : safe_component name -> Join (stage_dir id v) [name] = stage_dir id v ++ [name].
Proof. intros H. apply Join_safe; [apply stage_safe; auto with go | safe_list]. Qed.

Lemma stageFiles_frame bin cfg :
  touches (fun q => below q (stage_dir id v) = true \/ below (stage_dir id v) q = true) (stageFiles (S := S) g mf bin cfg) /\
  keeps_ext (stageFiles (S := S) g mf bin cfg).
Proof.
  pose proof (module_binary_safe id Hid) as Hb. unfold stageFiles.
  rewrite stage_path, !stage_file_path by (done || auto with go || safe_list).
  split; [|unfold copyFile, verify_now; ext_pure].
  assert (forall name q, (stage_dir id v) ++ [name] = q -> below (stage_dir id v) q = true) as Hin
    by (intros name q <-; apply below_app).
  unfold verify_now. footprint; try apply touches_observe;
    (eapply touches_weaken;
     [first [apply touches_RemoveAll | apply touches_MkdirAll | apply touches_copyFile | apply touches_WriteFile]|]);
    intros q Hq; first [by left | by right | right; by eapply Hin].
Qed.

(** Outside the staging area, and in the installed modules in particular, staging
    changes nothing. *)
Lemma stageFiles_modules bin cfg w b :
  w_fs (snd (stageFiles (S := S) g mf bin cfg w)) !! (ModulesDir g ++ b) = w_fs w !! (ModulesDir g ++ b).
Proof.
  apply (proj1 (stageFiles_frame bin cfg)). intros [H|H]; apply below_up in H; by rewrite below_disjoint in H.
Qed.

(** A staged version: a directory whose binary is a copy of the given file and
    was accepted by the verifier in the very state staging ended in. *)
Lemma stageFiles_Ok bin cfg w stage w' : stageFiles (S := S) g mf bin cfg w = (Ok stage, w') ->
  stage = stage_dir id v /\ w_fs w' !! stage = Some Dir /\
  Verifier g (staged_bin id v) mf (w_fs w') = true /\
  w_fs w' !! (stage_dir id v ++ ["module.manifest.json"]) = Some (File (marshal_indent mf)) /\
  exists content, w_fs w' !! staged_bin id v = Some (File content) /\
    (below (stage_dir id v) bin = false -> w_fs w !! bin = Some (File content)).
Proof.
  pose proof (module_binary_safe id Hid) as Hb. intros H. unfold stageFiles in H.
  rewrite stage_path, !stage_file_path in H by (done || auto with go || safe_list).
  set (st := stage_dir id v) in *. set (sb := st ++ [binaryName g id]) in *.
  apply bind_Ok in H as ([] & w1 & E1 & H). apply bind_Ok in H as ([] & w2 & E2 & H).
  apply bind_Ok in H as ([] & w3 & E3 & H). apply bind_Ok in H as ([] & w4 & E4 & H).
  apply bind_Ok in H as ([] & w5 & E5 & H). rewrite bind_attempt in H.
  pose proof (touches_none _ w5 (touches_observe _ _) : w_fs (snd (verify_now g sb mf w5)) = _) as F6.
  destruct (verify_now g sb mf w5) as [rv w6] eqn:E6. cbn [fst snd] in *.
  assert (rv = Ok true /\ stage = st /\ w' = w6) as (-> & -> & ->).
  { destruct rv as [[]|]; [by unfold ret in H; simplify_eq|..]; by apply bind_Ok in H as (? & ? & _ & ?). }
  apply observe_Ok in E6 as [_ E6]. injection E6 as Hver. rewrite F6.
  assert (forall b name, b +++ ".json" = name -> sb <> st ++ [name]) as Hne.
  { intros b name <- E. apply app_inv_head in E. simplify_eq. by apply (binaryName_own id b Hid). }
  assert (forall A (c : M (sys S) A) name (x y : world (sys S)) a, c x = (Ok a, y) -> touches (eq (st ++ [name])) c ->
    w_fs y !! st = w_fs x !! st /\ (sb <> st ++ [name] -> w_fs y !! sb = w_fs x !! sb)) as Hframe.
  { intros A c name x y a E Ht. change y with (snd (@Ok errno A a, y)). rewrite <-E. split; [|intros Hn]; apply Ht; [|by intros <-].
    intros Heq. apply (f_equal length) in Heq. rewrite length_app in Heq. simpl in Heq. lia. }
  apply copyFile_Ok in E3 as Hcopy. destruct Hcopy as (content & Hsrc & Hdst).
  assert (w_fs w2 !! st = Some Dir) as Hdir by (eapply MkdirAll_Ok; [done|]; by destruct (StagingDir g)).
  destruct (Hframe _ _ _ _ _ _ E3 (touches_copyFile _ _)) as [D3 _].
  assert (w_fs w4 !! st = w_fs w3 !! st /\ w_fs w4 !! sb = w_fs w3 !! sb) as [D4 B4].
  { destruct (Hframe _ _ "config.json" _ _ _ E4) as [? Hx]; [|split; [done|apply Hx; by apply (Hne "config")]].
    destruct cfg; footprint. apply touches_copyFile. }
  destruct (Hframe _ _ "module.manifest.json" _ _ _ E5 (touches_WriteFile _ _)) as [D5 B5].
  specialize (B5 (Hne "module.manifest" _ eq_refl)).
  split; [done|]. split; [congruence|]. split; [done|].
  split; [apply bind_Ok in E5 as (u & w4' & Ea & Eb); destruct u; by apply (Create_Write_Ok _ _ _ _ _ _ _ Ea Eb)|].
  exists content. split; [congruence|]. intros Hb2. transitivity (w_fs w1 !! bin).
  - symmetry. change w1 with (snd (@Ok errno unit tt, w1)). rewrite <-E1. apply touches_RemoveAll. cbv beta. by rewrite Hb2.
  - apply gradual_Ok in E2 as [_ E2]. destruct (mkdirs [] st (w_fs w1)) as [f2|] eqn:Em; [|done]. injection E2 as Ef.
    rewrite Ef in Em. destruct (mkdirs_lookup _ _ _ _ bin Em) as [E|[_ E]]; congruence.
Qed.
End Stage.

(** ** Installation *)

(** The module now at version [m_Version mf] runs a binary the verifier accepted
    for this very manifest, byte for byte. *)
Definition installed (mf : Manifest) (w w' : world (sys S)) : Prop :=
  w_fs w' !! current (m_ID mf) = Some (File (marker_line (m_Version mf))) /\ passed (w_ext w) /\
  exists content f, w_fs w' !! (version_dir (m_ID mf) (m_Version mf) ++ [binaryName g (m_ID mf)]) = Some (File content) /\
    f !! staged_bin (m_ID mf) (m_Version mf) = Some (File content) /\ Verifier g (staged_bin (m_ID mf) (m_Version mf)) mf f = true.

Lemma plain_of_safe id f : safe_fs f -> plain_versions id f.
Proof.
  intros Hsafe c Hcv. apply Hsafe in Hcv. unfold safe_path in Hcv. rewrite !Forall_app, !Forall_cons in Hcv. tauto.
Qed.

Lemma stage_and_promote mf bin cfg w r w' : Validate mf = Ok tt -> plain_versions (m_ID mf) (w_fs w) ->
  (stage <-! stageFiles g mf bin cfg ;; promote g mf stage) w = (r, w') ->
  (r = Ok tt -> installed mf w w' /\ w_fs w' !! mdir (m_ID mf) = Some Dir /\
     w_fs w' !! (version_dir (m_ID mf) (m_Version mf) ++ ["module.manifest.json"]) = Some (File (marshal_indent mf)) /\
     (below (stage_dir (m_ID mf) (m_Version mf)) bin = false ->
      w_fs w' !! (version_dir (m_ID mf) (m_Version mf) ++ [binaryName g (m_ID mf)]) = w_fs w !! bin)) /\
  (w_fs w' !! current (m_ID mf) = w_fs w !! current (m_ID mf) \/ installed mf w w' \/
   restored (m_ID mf) (m_Version mf) w w').
Proof.
  intros Hval Hsafe H. destruct (Validate_ids mf Hval) as (Hid & Hver & _). apply versionRe_safe in Hver.
  unfold bind in H. pose proof (stageFiles_modules mf Hid Hver bin cfg w) as F1.
  pose proof (proj2 (stageFiles_frame mf Hid Hver bin cfg) w) as X1.
  destruct (stageFiles g mf bin cfg w) as [[stage|e] w1] eqn:E1; cbn [fst snd] in F1, X1.
  2:{ simplify_eq. split; [done|]. left. repeat rewrite <-app_assoc. apply F1. }
  apply stageFiles_Ok in E1 as (-> & Hdir & Hv & Hmf & content & Hc & Hsrc); [|done..].
  assert (forall a b, w_fs w1 !! ((ModulesDir g ++ a) ++ b) = w_fs w !! ((ModulesDir g ++ a) ++ b)) as F1'
    by (intros; rewrite <-app_assoc; apply F1).
  apply promote_spec in H as [Hok Hcases]; [|by apply idRe_safe|done|done|].
  2:{ intros c Hcv. rewrite F1' in Hcv. by apply Hsafe. }
  assert (promoted mf w1 w' -> installed mf w w') as Hinst.
  { intros (P1 & P2 & P3). split_and!; [done|by rewrite <-X1|]. exists content, (w_fs w1). split_and!; [|done..]. by rewrite P3. }
  split.
  { intros Hr. destruct (Hok Hr) as [Hprom Hmd]. split; [auto|]. destruct Hprom as (_ & _ & P3).
    split; [done|]. split; [by rewrite P3|]. intros Hb. by rewrite P3, Hc, Hsrc. }
  destruct Hcases as [Hc'|[Hp|(ct & om & R1 & R2 & R3 & R4 & R5 & R6)]]; [left; by rewrite F1' in Hc'|auto|].
  right; right. exists ct, om. rewrite F1' in R1. split_and!; [done..|by rewrite <-X1|].
  intros Hs. destruct (R6 Hs) as (data & Hd & Hp). exists data. split; [|done].
  by rewrite <-(app_assoc (mdir (m_ID mf))), F1', (app_assoc (mdir (m_ID mf))) in Hd.
Qed.

(** The steps of [InstallLocal]: it stops before it writes anything, or it stages
    and promotes what a validated manifest names. *)
Lemma InstallLocal_steps dir w r w' : InstallLocal g dir w = (r, w') ->
  is_ok r = false /\ w_fs w' = w_fs w \/
  exists data mf bin w2 r2, w_fs w !! Join dir ["module.manifest.json"] = Some (File data) /\
    manifest.Parse data = Ok mf /\ Validate mf = Ok tt /\ w_fs w2 = w_fs w /\ w_ext w2 = w_ext w /\
    (stage <-! stageFiles g mf bin (Some (Join dir ["config.json"])) ;; promote g mf stage) w2 = (r2, w') /\
    (forall ver, r = Ok ver -> r2 = Ok tt /\ ver = m_Version mf).
Proof.
  intros H. unfold InstallLocal in H. unfold bind at 1 in H.
  destruct (loadManifest _ w) as [[mf|e] w1] eqn:E1; apply loadManifest_spec in E1 as (F1 & X1 & Hm);
    [|left; by simplify_eq].
  destruct (Hm _ eq_refl) as (data & Hd & Hparse & Hsid & Hsv).
  unfold bind at 1 in H. unfold findBinary in H.
  destruct (find_candidate_pure dir [binaryName g (m_ID mf); "module"; "module.exe"] w1) as [F2 X2].
  destruct (find_candidate _ _ w1) as [[bin|e] w2]; cbn [snd] in F2, X2; [|left; simplify_eq; by rewrite F2].
  right. exists data, mf, bin, w2.
  assert (Validate mf = Ok tt) as Hval.
  { unfold manifest.Parse in Hparse. bind_inv Hparse. simplify_eq. by destruct a0. }
  unfold bind in H |- *. destruct (stageFiles _ _ _ _ w2) as [[stage|e] w3].
  - destruct (promote _ _ _ w3) as [[[]|e] w4]; unfold ret in H; simplify_eq;
      eexists; (split_and!; [done..|congruence|congruence|done|]); intros; by simplify_eq.
  - simplify_eq. eexists. split_and!; [done..|congruence|congruence|done|]. done.
Qed.

(** C1. Installing from a directory, at every failure and crash point, either
    leaves the files as they were, or concerns the one module its validated
    manifest names, and that module's current marker is then untouched, or names
    the new version, whose health was observed without interruption for the
    stability period and whose installed binary is byte for byte one the verifier
    accepted for this manifest, or names the version that was current before.
    When success is reported it names the new version. *)
Theorem install_local_safe dir w r w' :
  safe_fs (w_fs w) -> InstallLocal g dir w = (r, w') ->
  (is_ok r = false /\ w_fs w' = w_fs w) \/
  exists data mf, w_fs w !! Join dir ["module.manifest.json"] = Some (File data) /\ manifest.Parse data = Ok mf /\
    (forall ver, r = Ok ver -> ver = m_Version mf /\ installed mf w w') /\
    (w_fs w' !! current (m_ID mf) = w_fs w !! current (m_ID mf) \/ installed mf w w' \/
     restored (m_ID mf) (m_Version mf) w w').
Proof.
  intros Hsafe H. apply InstallLocal_steps in H as [?|(data & mf & bin & w2 & r2 & Hd & Hparse & Hval & F & X & Hsp & Hr)];
    [by left|]. right. exists data, mf. split; [done|]. split; [done|].
  rewrite <-F in Hsafe. apply stage_and_promote in Hsp as [Hok Hcases]; [|done|by apply plain_of_safe].
  assert (installed mf w2 w' -> installed mf w w') as Hi by (unfold installed; by rewrite X).
  split; [intros ver Hver; destruct (Hr ver Hver) as [-> ->]; split; [done|]; by apply Hi, Hok|].
  rewrite F in Hcases. destruct Hcases as [?|[?|Hres]]; [by left|by right; left; auto|].
  right; right. unfold restored in *. by rewrite F, X in Hres.
Qed.

(** The documented guarantee that a failed promotion leaves no unproven
    version as current does not extend to reinstalling the version that is
    already current: the new files replace it before the gate, and when the gate
    fails nothing is put back, so that the marker still names the version while
    its directory holds the files that failed. *)
Theorem same_version_reinstall mf w w1 e w' content :
  let id := m_ID mf in let v := m_Version mf in
  safe_component id -> safe_component v -> w_fs w !! stage_dir id v = Some Dir ->
  w_fs w !! current id = Some (File content) -> trim_space content = v ->
  move_in (S := S) (stage_dir id v) (version_dir id v) w = (Ok tt, w1) ->
  promote g mf (stage_dir id v) w = (Err e, w') ->
  (w_fs w' !! current id = w_fs w !! current id \/ w_fs w' !! current id = Some (File (marker_line v))) /\
  forall rest, w_fs w' !! (version_dir id v ++ rest) = w_fs w !! (stage_dir id v ++ rest).
Proof.
  intros id v Hid Hv Hst Hcur Hold Hmove H. unfold promote in H. fold id v in H. rewrite moduleDir_path in H by done.
  rewrite !(Join_safe (mdir id)) in H by (by apply mdir_safe || safe_list).
  unfold bind at 1 in H. rewrite Hmove in H.
  apply move_in_spec in Hmove as (X1 & F1 & _ & Hmoved); [|done..]. specialize (Hmoved eq_refl).
  rewrite bind_attempt in H.
  pose proof (touches_none _ w1 (touches_ReadFile _ (current id))) as F2.
  destruct (ReadFile (current id) w1) as [rc w2] eqn:E2. cbn [fst snd] in *. rewrite bind_attempt in H.
  assert (match rc with Ok b => trim_space b | Err _ => "" end = "" \/
          match rc with Ok b => trim_space b | Err _ => "" end = v) as Ho.
  { destruct rc as [b|]; [|by left]. right. apply observe_Ok in E2 as [_ E2]. rewrite F1, Hcur in E2 by done. by simplify_eq. }
  set (old := match rc with Ok b => trim_space b | Err _ => "" end) in *.
  pose proof (fun rest => activate_frame mf (version_dir id v) w2 id "versions" (v :: rest) Hid) as F3.
  destruct (activate g mf (version_dir id v) w2) as [ra w3] eqn:Ea. cbn [fst snd] in *.
  apply activate_spec in Ea as (_ & _ & Hcases); [|done]. fold id v in Hcases. rewrite F2 in *.
  rewrite F1 in Hcases by done.
  assert (forall m, (negb (String.eqb old "") && negb (String.eqb old v)) = false -> restore (S := S) g mf old m = (Ok tt, m) /\
            retain (S := S) g mf old m = (Ok tt, m)) as Hno by (intros m E; unfold restore, retain; fold id v; by rewrite E).
  assert (negb (String.eqb old "") && negb (String.eqb old v) = false) as Hsame.
  { destruct Ho as [->| ->]; [done|]. rewrite String.eqb_refl. by rewrite andb_false_r. }
  assert (w' = w3) as ->.
  { destruct Hcases as [(-> & _)|(e' & -> & _)].
    - rewrite (proj2 (Hno w3 Hsame)) in H. by simplify_eq.
    - unfold bind, fail in H. rewrite (proj1 (Hno w3 Hsame)) in H. by simplify_eq. }
  split.
  - destruct Hcases as [(_ & Hc & _)|(e' & _ & [Hc|[Hc _]])]; auto.
  - intros rest. rewrite <-Hmoved. repeat rewrite <-(app_assoc (mdir id)). cbn [app]. by apply F3.
Qed.

(** *** Retention when nothing fails *)

Lemma prune_entries_calm id keep prev entries w : safe_component id -> calm w ->
  Forall (fun e => safe_component e.1) entries ->
  let w' := snd (prune_entries (S := S) (mdir id) keep prev entries w) in
  calm w' /\
  (forall q, w_fs w !! q = None -> w_fs w' !! q = None) /\
  forall c b, (c, b) ∈ entries -> c <> keep -> c <> prev -> w_fs w' !! (mdir id ++ ["versions"; c]) = None.
Proof.
  intros Hid Hc Hall. revert w Hc. induction Hall as [|[c b] es Hs Hall IH]; intros w Hcalm; simpl.
  { split_and!; [done..|]. intros c b Hin. by apply not_elem_of_nil in Hin. }
  set (first := if _ && _ then _ else _).
  assert (exists w1, first w = (Ok tt, w1) /\ calm w1 /\ (forall q, w_fs w !! q = None -> w_fs w1 !! q = None) /\
            (c <> keep -> c <> prev -> w_fs w1 !! (mdir id ++ ["versions"; c]) = None)) as (w1 & E & Hc1 & Hn1 & Hd1).
  { subst first. destruct (negb (String.eqb c keep) && negb (String.eqb c prev)) eqn:E0.
    2:{ exists w. split_and!; [done..|]. intros H1%String.eqb_neq H2%String.eqb_neq. by rewrite H1, H2 in E0. }
    rewrite Join_safe by (by apply mdir_safe || safe_list). unfold ignore, RemoveAll. rewrite gradual_calm by done. simpl.
    eexists. split; [done|]. split; [done|]. simpl. split.
    - intros q Hq. unfold remove_below. by rewrite map_lookup_filter, Hq.
    - intros _ _. apply remove_below_gone, below_refl. }
  unfold bind. rewrite E. destruct (IH w1 Hc1) as (I1 & I2 & I3). split_and!; [done|auto|].
  intros c' b' [?|Hin]%elem_of_cons H1 H2; [simplify_eq; auto | by eapply I3].
Qed.

(** Retention: pruning after a promotion never touches the new and the
    previous version or anything outside the versions directory, whatever fails;
    and when nothing fails those two are all that is left of it. *)
Theorem prune_retains id keep prev w :
  safe_component id -> plain_versions id (w_fs w) ->
  let w' := snd (prune (S := S) (mdir id) keep prev w) in
  (forall x rest, x <> "versions" -> w_fs w' !! (mdir id ++ x :: rest) = w_fs w !! (mdir id ++ x :: rest)) /\
  (forall c rest, c = keep \/ c = prev ->
     w_fs w' !! (mdir id ++ "versions" :: c :: rest) = w_fs w !! (mdir id ++ "versions" :: c :: rest)) /\
  (calm w -> w_fs w !! (mdir id ++ ["versions"]) = Some Dir ->
   forall c, is_Some (w_fs w' !! (mdir id ++ ["versions"; c])) -> c = keep \/ c = prev).
Proof.
  intros Hid Hp w'. destruct (prune_frame id keep prev w Hid Hp) as (P1 & P2 & _). split_and!; [done..|].
  intros Hcalm Hdir c Hc. unfold w', prune in Hc. rewrite versions_path, bind_attempt in Hc by done.
  unfold ReadDir in Hc. rewrite observe_calm in Hc by done. cbn [fst snd] in Hc.
  assert (is_dir (w_fs w) (mdir id ++ ["versions"]) = true) as Hd.
  { unfold is_dir. rewrite Hdir. destruct ((ModulesDir g ++ [id]) ++ ["versions"]); [done | by rewrite bool_decide_true]. }
  rewrite Hd in Hc.
  assert (Forall (fun e => safe_component e.1) (children (w_fs w) (mdir id ++ ["versions"]))) as Hall.
  { apply Forall_forall. intros [x b] Hin. by eapply plain_children. }
  destruct (prune_entries_calm id keep prev _ w Hid Hcalm Hall) as (_ & Hn & Hgone).
  destruct (decide (c = keep)), (decide (c = prev)); auto. exfalso.
  destruct (w_fs w !! (mdir id ++ ["versions"; c])) as [nd|] eqn:E.
  - assert ((c, bool_decide (nd = Dir)) ∈ children (w_fs w) (mdir id ++ ["versions"])) as Hin
      by (apply children_spec; exists nd; by rewrite <-app_assoc).
    rewrite (Hgone _ _ Hin) in Hc by done. by destruct Hc.
  - rewrite Hn in Hc by done. by destruct Hc.
Qed.
End Promote.

(** ** The channel *)

Section Channel.
Context {S : Type} {SB : store.StoreBackend S} {SL : store.StoreLaws S} {JM : JSON Manifest}.
Context {JK : JSON signing.PublicKey} {JS : JSON signing.Signature} {JC : JSON ChannelManifest}.
Context (ed_verify : string -> string -> string -> bool) (parse_rfc3339 : string -> option Z) (g : Manager).

(** A working store, for the calls the manager makes. *)
Definition store_works (c : store.call) : Prop :=
  store.ctx_done c = false /\
  forall v s, store.wf s -> is_ok (fst (store.Put c manifestSeqNamespace "sequence" v s)) = true.

Lemma lastSequence_view c s : store.wf s -> store.ctx_done c = false ->
  lastSequence c s = match store.view s manifestSeqNamespace "sequence" with
                     | Some raw => default 0 (parse_uint 64 (trim_space raw))
                     | None => 0
                     end.
Proof.
  intros Hwf Hl. unfold lastSequence. pose proof (store.Get_live c manifestSeqNamespace "sequence" s Hwf Hl) as Hg.
  destruct (store.Get _ _ _ s) as [o|] eqn:E; [|done]. apply store.Get_view in E; [|done]. subst o.
  by destruct (store.view _ _ _).
Qed.

Lemma digits_trimmed s : all_chars is_digit s = true -> trimmed s.
Proof. apply chars_trimmed; decide_now. Qed.

(** Persisting a sequence number and reading it back. *)
Lemma lastSequence_Put c s n : store.wf s -> store_works c -> 0 <= n < 2 ^ 64 ->
  let s' := snd (store.Put c manifestSeqNamespace "sequence" (format_uint n) s) in
  store.wf s' /\ lastSequence c s' = n.
Proof.
  intros Hwf [Hl Hp] Hn. specialize (Hp (format_uint n) s Hwf).
  destruct (store.Put _ _ _ _ s) as [r s'] eqn:E. simpl in *. apply store.Put_view in E as [Hwf' Hv]; [|done].
  split; [done|]. rewrite lastSequence_view by done. rewrite Hv, Hp, bool_decide_true by done. simpl.
  rewrite trim_space_trimmed_id by (apply digits_trimmed, format_uint_digits; lia). by rewrite parse_uint_format.
Qed.

Lemma fetchChannel_spec http root c now s r o :
  store.wf s -> store_works c -> fetchChannel ed_verify parse_rfc3339 http g root c now (Some s) = (r, o) ->
  exists s', o = Some s' /\ store.wf s' /\
  match r with
  | Err _ => s' = s
  | Ok ch =>
      (exists m ms k ks, fetch_one http g "manifest.json" = Some m /\
         signing.Verify ed_verify root (signing.mkBundle m ms k ks) = Ok ch) /\
      manifest.Expired parse_rfc3339 ch now = false /\ lastSequence c s <= c_Sequence ch /\
      (0 <= c_Sequence ch < 2 ^ 64 -> lastSequence c s' = c_Sequence ch)
  end.
Proof.
  intros Hwf Hw H. unfold fetchChannel in H.
  destruct (fetch_one http g "manifest.json") as [m|] eqn:E1; [|simplify_eq; eauto].
  destruct (fetch_one http g "manifest.json.sig") as [ms|] eqn:E2; [|simplify_eq; eauto].
  destruct (fetch_one http g "signing.pub") as [k|] eqn:E3; [|simplify_eq; eauto].
  destruct (fetch_one http g "signing.pub.sig") as [ks|] eqn:E4; [|simplify_eq; eauto].
  destruct (signing.Verify _ _ _) as [ch|] eqn:Ev; [|simplify_eq; eauto].
  destruct (manifest.Expired _ _ _) eqn:Ex; [simplify_eq; eauto|].
  destruct (Z.ltb_spec (c_Sequence ch) (lastSequence c s)); [simplify_eq; eauto|].
  destruct (Z.ltb_spec (lastSequence c s) (c_Sequence ch)).
  - simplify_eq. eexists. split; [done|].
    assert (store.wf (snd (store.Put c manifestSeqNamespace "sequence" (format_uint (c_Sequence ch)) s))) as Hwf'.
    { destruct (store.Put _ _ _ _ s) as [r2 s2] eqn:Ep. by apply store.Put_view in Ep as [? _]. }
    split; [done|]. split_and!; [by exists m, ms, k, ks|done|lia|]. intros Hr. by apply lastSequence_Put.
  - simplify_eq. exists s. split_and!; [done..|by exists m, ms, k, ks|done|lia|lia].
Qed.

(** Fetches one after the other, each with its own server answers and clock; the
    channels that were accepted. *)
Fixpoint fetch_all (root : string) (c : store.call) (fs : list ((string -> option (Z * string)) * Z)) (seq : option S) :
  list ChannelManifest :=
  match fs with
  | [] => []
  | (http, now) :: fs' =>
      let (r, seq') := fetchChannel ed_verify parse_rfc3339 http g root c now seq in
      match r with Ok ch => ch :: fetch_all root c fs' seq' | Err _ => fetch_all root c fs' seq' end
  end.


(** ** Installing from the channel *)

Context (sha256 : string -> string) (http : string -> option (Z * string)).
Hypothesis Hmods : safe_path (ModulesDir g).
Hypothesis Hstag : safe_path (StagingDir g).
Hypothesis Hdis1 : below (ModulesDir g) (StagingDir g) = false.
Hypothesis Hdis2 : below (StagingDir g) (ModulesDir g) = false.
Implicit Types w : world (sys S).

(** What [download] returns is a temporary file of the staging directory holding
    exactly the bytes the signed digest and size describe. *)
Lemma download_Ok url digest size w tmp w' : download (S := S) sha256 http g url digest size w = (Ok tmp, w') ->
  exists content, w_fs w' !! tmp = Some (File content) /\ Z.of_nat (String.length content) = size /\
    "sha256:" +++ hex_encode (sha256 content) = digest /\ temp_name (StagingDir g) "dl-" tmp /\
    (forall q, q <> tmp -> w_fs w' !! q = w_fs w !! q).
Proof.
  intros H. unfold download in H. destruct (http url) as [[code body]|]; [|done].
  destruct (negb (code =? 200)); [done|]. apply bind_Ok in H as (t & w1 & E1 & H).
  apply CreateTemp_Ok in E1 as (Hn & Ht & F1). rewrite bind_attempt in H.
  destruct (Write t (limited (size + 1) body) w1) as [rw w2] eqn:E2. cbn [fst snd] in H. rewrite bind_ignore in H.
  pose proof (touches_none _ w2 (touches_Close _ t)) as F3. set (w3 := snd (Close t w2)) in *.
  destruct rw as [[]|]; [|by apply bind_Ok in H as (? & ? & _ & ?)].
  destruct (Z.eqb_spec (Z.of_nat (String.length (limited (size + 1) body))) size) as [Hsz|]; cbn [negb] in H;
    [|by apply bind_Ok in H as (? & ? & _ & ?)].
  destruct (String.eqb_spec ("sha256:" +++ hex_encode (sha256 (limited (size + 1) body))) digest) as [Hdg|]; cbn [negb] in H;
    [|by apply bind_Ok in H as (? & ? & _ & ?)].
  unfold ret in H. simplify_eq. exists (limited (size + 1) body). rewrite F3.
  apply gradual_Ok in E2 as [_ E2]. injection E2 as E2. rewrite <-E2. unfold append_to. rewrite F1, lookup_insert_eq.
  split_and!; [apply lookup_insert_eq|done..|]. intros q Hq. by rewrite !lookup_insert_ne.
Qed.

(** C2. A channel install that reports success installed what was signed: the
    manifest verifies under the pinned root key and is not expired, the module,
    its version and the artifact for this host are the entries of that manifest,
    and the binary now installed as current has the signed size and digest. *)
Theorem install_signed c now moduleID version w ver w' :
  safe_fs (w_fs w) ->
  Install ed_verify parse_rfc3339 sha256 http g c now moduleID version w = (Ok ver, w') ->
  exists root b ch cm art content,
    RootPub g = Some root /\ signing.Verify ed_verify root b = Ok ch /\
    manifest.Expired parse_rfc3339 ch now = false /\
    cm ∈ c_Modules ch /\ cm_ID cm = moduleID /\ ver = cm_Version cm /\ (version <> "" -> ver = version) /\
    art ∈ cm_Artifacts cm /\ ca_OS art = GOOS g /\ ca_Arch art = GOARCH g /\
    Z.of_nat (String.length content) = ca_Size art /\ "sha256:" +++ hex_encode (sha256 content) = ca_Digest art /\
    w_fs w' !! ((ModulesDir g ++ [moduleID]) ++ ["current"]) = Some (File (marker_line ver)) /\
    w_fs w' !! (((ModulesDir g ++ [moduleID]) ++ ["versions"; ver]) ++ [binaryName g moduleID]) = Some (File content).
Proof.
  intros Hsafe H. unfold Install in H. destruct (RootPub g) as [root|] eqn:Er; [|done].
  destruct (String.eqb (ManifestURL g) ""); [done|]. apply bind_Ok in H as (x & w1 & E1 & H).
  injection E1 as <- <-. destruct (fetchChannel _ _ _ _ _ _ _ _) as [rc seq] eqn:Ef.
  apply bind_Ok in H as ([] & w1 & E1 & H). unfold upd_ext in E1. destruct (w_up w) eqn:Eup; [|done].
  injection E1 as E1. destruct rc as [ch|]; [|done].
  destruct (manifest.Module_ ch moduleID) as [cm|] eqn:Em; [|done].
  apply find_first_Some in Em as [Hcm Heq]. apply String.eqb_eq in Heq.
  destruct (negb (String.eqb version "") && negb (String.eqb (cm_Version cm) version)) eqn:Ever; [done|].
  destruct (ArtifactForHost _ _ _) as [art|] eqn:Ea; [|done].
  apply find_first_Some in Ea as [Hart Hhost]. apply andb_true_iff in Hhost as [Hos%String.eqb_eq Harch%String.eqb_eq].
  apply bind_Ok in H as (tmp & w2 & E2 & H). apply download_Ok in E2 as (content & Htmp & Hsz & Hdg & [n Hname] & F2).
  rewrite bind_attempt in H. set (mf := ModuleManifest cm [mkPlatform (GOOS g) (GOARCH g)]) in *.
  destruct (manifest.Validate mf) as [[]|] eqn:Ev; [|by apply bind_Ok in H as (? & ? & _ & ?)].
  destruct (bind _ _ w2) as [rp w3] eqn:E3. cbn [fst snd] in H. rewrite bind_ignore in H.
  destruct rp as [[]|]; [|done]. unfold ret in H. injection H as <- <-.
  assert (forall b, w_fs w2 !! (ModulesDir g ++ b) = w_fs w !! (ModulesDir g ++ b)) as Fm.
  { intros b. rewrite F2; [by rewrite <-E1|]. intros Heq'. pose proof (below_app (ModulesDir g) b) as Hb.
    rewrite Heq', Hname, below_disjoint in Hb by done. done. }
  apply stage_and_promote in E3 as [Hok _]; [|done..|].
  2:{ intros v Hv. repeat rewrite <-app_assoc in Hv. rewrite Fm, app_assoc in Hv. by eapply plain_of_safe. }
  destruct (Hok eq_refl) as ((Hcur & _) & _ & _ & Hbin).
  assert (forall a b, w_fs (snd (Remove tmp w3)) !! ((ModulesDir g ++ a) ++ b) = w_fs w3 !! ((ModulesDir g ++ a) ++ b)) as Frm.
  { intros a b. apply touches_Remove. rewrite Hname, <-app_assoc. intros Heq'. pose proof (below_app (StagingDir g) ["dl-" +++ format_uint n]) as Hb.
    rewrite Heq', below_disjoint in Hb by done. done. }
  assert (exists b, signing.Verify ed_verify root b = Ok ch /\ manifest.Expired parse_rfc3339 ch now = false) as (b & Hb & Hx).
  { clear -Ef. unfold fetchChannel in Ef. go_inv Ef; eauto. }
  exists root, b, ch, cm, art, content. subst moduleID. split_and!; try done.
  - intros Hv. apply String.eqb_neq in Hv. rewrite Hv in Ever. simpl in Ever. apply negb_false_iff, String.eqb_eq in Ever. done.
  - rewrite Frm. apply Hcur.
  - rewrite <-app_assoc, Frm, app_assoc. transitivity (w_fs w2 !! tmp); [|done]. apply Hbin. rewrite Hname, below_cat. 
    by apply below_shorter; simpl; lia.
Qed.
End Channel.

(** ** A concrete agent *)

Definition demo_manager : Manager :=
  mkManager ["m"] ["s"] false "linux" "amd64" (fun p _ f => bool_decide (f !! p = Some (File "good")))
    (Some "root-key") "https://ch" 0 0 supervise.demo_sup.
Definition demo_obs : list poll :=
  [mkPoll 1 (Some (supervise.StateStarting, None)) 1 false;
   mkPoll 2 (Some (supervise.StateRunning, Some supervise.HEALTHY)) 2 false;
   mkPoll 3 (Some (supervise.StateRunning, Some supervise.HEALTHY)) (4 * retry.second) false].
Definition demo_world (obs : list poll) (f : fs) : world (sys store.MemStore) :=
  mkWorld f [] true 7 (mkSys (supervise.mkRegistry true ∅) obs 0 (Some store.NewMemStore)).
Definition demo_files : fs := list_to_map [
  (["m"], Dir); (["s"], Dir); (["src"], Dir);
  (["src"; "module.manifest.json"], File "manifest"); (["src"; "sysinfo"], File "good")].
Definition demo_JM : JSON Manifest := signing.const_JSON sysinfo_manifest.

Lemma demo_mods : safe_path (ModulesDir demo_manager). Proof. safe_list. Qed.
Lemma demo_stag : safe_path (StagingDir demo_manager). Proof. safe_list. Qed.

Lemma demo_files_safe : safe_fs demo_files.
Proof.
  apply safe_fs_forall. vm_compute map_to_list. repeat (apply Forall_cons_2; [safe_list|]). apply Forall_nil_2.
Qed.

Definition demo_install : result errno string * world (sys store.MemStore) :=
  @InstallLocal store.MemStore demo_JM demo_manager ["src"] (demo_world demo_obs demo_files).

Example demo_installs : fst demo_install = Ok "1.2.3-rc.1".
Proof. by vm_compute. Qed.

Lemma install_local_safe_witness :
  is_ok (fst demo_install) = false /\ w_fs (snd demo_install) = demo_files \/
  exists data mf, demo_files !! ["src"; "module.manifest.json"] = Some (File data) /\ @manifest.Parse demo_JM data = Ok mf /\
    (forall ver, fst demo_install = Ok ver -> ver = m_Version mf /\
       installed demo_manager mf (demo_world demo_obs demo_files) (snd demo_install)) /\
    (w_fs (snd demo_install) !! ["m"; m_ID mf; "current"] = demo_files !! ["m"; m_ID mf; "current"] \/
     installed demo_manager mf (demo_world demo_obs demo_files) (snd demo_install) \/
     @restored store.MemStore demo_JM demo_manager (m_ID mf) (m_Version mf) (demo_world demo_obs demo_files) (snd demo_install)).
Proof.
  apply (@install_local_safe store.MemStore demo_JM demo_manager demo_mods demo_stag eq_refl eq_refl ["src"] (demo_world demo_obs demo_files)).
  - apply demo_files_safe.
  - apply surjective_pairing.
Defined.

(** The current version staged again, with files that never become healthy. *)
Definition demo_version : string := "1.2.3-rc.1".
Definition demo_again : fs := list_to_map [
  (["m"], Dir); (["m"; "sysinfo"], Dir); (["m"; "sysinfo"; "current"], File (marker_line demo_version));
  (["m"; "sysinfo"; "versions"], Dir); (["m"; "sysinfo"; "versions"; demo_version], Dir);
  (["m"; "sysinfo"; "versions"; demo_version; "sysinfo"], File "working");
  (["s"], Dir); (["s"; "sysinfo"], Dir); (["s"; "sysinfo"; demo_version], Dir);
  (["s"; "sysinfo"; demo_version; "sysinfo"], File "broken")].
Definition demo_reinstall : result errno unit * world (sys store.MemStore) :=
  @promote store.MemStore demo_JM demo_manager sysinfo_manifest ["s"; "sysinfo"; demo_version] (demo_world [] demo_again).

Lemma same_version_reinstall_witness :
  (w_fs (snd demo_reinstall) !! ["m"; "sysinfo"; "current"] = demo_again !! ["m"; "sysinfo"; "current"] \/
   w_fs (snd demo_reinstall) !! ["m"; "sysinfo"; "current"] = Some (File (marker_line demo_version))) /\
  forall rest, w_fs (snd demo_reinstall) !! (["m"; "sysinfo"; "versions"; demo_version] ++ rest) =
               demo_again !! (["s"; "sysinfo"; demo_version] ++ rest).
Proof.
  apply (@same_version_reinstall store.MemStore demo_JM demo_manager demo_mods eq_refl eq_refl sysinfo_manifest
           (demo_world [] demo_again)
           (snd (move_in ["s"; "sysinfo"; demo_version] ["m"; "sysinfo"; "versions"; demo_version] (demo_world [] demo_again)))
           (EMsg "promote failed health gate") (snd demo_reinstall) (marker_line demo_version)).
  - by repeat split.
  - by repeat split.
  - reflexivity.
  - reflexivity.
  - reflexivity.
  - vm_compute. reflexivity.
  - vm_compute. reflexivity.
Defined.

Definition demo_many : fs := list_to_map [
  (["m"], Dir); (["m"; "a"], Dir); (["m"; "a"; "versions"], Dir); (["m"; "a"; "versions"; "1"], Dir);
  (["m"; "a"; "versions"; "2"], Dir); (["m"; "a"; "versions"; "3"], Dir)].

Lemma prune_retains_witness :
  w_fs (snd (@prune store.MemStore ["m"; "a"] "3" "2" (demo_world [] demo_many))) !! ["m"; "a"; "versions"; "1"] = None.
Proof.
  apply eq_None_not_Some. intros H.
  apply (@prune_retains store.MemStore demo_manager demo_mods "a" "3" "2" (demo_world [] demo_many)) in H as [H|H].
  - discriminate H.
  - discriminate H.
  - by repeat split.
  - apply plain_of_safe, safe_fs_forall. vm_compute map_to_list. repeat (apply Forall_cons_2; [safe_list|]). apply Forall_nil_2.
  - done.
  - reflexivity.
Defined.

(** A channel server: the manifest document, and the rest of the bundle. *)
Definition serves (doc url : string) : option (Z * string) :=
  Some (200, if String.eqb url "https://ch/manifest.json" then doc
             else if String.eqb url "https://ch/signing.pub.sig" then "endorsement" else "x").
Definition with_sequence (n : Z) : ChannelManifest :=
  mkChannelManifest 1 "stable" "" n "" (mkProtocolWindow 1 1) [] (mkChannelCore "1.0.0" [])
    [mkChannelModule "sysinfo" "1.2.3" 1 "service" "system" ["platform.osinfo"] [] None
       [mkChannelArtifact "linux" "amd64" "https://dl/sysinfo" "sha256:676f6f64" 4]].
Definition demo_JC : JSON ChannelManifest :=
  Build_JSON ChannelManifest (fun _ => "") (fun _ => "") (fun s => Some (with_sequence (if String.eqb s "new" then 9 else 5))).
Definition demo_call : store.call := store.mkCall false None.

Definition demo_accepted : list ChannelManifest :=
  @fetch_all store.MemStore _ signing.demo_pk_JSON signing.demo_sig_JSON demo_JC (fun _ _ _ => true) (fun _ => None)
    demo_manager "root-key" demo_call [(serves "old", 1); (serves "new", 2); (serves "old", 3); (serves "new", 4)]
    (Some store.NewMemStore).

(** The replay is refused, the other three are accepted. *)
Example demo_replay_refused : c_Sequence <$> demo_accepted = [5; 9; 9].
Proof. by vm_compute. Qed.


Definition demo_sha (s : string) : string := s.
Definition demo_http (url : string) : option (Z * string) :=
  if String.eqb url "https://dl/sysinfo" then Some (200, "good") else serves "new" url.
Definition demo_channel_install : result errno string * world (sys store.MemStore) :=
  @Install store.MemStore _ demo_JM signing.demo_pk_JSON signing.demo_sig_JSON demo_JC (fun _ _ _ => true) (fun _ => None)
    demo_sha demo_http demo_manager demo_call 0 "sysinfo" "" (demo_world demo_obs demo_files).

Lemma demo_channel_ok : demo_channel_install = (Ok "1.2.3", snd demo_channel_install).
Proof.
  assert (fst demo_channel_install = Ok "1.2.3") as E by (by vm_compute). rewrite <-E. apply surjective_pairing.
Qed.

Lemma install_signed_witness :
  exists root b ch cm art content,
    RootPub demo_manager = Some root /\
    @signing.Verify signing.demo_pk_JSON signing.demo_sig_JSON demo_JC (fun _ _ _ => true) root b = Ok ch /\
    manifest.Expired (fun _ => None) ch 0 = false /\
    cm ∈ c_Modules ch /\ cm_ID cm = "sysinfo" /\ "1.2.3" = cm_Version cm /\ ("" <> "" -> "1.2.3" = "") /\
    art ∈ cm_Artifacts cm /\ ca_OS art = "linux" /\ ca_Arch art = "amd64" /\
    Z.of_nat (String.length content) = ca_Size art /\ "sha256:" +++ hex_encode (demo_sha content) = ca_Digest art /\
    w_fs (snd demo_channel_install) !! ["m"; "sysinfo"; "current"] = Some (File (marker_line "1.2.3")) /\
    w_fs (snd demo_channel_install) !! ["m"; "sysinfo"; "versions"; "1.2.3"; "sysinfo"] = Some (File content).
Proof.
  exact (@install_signed store.MemStore _ demo_JM signing.demo_pk_JSON signing.demo_sig_JSON demo_JC (fun _ _ _ => true) (fun _ => None)
    demo_manager demo_sha demo_http demo_mods demo_stag eq_refl eq_refl demo_call 0 "sysinfo" "" (demo_world demo_obs demo_files)
    "1.2.3" (snd demo_channel_install) demo_files_safe demo_channel_ok).
Defined.
End lifecycle.
