(* ===== verification/Concurrency.v ===== *)
(** * Control operations that overlap

    The control server answers its calls concurrently.  [locks] is the per-module
    lock of internal/lifecycle/lifecycle.go ([lockModule] and the [Lock] / [Unlock]
    of [InstallLocal], [Install] and [Rollback]): operations made of any number of
    small steps on a module's own part of the state are interleaved at will.
    [mark] takes [fetchChannel], which runs outside that lock, apart into its read
    and its write of the highest accepted sequence number. *)

From stdpp Require Import base list strings gmap.
From Stdlib Require Import ZArith Lia.
From S2P Require Import Prelude.
From S2P Require Import GoStrings.
From S2P Require Import StringOrder.
From S2P Require Import Json.
From S2P Require Import Manifest.
From S2P Require Import Signing.
From S2P Require Import Store.
From S2P Require Import Lifecycle.
Open Scope go_scope.
Open Scope Z_scope.

(** ** The per-module lock *)

Module locks.

(** [Manager.perModuleMu]: mutexes are their addresses, [fresh] the next one. *)
Record table := mkTable { perModuleMu : gmap string nat; fresh : nat }.

(** [lockModule]; its whole body is under [installMu]. *)
Definition lockModule (id : string) (t : table) : nat * table :=
  match perModuleMu t !! id with
  | Some mu => (mu, t)
  | None => (fresh t, mkTable (<[id := fresh t]> (perModuleMu t)) (S (fresh t)))
  end.

Section Threads.
(** [L] is what an operation keeps in its variables, [St] what one module has on the
    disk and in the supervisor's registry. *)
Context {L St : Type}.

(** An operation on one module: its first local state, and its steps until it
    returns. *)
Record op := mkOp { op_id : string; op_start : L; op_next : L -> St -> option (L * St) }.

Inductive at_ := Begun | Got (mu : nat) | Inside (mu : nat) (l : L) | Finished.
Record thread := mkThread { t_op : op; t_at : at_ }.

Record state := mkState {
  tbl : table; held : gset nat; parts : string -> St; threads : gmap nat thread;
  returned : list nat }.     (* the operations that are over, in the order they unlocked *)

Definition go (t : nat) (th : thread) (a : at_) (s : state) : state :=
  mkState (tbl s) (held s) (parts s) (<[t := mkThread (t_op th) a]> (threads s)) (returned s).
Definition set_part (id : string) (x : St) (f : string -> St) : string -> St :=
  fun i => if decide (i = id) then x else f i.

(** One step of thread [t]: fetch the lock, lock it, one step of the operation, or the
    deferred unlock. *)
Definition act (t : nat) (s : state) : option state :=
  th ← threads s !! t;
  match t_at th with
  | Begun =>
      let (mu, tbl') := lockModule (op_id (t_op th)) (tbl s) in
      Some (mkState tbl' (held s) (parts s) (<[t := mkThread (t_op th) (Got mu)]> (threads s)) (returned s))
  | Got mu =>
      if decide (mu ∈ held s) then None
      else Some (mkState (tbl s) ({[mu]} ∪ held s) (parts s)
                   (<[t := mkThread (t_op th) (Inside mu (op_start (t_op th)))]> (threads s)) (returned s))
  | Inside mu l =>
      let id := op_id (t_op th) in
      match op_next (t_op th) l (parts s id) with
      | Some (l', x) =>
          Some (mkState (tbl s) (held s) (set_part id x (parts s))
                  (<[t := mkThread (t_op th) (Inside mu l')]> (threads s)) (returned s))
      | None => Some (mkState (tbl s) (held s ∖ {[mu]}) (parts s) (<[t := mkThread (t_op th) Finished]> (threads s))
                        (returned s ++ [t]))
      end
  | Finished => None
  end.
Definition acts (ts : list nat) (s : state) : option state := foldl (fun o t => o ≫= act t) (Some s) ts.

(** The operations of [ops], about to begin on [init]. *)
Definition begin (ops : list op) (init : string -> St) : state :=
  mkState (mkTable ∅ 0) ∅ init (map_seq 0 ((fun o => mkThread o Begun) <$> ops)) [].

(** ** What it should mean: one operation after the other *)

(** Some steps of an operation, and all of them. *)
Inductive goes (o : op) : L -> St -> L -> St -> Prop :=
| goes_refl l x : goes o l x l x
| goes_snoc l x l1 x1 l2 x2 : goes o l x l1 x1 -> op_next o l1 x1 = Some (l2, x2) -> goes o l x l2 x2.
Definition runs (o : op) (x x' : St) : Prop := exists l, goes o (op_start o) x l x' /\ op_next o l x' = None.
Inductive serial : list op -> St -> St -> Prop :=
| serial_nil x : serial [] x x
| serial_snoc os o x x1 x2 : serial os x x1 -> runs o x1 x2 -> serial (os ++ [o]) x x2.

(** The operations on one module that are over, in order. *)
Definition on_id (id : string) (o : op) : option op := if decide (op_id o = id) then Some o else None.
Definition over (id : string) (s : state) : list op :=
  omap (fun t => (t_op <$> threads s !! t) ≫= on_id id) (returned s).

(** ** Proof *)

Definition inside (s : state) (t : nat) (mu : nat) (l : L) : Prop :=
  exists th, threads s !! t = Some th /\ t_at th = Inside mu l.

Record inv (init : string -> St) (s : state) : Prop := {
  (* the table hands out one address per id *)
  i_inj : forall id id' mu, perModuleMu (tbl s) !! id = Some mu -> perModuleMu (tbl s) !! id' = Some mu -> id = id';
  i_fresh : forall id mu, perModuleMu (tbl s) !! id = Some mu -> (mu < fresh (tbl s))%nat;
  i_got : forall t th mu, threads s !! t = Some th -> t_at th = Got mu \/ (exists l, t_at th = Inside mu l) ->
    perModuleMu (tbl s) !! op_id (t_op th) = Some mu;
  (* a mutex is held exactly by the one thread inside *)
  i_held : forall t mu l, inside s t mu l -> mu ∈ held s;
  i_owner : forall mu, mu ∈ held s -> exists t l, inside s t mu l;
  i_one : forall t t' mu l l', inside s t mu l -> inside s t' mu l' -> t = t';
  i_over : forall t, t ∈ returned s <-> exists th, threads s !! t = Some th /\ t_at th = Finished;
  i_nodup : NoDup (returned s);
  (* each module's part is where the operations on it, in order, have brought it *)
  i_part : forall id, exists x, serial (over id s) (init id) x /\
    ((exists t th mu l, threads s !! t = Some th /\ op_id (t_op th) = id /\ t_at th = Inside mu l /\
        goes (t_op th) (op_start (t_op th)) x l (parts s id)) \/
     ((forall t th mu l, threads s !! t = Some th -> op_id (t_op th) = id -> t_at th <> Inside mu l) /\ parts s id = x)) }.

Lemma threads_begin ops init t th : threads (begin ops init) !! t = Some th -> t_at th = Begun.
Proof.
  simpl. intros H. apply lookup_map_seq_Some in H as [_ H]. rewrite list_lookup_fmap in H.
  destruct (ops !! _); simplify_eq/=. done.
Qed.

Lemma lock_inv_begin ops init : inv init (begin ops init).
Proof.
  constructor; simpl.
  - intros id id' mu. by rewrite lookup_empty.
  - intros id mu. by rewrite lookup_empty.
  - intros t th mu H. apply (threads_begin ops init) in H. rewrite H. by intros [|[]].
  - intros t mu l (th & H & Ha). apply (threads_begin ops init) in H. congruence.
  - intros mu H. set_solver.
  - intros t t' mu l l' (th & H & Ha). apply (threads_begin ops init) in H. congruence.
  - intros t. rewrite elem_of_nil. split; [done|]. intros (th & H & Ha). apply (threads_begin ops init) in H. congruence.
  - constructor.
  - intros id. exists (init id). split; [constructor|]. right. split; [|done].
    intros t th mu l H _. apply (threads_begin ops init) in H. congruence.
Qed.

(** A step of [t] changes its position and no operation. *)
Lemma ops_insert (m : gmap nat thread) t th a t' : m !! t = Some th ->
  t_op <$> <[t := mkThread (t_op th) a]> m !! t' = t_op <$> m !! t'.
Proof.
  intros H. destruct (decide (t = t')) as [<-|]; [|by rewrite lookup_insert_ne].
  by rewrite lookup_insert_eq, H.
Qed.

Lemma over_ext id s s' : returned s' = returned s ->
  (forall t, t_op <$> threads s' !! t = t_op <$> threads s !! t) -> over id s' = over id s.
Proof.
  intros Hr Ht. unfold over. rewrite Hr. clear Hr. induction (returned s) as [|t l IH]; [done|].
  cbn [omap list_omap]. rewrite Ht. destruct (_ ≫= on_id id); [f_equal|]; exact IH.
Qed.

Lemma at_insert (m : gmap nat thread) t th a t' th' : m !! t = Some th ->
  <[t := mkThread (t_op th) a]> m !! t' = Some th' ->
  t' = t /\ th' = mkThread (t_op th) a \/ t' <> t /\ m !! t' = Some th'.
Proof.
  intros H. destruct (decide (t' = t)) as [->|]; [|by rewrite lookup_insert_ne by done; right].
  rewrite lookup_insert_eq. intros [= <-]. by left.
Qed.

Section Step.
Context (init : string -> St) (s : state) (t : nat) (th : thread).
Context (Hi : inv init s) (Ht : threads s !! t = Some th).

(** A thread whose position is neither inside before nor after, nor finished. *)
Lemma part_outside tbl' hd a id : (forall mu l, t_at th <> Inside mu l) -> (forall mu l, a <> Inside mu l) ->
  let s' := mkState tbl' hd (parts s) (<[t := mkThread (t_op th) a]> (threads s)) (returned s) in
  exists x, serial (over id s') (init id) x /\
    ((exists t th mu l, threads s' !! t = Some th /\ op_id (t_op th) = id /\ t_at th = Inside mu l /\
        goes (t_op th) (op_start (t_op th)) x l (parts s' id)) \/
     ((forall t th mu l, threads s' !! t = Some th -> op_id (t_op th) = id -> t_at th <> Inside mu l) /\ parts s' id = x)).
Proof using Hi Ht.
  intros Hb Ha s'. destruct (i_part _ _ Hi id) as (x & Hs & Hx). exists x.
  rewrite (over_ext id s s') by (try done; intros t'; by apply ops_insert). split; [done|]. simpl.
  destruct Hx as [(t' & th' & mu & l & H1 & H2 & H3 & H4)|[H1 H2]]; [left|right].
  - exists t', th', mu, l. rewrite lookup_insert_ne; [done|]. intros <-. rewrite Ht in H1. simplify_eq. by apply (Hb mu l).
  - split; [|done]. intros t' th' mu l H Hid.
    apply (at_insert _ _ _ _ _ _ Ht) in H as [[-> ->]|[_ H]]; [apply Ha|by eapply H1].
Qed.

Lemma inv_fetch mu tbl' : t_at th = Begun -> lockModule (op_id (t_op th)) (tbl s) = (mu, tbl') ->
  inv init (mkState tbl' (held s) (parts s) (<[t := mkThread (t_op th) (Got mu)]> (threads s)) (returned s)).
Proof using Hi Ht.
  intros Hb Hl. pose proof Hi as [I1 I2 I3 I4 I5 I6 I7 I8 _].
  assert (perModuleMu tbl' !! op_id (t_op th) = Some mu /\
    (forall id k, perModuleMu (tbl s) !! id = Some k -> perModuleMu tbl' !! id = Some k) /\
    (forall id id' k, perModuleMu tbl' !! id = Some k -> perModuleMu tbl' !! id' = Some k -> id = id') /\
    (forall id k, perModuleMu tbl' !! id = Some k -> (k < fresh tbl')%nat)) as (L1 & L2 & L3 & L4).
  { unfold lockModule in Hl. destruct (perModuleMu (tbl s) !! _) as [k|] eqn:E; simplify_eq/=; [by split_and!|].
    split_and!.
    - apply lookup_insert_eq.
    - intros id k H. rewrite lookup_insert_ne; [done|]. congruence.
    - intros id id' k. rewrite !lookup_insert_Some.
      intros [[<- <-]|[_ H]] [[<- ?]|[_ H']]; [done|apply I2 in H'; lia|apply I2 in H; lia|by eapply I1].
    - intros id k. rewrite lookup_insert_Some. intros [[_ <-]|[_ H]]; [lia|]. apply I2 in H. lia. }
  assert (forall t' k l, inside (mkState tbl' (held s) (parts s) (<[t := mkThread (t_op th) (Got mu)]> (threads s)) (returned s)) t' k l
    <-> inside s t' k l) as Hin.
  { intros t' k l. unfold inside. simpl. split; intros (th' & H & Ha).
    - apply (at_insert _ _ _ _ _ _ Ht) in H as [[-> ->]|[_ H]]; [done|eauto].
    - exists th'. rewrite lookup_insert_ne; [done|]. intros <-. congruence. }
  constructor; simpl; try setoid_rewrite Hin; try done.
  - intros t' th' k H Ha. apply (at_insert _ _ _ _ _ _ Ht) in H as [[-> ->]|[_ H]]; simpl in *.
    + by destruct Ha as [Ha|[l Ha]]; simplify_eq.
    + eapply L2, I3; eauto.
  - intros t'. rewrite I7. split; intros (th' & H & Ha).
    + exists th'. rewrite lookup_insert_ne; [done|]. intros <-. congruence.
    + apply (at_insert _ _ _ _ _ _ Ht) in H as [[-> ->]|[_ H]]; [done|eauto].
  - intros id. apply part_outside; congruence.
Qed.

Lemma inv_lock mu : t_at th = Got mu -> mu ∉ held s ->
  inv init (mkState (tbl s) ({[mu]} ∪ held s) (parts s)
    (<[t := mkThread (t_op th) (Inside mu (op_start (t_op th)))]> (threads s)) (returned s)).
Proof using Hi Ht.
  intros Hg Hmu. pose proof Hi as [I1 I2 I3 I4 I5 I6 I7 I8 I9].
  assert (forall t' k l, inside (mkState (tbl s) ({[mu]} ∪ held s) (parts s)
      (<[t := mkThread (t_op th) (Inside mu (op_start (t_op th)))]> (threads s)) (returned s)) t' k l <->
    (t' = t /\ k = mu /\ l = op_start (t_op th)) \/ inside s t' k l) as Hin.
  { intros t' k l. unfold inside. simpl. split.
    - intros (th' & H & Ha). apply (at_insert _ _ _ _ _ _ Ht) in H as [[-> ->]|[_ H]]; [|eauto]. simpl in Ha. simplify_eq. auto.
    - intros [(-> & -> & ->)|(th' & H & Ha)].
      + eexists. by rewrite lookup_insert_eq.
      + exists th'. rewrite lookup_insert_ne; [done|]. intros <-. congruence. }
  constructor; simpl; try setoid_rewrite Hin; try done.
  - intros t' th' k H Ha. apply (at_insert _ _ _ _ _ _ Ht) in H as [[-> ->]|[_ H]]; simpl in *; [|by eapply I3].
    destruct Ha as [Ha|[l Ha]]; simplify_eq. by eapply I3; [|left].
  - intros t' k l [(_ & -> & _)|H]; [set_solver|]. apply I4 in H. set_solver.
  - intros k Hk. apply elem_of_union in Hk as [->%elem_of_singleton|Hk]; [by exists t, (op_start (t_op th)); left|].
    destruct (I5 _ Hk) as (t' & l & H). exists t', l. by right.
  - intros t1 t2 k l1 l2 [(-> & -> & ->)|H1] [(-> & E & ->)|H2]; [done| | |by eapply I6].
    + apply I4 in H2. done.
    + subst. apply I4 in H1. done.
  - intros t'. rewrite I7. split; intros (th' & H & Ha).
    + exists th'. rewrite lookup_insert_ne; [done|]. intros <-. congruence.
    + apply (at_insert _ _ _ _ _ _ Ht) in H as [[-> ->]|[_ H]]; [done|eauto].
  - intros id. destruct (I9 id) as (x & Hs & Hx). exists x.
    match goal with |- serial (over id ?s') _ _ /\ _ => rewrite (over_ext id s s') by (try done; intros t'; by apply ops_insert) end.
    split; [done|]. destruct (decide (op_id (t_op th) = id)) as [Hid|Hid].
    + assert (forall t' th' k l, threads s !! t' = Some th' -> op_id (t_op th') = id -> t_at th' <> Inside k l) as Hno.
      { intros t' th' k l H Hid' Ha. apply Hmu. assert (k = mu) as ->; [|by apply (I4 t' mu l); exists th'].
        assert (perModuleMu (tbl s) !! op_id (t_op th') = Some k) by (eapply I3; eauto).
        assert (perModuleMu (tbl s) !! op_id (t_op th) = Some mu) by (eapply I3; eauto). congruence. }
      left. destruct Hx as [(t' & th' & k & l & H1 & H2 & H3 & _)|[_ Hx]]; [by destruct (Hno t' th' k l)|].
      exists t, (mkThread (t_op th) (Inside mu (op_start (t_op th)))), mu, (op_start (t_op th)).
      rewrite lookup_insert_eq. simpl. rewrite Hx. split_and!; [done..|constructor].
    + destruct Hx as [(t' & th' & k & l & H1 & H2 & H3 & H4)|[H1 H2]]; [left|right].
      * exists t', th', k, l. rewrite lookup_insert_ne; [done|]. intros <-. congruence.
      * split; [|done]. intros t' th' k l H Hid'.
        apply (at_insert _ _ _ _ _ _ Ht) in H as [[-> ->]|[_ H]]; [done|by eapply H1].
Qed.

(** A step inside: the only thread that is on this module is this one. *)
Lemma alone mu l t' th' k l' : t_at th = Inside mu l ->
  threads s !! t' = Some th' -> op_id (t_op th') = op_id (t_op th) -> t_at th' = Inside k l' -> t' = t.
Proof using Hi Ht.
  intros Ha H Hid Ha'. assert (k = mu) as ->.
  { assert (perModuleMu (tbl s) !! op_id (t_op th') = Some k) by (eapply (i_got _ _ Hi); eauto).
    assert (perModuleMu (tbl s) !! op_id (t_op th) = Some mu) by (eapply (i_got _ _ Hi); eauto). congruence. }
  eapply (i_one _ _ Hi); [exists th'|exists th]; eauto.
Qed.

Lemma inv_work mu l l' x : t_at th = Inside mu l -> op_next (t_op th) l (parts s (op_id (t_op th))) = Some (l', x) ->
  inv init (mkState (tbl s) (held s) (set_part (op_id (t_op th)) x (parts s))
    (<[t := mkThread (t_op th) (Inside mu l')]> (threads s)) (returned s)).
Proof using Hi Ht.
  intros Ha Hn. pose proof Hi as [I1 I2 I3 I4 I5 I6 I7 I8 I9].
  set (s' := mkState _ _ _ _ _).
  assert (forall t' k m, inside s' t' k m -> exists m', inside s t' k m') as Hin.
  { intros t' k m (th' & H & Hm). apply (at_insert _ _ _ _ _ _ Ht) in H as [[-> ->]|[_ H]]; [|by exists m, th'].
    simpl in Hm. simplify_eq. by exists l, th. }
  constructor; simpl; try done.
  - intros t' th' k H Hk. apply (at_insert _ _ _ _ _ _ Ht) in H as [[-> ->]|[_ H]]; simpl in *; [|by eapply I3].
    destruct Hk as [Hk|[m Hk]]; simplify_eq. eapply I3; eauto.
  - intros t' k m H. apply Hin in H as [m' H]. by eapply I4.
  - intros k Hk. destruct (I5 _ Hk) as (t' & m & th' & H & Hm). destruct (decide (t' = t)) as [->|].
    + simplify_eq. rewrite Ha in Hm. simplify_eq. exists t, l', (mkThread (t_op th) (Inside k l')). unfold s'. simpl. by rewrite lookup_insert_eq.
    + exists t', m, th'. unfold s'. simpl. by rewrite lookup_insert_ne.
  - intros t1 t2 k m1 m2 [m1' H1]%Hin [m2' H2]%Hin. by eapply I6.
  - intros t'. rewrite I7. split; intros (th' & H & Hf).
    + exists th'. rewrite lookup_insert_ne; [done|]. intros <-. congruence.
    + apply (at_insert _ _ _ _ _ _ Ht) in H as [[-> ->]|[_ H]]; [done|eauto].
  - intros id. destruct (I9 id) as (y & Hs & Hy). exists y.
    rewrite (over_ext id s s') by (try done; intros t'; by apply ops_insert).
    split; [done|]. unfold set_part. destruct (decide (id = op_id (t_op th))) as [->|Hid].
    + left. exists t, (mkThread (t_op th) (Inside mu l')), mu, l'. rewrite lookup_insert_eq. split_and!; [done..|].
      simpl. eapply goes_snoc; [|exact Hn].
      destruct Hy as [(t' & th' & k & m & H1 & H2 & H3 & H4)|[H1 _]]; [|by destruct (H1 _ _ mu l Ht eq_refl)].
      assert (t' = t) as -> by (eapply alone; eauto). simplify_eq. rewrite Ha in H3. by simplify_eq.
    + destruct Hy as [(t' & th' & k & m & H1 & H2 & H3 & H4)|[H1 H2]]; [left|right].
      * exists t', th', k, m. rewrite lookup_insert_ne; [done|]. intros <-. congruence.
      * split; [|done]. intros t' th' k m H Hid'.
        apply (at_insert _ _ _ _ _ _ Ht) in H as [[-> ->]|[_ H]]; [by simpl in Hid'; subst|by eapply H1].
Qed.

Lemma over_returned id : t ∉ returned s ->
  let s' := mkState (tbl s) (held s) (parts s) (<[t := mkThread (t_op th) Finished]> (threads s)) (returned s ++ [t]) in
  over id s' = over id s ++ (if decide (op_id (t_op th) = id) then [t_op th] else []).
Proof using Ht.
  intros _ s'. set (s1 := mkState (tbl s) (held s) (parts s) (threads s') (returned s)).
  transitivity (over id s1 ++ omap (fun t => (t_op <$> threads s' !! t) ≫= on_id id) [t]); [apply omap_app|].
  rewrite (over_ext id s s1) by (try done; intros t'; by apply ops_insert). f_equal.
  unfold s'. simpl. rewrite lookup_insert_eq. simpl. unfold on_id. by case_decide.
Qed.

Lemma inv_unlock mu l : t_at th = Inside mu l -> op_next (t_op th) l (parts s (op_id (t_op th))) = None ->
  inv init (mkState (tbl s) (held s ∖ {[mu]}) (parts s) (<[t := mkThread (t_op th) Finished]> (threads s)) (returned s ++ [t])).
Proof using Hi Ht.
  intros Ha Hn. pose proof Hi as [I1 I2 I3 I4 I5 I6 I7 I8 I9].
  set (s' := mkState _ _ _ _ _).
  assert (t ∉ returned s) as Hnew by (rewrite I7; intros (th' & H & Hf); congruence).
  assert (forall t' k m, inside s' t' k m <-> t' <> t /\ inside s t' k m) as Hin.
  { intros t' k m. unfold inside. simpl. split.
    - intros (th' & H & Hm). apply (at_insert _ _ _ _ _ _ Ht) in H as [[-> ->]|[? H]]; [done|eauto].
    - intros (Hne & th' & H & Hm). exists th'. by rewrite lookup_insert_ne. }
  constructor; simpl; try setoid_rewrite Hin; try done.
  - intros t' th' k H Hk. apply (at_insert _ _ _ _ _ _ Ht) in H as [[-> ->]|[_ H]]; simpl in *; [|by eapply I3].
    by destruct Hk as [Hk|[m Hk]].
  - intros t' k m [Hne H]. apply elem_of_difference. split; [by eapply I4|]. intros ->%elem_of_singleton.
    apply Hne. eapply I6; [exact H|]. by exists th.
  - intros k [Hk Hne]%elem_of_difference. destruct (I5 _ Hk) as (t' & m & H). exists t', m. split; [|done].
    intros ->. destruct H as (th' & H & Hm). simplify_eq. rewrite Ha in Hm. simplify_eq. set_solver.
  - intros t1 t2 k m1 m2 [_ H1] [_ H2]. by eapply I6.
  - intros t'. rewrite elem_of_app, list_elem_of_singleton, I7. split.
    + intros [(th' & H & Hf)| ->]; [|eexists; by rewrite lookup_insert_eq].
      exists th'. rewrite lookup_insert_ne; [done|]. intros <-. congruence.
    + intros (th' & H & Hf). apply (at_insert _ _ _ _ _ _ Ht) in H as [[-> ->]|[_ H]]; eauto.
  - apply NoDup_app. split_and!; [done| |apply NoDup_singleton]. intros x Hx ->%list_elem_of_singleton. done.
  - intros id. destruct (I9 id) as (y & Hs & Hy).
    change (over id s') with (over id (mkState (tbl s) (held s) (parts s) (<[t := mkThread (t_op th) Finished]> (threads s)) (returned s ++ [t]))).
    rewrite (over_returned id Hnew). case_decide as Hid.
    + exists (parts s id). split.
      * econstructor; [exact Hs|]. exists l. subst id. split; [|done].
        destruct Hy as [(t' & th' & k & m & H1 & H2 & H3 & H4)|[H1 _]]; [|by destruct (H1 _ _ mu l Ht eq_refl)].
        assert (t' = t) as -> by (eapply alone; eauto). simplify_eq. rewrite Ha in H3. by simplify_eq.
      * right. split; [|done]. intros t' th' k m H Hid' Hm.
        apply (at_insert _ _ _ _ _ _ Ht) in H as [[-> ->]|[Hne H]]; [done|]. apply Hne. eapply alone; eauto. congruence.
    + rewrite app_nil_r. exists y. split; [done|].
      destruct Hy as [(t' & th' & k & m & H1 & H2 & H3 & H4)|[H1 H2]]; [left|right].
      * exists t', th', k, m. rewrite lookup_insert_ne; [done|]. intros <-. congruence.
      * split; [|done]. intros t' th' k m H Hid'.
        apply (at_insert _ _ _ _ _ _ Ht) in H as [[-> ->]|[_ H]]; [done|by eapply H1].
Qed.
End Step.

Lemma lock_inv_act init t s s' : inv init s -> act t s = Some s' -> inv init s'.
Proof.
  intros Hi. unfold act. destruct (threads s !! t) as [th|] eqn:Ht; [|done]. simpl.
  destruct (t_at th) as [|mu|mu l|] eqn:Ha; [| | |done].
  - destruct (lockModule _ _) as [mu tbl'] eqn:El. intros [= <-]. by apply inv_fetch.
  - case_decide; intros [= <-]. by apply inv_lock.
  - destruct (op_next _ _ _) as [[l' x]|] eqn:En; intros [= <-]; [by eapply inv_work|by eapply inv_unlock].
Qed.

Lemma lock_inv_acts init ts s s' : inv init s -> acts ts s = Some s' -> inv init s'.
Proof.
  intros Hi. revert s'. induction ts as [|t ts IH] using rev_ind; intros s' H; [by injection H as <-|].
  unfold acts in H. rewrite foldl_app in H. simpl in H. destruct (foldl _ _ ts) as [s1|] eqn:E; [|done].
  eapply lock_inv_act; [|exact H]. apply IH. exact E.
Qed.


(** And they do not block each other for ever: as long as an operation is not over,
    some thread can move. *)
Theorem control_no_deadlock ops init ts s t th :
  acts ts (begin ops init) = Some s -> threads s !! t = Some th -> t_at th <> Finished ->
  exists t' s', act t' s = Some s'.
Proof.
  intros H Ht Hf. apply (lock_inv_acts init) in H as Hi; [|apply lock_inv_begin].
  assert (forall t' th' mu l, threads s !! t' = Some th' -> t_at th' = Inside mu l -> exists s', act t' s = Some s') as Hin.
  { intros t' th' mu l H1 H2. unfold act. rewrite H1. simpl. rewrite H2. destruct (op_next _ _ _) as [[]|]; eauto. }
  destruct (t_at th) as [|mu|mu l|] eqn:Ha; [| | |done].
  - exists t. unfold act. rewrite Ht. simpl. rewrite Ha. destruct (lockModule _ _). eauto.
  - destruct (decide (mu ∈ held s)) as [Hm|Hm].
    + destruct (i_owner _ _ Hi _ Hm) as (t' & l & th' & H1 & H2). exists t'. by eapply Hin.
    + exists t. unfold act. rewrite Ht. simpl. rewrite Ha, decide_False by done. eauto.
  - exists t. by eapply Hin.
Qed.

(** No step changes which operation a thread runs. *)
Lemma act_ops t s s' i : act t s = Some s' -> t_op <$> threads s' !! i = t_op <$> threads s !! i.
Proof.
  unfold act. destruct (threads s !! t) as [th|] eqn:Ht; [|done]. simpl.
  destruct (t_at th) as [|mu|mu l|]; [| | |done].
  - destruct (lockModule _ _). intros [= <-]. by apply ops_insert.
  - case_decide; intros [= <-]. by apply ops_insert.
  - destruct (op_next _ _ _) as [[]|]; intros [= <-]; by apply ops_insert.
Qed.
Lemma acts_ops ts s s' i : acts ts s = Some s' -> t_op <$> threads s' !! i = t_op <$> threads s !! i.
Proof.
  revert s'. induction ts as [|t ts IH] using rev_ind; intros s' H; [by injection H as <-|].
  unfold acts in H. rewrite foldl_app in H. simpl in H. destruct (foldl _ _ ts) as [s1|] eqn:E; [|done].
  rewrite (act_ops t s1 s' i H). by apply IH.
Qed.
Lemma over_ops ops init ts s id o : acts ts (begin ops init) = Some s -> o ∈ over id s -> o ∈ ops /\ op_id o = id.
Proof.
  intros H Ho. unfold over in Ho. apply list_elem_of_omap in Ho as (t & _ & Ho).
  rewrite (acts_ops _ _ _ t H) in Ho. simpl in Ho. rewrite lookup_map_seq_0, list_lookup_fmap in Ho.
  destruct (ops !! t) as [o'|] eqn:E; [|done]. simpl in Ho. unfold on_id in Ho. case_decide; simplify_eq.
  split; [by eapply list_elem_of_lookup_2|done].
Qed.

Lemma serial_keeps (I : St -> Prop) os x y :
  (forall o a b, o ∈ os -> I a -> runs o a b -> I b) -> serial os x y -> I x -> I y.
Proof.
  intros Hk Hs. induction Hs as [|os o x x1 x2 _ IH Hr]; [done|]. intros Hx. refine (Hk o _ _ _ _ Hr); [set_solver|].
  apply IH; [|done]. intros o' a b Ho'. apply Hk. set_solver.
Qed.

(** What holds of the operations one at a time holds of overlapping calls: a property
    of a module's state that every operation on it, run by itself, brings about again
    holds whenever no operation is inside. *)
Theorem control_preserves (I : St -> Prop) ops init ts s id :
  acts ts (begin ops init) = Some s -> I (init id) ->
  (forall o a b, o ∈ ops -> op_id o = id -> I a -> runs o a b -> I b) ->
  (forall t th mu l, threads s !! t = Some th -> op_id (t_op th) = id -> t_at th <> Inside mu l) ->
  I (parts s id).
Proof.
  intros H Hi Hk Hno. apply (lock_inv_acts init) in H as Hinv; [|apply lock_inv_begin].
  destruct (i_part _ _ Hinv id) as (x & Hs & [(t & th & mu & l & H1 & H2 & H3 & _)|[_ ->]]); [by destruct (Hno t th mu l)|].
  eapply serial_keeps; [|exact Hs|done]. intros o a b Ho. destruct (over_ops _ _ _ _ _ _ H Ho). by apply Hk.
Qed.
End Threads.
Arguments op : clear implicits.
Arguments state : clear implicits.

(** *** Witnesses and an order that was not asked for *)

(** An install in three steps: note the current version, write the new one beside it,
    return. *)
Definition install (id version : string) : op (nat * string) (string * string) :=
  mkOp id (0%nat, "") (fun l x =>
    match l.1 with
    | 0%nat => Some ((1%nat, x.1), x)
    | 1%nat => Some ((2%nat, l.2), (version, l.2))
    | _ => None
    end).
Definition nothing : string -> string * string := fun _ => ("", "").
Definition two_installs : state (nat * string) (string * string) := begin [install "m" "1.0"; install "m" "2.0"; install "n" "5.0"] nothing.
Definition schedule : list nat := [0; 1; 2; 1; 2; 1; 2; 1; 2; 1; 0; 2; 0; 0; 0]%nat.
Definition both_over : state (nat * string) (string * string) := default two_installs (acts schedule two_installs).

Definition is_inside {L St} (th : @thread L St) : bool := match t_at th with Inside _ _ => true | _ => false end.

Lemma both_over_eq : acts schedule two_installs = Some both_over.
Proof. vm_compute. reflexivity. Qed.


Lemma control_no_deadlock_witness : exists t' s', act t' two_installs = Some s'.
Proof.
  apply (control_no_deadlock [install "m" "1.0"; install "m" "2.0"; install "n" "5.0"] nothing [] two_installs 0%nat
    (mkThread (install "m" "1.0") Begun)); [reflexivity|vm_compute; reflexivity|discriminate].
Defined.

(** What to install is decided before the lock is taken ([Install] fetches the channel
    first): a call that read an older channel and got the lock later leaves the older
    version behind. *)
Example late_install_downgrades :
  parts both_over "m" = ("1.0", "2.0") /\ op_id <$> over "m" both_over = ["m"; "m"].
Proof. vm_compute. split; reflexivity. Qed.
End locks.

(** ** The highest accepted sequence

    Several [fetchChannel] calls after their manifests have verified: each reads the
    recorded number, decides, and writes when its own is higher. *)

Module mark.
Import manifest lifecycle.

Section Fetches.
Context {S : Type} {SB : store.StoreBackend S} {SL : store.StoreLaws S} (c : store.call).

Inductive progress := Verified | Writing (last : Z) | Accepted | Refused (last : Z).
Record fetch := mkFetch { f_seq : Z; f_at : progress }.

(** The read with the comparisons, and the write. *)
Definition read_mark (seq : Z) (s : S) : progress :=
  let last := lastSequence c s in
  if seq <? last then Refused last else if last <? seq then Writing last else Accepted.
Definition write_mark (seq : Z) (s : S) : S :=
  snd (store.Put c manifestSeqNamespace "sequence" (format_uint seq) s).

Definition act (i : nat) (x : gmap nat fetch * S) : option (gmap nat fetch * S) :=
  let (fs, s) := x in
  f ← fs !! i;
  match f_at f with
  | Verified => Some (<[i := mkFetch (f_seq f) (read_mark (f_seq f) s)]> fs, s)
  | Writing _ => Some (<[i := mkFetch (f_seq f) Accepted]> fs, write_mark (f_seq f) s)
  | _ => None
  end.
Definition acts (ks : list nat) (x : gmap nat fetch * S) : option (gmap nat fetch * S) := foldl (fun o i => o ≫= act i) (Some x) ks.
Definition begin (seqs : list Z) (s : S) : gmap nat fetch * S := (map_seq 0 ((fun n => mkFetch n Verified) <$> seqs), s).

(** The end of [fetchChannel], without interruption. *)
Definition decide_one (ch : ChannelManifest) (s : S) : result fetch_error ChannelManifest * option S :=
  match read_mark (c_Sequence ch) s with
  | Refused last => (Err (ErrRollback (c_Sequence ch) last), Some s)
  | Writing _ => (Ok ch, Some (write_mark (c_Sequence ch) s))
  | _ => (Ok ch, Some s)
  end.

(** Uninterrupted, the two parts are what [fetchChannel] does with a manifest that
    verified and has not expired. *)
Theorem fetchChannel_parts {JK : JSON signing.PublicKey} {JS : JSON signing.Signature} {JC : JSON ChannelManifest}
    ed_verify parse http g root now s m ms k ks ch :
  fetch_one http g "manifest.json" = Some m -> fetch_one http g "manifest.json.sig" = Some ms ->
  fetch_one http g "signing.pub" = Some k -> fetch_one http g "signing.pub.sig" = Some ks ->
  signing.Verify ed_verify root (signing.mkBundle m ms k ks) = Ok ch -> manifest.Expired parse ch now = false ->
  fetchChannel ed_verify parse http g root c now (Some s) = decide_one ch s.
Proof.
  intros H1 H2 H3 H4 Hv He. unfold fetchChannel, decide_one, read_mark, write_mark. rewrite H1, H2, H3, H4, Hv, He.
  destruct (c_Sequence ch <? lastSequence c s); [done|]. by destruct (lastSequence c s <? c_Sequence ch).
Qed.

(** Whatever the interleaving, the recorded number is the one that was there or that
    of an accepted manifest, never below the one that was there when the calls began;
    and no call accepts a manifest below that. *)
Record inv (seqs : list Z) (n0 : Z) (x : gmap nat fetch * S) : Prop := {
  i_wf : store.wf x.2;
  i_seq : forall i f, x.1 !! i = Some f -> f_seq f ∈ seqs;
  i_mark : lastSequence c x.2 = n0 \/ exists i f, x.1 !! i = Some f /\ f_at f = Accepted /\ f_seq f = lastSequence c x.2;
  i_low : n0 <= lastSequence c x.2;
  i_read : forall i f last, x.1 !! i = Some f -> f_at f = Writing last -> n0 <= last < f_seq f;
  i_acc : forall i f, x.1 !! i = Some f -> f_at f = Accepted -> n0 <= f_seq f }.

Lemma mark_inv_begin seqs s : store.wf s -> inv seqs (lastSequence c s) (begin seqs s).
Proof.
  intros Hwf. assert (forall i f, (begin seqs s).1 !! i = Some f -> f_at f = Verified /\ f_seq f ∈ seqs) as Hb.
  { intros i f H. apply lookup_map_seq_Some in H as [_ H]. rewrite list_lookup_fmap in H.
    destruct (seqs !! _) as [n|] eqn:E; simplify_eq/=. split; [done|]. by eapply list_elem_of_lookup_2. }
  constructor; simpl; [done| |by left|lia| |]; intros i f; [intros H|intros last H Ha|intros H Ha]; apply Hb in H as [H ?]; congruence.
Qed.

Lemma mark_inv_act seqs n0 i x x' : store_works c -> Forall (fun n => 0 <= n < 2 ^ 64) seqs ->
  inv seqs n0 x -> act i x = Some x' -> inv seqs n0 x'.
Proof.
  intros Hw Hr [I1 I2 I3 I4 I5 I6] H. destruct x as [fs s]. simpl in *. unfold act in H.
  destruct (fs !! i) as [f|] eqn:Ef; [|done]. simpl in H.
  assert (forall p j g, <[i := mkFetch (f_seq f) p]> fs !! j = Some g ->
    j = i /\ g = mkFetch (f_seq f) p \/ j <> i /\ fs !! j = Some g) as Hl.
  { intros p j g. rewrite lookup_insert_Some. intros [[<- <-]|[? ?]]; auto. }
  destruct (f_at f) as [|last| |] eqn:Ea; [| |done|done]; injection H as <-; constructor; simpl; try done.
  - intros j g H. apply Hl in H as [[_ ->]|[_ H]]; [exact (I2 i f Ef)|by eapply I2].
  - destruct I3 as [|(j & g & H1 & H2 & H3)]; [by left|right]. exists j, g. rewrite lookup_insert_ne; [done|]. congruence.
  - intros j g last H Hg. apply Hl in H as [[_ ->]|[_ H]]; [|by eapply I5]. simpl in *. unfold read_mark in Hg.
    destruct (Z.ltb_spec (f_seq f) (lastSequence c s)); [done|].
    destruct (Z.ltb_spec (lastSequence c s) (f_seq f)); [|done]. simplify_eq. lia.
  - intros j g H Hg. apply Hl in H as [[_ ->]|[_ H]]; [|by eapply I6]. simpl in *. unfold read_mark in Hg.
    destruct (Z.ltb_spec (f_seq f) (lastSequence c s)); [done|].
    destruct (Z.ltb_spec (lastSequence c s) (f_seq f)); [done|]. lia.
  - by apply lastSequence_Put; [..|rewrite Forall_forall in Hr; apply Hr; eapply I2].
  - intros j g H. apply Hl in H as [[_ ->]|[_ H]]; [exact (I2 i f Ef)|by eapply I2].
  - right. exists i, (mkFetch (f_seq f) Accepted). rewrite lookup_insert_eq. split_and!; [done..|]. simpl.
    symmetry. apply lastSequence_Put; [done..|]. rewrite Forall_forall in Hr. apply Hr. by eapply I2.
  - replace (lastSequence c (write_mark (f_seq f) s)) with (f_seq f).
    + destruct (I5 _ _ _ Ef Ea). lia.
    + symmetry. apply lastSequence_Put; [done..|]. rewrite Forall_forall in Hr. apply Hr. by eapply I2.
  - intros j g l H Hg. apply Hl in H as [[_ ->]|[_ H]]; [done|by eapply I5].
  - intros j g H Hg. apply Hl in H as [[_ ->]|[_ H]]; [|by eapply I6]. destruct (I5 _ _ _ Ef Ea). simpl. lia.
Qed.

(** C39. The damage a race can do to the recorded sequence is bounded: however concurrent
    fetches interleave, it is the number found at the start or that of an accepted
    manifest, and neither it nor any accepted manifest falls below the number found
    at the start. *)
Theorem mark_bounded seqs s ks fs s' :
  store.wf s -> store_works c -> Forall (fun n => 0 <= n < 2 ^ 64) seqs ->
  acts ks (begin seqs s) = Some (fs, s') ->
  lastSequence c s <= lastSequence c s' /\
  (lastSequence c s' = lastSequence c s \/
   exists i f, fs !! i = Some f /\ f_at f = Accepted /\ f_seq f = lastSequence c s' /\ f_seq f ∈ seqs) /\
  forall i f, fs !! i = Some f -> f_at f = Accepted -> lastSequence c s <= f_seq f.
Proof.
  intros Hwf Hw Hr H. assert (inv seqs (lastSequence c s) (fs, s')) as [_ I2 I3 I4 _ I6].
  { revert fs s' H. induction ks as [|i ks IH] using rev_ind; intros fs s' H; [injection H as <- <-; by apply mark_inv_begin|].
    unfold acts in H. rewrite foldl_app in H. simpl in H. destruct (foldl _ _ ks) as [[fs1 s1]|] eqn:E; [|done].
    eapply mark_inv_act; [done|done| |exact H]. apply IH. exact E. }
  split_and!; [done| |done]. destruct I3 as [|(i & f & H1 & H2 & H3)]; [by left|right]. exists i, f. eauto.
Qed.
End Fetches.

(** Within that bound it can fall: of two overlapping fetches the one with the lower
    number writes last, and a later fetch accepts the older channel again. *)
Import (hints) store.
Definition raced : option (gmap nat fetch * store.MemStore) :=
  acts store.a_call [0; 1; 0; 1; 2]%nat (begin [7; 6; 6] store.NewMemStore).

Example mark_falls :
  (fun x => lastSequence store.a_call x.2) <$> acts store.a_call [0; 1; 0]%nat (begin [7; 6; 6] store.NewMemStore) = Some 7 /\
  (fun x => (lastSequence store.a_call x.2, f_at <$> x.1 !! 2%nat)) <$> raced = Some (6, Some Accepted).
Proof. vm_compute. split; reflexivity. Qed.

Lemma mark_bounded_witness :
  exists fs s', raced = Some (fs, s') /\ lastSequence store.a_call store.NewMemStore <= lastSequence store.a_call s'.
Proof.
  destruct raced as [[fs s']|] eqn:E; [|vm_compute in E; discriminate E]. exists fs, s'. split; [reflexivity|].
  apply (mark_bounded store.a_call [7; 6; 6] store.NewMemStore [0; 1; 0; 1; 2]%nat fs s').
  - done.
  - split; [reflexivity|]. reflexivity.
  - repeat constructor; lia.
  - exact E.
Defined.
End mark.
