(* ===== verification/Identity.v ===== *)
(** * Device identity (internal/identity)

    Who the device is: its Ed25519 key, the identity the management plane assigned
    to it, and the enrolment exchange that obtains one.  The provider persists
    through the [StoreBackend] interface.  Ed25519, the HTTP client and the JSON
    codecs are parameters; the key format (seed followed by public key), base64,
    query escaping and the scheme of a URL are computed.  [Enroll] runs alone:
    core calls it from one goroutine. *)

From stdpp Require Import base list strings gmap countable.
From Stdlib Require Import ZArith Lia Ascii.
From S2P Require Import Prelude.
From S2P Require Import GoStrings.
From S2P Require Import Base64.
From S2P Require Import Json.
From S2P Require Import Store.
Import store.
Open Scope Z_scope.
Open Scope go_scope.

Local Infix "+++" := String.append (at level 60, right associativity).

(** ** What the code uses of net/url *)

Module url.
Definition is_alpha (c : ascii) : bool := in_range "a" "z" c || in_range "A" "Z" c.
Definition to_lower (c : ascii) : ascii :=
  if in_range "A" "Z" c then byte_of (byte_val c + 32) else c.
Fixpoint ToLower (s : string) : string :=
  match s with "" => "" | String c r => String (to_lower c) (ToLower r) end.

(** The scheme of a URL: [None] is the error "missing protocol scheme", the empty
    string a URL without one. *)
Fixpoint scheme_from (first : bool) (acc s : string) : option string :=
  match s with
  | "" => Some ""
  | String c r =>
      if is_alpha c then scheme_from false (acc +++ String c "") r
      else if is_digit c || Ascii.eqb c "+" || Ascii.eqb c "-" || Ascii.eqb c "." then
        if first then Some "" else scheme_from false (acc +++ String c "") r
      else if Ascii.eqb c ":" then if first then None else Some acc
      else Some ""
  end.
Definition scheme (raw : string) : option string := ToLower <$> scheme_from true "" raw.

Definition upper_hex (n : Z) : ascii := if n <? 10 then byte_of (n + 48) else byte_of (n + 55).
Fixpoint QueryEscape (s : string) : string :=
  match s with
  | "" => ""
  | String c r =>
      (if is_alpha c || is_digit c || Ascii.eqb c "-" || Ascii.eqb c "_" || Ascii.eqb c "." || Ascii.eqb c "~"
       then String c ""
       else if Ascii.eqb c " " then "+"
       else String "%" (String (upper_hex (byte_val c / 16)) (String (upper_hex (byte_val c mod 16)) "")))
      +++ QueryEscape r
  end.
End url.

Module identity.

Definition storeNamespace : string := "core.identity".

(** [Provider]: the configuration and, after it, the fields the mutex guards. *)
Record Provider := mkProvider {
  EnrollURL : string;
  ServerPub : string;
  AllowInsecureEnroll : bool;
  priv : string;
  deviceID : string;
  tenant : string;
  ephemeral : string }.

Record enrolmentState := mkState { st_DeviceID : string; st_Tenant : string; st_PrivateKey : string }.

(** The anonymous structs of [Enroll] and [verifyAssignment]. *)
Record enrol_response := mkResponse {
  er_DeviceID : string; er_Tenant : string; er_Assignment : string; er_AssignmentSig : string }.
Record assignment := mkAssignment { as_DeviceID : string; as_Tenant : string }.

Definition PrivateKeySize : nat := 64.
Definition SignatureSize : nat := 64.

(** [priv.Public()]: the second half of the key. *)
Definition Public (key : string) : string := String.substring 32 32 key.

Inductive error :=
| ErrStore (e : store.error) | ErrEntropy
| ErrBadURL | ErrNeedsHTTPS | ErrNotPinned
| ErrRequest | ErrHTTP | ErrStatus (code : Z) | ErrBody | ErrChallenge | ErrNonce | ErrResponse
| ErrAssignmentBase64 | ErrAssignmentSig | ErrNotSigned | ErrUnparseable | ErrMismatch
| ErrNotImplemented.

Inductive request := GET (url : string) | POST (url body : string).
(** The bytes of a body that arrive, and whether its end does. *)
Record response := mkHTTP { StatusCode : Z; Body : string; complete : bool }.

Definition set_identity (id ten : string) (p : Provider) : Provider :=
  mkProvider (EnrollURL p) (ServerPub p) (AllowInsecureEnroll p) (priv p) id ten (ephemeral p).
Definition set_priv (k : string) (p : Provider) : Provider :=
  mkProvider (EnrollURL p) (ServerPub p) (AllowInsecureEnroll p) k (deviceID p) (tenant p) (ephemeral p).
Definition set_ephemeral (e : string) (p : Provider) : Provider :=
  mkProvider (EnrollURL p) (ServerPub p) (AllowInsecureEnroll p) (priv p) (deviceID p) (tenant p) e.

Section Provider.
Context {S : Type} {SB : StoreBackend S}.
Context {JS : JSON enrolmentState} {JM : JSON (gmap string string)} {JR : JSON enrol_response} {JA : JSON assignment}.
Context (ed_verify : string -> string -> string -> bool) (ed_sign : string -> string -> string).
(* json.NewDecoder(_).Decode on the challenge: its nonce *)
Context (decode_challenge : string -> option string).
(* the checks of url.Parse beyond the scheme *)
Context (url_ok : string -> bool).
Definition url_Parse (raw : string) : option string := if url_ok raw then url.scheme raw else None.

Definition limited (s : string) : string := String.substring 0 (Z.to_nat (2 ^ 20)) s.

Definition saveLocked (c : call) (p : Provider) (s : S) : result error unit * S :=
  let st := mkState (deviceID p) (tenant p) (base64.EncodeToString (priv p)) in
  let (r, s') := Put c storeNamespace "state" (marshal st) s in
  (rmap_err ErrStore r, s').

(** The part of [Init] that reads the persisted state. *)
Definition usable (raw : string) : option (string * enrolmentState) :=
  st ← unmarshal raw;
  key ← base64.DecodeString (st_PrivateKey st);
  if (String.length key =? PrivateKeySize)%nat then Some (key, st) else None.

(** [Init]: [rnd] are the random bytes of the ephemeral id, [gen] the key
    [ed25519.GenerateKey] makes. *)
Definition Init (c : call) (rnd : string) (gen : option string) (p : Provider) (s : S) :
  result error unit * Provider * S :=
  let p := set_ephemeral ("ephemeral-" +++ hex_encode rnd) p in
  match Get c storeNamespace "state" s with
  | Err e => (Err (ErrStore e), p, s)
  | Ok found =>
      match found ≫= usable with
      | Some (key, st) => (Ok tt, set_identity (st_DeviceID st) (st_Tenant st) (set_priv key p), s)
      | None =>
          match gen with
          | None => (Err ErrEntropy, p, s)
          | Some k => let p := set_priv k p in let (r, s') := saveLocked c p s in (r, p, s')
          end
      end
  end.

Definition checkEnrolTransport (p : Provider) : result error unit :=
  sch <-? of_option ErrBadURL (url_Parse (EnrollURL p)) ;;
  do? guard (negb (String.eqb sch "https") && negb (AllowInsecureEnroll p)) ErrNeedsHTTPS ;;
  guard (String.eqb (ServerPub p) "" && negb (AllowInsecureEnroll p)) ErrNotPinned.

Definition verifyAssignment (p : Provider) (id ten assignmentB64 sigB64 : string) : result error unit :=
  if String.eqb (ServerPub p) "" then guard (negb (AllowInsecureEnroll p)) ErrNotPinned
  else
    data <-? of_option ErrAssignmentBase64 (base64.DecodeString assignmentB64) ;;
    sig <-? of_option ErrAssignmentSig (base64.DecodeString sigB64) ;;
    do? guard (negb (String.length sig =? SignatureSize)%nat) ErrAssignmentSig ;;
    do? guard (negb (ed_verify (ServerPub p) data sig)) ErrNotSigned ;;
    signed <-? of_option ErrUnparseable (unmarshal data) ;;
    guard (negb (String.eqb (as_DeviceID signed) id && String.eqb (as_Tenant signed) ten)) ErrMismatch.

(** One exchange: [http.NewRequest], [client.Do], the status check. *)
Definition exchange (http : request -> option response) (u : string) (req : request) : result error response * list request :=
  match url_Parse u with
  | None => (Err ErrRequest, [])
  | Some _ => (match http req with
               | None => Err ErrHTTP
               | Some r => if StatusCode r =? 200 then Ok r else Err (ErrStatus (StatusCode r))
               end, [req])
  end.

Definition challenge_url (p : Provider) : string :=
  trim_suffix "/" (EnrollURL p) +++ "/challenge?public_key=" +++ url.QueryEscape (base64.EncodeToString (Public (priv p))).

(** Step 1 of [Enroll]: the nonce, as sent and decoded. *)
Definition read_nonce (r : response) : result error (string * string) :=
  nonce <-? of_option ErrChallenge (decode_challenge (limited (Body r))) ;;
  do? guard (String.eqb nonce "") ErrChallenge ;;
  bytes <-? of_option ErrNonce (base64.DecodeString nonce) ;;
  do? guard (String.length bytes <? 16)%nat ErrNonce ;;
  Ok (nonce, bytes).

(** Step 2: the enrolment request. *)
Definition enrol_body (key nonce bytes : string) : string :=
  marshal (<["public_key" := base64.EncodeToString (Public key)]>
    (<["nonce" := nonce]> {["nonce_sig" := base64.EncodeToString (ed_sign key bytes)]}) : gmap string string).

(** Step 3: the reply, with the server's signature checked. *)
Definition read_assignment (p : Provider) (r : response) : result error enrol_response :=
  do? guard (negb (complete r) && (Z.of_nat (String.length (Body r)) <? 2 ^ 20)) ErrBody ;;
  out <-? of_option ErrResponse (unmarshal (limited (Body r))) ;;
  do? guard (String.eqb (er_DeviceID out) "") ErrResponse ;;
  do? verifyAssignment p (er_DeviceID out) (er_Tenant out) (er_Assignment out) (er_AssignmentSig out) ;;
  Ok out.

(** The exchange of [Enroll]: the verified reply and the requests sent. *)
Definition enrol (http : request -> option response) (p : Provider) : result error enrol_response * list request :=
  match checkEnrolTransport p with
  | Err e => (Err e, [])
  | Ok _ =>
      let (r1, t1) := exchange http (challenge_url p) (GET (challenge_url p)) in
      match rbind r1 read_nonce with
      | Err e => (Err e, t1)
      | Ok (nonce, bytes) =>
          let (r2, t2) := exchange http (EnrollURL p) (POST (EnrollURL p) (enrol_body (priv p) nonce bytes)) in
          (rbind r2 (read_assignment p), t1 ++ t2)
      end
  end.

(** [Enroll]: the identity is set in memory first, then saved. *)
Definition Enroll (c : call) (http : request -> option response) (p : Provider) (s : S) :
  result error unit * Provider * S * list request :=
  if negb (String.eqb (deviceID p) "") || String.eqb (EnrollURL p) "" then (Ok tt, p, s, [])
  else
    let (r, t) := enrol http p in
    match r with
    | Err e => (Err e, p, s, t)
    | Ok out =>
        let p' := set_identity (er_DeviceID out) (er_Tenant out) p in
        let (r', s') := saveLocked c p' s in (r', p', s', t)
    end.
End Provider.

(** [WhoAmI]: the id, whether it is ephemeral, the tenant. *)
Definition WhoAmI (p : Provider) : string * bool * string :=
  if negb (String.eqb (deviceID p) "") then (deviceID p, false, tenant p) else (ephemeral p, true, "").
(** [Credential] fails closed. *)
Definition Credential (p : Provider) (module : string) (scopes : list string) : result error (string * Z * list string) :=
  Err ErrNotImplemented.
Definition Enrolled (p : Provider) : bool := negb (String.eqb (deviceID p) "").

(** ** What enrolment establishes *)

Section Claims.
Context {S : Type} {SB : StoreBackend S} {SL : StoreLaws S}.
Context {JS : JSON enrolmentState} {JM : JSON (gmap string string)} {JR : JSON enrol_response} {JA : JSON assignment}.
Context (ed_verify : string -> string -> string -> bool) (ed_sign : string -> string -> string).
Context (decode_challenge : string -> option string) (url_ok : string -> bool).
Local Notation Enroll := (Enroll (S := S) ed_verify ed_sign decode_challenge url_ok).
Local Notation enrol := (enrol ed_verify ed_sign decode_challenge url_ok).

Lemma checkEnrolTransport_Ok p u :
  checkEnrolTransport url_ok p = Ok u -> AllowInsecureEnroll p = false ->
  url_Parse url_ok (EnrollURL p) = Some "https" /\ ServerPub p <> "".
Proof.
  intros H Hi. unfold checkEnrolTransport in H. bind_inv H. apply of_option_Ok in Hb. apply guard_Ok in H.
  rewrite Hi, andb_true_r in *. bool_to_prop. by subst.
Qed.

(** What an accepted reply proves in a release configuration. *)
Lemma verifyAssignment_Ok p id ten a b u :
  verifyAssignment ed_verify p id ten a b = Ok u -> AllowInsecureEnroll p = false ->
  exists data sig, base64.DecodeString a = Some data /\ base64.DecodeString b = Some sig /\
    String.length sig = SignatureSize /\ ed_verify (ServerPub p) data sig = true /\
    unmarshal data = Some (mkAssignment id ten).
Proof.
  intros H Hi. unfold verifyAssignment in H. rewrite Hi in H.
  destruct (String.eqb (ServerPub p) ""); [done|]. bind_inv H.
  repeat match goal with Hx : of_option _ _ = Ok _ |- _ => apply of_option_Ok in Hx end.
  apply guard_Ok in H. bool_to_prop. subst.
  match goal with Hx : unmarshal _ = Some ?x |- _ => destruct x end. eexists _, _.
  split_and!; try done. by apply Nat.eqb_eq.
Qed.

Lemma exchange_spec http u req r t : exchange url_ok http u req = (r, t) ->
  t = [] /\ is_ok r = false \/ t = [req].
Proof. unfold exchange. destruct (url_Parse _ _); intros; simplify_eq; auto. Qed.

Lemma read_nonce_Ok r nonce bytes : read_nonce decode_challenge r = Ok (nonce, bytes) ->
  base64.DecodeString nonce = Some bytes /\ (16 <= String.length bytes)%nat.
Proof.
  intros H. unfold read_nonce in H. bind_inv H.
  repeat match goal with Hx : of_option _ _ = Ok _ |- _ => apply of_option_Ok in Hx end. simplify_eq.
  split; [done|]. by apply Nat.ltb_ge.
Qed.

Lemma read_assignment_Ok p r out : read_assignment ed_verify p r = Ok out ->
  er_DeviceID out <> "" /\
  exists u, verifyAssignment ed_verify p (er_DeviceID out) (er_Tenant out) (er_Assignment out) (er_AssignmentSig out) = Ok u.
Proof. intros H. unfold read_assignment in H. bind_inv H. simplify_eq. bool_to_prop. eauto. Qed.

Lemma enrol_spec http p r t : enrol http p = (r, t) ->
  (t <> [] -> exists u, checkEnrolTransport url_ok p = Ok u) /\
  (forall u b, POST u b ∈ t -> exists nonce bytes,
     u = EnrollURL p /\ b = enrol_body ed_sign (priv p) nonce bytes /\
     base64.DecodeString nonce = Some bytes /\ (16 <= String.length bytes)%nat) /\
  (forall out, r = Ok out -> er_DeviceID out <> "" /\ t <> [] /\
     exists u, verifyAssignment ed_verify p (er_DeviceID out) (er_Tenant out) (er_Assignment out) (er_AssignmentSig out) = Ok u).
Proof.
  unfold identity.enrol. destruct (checkEnrolTransport url_ok p) as [u0|] eqn:Ec;
    [|intros; simplify_eq; split_and!; [done | by intros ?? ?%elem_of_nil | done]].
  destruct (exchange _ _ (challenge_url p) _) as [r1 t1] eqn:E1. apply exchange_spec in E1.
  destruct (rbind r1 _) as [[nonce bytes]|] eqn:En.
  - apply rbind_Ok in En as (x & -> & Hn%read_nonce_Ok). destruct E1 as [[_ ?]| ->]; [done|].
    destruct (exchange _ _ (EnrollURL p) _) as [r2 t2] eqn:E2. apply exchange_spec in E2.
    intros H. simplify_eq. split_and!; [by eauto| |].
    + intros u b [Hu|Hu]%elem_of_cons; [done|].
      destruct E2 as [[-> _]| ->]; [by apply elem_of_nil in Hu|]. apply list_elem_of_singleton in Hu. simplify_eq. eauto 6.
    + intros out Ho. apply rbind_Ok in Ho as (y & _ & [? ?]%read_assignment_Ok). done.
  - intros H. simplify_eq. split_and!; [by eauto| |done].
    intros u b Hu. destruct E1 as [[-> _]| ->]; [by apply elem_of_nil in Hu | by apply list_elem_of_singleton in Hu].
Qed.

Lemma saveLocked_spec c p (s : S) r s' : wf s -> saveLocked c p s = (r, s') ->
  wf s' /\ view s' storeNamespace "state" =
    if is_ok r then Some (marshal (mkState (deviceID p) (tenant p) (base64.EncodeToString (priv p))))
    else view s storeNamespace "state".
Proof.
  intros Hwf H. unfold saveLocked in H. destruct (Put _ _ _ _ _) as [r0 s0] eqn:E. simplify_eq.
  destruct (Put_view _ _ _ _ _ _ _ Hwf E) as [Hwf' Hv]. split; [done|].
  rewrite Hv, bool_decide_true, andb_true_r by done. by destruct r0.
Qed.

(** What each private key was ever asked to sign; Ed25519 is unforgeable. *)
Context (signed : string -> list string).
Definition unforgeable : Prop := forall k m sig, ed_verify k m sig = true -> m ∈ signed k.

(** C16. Enrolment cannot be hijacked.  In a release configuration the device key
    never changes, no request leaves unless the URL is https and a server key is
    pinned, what is posted proves possession of the key over a nonce of at least 16
    bytes, and the identity only ever changes, from none, to one the pinned server
    key signed. *)
Theorem enroll_authentic c http p s r p' s' t :
  unforgeable -> AllowInsecureEnroll p = false -> Enroll c http p s = (r, p', s', t) ->
  priv p' = priv p /\
  (t <> [] -> url.scheme (EnrollURL p) = Some "https" /\ ServerPub p <> "" /\ deviceID p = "") /\
  (forall u b, POST u b ∈ t -> exists nonce bytes,
     u = EnrollURL p /\ b = enrol_body ed_sign (priv p) nonce bytes /\
     base64.DecodeString nonce = Some bytes /\ (16 <= String.length bytes)%nat) /\
  (p' = p \/
   deviceID p = "" /\ deviceID p' <> "" /\ exists data, data ∈ signed (ServerPub p) /\
     unmarshal data = Some (mkAssignment (deviceID p') (tenant p'))).
Proof.
  intros Hu Hi H. unfold identity.Enroll in H.
  destruct (String.eqb_spec (deviceID p) "") as [Hd|]; simpl in H;
    [|simplify_eq; split_and!; [done|done|by intros ?? ?%elem_of_nil|by left]].
  destruct (String.eqb (EnrollURL p) "");
    [simplify_eq; split_and!; [done|done|by intros ?? ?%elem_of_nil|by left]|].
  destruct (enrol http p) as [r1 t1] eqn:E. apply enrol_spec in E as (Ht & Hp & Ho).
  assert (t1 <> [] -> url.scheme (EnrollURL p) = Some "https" /\ ServerPub p <> "" /\ deviceID p = "") as Ht'.
  { intros [u Hc]%Ht. apply checkEnrolTransport_Ok in Hc as [Hs ?]; [|done]. unfold url_Parse in Hs.
    by destruct (url_ok _). }
  destruct r1 as [out|]; [|simplify_eq; split_and!; auto].
  destruct (Ho _ eq_refl) as (Hne & _ & u & Hv). apply verifyAssignment_Ok in Hv as (data & sig & _ & _ & _ & Hs & Hj); [|done].
  destruct (saveLocked _ _ _) as [r' s1]. simplify_eq. split_and!; [done..|]. right. split_and!; [done..|].
  exists data. eauto.
Qed.

(** ** The identity across restarts *)

(** The store holds exactly the provider's identity. *)
Definition saved (p : Provider) (s : S) : Prop := exists raw st,
  view s storeNamespace "state" = Some raw /\ usable raw = Some (priv p, st) /\
  st_DeviceID st = deviceID p /\ st_Tenant st = tenant p.

Definition saves (c : call) : Prop := forall k v s, wf s -> is_ok (fst (Put c storeNamespace k v s)) = true.

Context {JL : JSONLaws enrolmentState}.

Lemma saveLocked_saved c p (s : S) s' u : wf s -> String.length (priv p) = PrivateKeySize ->
  saveLocked c p s = (Ok u, s') -> wf s' /\ saved p s'.
Proof.
  intros Hwf Hk H. apply saveLocked_spec in H as [Hwf' Hv]; [|done]. split; [done|]. simpl in Hv.
  eexists _, _. split; [exact Hv|]. unfold usable. rewrite unmarshal_marshal. simpl.
  rewrite base64.DecodeString_Encode. simpl. by rewrite Hk.
Qed.

Lemma usable_size raw key st : usable raw = Some (key, st) -> String.length key = PrivateKeySize.
Proof.
  unfold usable. intros (st' & _ & (k & _ & H)%bind_Some)%bind_Some.
  destruct (Nat.eqb_spec (String.length k) PrivateKeySize); by simplify_eq.
Qed.

Lemma Init_saved c rnd gen p (s : S) p' s' u :
  wf s -> (forall k, gen = Some k -> String.length k = PrivateKeySize) ->
  Init c rnd gen p s = (Ok u, p', s') ->
  wf s' /\ saved p' s' /\ String.length (priv p') = PrivateKeySize.
Proof.
  intros Hwf Hg H. unfold Init in H. destruct (Get c storeNamespace "state" s) as [found|] eqn:Eg; [|done].
  apply Get_view in Eg as ->; [|done].
  destruct (view s storeNamespace "state" ≫= usable) as [[key st]|] eqn:Eu.
  - simplify_eq. apply bind_Some in Eu as (raw & Hv & Hu). split_and!; [done| |by eapply usable_size].
    exists raw, st. by split_and!.
  - destruct gen as [k|]; [|done]. destruct (saveLocked _ _ _) as [r1 s1] eqn:E. simplify_eq.
    apply saveLocked_saved in E as [? ?]; [|done|by apply Hg]. split_and!; [done..|]. by apply Hg.
Qed.

Lemma Init_restores c rnd gen p0 p (s : S) : wf s -> saved p s -> ctx_done c = false ->
  exists q, Init c rnd gen p0 s = (Ok tt, q, s) /\
    priv q = priv p /\ deviceID q = deviceID p /\ tenant q = tenant p.
Proof.
  intros Hwf (raw & st & Hv & Hu & Hd & Ht) Hc. unfold Init.
  pose proof (Get_live c storeNamespace "state" s Hwf Hc) as Hl.
  destruct (Get c storeNamespace "state" s) as [v|] eqn:Eg; [|done].
  rewrite (Get_view _ _ _ _ _ Hwf Eg), Hv. simpl. rewrite Hu.
  eexists. split; [done|]. by split_and!.
Qed.

Lemma Enroll_saved c http p (s : S) r p' s' t :
  wf s -> saves c -> saved p s -> String.length (priv p) = PrivateKeySize ->
  Enroll c http p s = (r, p', s', t) ->
  wf s' /\ saved p' s' /\ priv p' = priv p /\ (deviceID p <> "" -> p' = p).
Proof.
  intros Hwf Hc Hs Hk H. unfold identity.Enroll in H.
  destruct (String.eqb_spec (deviceID p) "") as [Hd|]; simpl in H; [|by simplify_eq].
  destruct (String.eqb (EnrollURL p) ""); [by simplify_eq|].
  destruct (enrol http p) as [[out|] t1]; [|by simplify_eq].
  destruct (saveLocked _ _ _) as [r1 s1] eqn:E. simplify_eq.
  destruct r as [u|er].
  - apply saveLocked_saved in E as [? ?]; [|done|done]. by split_and!.
  - exfalso. unfold saveLocked in E. specialize (Hc "state"
      (marshal (mkState (er_DeviceID out) (er_Tenant out) (base64.EncodeToString (priv p)))) s Hwf).
    simpl in E. destruct (Put _ _ _ _ _) as [[] ?]; simplify_eq/=.
Qed.

(** A run of core: every enrolment attempt with its call and its server. *)
Fixpoint enroll_all (l : list (call * (request -> option response))) (p : Provider) (s : S) : Provider * S :=
  match l with
  | [] => (p, s)
  | (c, http) :: l' => let '(_, p', s', _) := Enroll c http p s in enroll_all l' p' s'
  end.

Lemma enroll_all_saved l p (s : S) : wf s -> Forall (fun a => saves a.1) l -> saved p s ->
  String.length (priv p) = PrivateKeySize ->
  let '(p', s') := enroll_all l p s in
  wf s' /\ saved p' s' /\ priv p' = priv p /\ (deviceID p <> "" -> p' = p).
Proof.
  revert p s. induction l as [|[c http] l IH]; intros p s Hwf Hl Hs Hk; simpl; [done|].
  apply Forall_cons_1 in Hl as [Hc Hl].
  destruct (Enroll c http p s) as [[[r p1] s1] t] eqn:E.
  apply Enroll_saved in E as (Hwf1 & Hs1 & Hp1 & Hd1); [|done..].
  specialize (IH p1 s1 Hwf1 Hl Hs1). rewrite Hp1 in IH. specialize (IH Hk).
  destruct (enroll_all l p1 s1) as [p2 s2]. destruct IH as (? & ? & Hp2 & Hd2).
  split_and!; [done|done|congruence|]. intros Hd. rewrite Hd2 by (by rewrite Hd1). by apply Hd1.
Qed.

(** The identity is stable: after a first start and any number of enrolment
    attempts against any servers, a restart comes up with the same key and the
    identity the device had, and writes nothing; an identity once assigned is never
    replaced. *)
Theorem identity_restart c rnd gen p0 (s : S) p s1 l p' s' c' rnd' gen' p0' :
  wf s -> (forall k, gen = Some k -> String.length k = PrivateKeySize) ->
  Init c rnd gen p0 s = (Ok tt, p, s1) -> Forall (fun a => saves a.1) l ->
  enroll_all l p s1 = (p', s') -> ctx_done c' = false ->
  (exists q, Init c' rnd' gen' p0' s' = (Ok tt, q, s') /\
     priv q = priv p /\ deviceID q = deviceID p' /\ tenant q = tenant p') /\
  (deviceID p <> "" -> p' = p).
Proof.
  intros Hwf Hg Hi Hl He Hc. apply Init_saved in Hi as (Hwf1 & Hs1 & Hk); [|done..].
  pose proof (enroll_all_saved l p s1 Hwf1 Hl Hs1 Hk) as H. rewrite He in H. destruct H as (Hwf' & Hs' & Hp & Hd).
  split; [|done]. destruct (Init_restores c' rnd' gen' p0' p' s' Hwf' Hs' Hc) as (q & ? & ? & ? & ?).
  exists q. split_and!; congruence.
Qed.

(** A save that fails loses the enrolment for good: the call reports an error, but
    the device counts as enrolled from then on, every later attempt returns at once
    without saving, and the store still holds what it held. *)
Theorem enroll_unsaved c http p (s : S) r p' s' t :
  wf s -> Enroll c http p s = (r, p', s', t) -> is_ok r = false -> deviceID p' <> deviceID p ->
  Enrolled p' = true /\ view s' storeNamespace "state" = view s storeNamespace "state" /\
  forall c' http', Enroll c' http' p' s' = (Ok tt, p', s', []).
Proof.
  intros Hwf H Hr Hne. unfold identity.Enroll in H.
  destruct (String.eqb_spec (deviceID p) "") as [Hd|]; simpl in H; [|by simplify_eq].
  destruct (String.eqb (EnrollURL p) ""); [by simplify_eq|].
  destruct (enrol http p) as [[out|] t1] eqn:Ee; [|by simplify_eq].
  destruct (saveLocked _ _ _) as [r1 s1] eqn:E. simplify_eq.
  apply saveLocked_spec in E as [_ Hv]; [|done]. rewrite Hr in Hv.
  assert (er_DeviceID out <> "") as Hid by (apply enrol_spec in Ee as (_ & _ & Ho); by apply Ho).
  apply String.eqb_neq in Hid. unfold Enrolled, identity.Enroll. simpl. by rewrite Hid.
Qed.
End Claims.

(** *** Witnesses: a server that enrols the device as dev-1 of acme *)

#[export] Instance enrolmentState_eq_dec : EqDecision enrolmentState.
Proof. solve_decision. Defined.
#[export] Instance enrolmentState_countable : Countable enrolmentState.
Proof.
  refine (inj_countable' (fun d => (st_DeviceID d, st_Tenant d, st_PrivateKey d))
            (fun x => mkState x.1.1 x.1.2 x.2) _).
  by intros [].
Defined.

Definition demo_JS : JSON enrolmentState := binary_JSON enrolmentState.
Definition demo_JM : JSON (gmap string string) := binary_JSON (gmap string string).
Definition demo_reply : enrol_response :=
  mkResponse "dev-1" "acme" (base64.EncodeToString "assignment") (base64.EncodeToString (repeat_char 64 "s")).
Definition demo_JR : JSON enrol_response := Build_JSON enrol_response (fun _ => "") (fun _ => "") (fun _ => Some demo_reply).
Definition demo_JA : JSON assignment := Build_JSON assignment (fun _ => "") (fun _ => "")
  (fun x => if String.eqb x "assignment" then Some (mkAssignment "dev-1" "acme") else None).
Definition demo_signed (k : string) : list string := if String.eqb k "server" then ["assignment"] else [].
Definition demo_verify (k m sig : string) : bool := bool_decide (m ∈ demo_signed k).
Definition demo_sign (k m : string) : string := repeat_char 64 "n".
Definition demo_nonce (body : string) : option string := Some (base64.EncodeToString (repeat_char 16 "n")).
Definition demo_server (r : request) : option response := Some (mkHTTP 200 "{}" true).
Definition demo_provider : Provider := mkProvider "https://gw/enrol" "server" false (repeat_char 64 "k") "" "" "e".
Definition demo_call : call := mkCall false None.
Definition demo_enroll (p : Provider) (s : MemStore) :=
  @Enroll MemStore _ demo_JS demo_JM demo_JR demo_JA demo_verify demo_sign demo_nonce (fun _ => true) demo_call demo_server p s.

Definition demo_enrolled : result error unit * Provider * MemStore * list request := demo_enroll demo_provider NewMemStore.

Lemma demo_enrolled_is :
  (fun x => (WhoAmI x.1.1.2, priv x.1.1.2, length x.2)) demo_enrolled = ("dev-1", false, "acme", priv demo_provider, 2%nat).
Proof. vm_compute. reflexivity. Qed.

Lemma enroll_authentic_witness :
  let '(r, p', s', t) := demo_enrolled in
  WhoAmI p' = ("dev-1", false, "acme") /\ length t = 2%nat /\ priv p' = priv demo_provider /\
  exists data, data ∈ demo_signed "server" /\ @unmarshal _ demo_JA data = Some (mkAssignment (deviceID p') (tenant p')).
Proof.
  pose proof demo_enrolled_is as D. destruct demo_enrolled as [[[r p'] s'] t] eqn:E.
  cbn [fst snd] in D. injection D as Hw Hp Hl.
  destruct (@enroll_authentic MemStore _ demo_JS demo_JM demo_JR demo_JA demo_verify demo_sign demo_nonce (fun _ => true)
    demo_signed demo_call demo_server demo_provider NewMemStore r p' s' t) as (Hk & _ & _ & Hid).
  - intros k m sig H. by apply bool_decide_eq_true in H.
  - reflexivity.
  - exact E.
  - split; [exact Hw|]. split; [exact Hl|]. split; [exact Hk|].
    destruct Hid as [->|(_ & _ & Hid)]; [discriminate Hw|exact Hid].
Defined.

(** A first start, then an attempt that meets no server and one that meets it. *)
Definition demo_started : MemStore := snd (@saveLocked MemStore _ demo_JS demo_call demo_provider NewMemStore).
Definition demo_rounds : Provider * MemStore :=
  @enroll_all MemStore _ demo_JS demo_JM demo_JR demo_JA demo_verify demo_sign demo_nonce (fun _ => true)
    [(demo_call, fun _ => None); (demo_call, demo_server)] (set_ephemeral "ephemeral-6161" demo_provider) demo_started.
Lemma demo_rounds_is : (fun x => (deviceID x.1, tenant x.1)) demo_rounds = ("dev-1", "acme").
Proof. vm_compute. reflexivity. Qed.

Lemma identity_restart_witness :
  let '(p', s') := demo_rounds in
  deviceID p' = "dev-1" /\
  exists q, @Init MemStore _ demo_JS demo_call "bb" None (set_priv "" demo_provider) s' = (Ok tt, q, s') /\
    priv q = repeat_char 64 "k" /\ deviceID q = "dev-1" /\ tenant q = "acme".
Proof.
  pose proof demo_rounds_is as D. destruct demo_rounds as [p' s'] eqn:E.
  cbn [fst snd] in D. injection D as Hd' Ht'.
  destruct (@identity_restart MemStore _ _ demo_JS demo_JM demo_JR demo_JA demo_verify demo_sign demo_nonce (fun _ => true)
    (binary_JSONLaws enrolmentState) demo_call "aa" (Some (repeat_char 64 "k")) (set_priv "" demo_provider) NewMemStore
    (set_ephemeral "ephemeral-6161" demo_provider)
    demo_started
    [(demo_call, fun _ => None); (demo_call, demo_server)] p' s' demo_call "bb" None (set_priv "" demo_provider))
    as [(q & Hq & Hk & Hd & Ht) _].
  - done.
  - by intros k [= <-].
  - vm_compute. reflexivity.
  - by repeat constructor.
  - exact E.
  - done.
  - split; [exact Hd'|]. exists q. split; [exact Hq|]. split; [exact Hk|].
    split; [rewrite Hd; exact Hd'|rewrite Ht; exact Ht'].
Defined.

(** The encrypted store whose entropy source fails cannot seal the state. *)
Definition sealed_store : @Store MemStore := mkStore (∅ : MemStore) toy_aead.
Definition demo_unsaved : result error unit * Provider * @Store MemStore * list request :=
  @Enroll (@Store MemStore) _ demo_JS demo_JM demo_JR demo_JA demo_verify demo_sign demo_nonce (fun _ => true)
    demo_call demo_server demo_provider sealed_store.

Lemma demo_unsaved_is : (fun x => (x.1.1.1, deviceID x.1.1.2)) demo_unsaved = (Err (ErrStore ErrRand), "dev-1").
Proof. vm_compute. reflexivity. Qed.

Lemma enroll_unsaved_witness :
  let '(r, p', s', t) := demo_unsaved in
  r = Err (ErrStore ErrRand) /\ Enrolled p' = true /\
  @Enroll _ _ demo_JS demo_JM demo_JR demo_JA demo_verify demo_sign demo_nonce (fun _ => true) a_call demo_server p' s'
    = (Ok tt, p', s', []).
Proof.
  pose proof demo_unsaved_is as D. destruct demo_unsaved as [[[r p'] s'] t] eqn:E.
  cbn [fst snd] in D. injection D as Hr Hd.
  destruct (@enroll_unsaved (@Store MemStore) _ _ demo_JS demo_JM demo_JR demo_JA demo_verify demo_sign demo_nonce (fun _ => true)
    demo_call demo_server demo_provider sealed_store r p' s' t) as (He & _ & Hn).
  - split; [intros n q d; rewrite toy_aead_open; by rewrite decide_True | done].
  - exact E.
  - by rewrite Hr.
  - by rewrite Hd.
  - split_and!; [done|done|apply Hn].
Defined.
End identity.
