(* ===== verification/HostClient.v ===== *)
(** * The module's view of core (sdk/modulesdk/hostclient.go)

    The typed clients a module author calls, over the server of [HostServ]; the
    goroutines that pump a stream into a channel; the recurring jobs; and the
    watchdog ping loop with the guarantee it gives together with the supervisor's
    monitor.  A goroutine is a function of what it meets: the messages and errors
    of its stream, the ticks of its timer, the moment its context ends. *)

From stdpp Require Import base list strings gmap sorting.
From Stdlib Require Import ZArith Lia.
From S2P Require Import Prelude.
From S2P Require Import GoStrings.
From S2P Require Import Store.
From S2P Require Import EventBus.
From S2P Require Import Policy.
From S2P Require Import HostServ.
From S2P Require Import ModuleSdk.
From S2P Require Import Launch.
From S2P Require Import Supervisor.
Open Scope Z_scope.
Open Scope go_scope.

Local Infix "+++" := String.append (at level 60, right associativity).

Module hostclient.
Import (hints) store hostserv.

(** ** The data the SDK hands to a module (module.go) *)

Record DeviceIdentity := mkDeviceIdentity { DeviceID : string; Ephemeral : bool; Tenant : string }.
Record Credential := mkCredential { Token : string; ExpiresAt : Z; Scopes : list string }.
Record Message := mkMessage { Peer : Z; Kind : string; Data : string }.
Record PolicyDocument := mkPolicyDocument {
  Revision : Z; PData : string; SchemaVersion : Z; ContentType : string }.

Definition PeerGateWeave : Z := 1.
Definition PeerHypervisor : Z := 2.

Section Clients.
Context {S T : Type} {SB : store.StoreBackend S} {TB : hostserv.TransportBackend T}.
Context (moduleID token : string) (allow : list string).
Notation services := (hostserv.Services S T).
Notation call_core := (modulesdk.invoke_at moduleID token allow).
Notation error := werror.error.

(** [identityClient] *)
Definition identityClient_WhoAmI (c : store.call) (v : services) : result error DeviceIdentity :=
  r <-? fst (call_core 0 c hostserv.WhoAmIRequest v) ;;
  match r with hostserv.RIdentity id e t => Ok (mkDeviceIdentity id e t) | _ => Err modulesdk.bad_reply end.
Definition identityClient_Credential (c : store.call) (scopes : list string) (v : services) : result error Credential :=
  r <-? fst (call_core 0 c (hostserv.CredentialRequest scopes) v) ;;
  match r with hostserv.RCredential t e g => Ok (mkCredential t e g) | _ => Err modulesdk.bad_reply end.

(** [transportClient.Send] *)
Definition transportClient_Send (c : store.call) (msg : Message) (queueOffline : bool) (v : services) :
  result error bool * services :=
  let (out, v') := call_core 0 c (hostserv.TransportSend (Peer msg) (Kind msg) (Data msg) queueOffline) v in
  ((r <-? out ;; match r with hostserv.RDelivered d => Ok d | _ => Err modulesdk.bad_reply end), v').

(** [policyDoc] and [policyClient.Get]: core sets neither a schema version nor a
    content type. *)
Definition policyDoc (rev : Z) (data : string) : PolicyDocument := mkPolicyDocument rev data 0 "".
Definition policyClient_Get (c : store.call) (v : services) : result error PolicyDocument :=
  r <-? fst (call_core 0 c hostserv.PolicyGet v) ;;
  match r with hostserv.RPolicy rev data => Ok (policyDoc rev data) | _ => Err modulesdk.bad_reply end.

(** [eventsClient.Publish] at core's time [now] *)
Definition eventsClient_Publish (now : Z) (c : store.call) (topic data : string) (v : services) :
  result error unit * services :=
  let (out, v') := call_core now c (hostserv.PublishEvent topic data) v in ((do? out ;; Ok tt), v').

(** What a module asks is what core's backends answer, for its own id: identity and
    policy are core's current ones, a message goes out under the module's id with
    an unreachable peer reported as unavailable, an event carries the id as prefix. *)
Theorem clients_faithful c now v :
  identityClient_WhoAmI c v =
    Ok (let '(id, e, t) := hostserv.WhoAmI (hostserv.Identity_ v) in mkDeviceIdentity id e t) /\
  policyClient_Get c v =
    Ok (policyDoc (policy.revision (hostserv.Policy v)) (default "" (policy.docs (hostserv.Policy v) !! moduleID))) /\
  (forall msg q, let (r, t') := hostserv.T_Send moduleID (Peer msg) (Kind msg) (Data msg) q (hostserv.Transport v) in
     snd (transportClient_Send c msg q v) = hostserv.with_transport t' v /\
     match r with
     | Ok d => fst (transportClient_Send c msg q v) = Ok d
     | Err e => exists e', fst (transportClient_Send c msg q v) = Err e' /\ werror.Is e' werror.ErrUnavailable = true
     end) /\
  (forall topic data, eventsClient_Publish now c topic data v =
     (Ok tt, hostserv.with_bus (eventbus.Publish moduleID topic data now (hostserv.Bus v)) v)).
Proof.
  unfold identityClient_WhoAmI, policyClient_Get, transportClient_Send, eventsClient_Publish, modulesdk.invoke_at, hostserv.serve.
  unfold hostserv.token_ok. rewrite String.eqb_refl. simpl. split_and!.
  - unfold hostserv.identityServer_WhoAmI. by destruct (hostserv.WhoAmI (hostserv.Identity_ v)) as [[]].
  - done.
  - intros msg q. unfold hostserv.transportServer_Send. destruct (hostserv.T_Send _ _ _ _ _ _) as [[d|e] t']; simpl; [done|].
    split; [done|]. eexists. split; [reflexivity|]. done.
  - done.
Qed.
End Clients.

(** ** Streams *)

(** The goroutine of [Receive], [Watch] and [Subscribe]: each message is handed to
    the channel ([true]: a reader took it, [false]: the context ended first).  The
    result is what readers got and whether the channel was closed. *)
Fixpoint pump {A} (recv : list (option A)) (hand : list bool) : list A * bool :=
  match recv with
  | [] => ([], false)
  | None :: _ => ([], true)
  | Some a :: recv' =>
      match hand with
      | [] => ([], false)
      | false :: _ => ([], true)
      | true :: hand' => let (out, closed) := pump recv' hand' in (a :: out, closed)
      end
  end.

(** The messages of a stream before its first error. *)
Fixpoint before_error {A} (recv : list (option A)) : list A :=
  match recv with Some a :: r => a :: before_error r | _ => [] end.

(** A reader gets the messages of the stream in order, none twice and none skipped,
    up to where it stopped; the channel closes exactly when the stream failed after
    all its messages were taken, or the context ended while one was offered. *)
Theorem pump_in_order {A} (recv : list (option A)) hand :
  let (out, closed) := pump recv hand in
  out `prefix_of` before_error recv /\
  (closed = true <->
   (out = before_error recv /\ (length out < length recv)%nat /\ Forall (eq true) (take (length out) hand) /\
      recv !! length out = Some None) \/
   (exists a, recv !! length out = Some (Some a) /\ hand !! length out = Some false)).
Proof.
  revert hand. induction recv as [|[a|] recv IH]; intros hand; simpl.
  - split; [done|]. split; [done|]. intros [(_ & H & _)|(a & H & _)]; [lia|done].
  - destruct hand as [|[] hand]; simpl.
    + split; [apply prefix_nil|]. split; [done|]. intros [(H & _)|(x & _ & H)]; done.
    + specialize (IH hand). destruct (pump recv hand) as [out closed]. destruct IH as [Hp Hc].
      split; [by apply prefix_cons|]. rewrite Hc. simpl. split.
      * intros [(-> & Hl & Hf & Hn)|(x & Hx & Hh)]; [left|right; eauto]. split_and!; [done|lia|by constructor|done].
      * intros [(H1 & Hl & Hf & Hn)|(x & Hx & Hh)]; [left|right; eauto]. injection H1 as ->.
        apply Forall_cons_1 in Hf as [_ Hf]. split_and!; [done|lia|done|done].
    + split; [apply prefix_nil|]. split; [|done]. intros _. right. eauto.
  - split; [apply prefix_nil|]. split; [|done]. intros _. left. split_and!; [done|lia|constructor|done].
Qed.

(** [eventsClient.Subscribe]: core refuses a topic outside the allow-list, but the
    status arrives as the stream's first error, after the call has returned. *)
Definition subscribe_stream {S T} {SB : store.StoreBackend S} {TB : hostserv.TransportBackend T}
    (moduleID token : string) (allow topics : list string) (c : store.call)
    (v : hostserv.Services S T) (later : list (option eventbus.Event)) : list (option eventbus.Event) :=
  match fst (hostserv.serve moduleID token allow [token] c 0 (hostserv.SubscribeEvents topics) v) with
  | Ok _ => later
  | Err _ => [None]
  end.

(** A refused subscription looks to the module like one that ended: an empty closed
    channel and no error. *)
Theorem subscribe_refusal_silent {S T} {SB : store.StoreBackend S} {TB : hostserv.TransportBackend T}
    moduleID token allow topics c (v : hostserv.Services S T) later hand t :
  t ∈ topics -> hostserv.topicAllowed t allow = false ->
  pump (subscribe_stream moduleID token allow topics c v later) hand = ([], true).
Proof.
  intros Ht Hno. unfold subscribe_stream, hostserv.serve, hostserv.token_ok. rewrite String.eqb_refl. simpl.
  unfold hostserv.eventsServer_Subscribe. destruct (find_first _ topics) eqn:E; [done|].
  rewrite find_first_None, Forall_forall in E. specialize (E _ Ht). by rewrite Hno in E.
Qed.

(** ** The client's own state *)

Record Surface := mkSurface { su_ID : string; su_Title : string; su_Kind : string; su_Data : string }.

(** [Job]: [EveryFunc] is [None] when unset. *)
Record Job := mkJob { Name : string; Every : Z; EveryFunc : bool }.

(** [hostClient]: [running] is [jobCancel != nil]. *)
Record hostClient := mkHostClient {
  surfaces : list Surface; jobs : list Job; watchdogInterval : Z; running : bool; started : bool }.

Definition newHostClient : hostClient := mkHostClient [] [] 0 false false.

Definition uiBroker_Declare (ss : list Surface) (h : hostClient) : result string unit * hostClient :=
  if started h then (Err "modulesdk: declaring surfaces after Init is not supported at protocol 1", h)
  else (Ok tt, mkHostClient (surfaces h ++ ss) (jobs h) (watchdogInterval h) (running h) (started h)).
Definition declaredSurfaces (h : hostClient) : list Surface := surfaces h.
Definition addJobs (js : list Job) (h : hostClient) : hostClient :=
  mkHostClient (surfaces h) (jobs h ++ js) (watchdogInterval h) (running h) (started h).
Definition setWatchdogInterval (d : Z) (h : hostClient) : hostClient :=
  mkHostClient (surfaces h) (jobs h) d (running h) (started h).

(** The goroutines a start launches: every job, and the watchdog when asked for. *)
Inductive goroutine := GJob (j : Job) | GWatchdog (interval : Z).
Definition startJobs (h : hostClient) : list goroutine * hostClient :=
  if running h then ([], h)
  else ((GJob <$> jobs h) ++ (if 0 <? watchdogInterval h then [GWatchdog (watchdogInterval h)] else []),
        mkHostClient (surfaces h) (jobs h) (watchdogInterval h) true true).
Definition stopJobs (h : hostClient) : hostClient :=
  mkHostClient (surfaces h) (jobs h) (watchdogInterval h) false (started h).

(** What [awaitDisconnect] does with the connection's successive states: the number
    of states it saw before it reported the loss. *)
Inductive connState := Idle | Connecting | ConnReady | TransientFailure | ConnShutdown.
Fixpoint awaitDisconnect (states : list connState) : option nat :=
  match states with
  | [] => None
  | (ConnShutdown | TransientFailure) :: _ => Some O
  | _ :: r => Datatypes.S <$> awaitDisconnect r
  end.

(** ** Jobs *)

(** One cycle of [launchJobLocked]: the interval read, and whether the timer fired
    ([false]: the context ended). *)
Inductive job_event := JRun | JSleep (d : Z).
Inductive job_end := JFinished | JCancelled | JRunning.
Fixpoint job_cycles (cycles : list (Z * bool)) : list job_event * job_end :=
  match cycles with
  | [] => ([], JRunning)
  | (d, fired) :: r =>
      if d <=? 0 then ([], JFinished)
      else if negb fired then ([JSleep d], JCancelled)
      else let (t, e) := job_cycles r in (JSleep d :: JRun :: t, e)
  end.
Definition launchJob (cycles : list (Z * bool)) : list job_event * job_end :=
  let (t, e) := job_cycles cycles in (JRun :: t, e).
(** [next]: [EveryFunc] wins over [Every]. *)
Definition next_interval (j : Job) (func : Z) : Z := if EveryFunc j then func else Every j.

(** The trace of a job with the times its runs start and end, each run lasting what
    [dur] says. *)
Fixpoint runs_at (now : Z) (dur : list Z) (t : list job_event) : list (Z * Z) :=
  match t with
  | [] => []
  | JSleep d :: t' => runs_at (now + d) dur t'
  | JRun :: t' => let r := default 0 (head dur) in (now, now + r) :: runs_at (now + r) (tail dur) t'
  end.

Lemma runs_at_head now dur t : runs_at now dur (JRun :: t) = (now, now + default 0 (head dur)) :: runs_at (now + default 0 (head dur)) (tail dur) t.
Proof. done. Qed.

(** Runs of a job do not overlap: the first starts at once, each later one exactly
    the interval that was read after the previous run after that run ended, and the
    interval was positive; so a changed interval takes effect on the next cycle. *)
Theorem job_schedule t0 cycles dur :
  let runs := runs_at t0 dur (fst (launchJob cycles)) in
  (exists e, head runs = Some (t0, e)) /\
  forall i a b, runs !! i = Some a -> runs !! Datatypes.S i = Some b ->
    exists d, cycles !! i = Some (d, true) /\ 0 < d /\ b.1 = a.2 + d.
Proof.
  unfold launchJob. revert t0 dur. induction cycles as [|[d fired] cycles IH]; intros t0 dur; simpl.
  { split; [by eexists|]. intros [|i] a b H1 H2; simpl in *; done. }
  destruct (Z.leb_spec d 0) as [|Hd]; simpl.
  { split; [by eexists|]. intros [|i] a b H1 H2; simpl in *; done. }
  destruct fired; simpl; [|split; [by eexists|]; intros [|i] a b H1 H2; simpl in *; done].
  destruct (job_cycles cycles) as [t e] eqn:E. simpl. split; [by eexists|].
  specialize (IH (t0 + default 0 (head dur) + d) (tail dur)). simpl in IH. destruct IH as [_ IH].
  intros [|i] a b H1 H2; simpl in H1, H2; [simplify_eq; simpl; eauto|].
  destruct (IH i a b H1 H2) as (d' & ? & ? & ?). eauto.
Qed.

(** A job whose interval stays positive runs until its context ends. *)
Lemma job_never_finishes cycles : Forall (fun c => 0 < c.1) cycles -> snd (launchJob cycles) <> JFinished.
Proof.
  intros H. unfold launchJob.
  enough (snd (job_cycles cycles) <> JFinished) as Hn by (by destruct (job_cycles cycles)).
  induction H as [|[d fired] cycles Hd _ IH]; simpl in *; [done|].
  destruct (Z.leb_spec d 0); [lia|]. destruct fired; simpl; [|done]. by destruct (job_cycles cycles).
Qed.

(** ** The watchdog ping loop *)

(** One tick of [launchWatchdogLocked]: when, and whether opening a stream and
    sending on it work. *)
Record wd_tick := mkTick { at_ : Z; open_ok : bool; send_ok : bool }.

(** The pings sent (time and sequence number); [stream] says one is open. *)
Fixpoint wd_loop (ticks : list wd_tick) (stream : bool) (seq : Z) : list (Z * Z) :=
  match ticks with
  | [] => []
  | t :: ts =>
      if negb (stream || open_ok t) then wd_loop ts false seq
      else
        let seq := eventbus.u64 (seq + 1) in
        if send_ok t then (at_ t, seq) :: wd_loop ts true seq else wd_loop ts false seq
  end.

(** What core asks of a module: whole seconds, as the field of [InitRequest] holds. *)
Definition asked (s : supervise.Supervisor) : Z := (supervise.watchdogInterval s / retry.second) mod 2 ^ 32.
(** The interval [Init] records for the seconds asked. *)
Definition ping_interval (secs : Z) : Z := if 0 <? secs then secs * retry.second else 0.

(** The ticks of a ticker started at [t0], none of which meets an error. *)
Definition ticker (t0 interval : Z) (n : nat) : list wd_tick :=
  (fun i => mkTick (t0 + (Z.of_nat i + 1) * interval) true true) <$> seq 0 n.

Lemma wd_loop_times ticks stream q :
  Forall (fun t => open_ok t = true /\ send_ok t = true) ticks -> (wd_loop ticks stream q).*1 = at_ <$> ticks.
Proof.
  intros H. revert stream q. induction H as [|t ts [Ho Hs] _ IH]; intros stream q; simpl; [done|].
  rewrite Ho, orb_true_r, Hs. simpl. by rewrite IH.
Qed.

Import supervise.

(** The pings of a trace and the times of its events. *)
Definition ping_of (e : event) : option Z := match e with Ping t => Some t | _ => None end.
Definition time_of (e : event) : Z := match e with Ping t | WatchdogTick t => t | _ => 0 end.

(** [gaps_ok d last ps bound]: no two neighbours of the pings, with what came before
    the first and the end of the trace after the last, are further apart than [d]. *)
Definition gaps_ok (d last : Z) (ps : list Z) (bound : Z) : Prop :=
  Forall2 (fun a b => b - a <= d) (last :: ps) (ps ++ [bound]).

(** A monitor that hears pings with small gaps keeps watching. *)
Lemma watch_punctual s bound evs : forall r k,
  only_pings evs -> StronglySorted Z.le ((time_of <$> evs) ++ [bound]) ->
  gaps_ok (2 * supervise.watchdogInterval s) (keepalive r) (omap ping_of evs) bound ->
  (watch s evs r k).1.1 = Watching.
Proof.
  induction evs as [|e evs IH]; intros r k Ho Hs Hg; [done|].
  apply list.Forall_cons_1 in Ho as [He Ho]. simpl in Hs. apply StronglySorted_inv in Hs as [Hs Hle].
  destruct e as [| |a|now|now]; try done; simpl in *.
  - assert (now - keepalive r <= 2 * supervise.watchdogInterval s) as Hnow.
    { assert (forall b ps, head (ps ++ [bound]) = Some b -> ps = omap ping_of evs -> now <= b) as Hb.
      { intros b ps Hh ->. destruct (omap ping_of evs) as [|p ps'] eqn:Ep; simpl in Hh; injection Hh as <-.
        - rewrite list.Forall_app, list.Forall_singleton in Hle. tauto.
        - assert (p ∈ omap ping_of evs) as Hin by (rewrite Ep; left).
          apply list_elem_of_omap in Hin as (e & Hin & Hp). destruct e as [| | | |q]; try done. injection Hp as ->.
          rewrite list.Forall_app, list.Forall_forall in Hle. apply (proj1 Hle).
          apply list_elem_of_fmap. by exists (Ping p). }
      unfold gaps_ok in Hg. apply Forall2_cons_inv_l in Hg as (b & l & Hgap & _ & E).
      specialize (Hb b _ (eq_trans (f_equal head E) eq_refl) eq_refl). lia. }
    rewrite (proj2 (Z.ltb_ge _ _) Hnow), andb_false_r. by apply IH.
  - apply IH; [done..|]. unfold gaps_ok in *. simpl in Hg. by apply Forall2_cons in Hg as [_ Hg].
Qed.

Lemma ticker_gaps t0 I L d lat n : forall j last, 0 <= I -> I + L <= d ->
  (forall t, 0 <= lat t <= L) -> t0 + Z.of_nat j * I <= last ->
  gaps_ok d last ((fun i => let t := t0 + (Z.of_nat i + 1) * I in t + lat t) <$> seq j n)
          (t0 + (Z.of_nat (j + n) + 1) * I + L).
Proof.
  induction n as [|n IH]; intros j last HI Hd Hlat Hlast; unfold gaps_ok; simpl.
  - constructor; [|constructor]. rewrite Nat.add_0_r. lia.
  - constructor; [pose proof (Hlat (t0 + (Z.of_nat j + 1) * I)); lia|].
    replace (j + Datatypes.S n)%nat with (Datatypes.S j + n)%nat by lia. apply IH; [done..|].
    pose proof (Hlat (t0 + (Z.of_nat j + 1) * I)). lia.
Qed.

(** C20. The watchdog is sound end to end: a module built with the SDK whose ping loop
    meets no error is never killed by the supervisor's watchdog, as long as pings
    arrive within [2W - I] of their tick, [W] the supervisor's interval and [I] the
    whole seconds of it the module was asked for; [W] must be at least a second. *)
Theorem watchdog_alive s t0 n lat evs r k :
  let W := supervise.watchdogInterval s in let I := ping_interval (asked s) in
  retry.second <= W < 2 ^ 32 * retry.second -> t0 <= keepalive r ->
  (forall t, 0 <= lat t <= 2 * W - I) -> only_pings evs ->
  omap ping_of evs = (fun p => p.1 + lat p.1) <$> wd_loop (ticker t0 I n) false 0 ->
  StronglySorted Z.le ((time_of <$> evs) ++ [t0 + (Z.of_nat n + 1) * I + (2 * W - I)]) ->
  (watch s evs r k).1.1 = Watching.
Proof.
  intros W I HW Ht Hlat Ho Hp Hs. eapply watch_punctual; [done|exact Hs|]. fold W. rewrite Hp.
  assert ((fun p => p.1 + lat p.1) <$> wd_loop (ticker t0 I n) false 0 =
          (fun i => let t := t0 + (Z.of_nat i + 1) * I in t + lat t) <$> seq 0 n) as ->.
  { transitivity ((fun t => t + lat t) <$> (wd_loop (ticker t0 I n) false 0).*1); [by rewrite <-list_fmap_compose|].
    rewrite wd_loop_times.
    - unfold ticker. by rewrite <-!list_fmap_compose.
    - unfold ticker. apply list.Forall_fmap, list.Forall_forall. by intros. }
  assert (0 <= I) as HI.
  { unfold I, ping_interval. destruct (Z.ltb_spec 0 (asked s)); [|done]. unfold retry.second. lia. }
  apply (ticker_gaps t0 I (2 * W - I) (2 * W) lat n 0); [done|lia|done|lia].
Qed.

(** A watchdog interval below a second is a trap: the module is asked for zero
    seconds, never pings, and the supervisor, whose own interval is not zero, kills it
    at the first tick that comes two intervals after the launch. *)
Theorem watchdog_subsecond s r k now ticks :
  0 < supervise.watchdogInterval s < retry.second -> 2 * supervise.watchdogInterval s < now - keepalive r ->
  ping_interval (asked s) = 0 /\
  snd (startJobs (setWatchdogInterval (ping_interval (asked s)) newHostClient)) = mkHostClient [] [] 0 true true /\
  fst (startJobs (setWatchdogInterval (ping_interval (asked s)) newHostClient)) = [] /\
  (watch s (WatchdogTick now :: ticks) r k).1.1 = Crashed.
Proof.
  intros HW Hnow. assert (asked s = 0) as Ha by (unfold asked; rewrite Z.div_small by lia; reflexivity).
  rewrite Ha. split_and!; [done..|]. simpl. rewrite (proj2 (Z.ltb_lt _ _) (proj1 HW)), (proj2 (Z.ltb_lt _ _) Hnow). done.
Qed.

(** *** Witnesses *)

Lemma subscribe_refusal_silent_witness :
  pump (subscribe_stream "other" "t" ["sysinfo.*"] ["secret"] (store.mkCall false None) hostserv.demo_services []) []
    = ([], true).
Proof. apply (subscribe_refusal_silent _ _ _ _ _ _ _ _ "secret"); [left | reflexivity]. Defined.

(** A supervisor that watches every ten seconds, and one that watches every half. *)
Definition with_watchdog (W : Z) : Supervisor :=
  mkSup (sup_launcher demo_sup) (Backoff_ demo_sup) 0 0 0 0 0 0 W.
Definition slow_sup : Supervisor := with_watchdog (10 * retry.second).
Definition half_sup : Supervisor := with_watchdog (retry.second / 2).
Definition demo_pings : list event :=
  [WatchdogTick (9 * retry.second); Ping (11 * retry.second); WatchdogTick (19 * retry.second);
   WatchdogTick (29 * retry.second); Ping (29 * retry.second)].

Lemma watchdog_alive_witness : (watch slow_sup demo_pings demo_runner 0).1.1 = Watching.
Proof.
  apply (watchdog_alive slow_sup 0 2 (fun t => if t =? 10 * retry.second then retry.second else 9 * retry.second)).
  - by vm_compute.
  - by vm_compute.
  - intros t. destruct (t =? _); by vm_compute.
  - repeat constructor.
  - by vm_compute.
  - vm_compute. repeat constructor; discriminate.
Defined.

Lemma watchdog_subsecond_witness :
  ping_interval (asked half_sup) = 0 /\ (watch half_sup [WatchdogTick (2 * retry.second)] demo_runner 0).1.1 = Crashed.
Proof.
  destruct (watchdog_subsecond half_sup demo_runner 0 (2 * retry.second) []) as (H1 & _ & _ & H2).
  - by vm_compute.
  - by vm_compute.
  - split; [exact H1 | exact H2].
Defined.
End hostclient.
