(* ===== verification/Streams.v ===== *)
(** * The server side of core's streams

    What runs behind the streaming calls of a module's host server
    (internal/hostserv/hostserv.go: [Receive], [Watch], [Subscribe]) at the grain
    of the goroutines that run it, and the in-memory backends of
    internal/hostserv/memory.go.  [inbound] interleaves the hypervisor's read loop
    with the streams that come and go; [watching] proves the policy stream against
    an interface that both policy backends implement; [hearing] follows an event
    from the bus to the module. *)

From stdpp Require Import base list strings gmap.
From Stdlib Require Import ZArith Lia.
From S2P Require Import Prelude.
From S2P Require Import GoStrings.
From S2P Require Import Manifest.
From S2P Require Import Base64.
From S2P Require Import Store.
From S2P Require Import EventBus.
From S2P Require Import Policy.
From S2P Require Import HostServ.
From S2P Require Import Transport.
From S2P Require Import HostClient.
Open Scope go_scope.
Open Scope Z_scope.

Local Infix "+++" := String.append (at level 60, right associativity).

(** ** Inbound messages: [Mux.Receive], [Mux.deliver] and [transportServer.Receive]

    [deliver] copies the list of channels under the lock and sends after it has
    released it; the goroutine [Receive] starts takes its channel off the list
    under the lock and closes it after.  The two parts of each are separate steps
    here. *)

Module inbound.
Import transport.

(** How far the end of a channel's context has come: seen by nobody yet, taken off
    the list, closed. *)
Inductive phase := Open | Done | Removed | Closed.
#[export] Instance phase_eq_dec : EqDecision phase.
Proof. solve_decision. Defined.

(** A channel, with what the handler that reads it has sent on its stream. *)
Record chan := mkChan {
  c_module : string; c_phase : phase; c_buf : list TransportMessage;
  c_reading : bool; c_sent : list TransportMessage }.

Record hub := mkHub {
  listed : gmap string (list nat); chans : gmap nat chan; fresh : nat;
  flying : option (TransportMessage * list nat);   (* the loop of [deliver] *)
  panicked : bool }.

Definition start : hub := mkHub ∅ ∅ 0 None false.

Definition set_chan (c : nat) (x : chan) (h : hub) : hub :=
  mkHub (listed h) (<[c := x]> (chans h)) (fresh h) (flying h) (panicked h).
Definition in_phase (p : phase) (x : chan) : chan :=
  mkChan (c_module x) p (c_buf x) (c_reading x) (c_sent x).
Definition on_chan (c : nat) (h : hub) (f : chan -> option hub) : option hub := chans h !! c ≫= f.
Definition list_of (module : string) (h : hub) : list nat := default [] (listed h !! module).

(** [Mux.Receive] up to its return. *)
Definition receive (module : string) (h : hub) : hub :=
  mkHub (<[module := list_of module h ++ [fresh h]]> (listed h))
        (<[fresh h := mkChan module Open [] true []]> (chans h)) (S (fresh h)) (flying h) (panicked h).

(** The context of the stream ends; its goroutine then removes and closes. *)
Definition context_done (c : nat) (h : hub) : option hub :=
  on_chan c h (fun x => if decide (c_phase x = Open) then Some (set_chan c (in_phase Done x) h) else None).
Definition remove (c : nat) (h : hub) : option hub :=
  on_chan c h (fun x => if decide (c_phase x = Done) then
    Some (mkHub (<[c_module x := policy.remove_first c (list_of (c_module x) h)]> (listed h))
                (<[c := in_phase Removed x]> (chans h)) (fresh h) (flying h) (panicked h))
  else None).
Definition close (c : nat) (h : hub) : option hub :=
  on_chan c h (fun x => if decide (c_phase x = Removed) then Some (set_chan c (in_phase Closed x) h) else None).

(** [deliver] up to the copy, one round of its loop.  A send on a closed channel
    panics, whether or not it has a default. *)
Definition deliver_start (module kind data : string) (h : hub) : option hub :=
  match flying h with
  | Some _ => None
  | None => Some (mkHub (listed h) (chans h) (fresh h)
              (match list_of module h with [] => None | cs => Some (mkTM PEER_HYPERVISOR kind data, cs) end)
              (panicked h))
  end.
Definition take_in (msg : TransportMessage) (x : chan) : chan :=
  mkChan (c_module x) (c_phase x)
    (if (length (c_buf x) <? inboundBuffer)%nat then c_buf x ++ [msg] else c_buf x)
    (c_reading x) (c_sent x).
Definition deliver_next (h : hub) : option hub :=
  match flying h with
  | Some (msg, c :: cs) =>
      on_chan c h (fun x =>
        let rest := match cs with [] => None | _ => Some (msg, cs) end in
        if decide (c_phase x = Closed) then Some (mkHub (listed h) (chans h) (fresh h) rest true)
        else Some (mkHub (listed h) (<[c := take_in msg x]> (chans h)) (fresh h) rest (panicked h)))
  | _ => None
  end.

(** [transportServer.Receive]: a message is sent on the stream, and a failed send
    returns, which ends the context; the handler also returns when it sees the
    context done or the channel closed and empty. *)
Definition forward (c : nat) (ok : bool) (h : hub) : option hub :=
  on_chan c h (fun x =>
    match c_reading x, c_buf x with
    | true, msg :: buf =>
        Some (set_chan c
          (if ok then mkChan (c_module x) (c_phase x) buf true (c_sent x ++ [msg])
           else mkChan (c_module x) (if decide (c_phase x = Open) then Done else c_phase x) buf false (c_sent x)) h)
    | _, _ => None
    end).
Definition handler_returns (c : nat) (h : hub) : option hub :=
  on_chan c h (fun x => if c_reading x && bool_decide (c_phase x <> Open)
    then Some (set_chan c (mkChan (c_module x) (c_phase x) (c_buf x) false (c_sent x)) h)
    else None).

Inductive event :=
| EReceive (module : string) | EDone (c : nat) | ERemove (c : nat) | EClose (c : nat)
| EDeliver (module kind data : string) | ENext | EForward (c : nat) (ok : bool) | EReturn (c : nat).

Definition act (e : event) (h : hub) : option hub :=
  match e with
  | EReceive m => Some (receive m h)
  | EDone c => context_done c h
  | ERemove c => remove c h
  | EClose c => close c h
  | EDeliver m k d => deliver_start m k d h
  | ENext => deliver_next h
  | EForward c ok => forward c ok h
  | EReturn c => handler_returns c h
  end.
Definition acts (es : list event) (h : hub) : option hub := foldl (fun o e => o ≫= act e) (Some h) es.

(** *** Properties *)

(** What was delivered to a module in a run. *)
Definition addressed (module : string) (es : list event) : list TransportMessage :=
  es ≫= (fun e => match e with
    | EDeliver m k d => if decide (m = module) then [mkTM PEER_HYPERVISOR k d] else []
    | _ => []
    end).
(** What the loop of [deliver] still holds for a channel. *)
Definition pending (c : nat) (h : hub) : list TransportMessage :=
  match flying h with
  | Some (msg, cs) => if decide (c ∈ cs) then [msg] else []
  | None => []
  end.

Record inv (es : list event) (h : hub) : Prop := {
  i_fresh : forall c, (fresh h <= c)%nat -> chans h !! c = None;
  i_listed : forall m c, c ∈ list_of m h -> exists x, chans h !! c = Some x /\ c_module x = m /\
    (c_phase x = Open \/ c_phase x = Done);
  i_nodup : forall m, NoDup (list_of m h);
  i_flying : forall msg cs, flying h = Some (msg, cs) -> NoDup cs /\ forall c, c ∈ cs -> is_Some (chans h !! c);
  i_chan : forall c x, chans h !! c = Some x ->
    sublist (c_sent x ++ c_buf x ++ pending c h) (addressed (c_module x) es) /\
    (length (c_buf x) <= inboundBuffer)%nat }.

Lemma hub_inv_start : inv [] start.
Proof.
  constructor; unfold list_of; simpl.
  - done.
  - intros m c. rewrite lookup_empty. simpl. by rewrite elem_of_nil.
  - intros m. rewrite lookup_empty. constructor.
  - done.
  - intros c x. by rewrite lookup_empty.
Qed.

Lemma addressed_snoc m es e : addressed m (es ++ [e]) = addressed m es ++ addressed m [e].
Proof. unfold addressed. by rewrite bind_app. Qed.
Lemma addressed_more m es e l : sublist l (addressed m es) -> sublist l (addressed m (es ++ [e])).
Proof. rewrite addressed_snoc. intros H. rewrite <-(app_nil_r l). apply sublist_app; [done|apply sublist_nil_l]. Qed.

(** A step that changes one channel, leaves what it sent and holds a part of what
    it had, and keeps a listed channel listable. *)
Lemma inv_one es e h c x x' l :
  inv es h -> chans h !! c = Some x -> c_module x' = c_module x ->
  (c_phase x' = Open \/ c_phase x' = Done \/ forall m, c ∉ default [] (l !! m)) ->
  (forall m, sublist (default [] (l !! m)) (list_of m h)) ->
  (forall p, sublist (c_sent x' ++ c_buf x' ++ p) (c_sent x ++ c_buf x ++ p)) ->
  (length (c_buf x') <= length (c_buf x))%nat ->
  inv (es ++ [e]) (mkHub l (<[c := x']> (chans h)) (fresh h) (flying h) (panicked h)).
Proof.
  intros [Hf Hl Hn Hfl Hc] Hx Hm Hp Hsub Hs Hb. constructor; unfold list_of; simpl.
  - intros d Hd. destruct (decide (d = c)) as [->|]; [by rewrite Hf in Hx|]. rewrite lookup_insert_ne by done. auto.
  - intros m d Hd. pose proof (elem_of_sublist _ _ _ Hd (Hsub m)) as Hin.
    destruct (Hl _ _ Hin) as (y & Hy & Hym & Hyp). destruct (decide (d = c)) as [->|].
    + simplify_eq. exists x'. rewrite lookup_insert_eq. split_and!; [done|done|].
      destruct Hp as [|[|Hp]]; [by left|by right|]. by destruct (Hp (c_module x)).
    + exists y. by rewrite lookup_insert_ne.
  - intros m. eapply sublist_NoDup; [apply Hn|apply Hsub].
  - intros msg cs Hcs. destruct (Hfl _ _ Hcs) as [Hnd Hall]. split; [done|]. intros d Hd.
    apply lookup_insert_is_Some'. right. auto.
  - intros d y Hy. destruct (decide (d = c)) as [->|Hne].
    + rewrite lookup_insert_eq in Hy. simplify_eq. destruct (Hc _ _ Hx) as [H1 H2].
      split; [|lia]. rewrite Hm. apply addressed_more. by etrans; [apply Hs|].
    + rewrite lookup_insert_ne in Hy by done. destruct (Hc _ _ Hy) as [H1 H2].
      split; [by apply addressed_more|done].
Qed.

Lemma remove_first_sublist c l : sublist (policy.remove_first c l) l.
Proof. induction l as [|y l IH]; simpl; [done|]. destruct (Nat.eqb_spec y c); by constructor. Qed.
Lemma remove_first_gone c l : NoDup l -> c ∉ policy.remove_first c l.
Proof.
  induction 1 as [|y l Hy Hnd IH]; simpl; [apply not_elem_of_nil|].
  destruct (Nat.eqb_spec y c) as [->|Hne]; [done|]. by rewrite not_elem_of_cons.
Qed.

(** The list after [remove] is a part of the one before, without the channel. *)
Lemma inv_remove es h c x :
  inv es h -> chans h !! c = Some x ->
  inv (es ++ [ERemove c]) (mkHub (<[c_module x := policy.remove_first c (list_of (c_module x) h)]> (listed h))
    (<[c := in_phase Removed x]> (chans h)) (fresh h) (flying h) (panicked h)).
Proof.
  intros Hi Hx. eapply (inv_one es); [exact Hi|exact Hx|done| |  |done|done].
  - right. right. intros m. destruct (decide (m = c_module x)) as [->|Hne].
    + rewrite lookup_insert_eq. apply remove_first_gone, (i_nodup _ _ Hi).
    + rewrite lookup_insert_ne by done. intros Hin.
      destruct (i_listed _ _ Hi m c Hin) as (y & Hy & Hm & _). congruence.
  - intros m. destruct (decide (m = c_module x)) as [->|Hne].
    + rewrite lookup_insert_eq. apply remove_first_sublist.
    + by rewrite lookup_insert_ne.
Qed.

Lemma hub_inv_receive es h m : inv es h -> inv (es ++ [EReceive m]) (receive m h).
Proof.
  intros [Hf Hl Hn Hfl Hc]. pose proof (Hf (fresh h) (le_n _)) as Hnew.
  assert (forall m', fresh h ∉ list_of m' h) as Hno.
  { intros m' Hin. destruct (Hl _ _ Hin) as (x & Hx & _). congruence. }
  constructor; unfold receive; simpl.
  - intros c Hle. rewrite lookup_insert_ne by lia. apply Hf. lia.
  - intros m' c Hin. unfold list_of in Hin. simpl in Hin. destruct (decide (c = fresh h)) as [->|Hne].
    + exists (mkChan m Open [] true []). rewrite lookup_insert_eq. split_and!; [done| |by left]. simpl.
      destruct (decide (m' = m)); [done|]. rewrite lookup_insert_ne in Hin by done. by destruct (Hno m').
    + assert (c ∈ list_of m' h) as Hin'.
      { destruct (decide (m' = m)) as [->|]; [|by rewrite lookup_insert_ne in Hin by done].
        rewrite lookup_insert_eq in Hin. simpl in Hin. rewrite elem_of_app, list_elem_of_singleton in Hin. by destruct Hin. }
      destruct (Hl _ _ Hin') as (x & Hx & ?). exists x. by rewrite lookup_insert_ne by done.
  - intros m'. unfold list_of. simpl. destruct (decide (m' = m)) as [->|].
    + rewrite lookup_insert_eq. simpl. apply NoDup_app. split_and!; [apply Hn| |apply NoDup_singleton].
      intros c Hc1 ->%list_elem_of_singleton. by destruct (Hno m).
    + rewrite lookup_insert_ne by done. apply Hn.
  - intros msg cs Hcs. destruct (Hfl _ _ Hcs) as [Hnd Hall]. split; [done|]. intros d Hd.
    apply lookup_insert_is_Some'. right. auto.
  - intros c x Hx. destruct (decide (c = fresh h)) as [->|Hne].
    + rewrite lookup_insert_eq in Hx. simplify_eq. simpl. split; [|lia].
      unfold pending. simpl. destruct (flying h) as [[msg cs]|]; [|apply sublist_nil_l].
      rewrite decide_False; [apply sublist_nil_l|]. intros Hin.
      destruct (Hfl msg cs eq_refl) as [_ Hall]. destruct (Hall _ Hin). congruence.
    + rewrite lookup_insert_ne in Hx by done. destruct (Hc _ _ Hx). split; [by apply addressed_more|done].
Qed.

Lemma inv_deliver_start es h m k d h' :
  inv es h -> deliver_start m k d h = Some h' -> inv (es ++ [EDeliver m k d]) h'.
Proof.
  intros [Hf Hl Hn Hfl Hc]. unfold deliver_start. destruct (flying h) eqn:Ef; [done|]. intros [= <-].
  constructor; [exact Hf|exact Hl|exact Hn| |]; simpl.
  - intros msg cs Hcs. destruct (list_of m h) as [|c0 cs0] eqn:E; [done|]. injection Hcs as _ <-.
    rewrite <-E. split; [apply Hn|]. intros c Hin. destruct (Hl _ _ Hin) as (x & Hx & _). by exists x.
  - intros c x Hx. destruct (Hc _ _ Hx) as [Hs Hb]. split; [|done]. unfold pending in *. simpl.
    rewrite Ef in Hs. rewrite app_nil_r in Hs. rewrite addressed_snoc, app_assoc.
    apply sublist_app; [done|]. destruct (list_of m h) as [|c0 cs0] eqn:E; [apply sublist_nil_l|].
    destruct (decide (c ∈ c0 :: cs0)) as [Hin|]; [|apply sublist_nil_l]. rewrite <-E in Hin.
    destruct (Hl _ _ Hin) as (y & Hy & Hym & _). simplify_eq. unfold addressed. simpl. by rewrite decide_True.
Qed.

Lemma inv_deliver_next es h h' : inv es h -> deliver_next h = Some h' -> inv (es ++ [ENext]) h'.
Proof.
  intros [Hf Hl Hn Hfl Hc]. unfold deliver_next. destruct (flying h) as [[msg [|c cs]]|] eqn:Ef; [done| |done].
  destruct (Hfl _ _ eq_refl) as [Hnd Hall]. apply NoDup_cons in Hnd as [Hc1 Hnd].
  unfold on_chan. destruct (chans h !! c) as [x|] eqn:Ex; [|done]. simpl.
  set (rest := match cs with [] => None | _ => Some (msg, cs) end).
  assert (forall m' cs', rest = Some (m', cs') -> m' = msg /\ cs' = cs) as Hrest.
  { unfold rest. destruct cs; intros m' cs' [=]; auto. }
  assert (forall ch b d, pending d (mkHub (listed h) ch (fresh h) rest b) = if decide (d ∈ cs) then [msg] else []) as Hpe.
  { intros ch b d. unfold pending, rest. simpl. destruct cs; [|done]. by rewrite decide_False by apply not_elem_of_nil. }
  assert (forall d y, chans h !! d = Some y -> d <> c -> sublist (c_sent y ++ c_buf y ++ if decide (d ∈ cs) then [msg] else []) (addressed (c_module y) es)) as Hoth.
  { intros d y Hy Hne. destruct (Hc _ _ Hy) as [Hs _]. unfold pending in Hs. rewrite Ef in Hs.
    destruct (decide (d ∈ cs)); [rewrite decide_True in Hs by (by right); done|].
    by rewrite decide_False in Hs by (rewrite not_elem_of_cons; done). }
  destruct (Hc _ _ Ex) as [Hs Hb]. unfold pending in Hs. rewrite Ef, decide_True in Hs by left.
  destruct (decide (c_phase x = Closed)) as [Hcl|Hop]; intros [= <-];
    (constructor; unfold list_of; simpl; [ | | exact Hn | | ]).
  - done.
  - exact Hl.
  - intros m' cs' H. apply Hrest in H as [-> ->]. split; [done|]. intros d Hd. apply Hall. by right.
  - intros d y Hy. rewrite Hpe. split; [|by eapply Hc]. apply addressed_more. destruct (decide (d = c)) as [->|].
    + simplify_eq. rewrite decide_False by done. rewrite app_nil_r.
      etrans; [|exact Hs]. rewrite app_assoc. by apply sublist_inserts_r.
    + by apply Hoth.
  - intros d Hd. destruct (decide (d = c)) as [->|]; [by rewrite Hf in Ex|]. rewrite lookup_insert_ne by done. auto.
  - intros m' d Hin. destruct (Hl _ _ Hin) as (y & Hy & Hym & Hyp). destruct (decide (d = c)) as [->|].
    + simplify_eq. exists (take_in msg x). by rewrite lookup_insert_eq.
    + exists y. by rewrite lookup_insert_ne.
  - intros m' cs' H. apply Hrest in H as [-> ->]. split; [done|]. intros d Hd.
    apply lookup_insert_is_Some'. right. apply Hall. by right.
  - intros d y Hy. rewrite Hpe. destruct (decide (d = c)) as [->|].
    + rewrite lookup_insert_eq in Hy. simplify_eq. rewrite decide_False by done. rewrite app_nil_r. simpl.
      destruct (Nat.ltb_spec (length (c_buf x)) inboundBuffer).
      * rewrite length_app. simpl. split; [by apply addressed_more|lia].
      * split; [|lia]. apply addressed_more. etrans; [|exact Hs]. rewrite app_assoc. by apply sublist_inserts_r.
    + rewrite lookup_insert_ne in Hy by done. split; [|by eapply Hc]. apply addressed_more. by apply Hoth.
Qed.

Lemma inv_act es e h h' : inv es h -> act e h = Some h' -> inv (es ++ [e]) h'.
Proof.
  intros Hi. destruct e as [m|c|c|c|m k d| |c ok|c]; cbn [act];
    unfold context_done, remove, close, forward, handler_returns, on_chan.
  - intros [= <-]. by apply hub_inv_receive.
  - destruct (chans h !! c) as [x|] eqn:Ex; [|done]. simpl. case_decide; intros [= <-].
    apply (inv_one es _ h c x); auto.
  - destruct (chans h !! c) as [x|] eqn:Ex; [|done]. simpl. case_decide; intros [= <-]. by apply inv_remove.
  - destruct (chans h !! c) as [x|] eqn:Ex; [|done]. simpl. case_decide as Hp; intros [= <-].
    apply (inv_one es _ h c x); auto. right. right. intros m Hin.
    destruct (i_listed _ _ Hi m c Hin) as (y & Hy & _ & [?|?]); congruence.
  - by apply inv_deliver_start.
  - by apply inv_deliver_next.
  - destruct (chans h !! c) as [x|] eqn:Ex; [|done]. simpl.
    destruct (c_reading x), (c_buf x) as [|msg buf] eqn:Eb; [done| |done..]. intros [= <-].
    apply (inv_one es _ h c x); [done|done|by destruct ok| |by intros| |].
    + destruct (decide (c_phase x = Open)) as [Ho|Ho]; [destruct ok; simpl; auto|].
      destruct (decide (c_phase x = Done)); [destruct ok; simpl; auto|]. right. right. intros m Hin.
      destruct (i_listed _ _ Hi m c Hin) as (y & Hy & _ & [?|?]); congruence.
    + intros p. rewrite Eb. destruct ok; simpl; [by rewrite <-app_assoc|].
      apply sublist_app; [done|]. by apply sublist_cons.
    + rewrite Eb. destruct ok; simpl; lia.
  - destruct (chans h !! c) as [x|] eqn:Ex; [|done]. simpl.
    destruct (c_reading x && bool_decide (c_phase x <> Open)); [|done]. intros [= <-].
    apply (inv_one es _ h c x); auto. simpl.
    destruct (decide (c_phase x = Open)); [by left|]. destruct (decide (c_phase x = Done)); [by right; left|].
    right. right. intros m Hin. destruct (i_listed _ _ Hi m c Hin) as (y & Hy & _ & [?|?]); congruence.
Qed.

Lemma acts_snoc es e h h' : acts (es ++ [e]) h = Some h' -> exists h1, acts es h = Some h1 /\ act e h1 = Some h'.
Proof.
  unfold acts. rewrite foldl_app. simpl. destruct (foldl _ _ es) as [h1|]; [|done]. eauto.
Qed.

Lemma inv_acts es h : acts es start = Some h -> inv es h.
Proof.
  revert h. induction es as [|e es IH] using rev_ind; intros h H.
  - injection H as <-. apply hub_inv_start.
  - apply acts_snoc in H as (h1 & H1 & H2). by eapply inv_act; eauto.
Qed.

(** However the read loop, the streams and their ends interleave, a stream carries
    messages addressed to its own module only, in the order they arrived and none
    twice, and at most 64 wait for it. *)
Theorem inbound_in_order es h c x :
  acts es start = Some h -> chans h !! c = Some x ->
  sublist (c_sent x ++ c_buf x) (addressed (c_module x) es) /\ (length (c_buf x) <= 64)%nat.
Proof.
  intros H Hx. destruct (i_chan _ _ (inv_acts _ _ H) _ _ Hx) as [Hs Hb]. split; [|done].
  etrans; [|exact Hs]. rewrite app_assoc. by apply sublist_inserts_r.
Qed.

(** The loop of [deliver], run without interruption. *)
Fixpoint deliver_rest (n : nat) (h : hub) : option hub :=
  match n with O => Some h | S n => deliver_next h ≫= deliver_rest n end.
(** The channels of a module as [transport.Mux] has them. *)
Definition view (h : hub) (module : string) : list (nat * list TransportMessage) :=
  (fun c => (c, default [] (c_buf <$> chans h !! c))) <$> list_of module h.

Lemma deliver_rest_spec cs msg h : NoDup cs ->
  (forall c, c ∈ cs -> exists x, chans h !! c = Some x /\ c_phase x <> Closed) ->
  flying h = match cs with [] => None | _ => Some (msg, cs) end ->
  exists h', deliver_rest (length cs) h = Some h' /\ flying h' = None /\ panicked h' = panicked h /\
    listed h' = listed h /\
    forall c, chans h' !! c = if decide (c ∈ cs) then take_in msg <$> chans h !! c else chans h !! c.
Proof.
  revert h. induction cs as [|c cs IH]; intros h Hnd Hall Hf; simpl.
  - by exists h.
  - apply NoDup_cons in Hnd as [Hc Hnd]. destruct (Hall c) as (x & Hx & Hp); [left|].
    unfold deliver_next. rewrite Hf. unfold on_chan. rewrite Hx. simpl. rewrite decide_False by done. simpl.
    match goal with |- context [deliver_rest _ ?h1] => destruct (IH h1) as (h' & H1 & H2 & H3 & H4 & H5) end; [done| |done|].
    + intros d Hd. simpl. rewrite lookup_insert_ne by (intros ->; done). apply Hall. by right.
    + exists h'. split_and!; [done..|]. intros d. rewrite H5. simpl. destruct (decide (d = c)) as [->|Hne].
      * rewrite decide_False by done. rewrite decide_True by left. rewrite lookup_insert_eq, Hx. done.
      * rewrite lookup_insert_ne by done. destruct (decide (d ∈ cs)).
        -- by rewrite decide_True by (by right).
        -- by rewrite decide_False by (by rewrite not_elem_of_cons).
Qed.

(** Run without interruption, the two parts of [deliver] are the atomic delivery of
    the mux: every channel of the module is offered the message, the others keep
    what they hold, and nothing panics. *)
Theorem deliver_refines es h m k d h1 :
  acts es start = Some h -> deliver_start m k d h = Some h1 ->
  exists h2, deliver_rest (length (list_of m h)) h1 = Some h2 /\ flying h2 = None /\ panicked h2 = panicked h /\
    view h2 m = offer (mkTM PEER_HYPERVISOR k d) <$> view h m /\
    forall m', m' <> m -> view h2 m' = view h m'.
Proof.
  intros H Hd. pose proof (inv_acts _ _ H) as Hi. unfold deliver_start in Hd.
  destruct (flying h) eqn:Ef; [done|]. injection Hd as <-.
  match goal with |- context [deliver_rest _ ?h1] =>
    destruct (deliver_rest_spec (list_of m h) (mkTM PEER_HYPERVISOR k d) h1) as (h2 & H1 & H2 & H3 & H4 & H5) end; simpl.
  - apply (i_nodup _ _ Hi).
  - intros c Hin. destruct (i_listed _ _ Hi _ _ Hin) as (x & Hx & _ & Hp). exists x. split; [done|].
    destruct Hp as [->| ->]; done.
  - by destruct (list_of m h).
  - exists h2. simpl in *. split_and!; [done..| |].
    + unfold view, list_of in *. rewrite H4, <-list_fmap_compose. apply list_fmap_ext. intros i c Hc.
      apply list_elem_of_lookup_2 in Hc. destruct (i_listed _ _ Hi _ _ Hc) as (x & Hx & _).
      simpl. rewrite H5, decide_True by done. rewrite Hx. unfold offer. simpl. by destruct (_ <? _)%nat.
    + intros m' Hne. unfold view, list_of in *. rewrite H4. apply list_fmap_ext. intros i c Hc.
      apply list_elem_of_lookup_2 in Hc. rewrite H5, decide_False; [done|]. intros Hin.
      destruct (i_listed _ _ Hi _ _ Hc) as (x & Hx & Hm & _), (i_listed _ _ Hi _ _ Hin) as (y & Hy & Hm' & _). congruence.
Qed.

(** No channel is closed while a delivery is under way. *)
Fixpoint undisturbed (es : list event) (h : hub) : Prop :=
  match es with
  | [] => True
  | e :: es' => (forall c, e = EClose c -> flying h = None) /\
      match act e h with Some h' => undisturbed es' h' | None => True end
  end.

Definition targets_open (h : hub) : Prop :=
  forall msg cs c x, flying h = Some (msg, cs) -> c ∈ cs -> chans h !! c = Some x -> c_phase x <> Closed.

(** One channel changes, to an open one or with nothing in flight. *)
Lemma targets_open_one h c x' l :
  targets_open h -> c_phase x' <> Closed \/ flying h = None ->
  targets_open (mkHub l (<[c := x']> (chans h)) (fresh h) (flying h) (panicked h)).
Proof.
  intros Ht Hp msg cs d y Hf Hd Hy. simpl in *. destruct (decide (d = c)) as [->|].
  - rewrite lookup_insert_eq in Hy. destruct Hp; simplify_eq; done.
  - rewrite lookup_insert_ne in Hy by done. by eapply Ht.
Qed.

Lemma undisturbed_step es e h h' :
  inv es h -> targets_open h -> panicked h = false -> act e h = Some h' ->
  (forall c, e = EClose c -> flying h = None) -> targets_open h' /\ panicked h' = false.
Proof.
  intros Hi Ht Hp Ha Hq. destruct e as [m|c|c|c|m k d| |c ok|c]; cbn [act] in Ha;
    unfold context_done, remove, close, forward, handler_returns, deliver_start, deliver_next, on_chan in Ha.
  - injection Ha as <-. split; [|done]. apply (targets_open_one h (fresh h) _ (listed (receive m h))); [done|by left].
  - destruct (chans h !! c) as [x|] eqn:Ex; [|done]. simpl in Ha. case_decide; [|done]. injection Ha as <-.
    split; [|done]. by eapply targets_open_one; [|left].
  - destruct (chans h !! c) as [x|] eqn:Ex; [|done]. simpl in Ha. case_decide; [|done]. injection Ha as <-.
    split; [|done]. by eapply targets_open_one; [|left].
  - destruct (chans h !! c) as [x|] eqn:Ex; [|done]. simpl in Ha. case_decide; [|done]. injection Ha as <-.
    split; [|done]. eapply targets_open_one; [done|right; by eapply Hq].
  - destruct (flying h); [done|]. injection Ha as <-. split; [|done]. intros msg cs c x Hf Hin Hx. simpl in *.
    destruct (list_of m h) as [|c0 cs0] eqn:E; [done|]. injection Hf as _ <-. rewrite <-E in Hin.
    destruct (i_listed _ _ Hi _ _ Hin) as (y & Hy & _ & [?|?]); congruence.
  - destruct (flying h) as [[msg [|c cs]]|] eqn:Ef; [done| |done].
    destruct (chans h !! c) as [x|] eqn:Ex; [|done]. simpl in Ha. case_decide as Hc.
    { exfalso. eapply (Ht msg); [exact Ef|left|exact Ex|done]. }
    injection Ha as <-. split; [|done]. intros msg' cs' d y Hf Hd Hy. simpl in *.
    destruct cs as [|c1 cs]; [done|]. injection Hf as _ <-. destruct (decide (d = c)) as [->|].
    + rewrite lookup_insert_eq in Hy. by simplify_eq.
    + rewrite lookup_insert_ne in Hy by done. eapply Ht; [exact Ef|by right|done].
  - destruct (chans h !! c) as [x|] eqn:Ex; [|done]. simpl in Ha.
    destruct (c_reading x), (c_buf x) as [|msg buf]; try done. injection Ha as <-. split; [|done].
    intros msg' cs d y Hf Hd Hy. simpl in *. destruct (decide (d = c)) as [->|].
    + rewrite lookup_insert_eq in Hy. simplify_eq. pose proof (Ht _ _ _ _ Hf Hd Ex).
      destruct ok; simpl; [done|]. by case_decide.
    + rewrite lookup_insert_ne in Hy by done. by eapply Ht.
  - destruct (chans h !! c) as [x|] eqn:Ex; [|done]. simpl in Ha.
    destruct (c_reading x && _); [|done]. injection Ha as <-. split; [|done].
    intros msg' cs d y Hf Hd Hy. simpl in *. destruct (decide (d = c)) as [->|].
    + rewrite lookup_insert_eq in Hy. simplify_eq. by apply (Ht _ _ _ _ Hf Hd Ex).
    + rewrite lookup_insert_ne in Hy by done. by eapply Ht.
Qed.

Lemma undisturbed_from es0 es h h' :
  inv es0 h -> targets_open h -> panicked h = false -> undisturbed es h -> acts es h = Some h' -> panicked h' = false.
Proof.
  revert es0 h. induction es as [|e es IH]; intros es0 h Hi Ht Hp Hu Ha.
  - by injection Ha as <-.
  - unfold acts in Ha. simpl in Ha, Hu. destruct Hu as [Hq Hu]. destruct (act e h) as [h1|] eqn:E.
    + destruct (undisturbed_step _ _ _ _ Hi Ht Hp E Hq). apply (IH (es0 ++ [e]) h1); auto. by eapply inv_act.
    + exfalso. clear -Ha. induction es; simpl in Ha; [done|auto].
Qed.

(** C29. Core survives its streams' ends as long as no channel is closed between the copy
    and the last send of a delivery: in such a run no send meets a closed channel. *)
Theorem undisturbed_safe es h :
  acts es start = Some h -> undisturbed es start -> panicked h = false.
Proof. intros H Hu. eapply (undisturbed_from []); [apply hub_inv_start|done..]. Qed.

(** The condition is needed: when a stream ends between the copy and the send, the
    read loop sends on a closed channel and the whole process goes down.  Here one
    module's stream ends while a message for it is on its way. *)
Definition race : list event :=
  [EReceive "sysinfo"; EDeliver "sysinfo" "ping" ""; EDone 0; ERemove 0; EClose 0; ENext].

Example deliver_close_race : exists h, acts race start = Some h /\ panicked h = true.
Proof. eexists. split; [vm_compute; reflexivity|reflexivity]. Qed.

(** *** Witnesses *)

Definition busy : list event :=
  [EReceive "sysinfo"; EReceive "other"; EDeliver "sysinfo" "a" "1"; ENext; EDeliver "sysinfo" "b" "2"; ENext;
   EForward 0 true; EDone 0; ERemove 0; EReturn 0; EClose 0].
Definition busy_hub : hub := default start (acts busy start).
Definition busy_chan : chan := mkChan "sysinfo" Closed [mkTM 2 "b" "2"] false [mkTM 2 "a" "1"].

Lemma inbound_in_order_witness :
  sublist (c_sent busy_chan ++ c_buf busy_chan) (addressed "sysinfo" busy) /\ (length (c_buf busy_chan) <= 64)%nat.
Proof. apply (inbound_in_order busy busy_hub 0 busy_chan); vm_compute; reflexivity. Defined.

Lemma deliver_refines_witness :
  let h := busy_hub in
  exists h1 h2, deliver_start "other" "k" "d" h = Some h1 /\
    deliver_rest (length (list_of "other" h)) h1 = Some h2 /\ flying h2 = None /\ panicked h2 = panicked h /\
    view h2 "other" = offer (mkTM PEER_HYPERVISOR "k" "d") <$> view h "other" /\
    forall m', m' <> "other" -> view h2 m' = view h m'.
Proof.
  intros h. destruct (deliver_start "other" "k" "d" h) as [h1|] eqn:E; [|vm_compute in E; discriminate E].
  destruct (deliver_refines busy h "other" "k" "d" h1) as (h2 & H); [vm_compute; reflexivity|exact E|].
  exists h1, h2. split; [reflexivity|exact H].
Defined.

Lemma undisturbed_safe_witness : panicked busy_hub = false.
Proof.
  apply (undisturbed_safe busy busy_hub); [vm_compute; reflexivity|].
  repeat (split; [intros ? [=]; reflexivity|]). exact I.
Defined.
End inbound.

(** ** The policy stream: [policyServer.Watch] over a [PolicyBackend] *)

Module watching.

(** [hostserv.PolicyBackend]: [Get], [Watch], and the state of the channel [Watch]
    returned (whether a value is buffered, and receiving it). *)
Class PolicyBackend (B : Type) := {
  P_Get : B -> string -> Z * string;
  P_Watch : string -> B -> nat * B;
  P_signalled : B -> nat -> bool;
  P_receive : nat -> B -> B }.

(** What the backend promises a watcher.  [other c] is any step somebody else takes
    while the watcher of channel [c] stays. *)
Class PolicyLaws (B : Type) `{!PolicyBackend B} := {
  watches : B -> string -> nat -> Prop;
  other : nat -> B -> B -> Prop;
  Watch_registers m b : watches (snd (P_Watch m b)) m (fst (P_Watch m b));
  other_keeps m c b b' : watches b m c -> other c b b' -> watches b' m c;
  other_wakes m c b b' : watches b m c -> other c b b' ->
    P_signalled b' c = true \/ (snd (P_Get b' m) = snd (P_Get b m) /\ P_signalled b' c = P_signalled b c);
  receive_keeps m c b : watches b m c -> watches (P_receive c b) m c;
  receive_Get m c b : P_Get (P_receive c b) m = P_Get b m }.

Inductive at_ := Reading | Waiting | Ended.
#[export] Instance at_eq_dec : EqDecision at_.
Proof. solve_decision. Defined.

Record stream (B : Type) := mkStream {
  backend : B; s_module : string; s_chan : nat; s_at : at_;
  s_last : option string;        (* [lastData]; [None] while [first] *)
  s_sent : list (Z * string) }.
Arguments mkStream {B}.
Arguments backend {B}.
Arguments s_module {B}.
Arguments s_chan {B}.
Arguments s_at {B}.
Arguments s_last {B}.
Arguments s_sent {B}.

Section Stream.
Context {B : Type} {PB : PolicyBackend B}.
Implicit Types x : stream B.

Definition open_stream (module : string) (b : B) : stream B :=
  mkStream (snd (P_Watch module b)) module (fst (P_Watch module b)) Reading None [].

(** One turn of the loop of [policyServer.Watch]; [send_ok] is the outcome of
    [stream.Send].  Blocked in the [select], the loop does not move. *)
Definition turn (send_ok : bool) (x : stream B) : stream B :=
  match s_at x with
  | Ended => x
  | Waiting =>
      if P_signalled (backend x) (s_chan x)
      then mkStream (P_receive (s_chan x) (backend x)) (s_module x) (s_chan x) Reading (s_last x) (s_sent x)
      else x
  | Reading =>
      let (rev, data) := P_Get (backend x) (s_module x) in
      if match s_last x with None => true | Some l => negb (String.eqb data l) end then
        if send_ok then mkStream (backend x) (s_module x) (s_chan x) Waiting (Some data) (s_sent x ++ [(rev, data)])
        else mkStream (backend x) (s_module x) (s_chan x) Ended (s_last x) (s_sent x)
      else mkStream (backend x) (s_module x) (s_chan x) Waiting (s_last x) (s_sent x)
  end.
(** The context of the stream is done while it waits. *)
Definition context_done (x : stream B) : stream B :=
  if decide (s_at x = Waiting) then mkStream (backend x) (s_module x) (s_chan x) Ended (s_last x) (s_sent x) else x.
Definition with_backend (b : B) (x : stream B) : stream B :=
  mkStream b (s_module x) (s_chan x) (s_at x) (s_last x) (s_sent x).
Definition current (x : stream B) : string := snd (P_Get (backend x) (s_module x)).

Context {PL : PolicyLaws B}.

Inductive step : stream B -> stream B -> Prop :=
| STurn x ok : step x (turn ok x)
| SDone x : step x (context_done x)
| SOther x b' : other (s_chan x) (backend x) b' -> step x (with_backend b' x).

Record stream_inv (x : stream B) : Prop := {
  si_watches : watches (backend x) (s_module x) (s_chan x);
  si_idle : s_at x = Waiting -> P_signalled (backend x) (s_chan x) = true \/ s_last x = Some (current x) }.

Lemma stream_inv_turn ok x : stream_inv x -> stream_inv (turn ok x).
Proof.
  intros [Hw Hi]. unfold turn. destruct (s_at x) eqn:Ea; [| |constructor; [done|congruence]].
  - destruct (P_Get (backend x) (s_module x)) as [rev data] eqn:Eg.
    assert (current x = data) as Hc by (unfold current; by rewrite Eg).
    destruct (s_last x) as [l|] eqn:El; [destruct (String.eqb_spec data l)|]; cbn [negb];
      [|destruct ok..]; constructor; unfold current in *; simpl; auto; intros ?; right; congruence.
  - destruct (P_signalled _ _) eqn:Es; [|constructor; [done|]; rewrite Es; auto].
    constructor; simpl; [by apply receive_keeps|done].
Qed.

Lemma watch_inv_step x x' : stream_inv x -> step x x' -> stream_inv x'.
Proof.
  intros Hi Hs. destruct Hs as [x ok|x|x b' Ho].
  - by apply stream_inv_turn.
  - unfold context_done. case_decide; [|done]. destruct Hi. by constructor.
  - destruct Hi as [Hw Hi]. constructor; simpl; [by eapply other_keeps|]. intros Ha.
    destruct (other_wakes _ _ _ _ Hw Ho) as [|[Hd Hs]]; [by left|]. unfold current in *. simpl. rewrite Hs, Hd. auto.
Qed.

Lemma stream_inv_reachable module b x : steps step (open_stream module b) x -> stream_inv x.
Proof.
  intros Hr. eapply (steps_invariant step stream_inv watch_inv_step); [|exact Hr].
  constructor; [apply Watch_registers|done].
Qed.

End Stream.

(** *** The policy manager keeps the promises *)

Import policy.

#[export] Instance Manager_backend : PolicyBackend Manager := {
  P_Get m id := let (r, d) := Get m id in (r, default "" d);
  P_Watch := Watch;
  P_signalled m c := default false (chans m !! c);
  P_receive c m := set_chan c false m }.

Definition manager_watches (m : Manager) (id : string) (c : nat) : Prop :=
  c ∈ default [] (watchers m !! id) /\ (c < fresh_chan m)%nat.

Inductive manager_other (c : nat) (m : Manager) : Manager -> Prop :=
| MApply doc m' : apply_doc doc m = Some m' -> manager_other c m m'
| MWatch id : manager_other c m (snd (Watch id m))
| MUnwatch id d : d <> c -> manager_other c m (Unwatch id d m)
| MReceive d : d <> c -> manager_other c m (set_chan d false m).

(** Watch lists, as both backends keep them. *)
Lemma listed_append (id id' : string) (c d : nat) (ws : gmap string (list nat)) :
  c ∈ default [] (ws !! id) -> c ∈ default [] (<[id' := default [] (ws !! id') ++ [d]]> ws !! id).
Proof.
  intros H. destruct (decide (id' = id)) as [->|]; [|by rewrite lookup_insert_ne].
  rewrite lookup_insert_eq. apply elem_of_app. by left.
Qed.
Lemma listed_new (id : string) (d : nat) (ws : gmap string (list nat)) :
  d ∈ default [] (<[id := default [] (ws !! id) ++ [d]]> ws !! id).
Proof. rewrite lookup_insert_eq. apply elem_of_app. right. left. Qed.
Lemma listed_remove (id id' : string) (c d : nat) (ws : gmap string (list nat)) :
  d <> c -> c ∈ default [] (ws !! id) -> c ∈ default [] (<[id' := remove_first d (default [] (ws !! id'))]> ws !! id).
Proof.
  intros Hne H. destruct (decide (id' = id)) as [->|]; [|by rewrite lookup_insert_ne].
  rewrite lookup_insert_eq. by apply remove_first_other.
Qed.

#[export] Program Instance Manager_laws : PolicyLaws Manager :=
  {| watches := manager_watches; other := manager_other |}.
Next Obligation. intros id m. split; [apply listed_new|simpl; lia]. Qed.
Next Obligation.
  intros id c m m' [Hl Hf] Ho. destruct Ho as [doc m' Ha|id'|id' d Hne|d Hne].
  - unfold apply_doc in Ha. by destruct (_ =? _); simplify_eq.
  - split; [by apply listed_append|simpl; lia].
  - split; [|done]. simpl. destruct (watchers m !! id') as [ws|] eqn:E; [|done].
    pose proof (listed_remove id id' c d _ Hne Hl) as H. by rewrite E in H.
  - done.
Qed.
Next Obligation.
  intros id c m m' [Hl Hf] Ho. destruct Ho as [doc m' Ha|id'|id' d Hne|d Hne]; simpl.
  - destruct (decide (default "" (docs m !! id) = default "" (Modules doc !! id))) as [He|Hd].
    + pose proof (apply_doc_docs _ _ _ id Ha) as Hdoc.
      unfold apply_doc in Ha. destruct (_ =? _); simplify_eq. simpl in *. rewrite wake_lookup.
      destruct (decide _); [by left|right; split; congruence].
    + left. unfold apply_doc in Ha. destruct (_ =? _); simplify_eq. simpl.
      rewrite wake_lookup, decide_True; [done|]. apply list_elem_of_bind. exists id.
      split; [done | by apply changed_spec].
  - right. by rewrite lookup_insert_ne by lia.
  - by right.
  - right. by rewrite lookup_insert_ne.
Qed.
Next Obligation. done. Qed.
Next Obligation. done. Qed.
End watching.

(** ** The in-memory backends (internal/hostserv/memory.go) *)

Module memory.
Import watching.

Record memPolicyDoc := mkDoc { d_revision : Z; d_data : string }.
Record MemPolicy := mkMemPolicy {
  m_docs : gmap string memPolicyDoc; m_watchers : gmap string (list nat);
  m_chans : gmap nat bool; m_fresh : nat }.
Definition NewMemPolicy : MemPolicy := mkMemPolicy ∅ ∅ ∅ 0.

Definition doc_of (m : MemPolicy) (module : string) : memPolicyDoc := default (mkDoc 0 "") (m_docs m !! module).

(** [MemPolicy.Set] *)
Definition Set_ (module data : string) (m : MemPolicy) : MemPolicy :=
  mkMemPolicy (<[module := mkDoc (eventbus.u64 (d_revision (doc_of m module) + 1)) data]> (m_docs m)) (m_watchers m)
    (policy.wake (default [] (m_watchers m !! module)) (m_chans m)) (m_fresh m).
Definition Get (m : MemPolicy) (module : string) : Z * string :=
  let d := doc_of m module in (d_revision d, d_data d).
(** [MemPolicy.Watch], and its goroutine when the context ends *)
Definition Watch (module : string) (m : MemPolicy) : nat * MemPolicy :=
  let c := m_fresh m in
  (c, mkMemPolicy (m_docs m) (<[module := default [] (m_watchers m !! module) ++ [c]]> (m_watchers m))
        (<[c := false]> (m_chans m)) (S c)).
Definition Unwatch (module : string) (c : nat) (m : MemPolicy) : MemPolicy :=
  mkMemPolicy (m_docs m) (<[module := policy.remove_first c (default [] (m_watchers m !! module))]> (m_watchers m))
    (m_chans m) (m_fresh m).
Definition receive (c : nat) (m : MemPolicy) : MemPolicy :=
  mkMemPolicy (m_docs m) (m_watchers m) (<[c := false]> (m_chans m)) (m_fresh m).

#[export] Instance MemPolicy_backend : PolicyBackend MemPolicy := {
  P_Get := Get; P_Watch := Watch;
  P_signalled m c := default false (m_chans m !! c);
  P_receive := receive }.

Inductive mem_other (c : nat) (m : MemPolicy) : MemPolicy -> Prop :=
| OSet module data : mem_other c m (Set_ module data m)
| OWatch module : mem_other c m (snd (Watch module m))
| OUnwatch module d : d <> c -> mem_other c m (Unwatch module d m)
| OReceive d : d <> c -> mem_other c m (receive d m).

#[export] Program Instance MemPolicy_laws : PolicyLaws MemPolicy :=
  {| watches m id c := c ∈ default [] (m_watchers m !! id) /\ (c < m_fresh m)%nat; other := mem_other |}.
Next Obligation. intros id m. split; [apply listed_new|simpl; lia]. Qed.
Next Obligation.
  intros id c m m' [Hl Hf] Ho. destruct Ho; simpl; (split; [|lia]); try done;
    [by apply listed_append|by apply listed_remove].
Qed.
Next Obligation.
  intros id c m m' [Hl Hf] Ho. destruct Ho as [module data|module|module d Hne|d Hne]; simpl.
  - rewrite policy.wake_lookup. destruct (decide (module = id)) as [->|Hne].
    + left. by rewrite decide_True.
    + case_decide; [by left|]. right. unfold Get, doc_of. simpl. by rewrite lookup_insert_ne.
  - right. by rewrite lookup_insert_ne by lia.
  - by right.
  - right. by rewrite lookup_insert_ne.
Qed.
Next Obligation. done. Qed.
Next Obligation. done. Qed.

(** A module's document is the last one set for it and its revision counts, at 64
    bits, how often one was; other modules' settings do not show. *)
Definition sets_for (module : string) (l : list (string * string)) : list string :=
  (filter (fun p => p.1 = module) l).*2.
Definition set_all (l : list (string * string)) (m : MemPolicy) : MemPolicy :=
  foldl (fun m p => Set_ p.1 p.2 m) m l.

Theorem MemPolicy_counts l module :
  Get (set_all l NewMemPolicy) module =
  (Z.of_nat (length (sets_for module l)) mod 2 ^ 64, List.last (sets_for module l) "").
Proof.
  induction l as [|[id data] l IH] using rev_ind.
  - unfold Get, doc_of. simpl. by rewrite lookup_empty.
  - unfold set_all, sets_for. rewrite foldl_app, filter_app. cbn [foldl filter list_filter fst snd].
    fold (set_all l NewMemPolicy). unfold Get, doc_of in IH |- *. cbn [Set_ m_docs].
    destruct (decide (id = module)) as [->|Hne].
    + rewrite lookup_insert_eq. cbn [from_option id d_revision d_data].
      injection IH as IH1 _. unfold doc_of, default in *. rewrite IH1.
      rewrite fmap_app, length_app. cbn [fmap list_fmap length snd]. rewrite last_last.
      f_equal. unfold eventbus.u64, sets_for. rewrite Zplus_mod_idemp_l. f_equal. lia.
    + rewrite lookup_insert_ne by done. rewrite ?decide_False, app_nil_r by done. exact IH.
Qed.

(** [StubIdentity]: [rnd] is what [crypto/rand] returned, [now] the clock. *)
Definition NewStubIdentity (rnd : string) : string := "ephemeral-" +++ hex_encode rnd.
Definition StubIdentity_WhoAmI (device : string) : string * bool * string := (device, true, "").
Definition StubIdentity_Credential (rnd : string) (now : Z) (module : string) (scopes : list string) :
  result werror.error (string * Z * list string) :=
  Ok ("stub-" +++ module +++ "-" +++ hex_encode rnd, now + 3600, scopes).
Definition StubIdentity (device rnd : string) (now : Z) : hostserv.Identity :=
  hostserv.mkIdentity (StubIdentity_WhoAmI device) (StubIdentity_Credential rnd now).

(** [LogTransport], as the lines it logged. *)
Record sent_line := mkLine { l_module : string; l_peer : Z; l_kind : string; l_bytes : Z; l_queue : bool }.
Definition LogTransport_Send (module : string) (peer : Z) (kind data : string) (queue : bool) (log : list sent_line) :
  result werror.error bool * list sent_line :=
  (Ok false, log ++ [mkLine module peer kind (Z.of_nat (String.length data)) queue]).
#[export] Instance LogTransport : hostserv.TransportBackend (list sent_line) := {
  hostserv.T_Send := LogTransport_Send }.

Section Honest.
Context {S : Type} {SB : store.StoreBackend S}.

(** Behind the pre-enrolment backends every send is answered as not delivered and
    leaves one line under the sender's id, and every other call leaves the
    transport as it was. *)
Theorem stub_transport_honest moduleID token allow vals c now req (v : hostserv.Services S (list sent_line)) r v' :
  hostserv.serve moduleID token allow vals c now req v = (r, v') ->
  r <> Ok (hostserv.RDelivered true) /\
  hostserv.Transport v' = hostserv.Transport v ++
    match req with
    | hostserv.TransportSend peer kind data q =>
        if hostserv.token_ok token vals then [mkLine moduleID peer kind (Z.of_nat (String.length data)) q] else []
    | _ => []
    end.
Proof.
  unfold hostserv.serve. destruct (hostserv.token_ok token vals); intros H.
  - destruct req; cbn [hostserv.dispatch] in H; rewrite ?app_nil_r;
      unfold hostserv.storeServer_Get, hostserv.storeServer_Put, hostserv.storeServer_Delete, hostserv.storeServer_List,
        hostserv.policyServer_Get, hostserv.eventsServer_Subscribe, hostserv.eventsServer_Publish, hostserv.identityServer_WhoAmI,
        hostserv.identityServer_Credential, hostserv.transportServer_Send, hostserv.logServer_Write,
        hostserv.watchdogServer_Notify, hostserv.fail_with, hostserv.T_Send, LogTransport, LogTransport_Send in H; repeat case_match; simplify_eq/=; done.
  - simplify_eq. split; [done|]. by destruct req; rewrite app_nil_r.
Qed.
End Honest.

(** *** Witnesses *)

Import (hints) store.

(** Two documents arrive while the stream is blocked. *)
Definition opened : stream MemPolicy := open_stream "sysinfo" NewMemPolicy.
Definition idle : stream MemPolicy := turn true opened.
Definition late : stream MemPolicy :=
  with_backend (Set_ "sysinfo" "2" (Set_ "sysinfo" "1" (backend idle))) idle.


Lemma stub_transport_honest_witness :
  let v := hostserv.mkServices (store.NewMemStore) eventbus.New policy.NewManager
             (StubIdentity (NewStubIdentity "x") "y" 0) [] [] [] in
  let out := hostserv.serve "sysinfo" "tok" [] ["tok"] store.a_call 0 (hostserv.TransportSend 1 "k" "abc" true) v in
  fst out <> Ok (hostserv.RDelivered true) /\ hostserv.Transport (snd out) = [mkLine "sysinfo" 1 "k" 3 true].
Proof. intros v out. apply (stub_transport_honest "sysinfo" "tok" [] ["tok"] store.a_call 0 (hostserv.TransportSend 1 "k" "abc" true) v).
  reflexivity. Defined.
End memory.

(** ** Events, from the bus to the module

    [eventsServer.Subscribe] reads the subscription and sends each event;
    [eventsClient.Subscribe] receives and hands it to the module's channel.  The
    time of publication crosses in milliseconds. *)

Module hearing.
Import eventbus.

Definition UnixMilli (ns : Z) : Z := ns / 1000000.
Definition time_UnixMilli (ms : Z) : Z := ms * 1000000.
(** The message of the stream, and the event the client makes of it. *)
Definition wire_event (e : Event) : Event := mkEvent (Topic e) (Data e) (UnixMilli (PublishedAt e)) (Sequence e).
Definition module_event (w : Event) : Event := mkEvent (Topic w) (Data w) (time_UnixMilli (PublishedAt w)) (Sequence w).

(** The loop of [eventsServer.Subscribe] on what it took from its subscription:
    [oks] are the outcomes of [stream.Send].  What arrives, and whether the handler
    returned with the error. *)
Fixpoint serve_events (evs : list Event) (oks : list bool) : list Event * bool :=
  match evs, oks with
  | e :: evs, true :: oks => let (out, failed) := serve_events evs oks in (wire_event e :: out, failed)
  | _ :: _, false :: _ => ([], true)
  | _, _ => ([], false)
  end.

(** The whole path: the events taken, the sends, then the client's goroutine, with
    the stream's end after what was sent. *)
Definition heard (evs : list Event) (oks hand : list bool) : list Event :=
  module_event <$> fst (hostclient.pump ((Some <$> fst (serve_events evs oks)) ++ [None]) hand).

Lemma serve_events_prefix evs oks : fst (serve_events evs oks) `prefix_of` wire_event <$> evs.
Proof.
  revert oks. induction evs as [|e evs IH]; intros oks; simpl; [done|].
  destruct oks as [|[] oks]; simpl; [apply prefix_nil| |apply prefix_nil].
  specialize (IH oks). destruct (serve_events evs oks). by apply prefix_cons.
Qed.

Lemma before_error_some {A} (l : list A) : hostclient.before_error ((Some <$> l) ++ [None]) = l.
Proof. induction l as [|a l IH]; [done|]. cbn [fmap list_fmap app hostclient.before_error]. by f_equal. Qed.

Lemma heard_prefix evs oks hand : heard evs oks hand `prefix_of` (module_event ∘ wire_event) <$> evs.
Proof.
  unfold heard. rewrite list_fmap_compose.
  pose proof (hostclient.pump_in_order ((Some <$> fst (serve_events evs oks)) ++ [None]) hand) as Hp.
  destruct (hostclient.pump _ hand) as [out closed]. destruct Hp as [Hp _]. rewrite before_error_some in Hp.
  destruct (transitivity Hp (serve_events_prefix evs oks)) as [r Hr]. simpl. exists (module_event <$> r).
  by rewrite <-fmap_app, <-Hr.
Qed.

Lemma prefix_sublist {A} (l k : list A) : l `prefix_of` k -> sublist l k.
Proof. intros [r ->]. by apply sublist_inserts_r. Qed.

(** Subscriptions keep their topics, and their logs hold matching events only. *)
Definition logs_match (h : history) : Prop :=
  forall id s, heap (bus h) !! id = Some s -> Forall (fun e => matches (topics s) (Topic e) = true) (log h id).

Lemma logs_match_start : logs_match start.
Proof. intros id s. simpl. by rewrite lookup_empty. Qed.

Lemma deliver_topics ev s : topics (deliver ev s) = topics s.
Proof. unfold deliver. by repeat case_match. Qed.

Lemma Publish_lookup from topic data now b id s' :
  heap (Publish from topic data now b) !! id = Some s' ->
  exists s, heap b !! id = Some s /\ topics s' = topics s.
Proof.
  unfold Publish. simpl. rewrite map_lookup_imap. destruct (heap b !! id) as [s|]; simpl; [|done].
  intros [= <-]. exists s. split; [done|]. case_decide; [apply deliver_topics|done].
Qed.

Lemma logs_match_step h h' : inv h -> step h h' -> logs_match h -> logs_match h'.
Proof.
  intros Hi Hs Hm id s' H. destruct Hs as [h from topic data now ev|h ts|h i ev b Hr|h i]; simpl in *.
  - destruct (Publish_lookup _ _ _ _ _ _ _ H) as (s & Hh & Ht). rewrite Hh, Ht.
    specialize (Hm id s Hh). repeat case_match; try done. apply Forall_app. split; [done|by constructor].
  - destruct (decide (id = fresh_id (bus h))) as [->|].
    + destruct (i_fresh _ Hi (fresh_id (bus h)) (le_n _)) as (_ & _ & -> & _). constructor.
    + rewrite lookup_insert_ne in H by done. auto.
  - apply Receive_Some in Hr as (ts & q & d & Hh & ->). simpl in H. destruct (decide (id = i)) as [->|].
    + rewrite lookup_insert_eq in H. injection H as <-. apply (Hm i _ Hh).
    + rewrite lookup_insert_ne in H by done. auto.
  - auto.
Qed.

(** A subscription that exists goes on to exist with its topics. *)
Lemma topics_step h h' id s : inv h -> step h h' -> heap (bus h) !! id = Some s ->
  exists s', heap (bus h') !! id = Some s' /\ topics s' = topics s.
Proof.
  intros Hi Hs H. destruct Hs as [h from topic data now ev|h ts|h i ev b Hr|h i]; simpl in *.
  - rewrite map_lookup_imap, H. simpl. eexists. split; [done|]. case_decide; [apply deliver_topics|done].
  - exists s. rewrite lookup_insert_ne; [done|]. intros <-.
    destruct (i_fresh _ Hi _ (le_n _)) as [Hn _]. congruence.
  - apply Receive_Some in Hr as (ts & q & d & Hh & ->). simpl. destruct (decide (id = i)) as [->|].
    + rewrite lookup_insert_eq. eexists. split; [done|]. by rewrite Hh in H; injection H as <-.
    + rewrite lookup_insert_ne by done. by exists s.
  - by exists s.
Qed.

Lemma history_from h h' : steps step h h' -> inv h -> logs_match h -> pubs h' < 2 ^ 64 ->
  inv h' /\ logs_match h' /\
  forall id s, heap (bus h) !! id = Some s -> exists s', heap (bus h') !! id = Some s' /\ topics s' = topics s.
Proof.
  induction 1 as [h|h h1 h2 Hs Hr IH]; intros Hi Hm Hp; [eauto 6|].
  pose proof (steps_pubs _ _ Hr).
  destruct IH as (Hi2 & Hm2 & Ht2); [eapply inv_step; eauto; lia|by eapply logs_match_step|done|].
  split_and!; [done|done|]. intros id s H0. destruct (topics_step _ _ _ _ Hi Hs H0) as (s1 & H1 & <-). eauto.
Qed.

Section Hears.
Context {S T : Type} {SB : store.StoreBackend S} {TB : hostserv.TransportBackend T}.

(** C21. What a module hears on a subscription core granted: events published while it
    was registered, each at most once and in order, and only on topics its
    manifest declares, whatever the bus carried before and after and wherever
    sends fail or the module stops reading.  (The declared list must not use a
    pattern with two stars.) *)
Theorem module_hears allow ts (v : hostserv.Services S T) id v' h h' oks hand :
  Forall (fun a => cut_suffix "**" a = None) allow ->
  steps step start h -> bus h = hostserv.Bus v ->
  hostserv.eventsServer_Subscribe allow ts v = (Ok (hostserv.RSubscribed id), v') ->
  steps step (mkHistory (hostserv.Bus v') (log h) (taken h) (pubs h)) h' -> pubs h' < 2 ^ 64 ->
  sublist (heard (taken h' id) oks hand) ((module_event ∘ wire_event) <$> log h' id) /\
  Forall (fun e => matches allow (Topic e) = true) (heard (taken h' id) oks hand).
Proof.
  intros Hstar Hr Hb Hsub Hr' Hp.
  unfold hostserv.eventsServer_Subscribe in Hsub. destruct (find_first _ ts) eqn:Ef; [done|].
  rewrite <-Hb in Hsub. cbn [Subscribe] in Hsub. injection Hsub as <- <-.
  apply find_first_None in Ef. simpl in Hr'.
  assert (steps step start h') as Hall.
  { eapply steps_trans; [exact Hr|]. eapply steps_step; [apply (SSubscribe h ts)|exact Hr']. }
  destruct (history_from _ _ Hall inv_start) as (Hi & Hm & _); [apply logs_match_start|done|].
  assert (inv h) as Hih.
  { apply (inv_reachable _ Hr). eapply Z.le_lt_trans; [|exact Hp]. by apply (steps_pubs _ _ Hr'). }
  destruct (history_from _ _ Hr') as (_ & _ & Ht); [by apply inv_subscribe| |done|].
  { eapply logs_match_step; [exact Hih|apply (SSubscribe h ts)|].
    eapply history_from; [exact Hr|apply inv_start| |]; [apply logs_match_start|].
    eapply Z.le_lt_trans; [|exact Hp]. by apply (steps_pubs _ _ Hr'). }
  destruct (Ht (fresh_id (bus h)) (mkSubscription ts [] 0)) as (s & Hs & Htop); [apply lookup_insert_eq|].
  simpl in Htop. destruct (i_deliv _ Hi _ _ Hs) as [Hd _].
  assert (sublist (heard (taken h' (fresh_id (bus h))) oks hand) ((module_event ∘ wire_event) <$> log h' (fresh_id (bus h)))) as Hsl.
  { etrans; [apply prefix_sublist, heard_prefix|]. apply fmap_sublist. etrans; [|exact Hd]. by apply sublist_inserts_r. }
  split; [done|]. apply Forall_forall. intros e He. apply (elem_of_sublist _ _ _ He) in Hsl.
  apply list_elem_of_fmap in Hsl as (e0 & -> & He0). simpl.
  pose proof (Hm _ _ Hs) as Hlog. rewrite Forall_forall in Hlog. specialize (Hlog _ He0). rewrite Htop in Hlog.
  unfold matches in Hlog. apply existsb_exists in Hlog as (t & Hin & Hmt). rewrite Forall_forall in Ef.
  apply (hostserv.topicAllowed_sound t); [done| |unfold matches; simpl; by rewrite Hmt].
  apply list_elem_of_In in Hin. specialize (Ef _ Hin). by apply negb_false_iff in Ef.
Qed.
End Hears.

(** *** Witness *)

Import (hints) store hostserv.

Definition v_start : hostserv.Services store.MemStore unit :=
  hostserv.mkServices store.NewMemStore New policy.NewManager hostserv.stub_identity tt [] [].
Definition v_sub : hostserv.Services store.MemStore unit :=
  hostserv.with_bus (snd (Subscribe ["sysinfo.disk.*"] New)) v_start.
Definition h_sub : history := mkHistory (hostserv.Bus v_sub) (log start) (taken start) (pubs start).
Definition full : Event := mkEvent "sysinfo.disk.full" "d" 1500000 1.
Definition h_pub : history :=
  mkHistory (Publish "sysinfo" "disk.full" "d" 1500000 (bus h_sub))
    (fun i => match heap (bus h_sub) !! i with
              | Some s => if decide (i ∈ subs (bus h_sub)) then
                            if matches (topics s) "sysinfo.disk.full" then [] ++ [full] else []
                          else []
              | None => []
              end) (taken start) (0 + 1).
Definition b_taken : Bus := default New (snd <$> Receive 0 (bus h_pub)).
Definition h_taken : history := mkHistory b_taken (log h_pub) (extend (taken h_pub) 0 full) (pubs h_pub).

Lemma module_hears_witness :
  heard (taken h_taken 0) [true] [true] = [mkEvent "sysinfo.disk.full" "d" 1000000 1] /\
  sublist (heard (taken h_taken 0) [true] [true]) ((module_event ∘ wire_event) <$> log h_taken 0) /\
  Forall (fun e => matches ["sysinfo.*"] (Topic e) = true) (heard (taken h_taken 0) [true] [true]).
Proof.
  split; [reflexivity|].
  apply (module_hears ["sysinfo.*"] ["sysinfo.disk.*"] v_start 0 v_sub start h_taken);
    [repeat constructor|apply steps_refl|reflexivity|reflexivity| |reflexivity].
  eapply steps_step; [apply (SPublish h_sub "sysinfo" "disk.full" "d" 1500000)|].
  apply steps_one. apply (SReceive h_pub 0 full b_taken). reflexivity.
Defined.
End hearing.
