(* ===== verification/Host.v ===== *)
(** * What core learns about its host (sdk/platform, internal/capability)

    The host description and the capability inventory core takes once at start-up.
    The operating system is a record of what its calls answer. *)

From stdpp Require Import base list strings gmap.
From Stdlib Require Import ZArith Lia Ascii.
From S2P Require Import Prelude.
From S2P Require Import GoStrings.
From S2P Require Import GoText.
Open Scope Z_scope.

Local Infix "+++" := String.append (at level 60, right associativity).

(** Answers of the operating system; [None] is an error. *)
Record machine := mkMachine {
  goos : string; goarch : string;                 (* fixed at build time *)
  hostname : option string;                       (* os.Hostname *)
  read_file : string -> option string;            (* os.ReadFile, os.Open *)
  read_dir : string -> option (list string);      (* os.ReadDir, sorted *)
  stat_ok : string -> bool;                       (* os.Stat without an error *)
  sysctl : string -> option string }.

Module platform.

Record Info := mkInfo { OS : string; Arch : string; Version : string; Build : string; Hostname : string }.
Definition set_version (v : string) (i : Info) : Info := mkInfo (OS i) (Arch i) v (Build i) (Hostname i).
Definition set_build (v : string) (i : Info) : Info := mkInfo (OS i) (Arch i) (Version i) v (Hostname i).

Definition quote : ascii := ascii_of_nat 34.
(** [strings.Trim(v, quote)] *)
Definition unquote (v : string) : string := trim_right quote (drop_char quote v).

(** One line of /etc/os-release. *)
Definition release_line (i : Info) (line : string) : Info :=
  let i := match cut_prefix "VERSION_ID=" line with Some v => set_version (unquote v) i | None => i end in
  match cut_prefix "BUILD_ID=" line with Some v => set_build (unquote v) i | None => i end.

(** [fill] on Linux and on macOS *)
Definition fill_hostname (o : machine) (i : Info) : Info :=
  match hostname o with Some hn => mkInfo (OS i) (Arch i) (Version i) (Build i) hn | None => i end.
Definition fill_linux (o : machine) (i : Info) : Info :=
  let i := fill_hostname o i in
  match read_file o "/etc/os-release" with
  | None => i
  | Some f => fold_left release_line (scan_lines f) i
  end.
Definition fill_darwin (o : machine) (i : Info) : Info :=
  let i := fill_hostname o i in
  let i := match sysctl o "kern.osproductversion" with Some v => set_version v i | None => i end in
  match sysctl o "kern.osversion" with Some v => set_build v i | None => i end.

(** [Host], for the [fill] of the build *)
Definition Host (fill : machine -> Info -> Info) (o : machine) : Info :=
  fill o (mkInfo (goos o) (goarch o) "" "" "").

(** The value of the last line of the file with the given key. *)
Fixpoint last_value (key : string) (lines : list string) (d : string) : string :=
  match lines with
  | [] => d
  | l :: ls => last_value key ls (match cut_prefix key l with Some v => unquote v | None => d end)
  end.

(** The host description on Linux is what the machine reports: the last version
    and build lines of os-release, each read on its own, empty when absent. *)
Theorem Host_linux o :
  Host fill_linux o =
  let ls := match read_file o "/etc/os-release" with Some f => scan_lines f | None => [] end in
  mkInfo (goos o) (goarch o) (last_value "VERSION_ID=" ls "") (last_value "BUILD_ID=" ls "") (default "" (hostname o)).
Proof.
  unfold Host, fill_linux, fill_hostname. set (i0 := mkInfo (goos o) (goarch o) "" "" (default "" (hostname o))).
  replace (match hostname o with Some hn => _ | None => _ end) with i0 by (by destruct (hostname o)).
  destruct (read_file o _) as [f|]; [|done]. simpl.
  enough (forall ls v b hn, fold_left release_line ls (mkInfo (goos o) (goarch o) v b hn) =
    mkInfo (goos o) (goarch o) (last_value "VERSION_ID=" ls v) (last_value "BUILD_ID=" ls b) hn) as H by apply H.
  intros ls. induction ls as [|l ls IH]; intros v b hn; [done|]. cbn [fold_left last_value]. rewrite <-IH. f_equal.
  unfold release_line. by destruct (cut_prefix "VERSION_ID=" l), (cut_prefix "BUILD_ID=" l).
Qed.
End platform.

Module capability.
Import platform.

(** [Set]: capability name to attributes. *)
Notation Set_ := (gmap string (gmap string string)).

(** [Has]: the names that are missing. *)
Definition Has (s : Set_) (names : list string) : list string :=
  filter (fun n => s !! n = None) names.

Definition ChannelPortName : string := "org.weave.agent.0".

(** The loop of [channelDevice] over the sysfs entries. *)
Fixpoint port_by_name (o : machine) (entries : list string) : string :=
  match entries with
  | [] => ""
  | e :: es =>
      match read_file o ("/sys/class/virtio-ports/" +++ e +++ "/name") with
      | None => port_by_name o es
      | Some name =>
          if negb (String.eqb (trim_space name) ChannelPortName) then port_by_name o es
          else if stat_ok o ("/dev/" +++ e) then "/dev/" +++ e else port_by_name o es
      end
  end.
Definition channelDevice (o : machine) : string :=
  let link := "/dev/virtio-ports/" +++ ChannelPortName in
  if stat_ok o link then link
  else match read_dir o "/sys/class/virtio-ports" with
       | None => ""
       | Some entries => port_by_name o entries
       end.

(** [probeOS] on Linux and on macOS *)
Definition probeOS_linux (o : machine) (set : Set_) : Set_ :=
  let dev := channelDevice o in
  if String.eqb dev "" then set
  else <["hypervisor.channel" := <["kind" := "virtio-serial"]> {["device" := dev]}]> set.
Definition darwin_devices : list string := ["/dev/cu.org.weave.agent.0"; "/dev/virtio-ports/org.weave.agent.0"].
Definition probeOS_darwin (o : machine) (set : Set_) : Set_ :=
  match find_first (stat_ok o) darwin_devices with
  | Some dev => <["hypervisor.channel" := {["device" := dev]}]> set
  | None => set
  end.

Definition osinfo (i : Info) : gmap string string :=
  <["os" := OS i]> (<["arch" := Arch i]> (<["version" := Version i]> (<["build" := Build i]> {["hostname" := Hostname i]}))).

(** [Probe], for the [fill] and [probeOS] of the build *)
Definition Probe (fill : machine -> Info -> Info) (probeOS : machine -> Set_ -> Set_) (o : machine) : Set_ :=
  probeOS o {["platform.osinfo" := osinfo (Host fill o)]}.

(** [Has] reports exactly the names the inventory does not hold, in the order asked. *)
Lemma Has_spec s names : Has s names = [] <-> Forall (fun n => is_Some (s !! n)) names.
Proof.
  unfold Has. induction names as [|n names IH]; [by split|]. rewrite Forall_cons, <-IH.
  destruct (decide (s !! n = None)) as [E|E].
  - rewrite filter_cons_True by done. rewrite E. split; [done|]. intros [[? ?] _]. done.
  - rewrite filter_cons_False by done. apply not_eq_None_Some in E. tauto.
Qed.

(** How the machine offers the agent's port: udev's link, or a node whose published
    name, white space aside, is the agent's. *)
Definition offers (o : machine) (dev : string) : Prop :=
  stat_ok o dev = true /\
  (dev = "/dev/virtio-ports/" +++ ChannelPortName \/
   exists es e name, read_dir o "/sys/class/virtio-ports" = Some es /\ e ∈ es /\ dev = "/dev/" +++ e /\
     read_file o ("/sys/class/virtio-ports/" +++ e +++ "/name") = Some name /\ trim_space name = ChannelPortName).

Lemma port_by_name_spec o es :
  let dev := port_by_name o es in
  let hit e := exists name, read_file o ("/sys/class/virtio-ports/" +++ e +++ "/name") = Some name /\
                 trim_space name = ChannelPortName /\ stat_ok o ("/dev/" +++ e) = true in
  (dev = "" /\ Forall (fun e => ~ hit e) es) \/ (exists e, e ∈ es /\ hit e /\ dev = "/dev/" +++ e).
Proof.
  induction es as [|e es IH]; simpl; [by left|].
  destruct (read_file o _) as [name|] eqn:E1.
  2: { destruct IH as [[H1 H2]|(e' & H1 & H2)]; [left|right; exists e'; set_solver]. split; [done|].
       constructor; [|done]. intros (? & ? & _). congruence. }
  destruct (String.eqb_spec (trim_space name) ChannelPortName) as [E2|E2]; simpl.
  2: { destruct IH as [[H1 H2]|(e' & H1 & H2)]; [left|right; exists e'; set_solver]. split; [done|].
       constructor; [|done]. intros (? & ? & ? & _). congruence. }
  destruct (stat_ok o _) eqn:E3.
  - right. exists e. split; [left|]. eauto.
  - destruct IH as [[H1 H2]|(e' & H1 & H2)]; [left|right; exists e'; set_solver]. split; [done|].
    constructor; [|done]. intros (? & ? & ? & ?). congruence.
Qed.

(** The inventory on Linux: the host can always describe itself, and the hypervisor
    channel is claimed exactly when the machine offers the agent's port by name,
    with such a port as its device; other nodes, /dev/vsock among them, never count. *)
Theorem Probe_linux o :
  let s := Probe fill_linux probeOS_linux o in
  s !! "platform.osinfo" = Some (osinfo (Host fill_linux o)) /\
  (is_Some (s !! "hypervisor.channel") <-> exists dev, offers o dev) /\
  (forall attrs, s !! "hypervisor.channel" = Some attrs ->
     attrs !! "kind" = Some "virtio-serial" /\ exists dev, attrs !! "device" = Some dev /\ offers o dev).
Proof.
  unfold Probe, probeOS_linux.
  assert ((channelDevice o = "" /\ forall dev, ~ offers o dev) \/ (channelDevice o <> "" /\ offers o (channelDevice o))) as H.
  { unfold channelDevice, offers. destruct (stat_ok o ("/dev/virtio-ports/" +++ ChannelPortName)) eqn:E1.
    - right. eauto.
    - destruct (read_dir o _) as [es|] eqn:E2.
      + destruct (port_by_name_spec o es) as [[-> H]|(e & Hin & (name & H1 & H2 & H3) & ->)].
        * left. split; [done|]. intros dev [Hs [->|(es' & e & name & [= <-] & Hin & -> & H1 & H2)]]; [congruence|].
          rewrite Forall_forall in H. apply (H e Hin). eauto.
        * right. split; [done|]. split; [done|]. right. eauto 10.
      + left. split; [done|]. intros dev [Hs [->|(es' & ? & ? & ? & _)]]; congruence. }
  destruct H as [[-> Hno]|[Hne Hoff]].
  - rewrite String.eqb_refl. split_and!; [by rewrite lookup_singleton_eq| |done].
    split; [by intros [? ?]|]. intros [dev Hd]. by destruct (Hno dev).
  - rewrite (proj2 (String.eqb_neq _ _)) by done. split_and!.
    + by rewrite lookup_insert_ne, lookup_singleton_eq.
    + rewrite lookup_insert_eq. split; eauto.
    + intros attrs. rewrite lookup_insert_eq. intros [= <-]. split; [done|]. exists (channelDevice o).
      split; [|done]. by rewrite lookup_insert_ne, lookup_singleton_eq.
Qed.
End capability.
