(* ===== verification/Agent.v ===== *)
(** * Core's start-up (internal/core: [Run])

    The composition: directories, store, policy cache, identity, transport, host
    services, supervisor, discovered modules, lifecycle manager and trust anchor, in
    the order [Run] builds them.  What the theorems say is what the parts' own
    theorems need at the start: the anchor is the embedded one, nothing runs without a
    verifier, the saved identity is back, only modules on disk are registered. *)

From stdpp Require Import base list strings gmap.
From Stdlib Require Import ZArith Lia Ascii.
From S2P Require Import Prelude.
From S2P Require Import GoStrings.
From S2P Require Import Handshake.
From S2P Require Import Paths.
From S2P Require Import FileSystem.
From S2P Require Import Json.
From S2P Require Import Manifest.
From S2P Require Import Base64.
From S2P Require Import Signing.
From S2P Require Import Store.
From S2P Require Import EventBus.
From S2P Require Import Policy.
From S2P Require Import HostServ.
From S2P Require Import Transport.
From S2P Require Import Launch.
From S2P Require Import Supervisor.
From S2P Require Import Lifecycle.
From S2P Require Import Identity.
From S2P Require Import Core.
From S2P Require Import Host.
Open Scope Z_scope.

Local Infix "+++" := String.append (at level 60, right associativity).

Module agent.
Import os manifest.
Import (hints) store supervise hostserv.
Open Scope os_scope.

Definition Window : handshake.Window := handshake.mkWindow 1 1.

(** [Options]; the log and the poll cadence of the policy are left out, an empty path
    is [None]. *)
Record Options := mkOptions {
  StateDir : option path; ModulesDir : option path; GateWeaveURL : string; ManifestURL : string;
  RootPubPath : option path; ChannelPubPath : string; Verifier_ : option (path -> Manifest -> fs -> bool) }.

(** What the build fixes: [dev] is [allowRootPubOverride]. *)
Record build_info := mkBuild {
  dev : bool; embeddedRootPub : string; goos : string; goarch : string; windows : bool; version : string }.

(** What start-up meets outside the file system: the environment, the probed
    capabilities, the clock, random bytes and keys, the enrolment server, the verdicts
    of the configured verifier when modules are launched. *)
Record surroundings := mkSurroundings {
  env_state : option path; env_ready : option path; environ : list string;
  caps : gmap string (gmap string string); now : Z; call_ : store.call; rnd : string; gen : option string;
  enrol_http : identity.request -> option identity.response; verdict : string -> Manifest -> bool }.

(** [endpoint], for the trimmed base URL *)
Definition endpoint (url p : string) : string :=
  let base := trim_suffix "/" url in if String.eqb base "" then "" else base +++ p.

(** The trust anchor: a release build ignores the override. *)
Definition root_key {X} {JK : JSON signing.PublicKey} (b : build_info) (rootPub : option path) : M X (option string) :=
  bytes <-! match rootPub with
            | None => ret (embeddedRootPub b)
            | Some p => if negb (dev b) then ret (embeddedRootPub b) else ReadFile p
            end ;;
  if String.eqb (trim_space bytes) "" then ret None
  else match signing.ParsePublicKey bytes with
       | Ok (_, raw) => ret (Some raw)
       | Err _ => fail (EMsg "manifest root key")
       end.

(** The loop over the discovered modules; an error is only logged. *)
Fixpoint add_all (s : supervise.Supervisor) (now : Z) (goos goarch : string) (specs : list launch.Spec)
    (g : supervise.registry) : supervise.registry :=
  match specs with
  | [] => g
  | sp :: sps =>
      if negb (SupportsHost (launch.s_Manifest sp) goos goarch) then add_all s now goos goarch sps g
      else add_all s now goos goarch sps (snd (supervise.Add s now sp g))
  end.

Record Agent (S P : Type) := mkAgent {
  services : hostserv.Services S (transport.Mux P S); ident : identity.Provider;
  registry : supervise.registry; manager : lifecycle.Manager; enrol_trace : list identity.request }.
Arguments mkAgent {S P}. Arguments services {S P}. Arguments ident {S P}. Arguments registry {S P}.
Arguments manager {S P}. Arguments enrol_trace {S P}.

Section Run.
Context {X S P : Type} {SB : store.StoreBackend S} {PE : transport.Peer P}.
Context {JM : JSON Manifest} {JK : JSON signing.PublicKey} {JD : JSON policy.Document} {JE : JSON identity.enrolmentState}
  {JG : JSON (gmap string string)} {JR : JSON identity.enrol_response} {JA : JSON identity.assignment}.
Context (ed_verify : string -> string -> string -> bool) (ed_sign : string -> string -> string)
  (decode_challenge : string -> option string) (url_ok : string -> bool).
(** [store.Open]; the peer for a URL and device id; [ConnectHypervisor] for the
    attributes of the channel and the path of the channel key. *)
Context (open_store : path -> M X S) (http_peer : string -> string -> P)
  (connect : gmap string string -> string -> option P).
Notation Enroll := (identity.Enroll ed_verify ed_sign decode_challenge url_ok).

Definition new_provider (b : build_info) (o : Options) : identity.Provider :=
  identity.mkProvider (endpoint (GateWeaveURL o) "/v1/enroll") "" (dev b) "" "" "" "".

(** What hostserv asks of the provider. *)
Definition identity_backend (p : identity.Provider) : hostserv.Identity :=
  hostserv.mkIdentity (identity.WhoAmI p)
    (fun m sc => match identity.Credential p m sc with
                 | Ok x => Ok x
                 | Err _ => Err (werror.mkError "not implemented" [] None)
                 end).

Definition new_mux (o : Options) (device : string) (sur : surroundings) (st : S) : transport.Mux P S :=
  transport.mkMux
    (let url := endpoint (GateWeaveURL o) "/v1/messages" in if String.eqb url "" then None else Some (http_peer url device))
    (match caps sur !! "hypervisor.channel" with Some attrs => connect attrs (ChannelPubPath o) | None => None end)
    (Some st) 0 0 false 0 ∅ 0%nat.

Definition new_supervisor (o : Options) (sur : surroundings) (lay : layout.Layout) : supervise.Supervisor :=
  supervise.mkSup
    (launch.mkLauncher (match Verifier_ o with Some _ => verdict sur | None => fun _ _ => false end)
       Window (caps sur) (fun id => lifecycle.path_string (layout.ModuleRunDir lay id)) (10 * retry.second) (environ sur))
    (retry.mkBackoff 0 0 0) 0 0 0 0 0 0 (10 * retry.second).

Definition new_manager (b : build_info) (o : Options) (lay : layout.Layout) (root : option string)
    (s : supervise.Supervisor) : lifecycle.Manager :=
  lifecycle.mkManager (layout.ModulesDir lay) (layout.StagingDir lay) (windows b) (goos b) (goarch b)
    (match Verifier_ o with Some v => v | None => fun _ _ _ => false end) root (ManifestURL o) 0 0 s.

(** [Run] up to the point where it waits. *)
Definition Run (paths : layout.PathSet) (b : build_info) (o : Options) (sur : surroundings) : M X (Agent S P) :=
  let lay := layout.Resolve (StateDir o) (env_state sur) paths in
  do! layout.Ensure lay ;;
  st <-! open_store (layout.StateDir lay) ;;
  let pm := policy.Load (call_ sur) policy.NewManager st in
  let '(r, p, st) := identity.Init (call_ sur) (rnd sur) (gen sur) (new_provider b o) st in
  match r with
  | Err _ => fail (EMsg "identity")
  | Ok _ =>
    let '(_, p, st, sent) := Enroll (call_ sur) (enrol_http sur) p st in
    let mux := new_mux o (identity.WhoAmI p).1.1 sur st in
    let svc := hostserv.mkServices st eventbus.New pm (identity_backend p) mux [] [] in
    let sup := new_supervisor o sur lay in
    do! core.SweepOrphans (layout.RunDir lay) ;;
    specs <-! core.discoverModules (windows b) (default (layout.ModulesDir lay) (ModulesDir o)) ;;
    let reg := add_all sup (now sur) (goos b) (goarch b) specs (supervise.SetBaseContext (supervise.mkRegistry false ∅)) in
    root <-! root_key b (RootPubPath o) ;;
    do! core.signalReady (version b) (env_ready sur) ;;
    ret (mkAgent svc p reg (new_manager b o lay root sup) sent)
  end.

(** ** The steps of a successful start *)

Lemma Run_Ok paths b o sur w a w' : Run paths b o sur w = (Ok a, w') ->
  let lay := layout.Resolve (StateDir o) (env_state sur) paths in
  exists w1 st w2 p1 st1 r2 p2 st2 specs w3 w4 w5 root w6,
    open_store (layout.StateDir lay) w1 = (Ok st, w2) /\
    identity.Init (call_ sur) (rnd sur) (gen sur) (new_provider b o) st = (Ok tt, p1, st1) /\
    Enroll (call_ sur) (enrol_http sur) p1 st1 = (r2, p2, st2, enrol_trace a) /\
    core.discoverModules (windows b) (default (layout.ModulesDir lay) (ModulesDir o)) w3 = (Ok specs, w4) /\
    root_key b (RootPubPath o) w4 = (Ok root, w5) /\ core.signalReady (version b) (env_ready sur) w5 = (Ok tt, w6) /\ w6 = w' /\
    ident a = p2 /\ hostserv.Identity_ (services a) = identity_backend p2 /\
    hostserv.Transport (services a) = new_mux o (identity.WhoAmI p2).1.1 sur st2 /\
    registry a = add_all (new_supervisor o sur lay) (now sur) (goos b) (goarch b) specs (supervise.SetBaseContext (supervise.mkRegistry false ∅)) /\
    manager a = new_manager b o lay root (new_supervisor o sur lay).
Proof.
  intros H lay. unfold Run in H. fold lay in H. apply bind_Ok in H as ([] & w1 & _ & H).
  apply bind_Ok in H as (st & w2 & H2 & H).
  destruct (identity.Init _ _ _ _ st) as [[[[]|e] p1] st1] eqn:Ei; [|done].
  destruct (Enroll _ _ p1 st1) as [[[r2 p2] st2] sent] eqn:Ee.
  apply bind_Ok in H as ([] & w3 & _ & H). apply bind_Ok in H as (specs & w4 & H4 & H).
  apply bind_Ok in H as (root & w5 & H5 & H). apply bind_Ok in H as ([] & w6 & H6 & H). unfold ret in H. simplify_eq.
  eexists w1, st, w2, p1, st1, r2, p2, st2, specs, w3, w4, w5, root, w'. split_and!; done.
Qed.

Lemma root_key_release b rootPub w (r : option string) w' : dev b = false -> root_key (X := X) b rootPub w = (Ok r, w') ->
  w_fs w' = w_fs w /\
  match r with
  | None => trim_space (embeddedRootPub b) = ""
  | Some raw => exists pk, signing.ParsePublicKey (embeddedRootPub b) = Ok (pk, raw)
  end.
Proof.
  intros Hd H. unfold root_key in H. apply bind_Ok in H as (bytes & w1 & H1 & H).
  assert (bytes = embeddedRootPub b /\ w1 = w) as [-> ->] by (rewrite Hd in H1; destruct rootPub; simpl in H1; unfold ret in H1; by simplify_eq).
  destruct (String.eqb_spec (trim_space (embeddedRootPub b)) ""); [unfold ret in H; by simplify_eq|].
  destruct (signing.ParsePublicKey _) as [[pk raw]|]; [|done]. unfold ret in H. simplify_eq. eauto.
Qed.

(** C19. The trust anchor of a release build is fixed: whatever options it is started
    with, channel installs are disabled or use the root key baked into the build; and
    without a verifier no installed file is accepted and no launch executes anything. *)
Theorem boot_trust paths b o sur w a w' :
  Run paths b o sur w = (Ok a, w') ->
  (dev b = false -> match lifecycle.RootPub (manager a) with
                    | None => trim_space (embeddedRootPub b) = ""
                    | Some raw => exists pk, signing.ParsePublicKey (embeddedRootPub b) = Ok (pk, raw)
                    end) /\
  (Verifier_ o = None ->
   (forall p m f, lifecycle.Verifier (manager a) p m f = false) /\
   forall sp e r t bin env cred, launch.launch (supervise.sup_launcher (lifecycle.Sup (manager a))) sp e = (r, t) ->
     launch.Exec bin env cred ∉ t).
Proof.
  intros H. apply Run_Ok in H as (w1 & st & w2 & p1 & st1 & r2 & p2 & st2 & specs & w3 & w4 & w5 & root & w6 &
    _ & _ & _ & _ & Hroot & _ & _ & _ & _ & _ & _ & ->). split.
  - intros Hd. apply root_key_release in Hroot as [_ Hr]; [exact Hr|done].
  - intros Hv. unfold new_manager, new_supervisor. simpl. rewrite Hv. split; [done|].
    intros sp e r t bin env cred Hl Hin. unfold launch.launch, launch.set_up, launch.wbind, launch.wdo, launch.check in Hl.
    simpl in Hl. simplify_eq. set_solver.
Qed.

(** A release build never talks to the enrolment server: no server key is configured,
    so the transport check refuses before the first request, and the identity is the
    one the store held. *)
Theorem release_never_enrols paths b o sur w a w' :
  dev b = false -> Run paths b o sur w = (Ok a, w') ->
  enrol_trace a = [] /\ exists st st1, identity.Init (call_ sur) (rnd sur) (gen sur) (new_provider b o) st = (Ok tt, ident a, st1).
Proof.
  intros Hd H. apply Run_Ok in H as (w1 & st & w2 & p1 & st1 & r2 & p2 & st2 & specs & w3 & w4 & w5 & root & w6 &
    _ & Hi & He & _ & _ & _ & _ & -> & _).
  assert (identity.ServerPub p1 = "" /\ identity.AllowInsecureEnroll p1 = false) as [Hp Ha].
  { unfold identity.Init in Hi. destruct (store.Get _ _ _ _) as [found|]; [|done].
    destruct (found ≫= identity.usable) as [[key ste]|]; [by simplify_eq|]. destruct (gen sur); [|done].
    destruct (identity.saveLocked _ _ _). by simplify_eq. }
  assert (forall http, exists e, identity.enrol ed_verify ed_sign decode_challenge url_ok http p1 = (Err e, [])) as Hno.
  { intros http. unfold identity.enrol, identity.checkEnrolTransport.
    destruct (identity.url_Parse url_ok (identity.EnrollURL p1)) as [sch|]; simpl; [|by eexists].
    rewrite Ha, Hp. destruct (String.eqb sch "https"); simpl; by eexists. }
  unfold identity.Enroll in He. destruct (negb _ || _); [simplify_eq; eauto|].
  destruct (Hno (enrol_http sur)) as [e Hn]. rewrite Hn in He. simplify_eq. eauto.
Qed.

Section Restart.
Context {SL : store.StoreLaws S}.

(** The identity survives a restart of the whole agent: when the store holds an
    enrolled identity, start-up brings it back without asking the server, modules are
    told it, and messages to the management plane are posted under it. *)
Theorem boot_identity paths b o sur w a w' p :
  (forall w1 st w2, open_store (layout.StateDir (layout.Resolve (StateDir o) (env_state sur) paths)) w1 = (Ok st, w2) ->
     store.wf st /\ identity.saved p st) ->
  identity.deviceID p <> "" -> store.ctx_done (call_ sur) = false -> Run paths b o sur w = (Ok a, w') ->
  enrol_trace a = [] /\
  hostserv.WhoAmI (hostserv.Identity_ (services a)) = (identity.deviceID p, false, identity.tenant p) /\
  (let url := endpoint (GateWeaveURL o) "/v1/messages" in url <> "" ->
   transport.GateWeave (hostserv.Transport (services a)) = Some (http_peer url (identity.deviceID p))).
Proof.
  intros Hst Hne Hc H. apply Run_Ok in H as (w1 & st & w2 & p1 & st1 & r2 & p2 & st2 & specs & w3 & w4 & w5 & root & w6 &
    Ho & Hi & He & _ & _ & _ & _ & _ & -> & -> & _ & _).
  destruct (Hst _ _ _ Ho) as [Hwf Hsv].
  destruct (identity.Init_restores (call_ sur) (rnd sur) (gen sur) (new_provider b o) p st Hwf Hsv Hc) as (q & Hq & _ & Hd & Ht).
  rewrite Hi in Hq. simplify_eq. apply String.eqb_neq in Hne. rewrite <-Hd in Hne.
  unfold identity.Enroll in He. rewrite Hne in He. simpl in He. simplify_eq.
  assert (identity.WhoAmI p2 = (identity.deviceID p, false, identity.tenant p)) as Hw
    by (unfold identity.WhoAmI; rewrite Hne; simpl; by rewrite Hd, Ht).
  split_and!; [done|exact Hw|]. intros url Hu. unfold new_mux. cbn [transport.GateWeave]. fold url.
  rewrite (proj2 (String.eqb_neq _ _) Hu), Hw. done.
Qed.
End Restart.

(** Only what lies on disk is registered: every runner after a start was discovered as
    a validated manifest with a file beside it, for a platform this host is. *)
Lemma add_all_runners s t gos garch specs g id r :
  supervise.runners (add_all s t gos garch specs g) !! id = Some r ->
  supervise.runners g !! id = Some r \/
  exists sp, sp ∈ specs /\ supervise.spec r = sp /\ id = m_ID (launch.s_Manifest sp) /\ SupportsHost (launch.s_Manifest sp) gos garch = true.
Proof.
  revert g. induction specs as [|sp specs IH]; intros g H; simpl in H; [by left|].
  destruct (SupportsHost (launch.s_Manifest sp) gos garch) eqn:Es; simpl in H.
  - apply IH in H as [H|(sp' & ? & ? & ? & ?)]; [|right; exists sp'; split_and!; try done; by right].
    unfold supervise.Add in H. destruct (supervise.baseCtx g); simpl in H; [|by left].
    destruct (supervise.runners g !! m_ID (launch.s_Manifest sp)) eqn:Er; simpl in H; [by left|].
    assert (forall r0, supervise.spec r0 = sp -> <[m_ID (launch.s_Manifest sp) := r0]> (supervise.runners g) !! id = Some r ->
      supervise.runners g !! id = Some r \/
      exists sp0, sp0 ∈ sp :: specs /\ supervise.spec r = sp0 /\ id = m_ID (launch.s_Manifest sp0) /\ SupportsHost (launch.s_Manifest sp0) gos garch = true) as Hins.
    { intros r0 Hr0 Hl. apply lookup_insert_Some in Hl as [[<- <-]|[_ Hl]]; [right|by left].
      exists sp. split_and!; try done. left. }
    destruct (negb (bool_decide _)); simpl in H; eapply Hins; try exact H; done.
  - apply IH in H as [H|(sp' & ? & ? & ? & ?)]; [by left|]. right. exists sp'. split_and!; try done. by right.
Qed.

Theorem boot_registers_found paths b o sur w a w' id r :
  dev b = false -> Run paths b o sur w = (Ok a, w') -> supervise.runners (registry a) !! id = Some r ->
  exists f, (forall q, match env_ready sur with
                       | Some rd => below rd q = false /\ below (parent rd ++ [default "" (last rd) +++ ".tmp"]) q = false
                       | None => True
                       end -> w_fs w' !! q = f !! q) /\
    core.found (windows b) f (default (layout.ModulesDir (layout.Resolve (StateDir o) (env_state sur) paths)) (ModulesDir o)) (supervise.spec r) /\
    id = m_ID (launch.s_Manifest (supervise.spec r)) /\ SupportsHost (launch.s_Manifest (supervise.spec r)) (goos b) (goarch b) = true.
Proof.
  intros Hd H Hr. apply Run_Ok in H as (w1 & st & w2 & p1 & st1 & r2 & p2 & st2 & specs & w3 & w4 & w5 & root & w6 &
    _ & _ & _ & Hdisc & Hroot & Hsig & -> & _ & _ & _ & Hreg & _).
  rewrite Hreg in Hr. apply add_all_runners in Hr as [Hr|(sp & Hin & <- & Hid & Hs)]; [done|].
  apply core.discover_sound in Hdisc as [F4 Hf]. apply root_key_release in Hroot as [F5 _]; [|done].
  exists (w_fs w3). split_and!; [|by eapply Forall_forall in Hin; [|exact Hf]|done|done].
  intros q Hq. rewrite <-F4, <-F5. change w' with (snd (@Ok errno unit tt, w')). rewrite <-Hsig.
  unfold core.signalReady. destruct (env_ready sur) as [rd|]; [|done].
  set (tmp := parent rd ++ [default "" (last rd) +++ ".tmp"]) in Hq |- *.
  apply (touches_elim (fun x => below rd x = true \/ below tmp x = true)); [|intros [Hx|Hx]; destruct Hq; congruence].
  assert (forall x, tmp = x -> below rd x = true \/ below tmp x = true) as Htmp by (intros x <-; right; apply below_refl).
  unfold WriteFile. footprint.
  - eapply touches_weaken; [apply touches_Create|done].
  - eapply touches_weaken; [apply touches_Write|done].
  - eapply touches_weaken; [apply touches_Rename|]. tauto.
  - eapply touches_weaken; [apply touches_Remove|done].
Qed.
End Run.

(** ** Witnesses: a release build in /state, with one enrolled identity in its store *)

#[local] Instance demo_peer : transport.Peer string := {| transport.peer_Send _ _ _ p := (true, p) |}.
#[local] Instance demo_documents : JSON policy.Document := Build_JSON policy.Document (fun _ => "") (fun _ => "") (fun _ => None).
#[local] Instance demo_manifests : JSON Manifest := binary_JSON Manifest.
#[local] Instance demo_keys : JSON signing.PublicKey := signing.demo_pk_JSON.
#[local] Instance demo_states : JSON identity.enrolmentState := identity.demo_JS.
#[local] Instance demo_maps : JSON (gmap string string) := identity.demo_JM.
#[local] Instance demo_responses : JSON identity.enrol_response := identity.demo_JR.
#[local] Instance demo_assignments : JSON identity.assignment := identity.demo_JA.

Definition enrolled_provider : identity.Provider := identity.mkProvider "" "" false (repeat_char 64 "k") "dev-7" "acme" "e".
Definition enrolled_store : store.MemStore :=
  snd (identity.saveLocked identity.demo_call enrolled_provider store.NewMemStore).
Definition demo_open (s : store.MemStore) (_ : path) : M unit store.MemStore := ret s.
Definition release : build_info := mkBuild false "embedded" "linux" "arm64" false "1.0.0".
Definition demo_options : Options :=
  mkOptions (Some ["state"]) None "https://gw/" "https://ch" (Some ["etc"; "other.pub"]) "" None.
Definition demo_surroundings : surroundings :=
  mkSurroundings None None [] ∅ 0 identity.demo_call "r" (Some (repeat_char 64 "g")) identity.demo_server (fun _ _ => true).
Definition demo_http_peer (url dev : string) : string := url +++ " as " +++ dev.
Definition demo_run (s : store.MemStore) : result errno (Agent store.MemStore string) * world unit :=
  Run identity.demo_verify identity.demo_sign identity.demo_nonce (fun _ => true) (demo_open s) demo_http_peer
    (fun _ _ => None) layout.Paths_linux release demo_options demo_surroundings (mkWorld ∅ [] true 0 tt).

Lemma demo_run_ok s : is_ok (fst (demo_run s)) = true -> exists a w', demo_run s = (Ok a, w').
Proof. destruct (demo_run s) as [[a|e] w']; [eauto|discriminate]. Qed.

Lemma enrolled_saved : store.wf enrolled_store /\ identity.saved enrolled_provider enrolled_store.
Proof.
  exact (@identity.saveLocked_saved store.MemStore _ _ demo_states (binary_JSONLaws identity.enrolmentState) identity.demo_call
    enrolled_provider store.NewMemStore enrolled_store tt I eq_refl eq_refl).
Qed.

Lemma boot_trust_witness :
  exists a w', demo_run store.NewMemStore = (Ok a, w') /\
    (match lifecycle.RootPub (manager a) with
     | None => trim_space "embedded" = ""
     | Some raw => exists pk, signing.ParsePublicKey "embedded" = Ok (pk, raw)
     end) /\ forall p m f, lifecycle.Verifier (manager a) p m f = false.
Proof.
  destruct (demo_run_ok store.NewMemStore) as (a & w' & E); [vm_compute; reflexivity|].
  exists a, w'. split; [exact E|].
  destruct (boot_trust _ _ _ _ _ _ _ _ _ _ _ _ _ _ E) as [H1 H2].
  split; [exact (H1 eq_refl)|exact (proj1 (H2 eq_refl))].
Defined.

Lemma release_never_enrols_witness :
  exists a w', demo_run store.NewMemStore = (Ok a, w') /\ enrol_trace a = [].
Proof.
  destruct (demo_run_ok store.NewMemStore) as (a & w' & E); [vm_compute; reflexivity|].
  exists a, w'. split; [exact E|]. exact (proj1 (release_never_enrols _ _ _ _ _ _ _ layout.Paths_linux release demo_options demo_surroundings _ a w' eq_refl E)).
Defined.

Lemma boot_identity_witness :
  exists a w', demo_run enrolled_store = (Ok a, w') /\
    hostserv.WhoAmI (hostserv.Identity_ (services a)) = ("dev-7", false, "acme") /\
    transport.GateWeave (hostserv.Transport (services a)) = Some "https://gw/v1/messages as dev-7".
Proof.
  destruct (demo_run_ok enrolled_store) as (a & w' & E); [vm_compute; reflexivity|].
  destruct (boot_identity identity.demo_verify identity.demo_sign identity.demo_nonce (fun _ => true) (demo_open enrolled_store)
    demo_http_peer (fun _ _ => None) layout.Paths_linux release demo_options demo_surroundings (mkWorld ∅ [] true 0 tt) a w'
    enrolled_provider) as (_ & H2 & H3).
  - intros w1 st w2 [= <- _]. exact enrolled_saved.
  - discriminate.
  - exact eq_refl.
  - exact E.
  - exists a, w'. split; [exact E|]. split; [exact H2|]. apply H3. discriminate.
Defined.
End agent.
