(* ===== verification/Sysinfo.v ===== *)
(** * The inventory module (modules/sysinfo, sdk/config)

    The one module shipped with the agent, over the SDK's clients: configuration,
    policy and the interval they set, the collectors, the report each run makes, and
    the health it tells.  Durations are 64-bit counts of nanoseconds, as
    [time.Duration] holds them. *)

From stdpp Require Import base list strings gmap.
From Stdlib Require Import ZArith Lia Ascii.
From S2P Require Import Prelude.
From S2P Require Import GoStrings.
From S2P Require Import GoText.
From S2P Require Import Base64.
From S2P Require Import Json.
From S2P Require Import Store.
From S2P Require Import EventBus.
From S2P Require Import Policy.
From S2P Require Import HostServ.
From S2P Require Import ModuleSdk.
From S2P Require Import Transport.
From S2P Require Import Supervisor.
From S2P Require Import HostClient.
From S2P Require Import Host.
Open Scope Z_scope.
Open Scope go_scope.

Local Infix "+++" := String.append (at level 60, right associativity).

Module config.

(** [json.Unmarshal(doc, dst)] into a destination that holds a value already: whether
    it worked, and what the destination holds afterwards. *)
Class Into (T : Type) := { unmarshal_into : string -> T -> bool * T }.

(** [Load] *)
Definition Load {T} `{!Into T} (doc : string) (dst : T) : result string unit * T :=
  if String.eqb doc "" then (Ok tt, dst)
  else let (ok, dst') := unmarshal_into doc dst in (if ok then Ok tt else Err "config", dst').

(** [Env], given the environment *)
Definition Env (lookup : string -> option string) (key fallback : string) : string :=
  default fallback (lookup key).
End config.

Module sysinfo.
Import config.
Import (hints) store transport hostserv.

(** An int64, as the machine keeps it. *)
Definition i64 (n : Z) : Z := (n + 2 ^ 63) mod 2 ^ 64 - 2 ^ 63.

(** [time.Duration(s) * time.Second] *)
Definition seconds (s : Z) : Z := i64 (s * retry.second).

(** ** The inventory (collect.go, collect_linux.go, collect_darwin.go) *)

Record Inventory := mkInventory {
  CollectedAt : Z; Hostname : string; OS : string; Arch : string; OSVersion : string; OSBuild : string;
  HardwareModel : string; SerialNumber : string; MemoryBytes : Z; UptimeSeconds : Z; CPUModel : string; CPUCores : Z }.

(** [unix.Sysinfo_t], the fields read. *)
Record Sysinfo_t := mkSysinfo { Totalram : Z; Unit : Z; Uptime : Z }.

(** The model name of the first line that has one. *)
Fixpoint cpu_model (lines : list string) (d : string) : string :=
  match lines with
  | [] => d
  | l :: ls =>
      match cut_prefix "model name" l with
      | Some name => trim_space (trim_prefix ":" (trim_space name))
      | None => cpu_model ls d
      end
  end.
Definition readTrimmed (o : machine) (path : string) : string :=
  match read_file o path with Some b => trim_space b | None => "" end.

Definition collectOS_linux (o : machine) (ncpu : Z) (si : option Sysinfo_t) (inv : Inventory) : Inventory :=
  let (mem, up) := match si with
    | Some i => (eventbus.u64 (eventbus.u64 (Totalram i) * eventbus.u64 (Unit i)), eventbus.u64 (Uptime i))
    | None => (MemoryBytes inv, UptimeSeconds inv)
    end in
  let cpu := match read_file o "/proc/cpuinfo" with
    | Some f => cpu_model (scan_lines f) (CPUModel inv)
    | None => CPUModel inv
    end in
  mkInventory (CollectedAt inv) (Hostname inv) (OS inv) (Arch inv) (OSVersion inv) (OSBuild inv)
    (readTrimmed o "/sys/class/dmi/id/product_name") (readTrimmed o "/sys/class/dmi/id/product_serial")
    mem up cpu ncpu.

(** [extractPlistKey]; [None] would be a slice out of range. *)
Definition extractPlistKey (plist key : string) : option string :=
  let marker := "<key>" +++ key +++ "</key>" in
  match index marker plist with
  | None => Some ""
  | Some i =>
      rest ← slice (i + String.length marker) (String.length plist) plist;
      match index "<string>" rest, index "</string>" rest with
      | Some start, Some end_ =>
          if (end_ <=? start)%nat then Some ""
          else trim_space <$> slice (start + String.length "<string>") end_ rest
      | _, _ => Some ""
      end
  end.

(** [binary.LittleEndian.Uint64] on the first bytes *)
Fixpoint le_uint (n : nat) (s : string) : Z :=
  match n, s with
  | S n', String c r => byte_val c + 256 * le_uint n' r
  | _, _ => 0
  end.

(** [collectOS] on macOS: the raw sysctl, the time since boot in nanoseconds, and what
    ioreg prints; an answer that cannot be had leaves the field. *)
Definition collectOS_darwin (o : machine) (ncpu : Z) (sysctl_raw : string -> option string) (since_boot : option Z)
    (ioreg : option string) (inv : Inventory) : option Inventory :=
  let mem := match sysctl_raw "hw.memsize" with
    | Some b => if (8 <=? String.length b)%nat then le_uint 8 b else MemoryBytes inv
    | None => MemoryBytes inv
    end in
  let up := match since_boot with Some d => eventbus.u64 (d / retry.second) | None => UptimeSeconds inv end in
  serial ← match ioreg with
    | None => Some (SerialNumber inv)
    | Some out => s ← extractPlistKey out "IOPlatformSerialNumber";
                  Some (if String.eqb s "" then SerialNumber inv else s)
    end;
  Some (mkInventory (CollectedAt inv) (Hostname inv) (OS inv) (Arch inv) (OSVersion inv) (OSBuild inv)
    (default (HardwareModel inv) (sysctl o "hw.model")) serial mem up
    (default (CPUModel inv) (sysctl o "machdep.cpu.brand_string")) ncpu).

(** [Collect]: it never fails. *)
Definition Collect (info : platform.Info) (collectOS : Inventory -> Inventory) (now : Z) : result string Inventory :=
  Ok (collectOS (mkInventory now (platform.Hostname info) (platform.OS info) (platform.Arch info)
    (platform.Version info) (platform.Build info) "" "" 0 0 "" 0)).

(** ** The module (module.go) *)

Record Config := mkConfig { IntervalSeconds : Z }.

(** [Module]: [lastCollected] is [None] for the zero time, [watching] is
    [stopWatch != nil] with a live watch. *)
Record Module_ := mkModule {
  cfg : Config; interval : Z; lastCollected : option Z; lastErr : option string; watching : bool }.
Definition New : Module_ := mkModule (mkConfig 900) 0 None None false.

Definition set_interval (d : Z) (m : Module_) : Module_ :=
  mkModule (cfg m) d (lastCollected m) (lastErr m) (watching m).
Definition set_watching (b : bool) (m : Module_) : Module_ :=
  mkModule (cfg m) (interval m) (lastCollected m) (lastErr m) b.

Definition ID : string := "sysinfo".
Definition Requires : list string := ["platform.osinfo"].
Definition currentInterval (m : Module_) : Z := interval m.
Definition Jobs : list hostclient.Job := [hostclient.mkJob "collect" 0 true].
Definition Stop (m : Module_) : Module_ := set_watching false m.

Section Documents.
Context {IC : Into Config}.

Definition SetConfig (doc : string) (m : Module_) : result string unit * Module_ :=
  let (r, c) := Load doc (cfg m) in (r, mkModule c (interval m) (lastCollected m) (lastErr m) (watching m)).

(** [policyDoc] has the fields of [Config]. *)
Definition applyPolicy (doc : hostclient.PolicyDocument) (m : Module_) : Module_ :=
  if String.eqb (hostclient.PData doc) "" then m
  else
    let (ok, p) := unmarshal_into (hostclient.PData doc) (mkConfig 0) in
    if negb ok then m
    else if 0 <? IntervalSeconds p then set_interval (seconds (IntervalSeconds p)) m else m.

Section Host.
Context {S T : Type} {SB : store.StoreBackend S} {TB : hostserv.TransportBackend T}.
Context (token : string) (allow : list string).
Notation services := (hostserv.Services S T).

(** [Init]: [watch_ok] says whether the watch could be opened. *)
Definition Init (c : store.call) (watch_ok : bool) (v : services) (h : hostclient.hostClient) (m : Module_) :
  result string unit * hostclient.hostClient * Module_ :=
  let m := set_interval (seconds (IntervalSeconds (cfg m))) m in
  let m := match hostclient.policyClient_Get ID token allow c v with Ok doc => applyPolicy doc m | Err _ => m end in
  let m := set_watching watch_ok m in
  let (r, h') := hostclient.uiBroker_Declare [hostclient.mkSurface "inventory" "Host inventory" "card" ""] h in (r, h', m).

(** [collectAndReport] at the time [now], with what [Collect] returned; every error
    after the collection is only logged. *)
Definition collectAndReport {JI : JSON Inventory} (c : store.call) (now : Z) (out : result string Inventory)
    (m : Module_) (v : services) : Module_ * services :=
  let m' := mkModule (cfg m) (interval m) (Some now) (match out with Ok _ => None | Err e => Some e end) (watching m) in
  match out with
  | Err _ => (m', v)
  | Ok inv =>
      let data := marshal inv in
      let v1 := snd (modulesdk.client_Put ID token allow "" c "last-inventory" data v) in
      let v2 := snd (hostclient.eventsClient_Publish ID token allow now c "inventory" data v1) in
      let v3 := snd (hostclient.transportClient_Send ID token allow c
                       (hostclient.mkMessage hostclient.PeerGateWeave "heartbeat" data) true v2) in
      (m', v3)
  end.
End Host.

(** [Health] at the time [now] *)
Inductive status := HealthHealthy | HealthDegraded.
Definition Health (rfc3339 : Z -> string) (now : Z) (m : Module_) : status * string :=
  match lastCollected m with
  | None => (HealthHealthy, "no collection yet")
  | Some t =>
      match lastErr m with
      | Some e => (HealthDegraded, e)
      | None =>
          if i64 (2 * interval m) <? now - t then (HealthDegraded, "inventory stale since " +++ rfc3339 t)
          else (HealthHealthy, "")
      end
  end.

(** The life of the collection job: before each look at the interval the watch has
    applied some documents; the flag says whether the timer then fired. *)
Fixpoint job_intervals (rounds : list (list hostclient.PolicyDocument * bool)) (m : Module_) : list (Z * bool) :=
  match rounds with
  | [] => []
  | (docs, fired) :: rs =>
      let m' := fold_left (fun m d => applyPolicy d m) docs m in
      (currentInterval m', fired) :: job_intervals rs m'
  end.

(** ** The interval *)

(** The seconds a policy document sets, if it sets any. *)
Definition policy_seconds (doc : hostclient.PolicyDocument) : option Z :=
  if String.eqb (hostclient.PData doc) "" then None
  else let (ok, p) := unmarshal_into (hostclient.PData doc) (mkConfig 0) in
       if ok && (0 <? IntervalSeconds p) then Some (IntervalSeconds p) else None.

Lemma applyPolicy_eq doc m :
  applyPolicy doc m = match policy_seconds doc with Some n => set_interval (seconds n) m | None => m end.
Proof.
  unfold applyPolicy, policy_seconds. destruct (String.eqb _ ""); [done|].
  destruct (unmarshal_into _ _) as [[] p]; simpl; [|done]. by destruct (0 <? _).
Qed.

Lemma policy_seconds_pos doc n : policy_seconds doc = Some n -> 0 < n.
Proof.
  unfold policy_seconds. destruct (String.eqb _ ""); [done|]. destruct (unmarshal_into _ _) as [[] p]; simpl; [|done].
  destruct (Z.ltb_spec 0 (IntervalSeconds p)); [|done]. intros [= <-]. done.
Qed.

Lemma i64_small n : - 2 ^ 63 <= n < 2 ^ 63 -> i64 n = n.
Proof. intros H. unfold i64. rewrite Z.mod_small; lia. Qed.

Lemma i64_wrapped n : 2 ^ 63 <= n < 2 ^ 64 -> i64 n < 0.
Proof.
  intros H. unfold i64. replace (n + 2 ^ 63) with ((n - 2 ^ 63) + 1 * 2 ^ 64) by lia.
  rewrite Z.mod_add by lia. rewrite Z.mod_small; lia.
Qed.

Lemma seconds_small n : 0 <= n <= 9223372036 -> seconds n = n * retry.second.
Proof. intros H. apply i64_small. unfold retry.second. lia. Qed.

Lemma seconds_wrapped n : 9223372036 < n <= 18446744073 -> seconds n < 0.
Proof. intros H. apply i64_wrapped. unfold retry.second. lia. Qed.

Lemma fold_interval docs m :
  fold_left (fun m d => applyPolicy d m) docs m =
  match last (omap policy_seconds docs) with Some n => set_interval (seconds n) m | None => m end.
Proof.
  induction docs as [|d docs IH] using rev_ind; [done|].
  rewrite fold_left_app, omap_app, IH. cbn [fold_left]. rewrite applyPolicy_eq. simpl.
  destruct (policy_seconds d) as [n|]; [|by rewrite app_nil_r]. rewrite last_snoc.
  by destruct (last (omap policy_seconds docs)).
Qed.

(** Policy wins over configuration, configuration over the default: after the
    configuration document, [Init] and any policy documents the watch brought, the
    interval is the last positive one a policy set, else the configured one, else
    fifteen minutes.  A policy that disappears does not give the interval back. *)
Theorem policy_precedence {S T} {SB : store.StoreBackend S} {TB : hostserv.TransportBackend T}
    token allow c w (v : hostserv.Services S T) h conf docs :
  let m0 := snd (SetConfig conf New) in
  let m := (Init token allow c w v h m0).2 in
  let m' := fold_left (fun m d => applyPolicy d m) docs m in
  let first := hostclient.policyDoc (policy.revision (hostserv.Policy v))
                 (default "" (policy.docs (hostserv.Policy v) !! ID)) in
  currentInterval m' = seconds (default (IntervalSeconds (cfg m0)) (last (omap policy_seconds (first :: docs)))) /\
  (conf = "" -> IntervalSeconds (cfg m0) = 900).
Proof.
  intros m0 m m' first. split; [|by intros ->].
  assert (interval m = seconds (default (IntervalSeconds (cfg m0)) (policy_seconds first))) as Hm.
  { subst m. unfold Init. destruct (hostclient.clients_faithful (SB := SB) ID token allow c 0 v) as (_ & -> & _).
    rewrite applyPolicy_eq. fold first. destruct (hostclient.uiBroker_Declare _ _). by destruct (policy_seconds first). }
  unfold currentInterval. subst m'. rewrite fold_interval. clearbody m first.
  assert (omap policy_seconds (first :: docs) = option_list (policy_seconds first) ++ omap policy_seconds docs) as ->
    by (simpl; by destruct (policy_seconds first)).
  rewrite last_app. destruct (last (omap policy_seconds docs)) as [n|]; [done|]. rewrite Hm.
  by destruct (policy_seconds first).
Qed.

(** Bounds of the interval.  Up to 4611686018 seconds a policy sets exactly what it
    says, and the module is healthy for exactly twice that time after a collection;
    beyond, twice the interval overflows and a fresh inventory is reported stale; beyond
    9223372036 the interval itself wraps to a negative number and the collection job
    ends, whatever later policies say. *)
Theorem interval_bounds rfc3339 doc n m t now fired later :
  policy_seconds doc = Some n -> lastCollected m = Some t -> lastErr m = None -> t <= now ->
  let m' := applyPolicy doc m in
  (n <= 4611686018 -> currentInterval m' = n * retry.second /\
     (fst (Health rfc3339 now m') = HealthHealthy <-> now - t <= 2 * (n * retry.second))) /\
  (4611686018 < n <= 9223372036 -> currentInterval m' = n * retry.second /\
     fst (Health rfc3339 now m') = HealthDegraded) /\
  (9223372036 < n <= 18446744073 ->
     hostclient.launchJob (job_intervals (([doc], fired) :: later) m) = ([hostclient.JRun], hostclient.JFinished)).
Proof.
  intros Hp Ht He Hnow m'. pose proof (policy_seconds_pos _ _ Hp) as Hpos.
  assert (m' = set_interval (seconds n) m) as Em by (unfold m'; by rewrite applyPolicy_eq, Hp).
  assert (fst (Health rfc3339 now m') = if i64 (2 * seconds n) <? now - t then HealthDegraded else HealthHealthy) as Hh.
  { rewrite Em. unfold Health, set_interval. cbn [lastCollected lastErr interval]. rewrite Ht, He.
    by destruct (i64 (2 * seconds n) <? now - t). }
  split_and!; intros Hn.
  - rewrite Hh, Em. unfold currentInterval, set_interval. cbn [interval]. rewrite seconds_small by lia. split; [done|].
    rewrite i64_small by (unfold retry.second; lia).
    destruct (Z.ltb_spec (2 * (n * retry.second)) (now - t)); split; intros; (done || lia).
  - rewrite Hh, Em. unfold currentInterval, set_interval. cbn [interval]. rewrite seconds_small by lia. split; [done|].
    pose proof (i64_wrapped (2 * (n * retry.second)) ltac:(unfold retry.second; lia)).
    by rewrite (proj2 (Z.ltb_lt _ _)) by lia.
  - cbn [job_intervals fold_left]. fold m'. rewrite Em. unfold hostclient.launchJob. cbn [hostclient.job_cycles currentInterval set_interval interval].
    pose proof (seconds_wrapped n Hn). by rewrite (proj2 (Z.leb_le _ _)) by lia.
Qed.

(** Collection goes on: as long as the configured interval and every interval a
    policy sets lie between one second and 9223372036, the job never ends by itself,
    and every wait it makes is the interval in force at that moment. *)
Theorem collection_continues rounds m :
  0 < currentInterval m ->
  Forall (fun r => Forall (fun d => match policy_seconds d with Some n => n <= 9223372036 | None => True end) r.1) rounds ->
  snd (hostclient.launchJob (job_intervals rounds m)) <> hostclient.JFinished /\
  forall i r, rounds !! i = Some r ->
    exists m', m' = fold_left (fun m d => applyPolicy d m) (mjoin (take (Datatypes.S i) rounds).*1) m /\
      job_intervals rounds m !! i = Some (currentInterval m', r.2).
Proof.
  intros Hm Hr. split.
  - apply hostclient.job_never_finishes. revert m Hm. induction Hr as [|[docs fired] rounds Hd _ IH]; intros m Hm; [constructor|].
    cbn [job_intervals]. simpl in Hd.
    assert (0 < currentInterval (fold_left (fun m d => applyPolicy d m) docs m)) as Hm'.
    { rewrite fold_interval. destruct (last _) as [n|] eqn:E; [|done].
      apply last_Some_elem_of in E. apply list_elem_of_omap in E as (d & Hin & E).
      rewrite Forall_forall in Hd. specialize (Hd _ Hin). rewrite E in Hd. pose proof (policy_seconds_pos _ _ E).
      unfold currentInterval, set_interval. cbn [interval]. rewrite seconds_small by lia. unfold retry.second. lia. }
    constructor; [done|]. by apply IH.
  - clear Hm Hr. revert m. induction rounds as [|[docs fired] rounds IH]; intros m i r Hi; [done|].
    destruct i as [|i]; simpl in Hi.
    + injection Hi as <-. eexists. split; [done|]. simpl. by rewrite app_nil_r.
    + destruct (IH (fold_left (fun m d => applyPolicy d m) docs m) i r Hi) as (m' & -> & H).
      eexists. split; [done|]. etransitivity; [exact H|]. simpl. by rewrite fold_left_app.
Qed.
End Documents.

(** ** The report *)

Section Report.
Context {P S : Type} {PE : transport.Peer P} {SB : store.StoreBackend S} {SL : store.StoreLaws S}
  {JQ : JSON transport.queuedMessage} {JI : JSON Inventory}.
Context (bg : store.call).
#[local] Instance mux_backend : hostserv.TransportBackend (transport.Mux P S) := transport.Mux_backend bg.

(** A message queued for an unreachable peer is the newest one of the queue. *)
Lemma send_keeps module kind data mx q b :
  transport.reliable (S := S) bg -> transport.mux_is mx q b -> 0 <= b -> b + 1 < 2 ^ 64 ->
  (exists p p', transport.GateWeave mx = Some p /\ transport.peer_Send module kind data p = (true, p')) \/
  (exists q' n, transport.mux_is (snd (transport.Send bg module 1 kind data true mx))
     (q' ++ [(n, marshal (transport.mkQueued module 1 kind data))]) (b + 1)).
Proof.
  intros R Hmux Hb0 Hb.
  assert (forall mx' : transport.Mux P S, transport.mux_is mx' q b -> exists q' n, transport.mux_is (transport.enqueue bg module 1 kind data mx')
     (q' ++ [(n, marshal (transport.mkQueued module 1 kind data))]) (b + 1)) as Henq.
  { intros mx' Hm'. destruct (transport.enqueue_spec bg module 1 kind data mx' q b R Hm' Hb0 Hb) as [[n Hn] _].
    unfold transport.lastn in Hn. rewrite drop_app in Hn.
    pose proof (transport.cap_pos mx'). rewrite length_app in Hn. simpl in Hn.
    replace (length q + 1 - transport.cap mx' - length q)%nat with 0%nat in Hn by (unfold transport.cap; lia). eauto. }
  unfold transport.Send. change (transport.peerFor 1 mx) with (transport.GateWeave mx).
  destruct (transport.GateWeave mx) as [p|] eqn:Eg.
  - destruct (transport.peer_Send module kind data p) as [[] p'] eqn:Ep; [left; eauto|].
    right. apply Henq. destruct Hmux. by split.
  - right. by apply Henq.
Qed.

(** A run reports through core and loses nothing: the snapshot is the module's own
    entry in the store when the store takes it, and no other entry changes; the event
    goes out under the module's id even when the store refused; and the heartbeat has
    left, or, with a working queue, is the newest message waiting in it. *)
Theorem report_complete token allow c now inv m v q b :
  store.wf (hostserv.Store v) ->
  transport.reliable (S := S) bg -> transport.mux_is (hostserv.Transport v) q b -> 0 <= b -> b + 1 < 2 ^ 64 ->
  let data := marshal inv in
  let (m', v') := collectAndReport token allow c now (Ok inv) m v in
  let stored := is_ok (fst (modulesdk.client_Put ID token allow "" c "last-inventory" data v)) in
  lastCollected m' = Some now /\ lastErr m' = None /\
  (forall ns k, store.view (hostserv.Store v') ns k =
     if stored && bool_decide ((ns, k) = (ID, "last-inventory")) then Some data else store.view (hostserv.Store v) ns k) /\
  hostserv.Bus v' = eventbus.Publish ID "inventory" data now (hostserv.Bus v) /\
  ((exists p p', transport.GateWeave (hostserv.Transport v) = Some p /\
      transport.peer_Send ID "heartbeat" data p = (true, p')) \/
   (exists q' n, transport.mux_is (hostserv.Transport v') (q' ++ [(n, marshal (transport.mkQueued ID 1 "heartbeat" data))]) (b + 1))).
Proof.
  intros Hwf R Hmux Hb0 Hb data. unfold collectAndReport. fold data.
  destruct (modulesdk.client_Put ID token allow "" c "last-inventory" data v) as [r v1] eqn:E1.
  assert (v1 = hostserv.with_store (hostserv.Store v1) v /\ forall ns k, store.view (hostserv.Store v1) ns k =
    if is_ok r && bool_decide ((ns, k) = (ID, "last-inventory")) then Some data else store.view (hostserv.Store v) ns k) as [Ev1 Hst].
  { unfold modulesdk.client_Put, modulesdk.invoke, modulesdk.invoke_at in E1. rewrite modulesdk.serve_own in E1. simpl in E1.
    unfold hostserv.storeServer_Put in E1. destruct (store.Put c ID _ data _) as [r1 s'] eqn:Ep.
    apply store.Put_view in Ep as [_ Hv]; [|done]. destruct r1; simpl in E1; simplify_eq; done. }
  cbn [snd fst]. clear E1.
  destruct (hostclient.clients_faithful ID token allow c now v1) as (_ & _ & _ & Hpub). rewrite Hpub. cbn [snd]. clear Hpub.
  set (v2 := hostserv.with_bus _ v1).
  destruct (hostclient.clients_faithful ID token allow c now v2) as (_ & _ & Hsend & _).
  specialize (Hsend (hostclient.mkMessage hostclient.PeerGateWeave "heartbeat" data) true).
  cbn [hostclient.Peer hostclient.Kind hostclient.Data] in Hsend.
  destruct (hostserv.T_Send ID hostclient.PeerGateWeave "heartbeat" data true (hostserv.Transport v2)) as [r3 t'] eqn:E3.
  destruct Hsend as [-> _]. split_and!; [done|done|done|subst v2; simpl; by rewrite Ev1|].
  assert (hostserv.Transport v2 = hostserv.Transport v) as Et by (unfold v2; by rewrite Ev1).
  rewrite Et in E3. destruct (send_keeps ID "heartbeat" data _ q b R Hmux Hb0 Hb) as [H|(q' & n & H)]; [by left|right].
  exists q', n. change (hostserv.T_Send ID hostclient.PeerGateWeave "heartbeat" data true (hostserv.Transport v))
    with (transport.Send bg ID 1 "heartbeat" data true (hostserv.Transport v)) in E3. by rewrite E3 in H.
Qed.
End Report.

(** ** The collectors *)

(** The opening tag cannot overlap the closing one, so the slice between them is in
    range. *)
Lemma tags_apart rest i j :
  index "<string>" rest = Some i -> index "</string>" rest = Some j -> (i < j)%nat ->
  (i + 8 <= j)%nat /\ (j <= String.length rest)%nat.
Proof.
  intros Hi Hj Hlt. apply index_Some in Hi as (a & b & -> & <-). apply index_Some in Hj as (a' & b' & Hs & <-).
  split; [|rewrite Hs, !slength_app; lia].
  revert a' Hs Hlt. induction a as [|c a IH]; intros a' Hs Hlt.
  - do 8 (destruct a' as [|? a']; simpl in Hs, Hlt |- *; [first [lia | discriminate]|]; try lia).
  - destruct a' as [|c' a']; simpl in Hs, Hlt; [lia|]. injection Hs as _ Hs. specialize (IH a' Hs ltac:(lia)). simpl. lia.
Qed.

Lemma slice_tail a m b : slice (String.length a + String.length m) (String.length (a +++ m +++ b)) (a +++ m +++ b) = Some b.
Proof.
  replace (a +++ m +++ b) with ((a +++ m) +++ b +++ "") by (by rewrite sapp_nil_r, sapp_assoc).
  rewrite !slength_app, Nat.add_0_r, <-slength_app. apply slice_app.
Qed.

(** The plist reader never slices out of range, whatever text ioreg prints. *)
Theorem extractPlistKey_total plist key : is_Some (extractPlistKey plist key).
Proof.
  unfold extractPlistKey. set (marker := "<key>" +++ key +++ "</key>"). clearbody marker.
  destruct (index marker plist) as [i|] eqn:E; [|by eexists].
  apply index_Some in E as (a & b & -> & <-).
  rewrite slice_tail. cbn [mbind option_bind].
  destruct (index "<string>" b) as [s|] eqn:Es; [|by eexists].
  destruct (index "</string>" b) as [e|] eqn:Ee; [|by eexists].
  destruct (Nat.leb_spec e s); [by eexists|]. destruct (tags_apart b s e Es Ee) as [H1 H2]; [done|].
  unfold slice. rewrite (proj2 (Nat.leb_le _ _)), (proj2 (Nat.leb_le _ _)) by (simpl; lia). by eexists.
Qed.

(** Collection on macOS cannot panic either, and keeps who and where the host is. *)
Corollary collectOS_darwin_total o ncpu raw boot ioreg inv :
  exists inv', collectOS_darwin o ncpu raw boot ioreg inv = Some inv' /\
    Hostname inv' = Hostname inv /\ OS inv' = OS inv /\ CollectedAt inv' = CollectedAt inv /\ CPUCores inv' = ncpu.
Proof.
  unfold collectOS_darwin. destruct ioreg as [out|]; [|by eexists].
  destruct (extractPlistKey_total out "IOPlatformSerialNumber") as [s ->]. by eexists.
Qed.

(** From a key followed by its string it takes the value, trimmed. *)
Lemma extractPlistKey_value pre key gap value post :
  let plist := pre +++ ("<key>" +++ key +++ "</key>") +++ gap +++ "<string>" +++ value +++ "</string>" +++ post in
  index ("<key>" +++ key +++ "</key>") plist = Some (String.length pre) ->
  contains "<" gap = false -> contains "<" value = false ->
  extractPlistKey plist key = Some (trim_space value).
Proof.
  intros plist Hi Hg Hv. unfold extractPlistKey. rewrite Hi. unfold plist. rewrite slice_tail. cbn [mbind option_bind].
  rewrite index_after by done.
  assert (index "</string>" (gap +++ "<string>" +++ value +++ "</string>" +++ post) =
          Some (String.length gap + 8 + String.length value)%nat) as ->.
  { destruct (index "</string>" _) as [j|] eqn:E.
    2: { exfalso. apply (proj1 (index_None _ _) E (gap +++ "<string>" +++ value) post). by rewrite !sapp_assoc. }
    f_equal. pose proof (index_first _ _ _ E (gap +++ "<string>" +++ value) post ltac:(by rewrite !sapp_assoc)) as Hle.
    rewrite !slength_app in Hle. simpl in Hle. apply index_Some in E as (a & b & E & <-).
    enough (String.length gap + 8 + String.length value <= String.length a)%nat by lia. clear Hi Hle plist.
    revert a E. induction gap as [|c gap IH]; intros a E.
    - do 8 (destruct a as [|? a]; simpl in E; [discriminate E|injection E as _ E]). simpl. do 8 apply le_n_S.
      revert a E. induction value as [|c value IHv]; intros a E; simpl; [lia|]. simpl in Hv. apply orb_false_iff in Hv as [Hc Hv].
      destruct a as [|d a]; simpl in E; injection E as -> E; [by rewrite Ascii.eqb_refl in Hc|]. simpl. apply le_n_S. by apply IHv.
    - simpl in Hg. apply orb_false_iff in Hg as [Hc Hg]. destruct a as [|d a]; simpl in E; injection E as -> E;
        [by rewrite Ascii.eqb_refl in Hc|]. simpl. apply le_n_S. by apply IH. }
  rewrite (proj2 (Nat.leb_gt _ _)) by lia.
  replace (gap +++ "<string>" +++ value +++ "</string>" +++ post) with ((gap +++ "<string>") +++ value +++ ("</string>" +++ post))
    by (by rewrite !sapp_assoc).
  replace (String.length gap + String.length "<string>")%nat with (String.length (gap +++ "<string>")) by (by rewrite slength_app).
  replace (String.length gap + 8 + String.length value)%nat with (String.length (gap +++ "<string>") + String.length value)%nat
    by (by rewrite slength_app). by rewrite slice_app.
Qed.

(** ** Witnesses *)

(** Documents that are a bare decimal number. *)
#[local] Instance demo_into : Into Config :=
  {| unmarshal_into doc c := match parse_int doc with Some n => (true, mkConfig n) | None => (false, c) end |}.
#[local] Instance demo_inventory_JSON : JSON Inventory :=
  {| marshal i := Hostname i; marshal_indent i := Hostname i; unmarshal s := None |}.
#[local] Instance demo_queued_JSON : JSON transport.queuedMessage := binary_JSON _.
#[local] Instance demo_sink : transport.Peer (list transport.message) :=
  {| transport.peer_Send m k d p := (true, p ++ [(m, k, d)]) |}.

Definition policy_of (data : string) : hostclient.PolicyDocument := hostclient.policyDoc 1 data.
Definition collected : Module_ := mkModule (mkConfig 900) (seconds 900) (Some 0) None true.

Lemma interval_bounds_witness :
  currentInterval (applyPolicy (policy_of "60") collected) = 60 * retry.second /\
  fst (Health (fun _ => "") 0 (applyPolicy (policy_of "4611686019") collected)) = HealthDegraded /\
  hostclient.launchJob (job_intervals [([policy_of "9223372037"], true); ([policy_of "60"], true)] collected)
    = ([hostclient.JRun], hostclient.JFinished).
Proof.
  pose proof (fun n doc later H => interval_bounds (fun _ => "") doc n collected 0 0 true later H eq_refl eq_refl (Z.le_refl 0)) as B.
  split_and!.
  - apply (proj1 (B 60 (policy_of "60") [] eq_refl)). lia.
  - apply (proj1 (proj2 (B 4611686019 (policy_of "4611686019") [] eq_refl))). lia.
  - apply (proj2 (proj2 (B 9223372037 (policy_of "9223372037") [([policy_of "60"], true)] eq_refl))). lia.
Defined.

Lemma collection_continues_witness :
  snd (hostclient.launchJob (job_intervals [([policy_of "60"; policy_of "x"], true); ([policy_of "5"], true)] collected))
    <> hostclient.JFinished.
Proof.
  apply (collection_continues [([policy_of "60"; policy_of "x"], true); ([policy_of "5"], true)] collected).
  - reflexivity.
  - repeat constructor; vm_compute; discriminate.
Defined.

Definition demo_host : hostserv.Services store.MemStore (transport.Mux (list transport.message) store.MemStore) :=
  hostserv.mkServices store.NewMemStore eventbus.New policy.NewManager hostserv.stub_identity transport.idle_mux [] [].
Definition demo_inventory : Inventory := mkInventory 0 "host" "linux" "arm64" "24.04" "" "" "" 0 0 "" 4.

Lemma report_complete_witness :
  let v' := (@collectAndReport _ _ store.MemStore_backend (mux_backend (SB := store.MemStore_backend) transport.calm_call) "t" [] _
               transport.calm_call 5 (Ok demo_inventory) New demo_host).2 in
  store.view (hostserv.Store v') "sysinfo" "last-inventory" = Some "host".
Proof.
  destruct (collectAndReport _ _ _ _ _ _ _) as [m' v'] eqn:E.
  pose proof (report_complete (SB := store.MemStore_backend) transport.calm_call "t" [] transport.calm_call 5 demo_inventory New demo_host [] 0) as H.
  rewrite E in H. destruct H as (_ & _ & H & _).
  - done.
  - apply transport.mem_reliable.
  - split; [eexists; split; [done|apply transport.empty_queue] | done | constructor | done].
  - done.
  - done.
  - refine (eq_trans (H "sysinfo" "last-inventory") _). vm_compute. reflexivity.
Defined.
End sysinfo.
