(* ===== verification/Control.v ===== *)
(** * The control socket (sdk/ipc, internal/controlsock, cmd/weavectl)

    The operator's way in: a local listener that lets peers in by the uid the kernel
    reports, the ControlService over the lifecycle manager and the supervisor's
    registry, and the command line that builds its requests. *)

From stdpp Require Import base list strings gmap.
From Stdlib Require Import ZArith Lia Ascii.
From S2P Require Import Prelude.
From S2P Require Import GoStrings.
From S2P Require Import GoText.
From S2P Require Import Paths.
From S2P Require Import FileSystem.
From S2P Require Import Json.
From S2P Require Import Manifest.
From S2P Require Import Handshake.
From S2P Require Import Signing.
From S2P Require Import Store.
From S2P Require Import EventBus.
From S2P Require Import Supervisor.
From S2P Require Import Lifecycle.
Open Scope Z_scope.

Local Infix "+++" := String.append (at level 60, right associativity).

(** ** Local transport *)

Module ipc.

Record PeerCred := mkCred { UID : Z; HasUID : bool; PID : Z; HasPID : bool }.
(** [None] serves the peer, [Some] is the refusal. *)
Definition Authorizer := PeerCred -> option string.

Definition NetworkUnix : string := "unix".
Definition NetworkPipe : string := "npipe".

(** A connection as [peerCred] meets it on Linux: whether it is a Unix socket whose
    descriptor can be had, and what SO_PEERCRED answers (uid and pid). *)
Record conn := mkConn { is_unix : bool; raw_ok : bool; ucred : option (Z * Z) }.
Definition peerCred (c : conn) : PeerCred :=
  if negb (is_unix c) then mkCred 0 false 0 false
  else if negb (raw_ok c) then mkCred 0 false 0 false
  else match ucred c with
       | None => mkCred 0 false 0 false
       | Some (uid, pid) => mkCred uid true pid true
       end.

(** [listen] on Unix, step by step: what each call answers, and the calls made. *)
Inductive rm := Removed | NotExist | RmError.
Inductive listen_call := CRemove | CBind | CChmod | CClose.
Definition listen (removed : rm) (bind_ok chmod_ok : bool) : result string unit * list listen_call :=
  match removed with
  | RmError => (Err "ipc: clearing stale socket", [CRemove])
  | _ =>
      if negb bind_ok then (Err "listen", [CRemove; CBind])
      else if negb chmod_ok then (Err "chmod", [CRemove; CBind; CChmod; CClose])
      else (Ok tt, [CRemove; CBind; CChmod])
  end.

(** [dial] on Unix *)
Definition dial (netw : string) (connected : result string unit) : result string unit :=
  if negb (String.eqb netw NetworkUnix) then Err "ipc: network not supported on this platform" else connected.

(** The exported entry points; [connect] is what the kernel answers for an address. *)
Definition Listen := listen.
Definition Network : string := NetworkUnix.
Definition Dial (netw addr : string) (connect : string -> result string unit) : result string unit :=
  dial netw (connect addr).

(** [GRPCClient]: a connection is only described; its dialer runs at the first call,
    and the target text has no part in it. *)
Record ClientConn := mkClientConn { cc_target : string; cc_dialer : (string -> result string unit) -> result string unit }.
Definition GRPCClient (netw addr : string) : ClientConn :=
  mkClientConn ("passthrough:///" +++ addr) (fun connect => dial netw (connect addr)).

(** A client reaches exactly what [Dial] would: whatever [Listen] serves under the
    platform's own network, and nothing under another. *)
Lemma GRPCClient_dials netw addr connect :
  cc_dialer (GRPCClient netw addr) connect = Dial netw addr connect /\
  (netw = Network -> cc_dialer (GRPCClient netw addr) connect = connect addr) /\
  (netw <> Network -> exists e, cc_dialer (GRPCClient netw addr) connect = Err e).
Proof.
  split; [done|]. unfold GRPCClient, dial, Network. cbn [cc_dialer].
  split; [by intros ->|]. intros H%String.eqb_neq. rewrite H. eauto.
Qed.

Section Accept.
Context {A : Type} (cred : A -> PeerCred).

(** [authListener.Accept] over what the kernel's queue yields: the connection handed
    on (or the error), the connections closed, the rest of the queue; [None] when it
    still waits. *)
Fixpoint Accept (authorize : option Authorizer) (queue : list (result string A)) :
  option (result string A * list (result string A)) * list A :=
  match queue with
  | [] => (None, [])
  | Err e :: q => (Some (Err e, q), [])
  | Ok c :: q =>
      match authorize with
      | None => (Some (Ok c, q), [])
      | Some f =>
          match f (cred c) with
          | None => (Some (Ok c, q), [])
          | Some _ => let (r, closed) := Accept authorize q in (r, c :: closed)
          end
      end
  end.

Lemma Accept_shorter auth queue c rest closed :
  Accept auth queue = (Some (c, rest), closed) -> (length rest < length queue)%nat.
Proof.
  revert closed. induction queue as [|[x|e] q IH]; intros closed H; simpl in *; [done| |by simplify_eq; lia].
  destruct auth as [f|]; [|simplify_eq; lia]. destruct (f (cred x)); [|simplify_eq; lia].
  destruct (Accept (Some f) q) as [r cl] eqn:E. simplify_eq. specialize (IH _ eq_refl). lia.
Qed.

(** The server's loop: every connection [Accept] hands on, until an error ends it. *)
Fixpoint accept_all (fuel : nat) (auth : option Authorizer) (queue : list (result string A)) : list A * list A :=
  match fuel with
  | O => ([], [])
  | S n =>
      match Accept auth queue with
      | (Some (Ok c, rest), closed) => let (served, cl) := accept_all n auth rest in (c :: served, closed ++ cl)
      | (_, closed) => ([], closed)
      end
  end.

(** The connections before the first listener error. *)
Fixpoint arrived (queue : list (result string A)) : list A :=
  match queue with Ok c :: q => c :: arrived q | _ => [] end.
Definition admitted (auth : option Authorizer) (c : A) : bool :=
  match auth with None => true | Some f => match f (cred c) with None => true | Some _ => false end end.

(** The gate: exactly the admitted connections are served, in the order they came,
    and exactly the others closed; a refused peer never keeps an admitted one out.
    The length of the queue is enough fuel. *)
Lemma accept_all_filter auth queue n :
  (length queue <= n)%nat ->
  accept_all n auth queue = (List.filter (admitted auth) (arrived queue), List.filter (fun c => negb (admitted auth c)) (arrived queue)).
Proof.
  revert queue. induction n as [|n IH]; intros queue Hn; [by destruct queue; simpl in *; [|lia]|].
  simpl. revert Hn. induction queue as [|[x|e] q IHq]; intros Hn; simpl in *; [done| |done].
  destruct auth as [f|]; simpl in *.
  - destruct (f (cred x)) eqn:E.
    + replace (admitted (Some f) x) with false by (unfold admitted; by rewrite E). simpl.
      destruct (Accept (Some f) q) as [r cl] eqn:Ea. specialize (IHq ltac:(lia)).
      destruct r as [[[c|e] rest]|]; simpl.
      * destruct (accept_all n (Some f) rest) as [served cl'] eqn:Es. injection IHq as <- <-. done.
      * injection IHq as <- <-. done.
      * injection IHq as <- <-. done.
    + replace (admitted (Some f) x) with true by (unfold admitted; by rewrite E). rewrite IH by lia. done.
  - rewrite IH by lia. done.
Qed.
End Accept.
End ipc.

(** ** ControlService *)

Module controlsock.
Import os manifest ipc.
Import (hints) store supervise.

(** [controlAuthorizer] for a core that runs as [self] *)
Definition controlAuthorizer (self : Z) : Authorizer := fun p =>
  if negb (HasUID p) then None
  else if (UID p =? 0) || (UID p =? self) then None
  else Some ("control socket: peer uid " +++ format_uint (UID p) +++ " not authorized").

Definition isWindowsAddr (addr : string) : bool :=
  (4 <? String.length addr)%nat && String.eqb (stake 4 addr) "\\.\".
(** [Dial]'s choice of network *)
Definition dial_network (addr : string) : string := if isWindowsAddr addr then NetworkPipe else NetworkUnix.
Definition Dial (addr : string) : ClientConn := GRPCClient (dial_network addr) addr.

Definition i32 (n : Z) : Z := (n + 2 ^ 31) mod 2 ^ 32 - 2 ^ 31.

Definition state_string (s : supervise.State) : string :=
  match s with
  | supervise.StatePending => "pending" | supervise.StateStarting => "starting"
  | supervise.StateRunning => "running" | supervise.StateBackoff => "backoff"
  | supervise.StateStartLimited => "start-limited"
  | supervise.StateUnsupportedProtocol => "unsupported-protocol"
  | supervise.StateRequirementsUnmet => "requirements-unmet" | supervise.StateStopped => "stopped"
  end.

Record StatusResponse := mkStatusResponse {
  CoreVersion : string; Protocol : Z * Z; DeviceId : string; Enrolled : bool; UptimeSeconds : Z }.
Record ModuleStatus := mkModuleStatus {
  ms_Id : string; ms_Version : string; ms_Protocol : Z; ms_State : string;
  ms_Health : option supervise.health_status; ms_Pid : Z; ms_Restarts : Z }.

Inductive code := FailedPrecondition | Unimplemented.

Inductive request :=
| StatusRequest | ModulesRequest | SurfacesRequest
| InstallRequest (module_id version local_path : string)
| RollbackRequest (module_id : string) | LogsRequest.
Inductive reply :=
| RStatus (s : StatusResponse) | RModules (l : list ModuleStatus) | RSurfaces (l : list (string * list string))
| RInstalled (version : string) | RRolledBack (version : string) | RFail (c : code) (e : errno) .

Section Server.
Context {S : Type} {SB : store.StoreBackend S} {JM : JSON Manifest}.
Context {JK : JSON signing.PublicKey} {JS : JSON signing.Signature} {JC : JSON ChannelManifest}.
Context (ed_verify : string -> string -> string -> bool) (parse_rfc3339 : string -> option Z).
Context (sha256 : string -> string) (http : string -> option (Z * string)).
(** [Server]'s fields: the manager, the window, what the identity provider answers,
    the start time, core's version. *)
Context (g : lifecycle.Manager) (window : handshake.Window) (whoami : string * bool * string) (enrolled : bool)
  (StartedAt : Z) (version : string).
Notation W := (world (lifecycle.sys S)).

Definition Status (now : Z) : StatusResponse :=
  mkStatusResponse version (handshake.w_Min window, handshake.w_Max window) whoami.1.1 enrolled
    (eventbus.u64 (Z.quot (now - StartedAt) retry.second)).

Definition module_status (st : supervise.Status) : ModuleStatus :=
  let s := state_string (supervise.st_State st) in
  mkModuleStatus (supervise.st_ID st) (supervise.st_Version st) (supervise.st_Protocol st)
    (if String.eqb (supervise.st_Detail st) "" then s else s +++ ": " +++ supervise.st_Detail st)
    (supervise.st_Health st) (i32 (supervise.st_PID st)) (supervise.st_Restarts st).
Definition Modules (w : W) : list ModuleStatus :=
  module_status <$> supervise.Statuses (lifecycle.sys_reg (w_ext w)).

Definition Surfaces (w : W) : list (string * list string) :=
  omap (fun st => if bool_decide (supervise.st_Surfaces st = []) then None
                  else Some (supervise.st_ID st, supervise.st_Surfaces st))
    (supervise.Statuses (lifecycle.sys_reg (w_ext w))).

Definition failed (e : errno) : reply := RFail FailedPrecondition e.

(** [Install] and [Rollback]; [c] and [now] serve the channel fetch. *)
Definition Install (c : store.call) (now : Z) (module_id ver local_path : string) : W -> reply * W := fun w =>
  let (r, w') := if negb (String.eqb local_path "") then lifecycle.InstallLocal g (Join [] [local_path]) w
                 else lifecycle.Install ed_verify parse_rfc3339 sha256 http g c now module_id ver w in
  (match r with Ok v => RInstalled v | Err e => failed e end, w').
Definition Rollback (module_id : string) : W -> reply * W := fun w =>
  let (r, w') := lifecycle.Rollback g module_id w in
  (match r with Ok v => RRolledBack v | Err e => failed e end, w').

Definition handle (c : store.call) (now : Z) (q : request) (w : W) : reply * W :=
  match q with
  | StatusRequest => (RStatus (Status now), w)
  | ModulesRequest => (RModules (Modules w), w)
  | SurfacesRequest => (RSurfaces (Surfaces w), w)
  | InstallRequest id ver local_path => Install c now id ver local_path w
  | RollbackRequest id => Rollback id w
  | LogsRequest => (RFail Unimplemented (EMsg "log streaming lands with the log pipeline"), w)
  end.

(** A client: its connection and the calls it makes on it. *)
Definition client : Type := conn * list (store.call * Z * request).
Fixpoint talk (calls : list (store.call * Z * request)) (w : W) : W :=
  match calls with
  | [] => w
  | (c, now, q) :: cs => talk cs (snd (handle c now q w))
  end.
(** [Serve]: the connections of the listener, one after the other. *)
Definition Serve (self : Z) (queue : list (result string client)) (w : W) : W :=
  fold_left (fun w x => talk x.2 w) (accept_all (fun x => peerCred x.1) (length queue) (Some (controlAuthorizer self)) queue).1 w.

(** The uid the kernel reports for a connection. *)
Definition kernel_uid (c : conn) : option Z :=
  if is_unix c && raw_ok c then fst <$> ucred c else None.


(** The gate fails open: a peer whose credentials the kernel does not give is served. *)
Lemma control_unknown_peer self c : kernel_uid c = None -> controlAuthorizer self (peerCred c) = None.
Proof.
  destruct c as [u r uc]. unfold kernel_uid, peerCred, controlAuthorizer. simpl.
  destruct u, r, uc as [[]|]; simpl; done.
Qed.

(** What an operator reads: one row per registered module, with its state and, when
    there is one, the detail after it. *)
Lemma Modules_rows w id r :
  supervise.runners (lifecycle.sys_reg (w_ext w)) !! id = Some r -> module_status (supervise.status r) ∈ Modules w.
Proof.
  intros H. unfold Modules, supervise.Statuses. apply list_elem_of_fmap_2. apply list_elem_of_fmap.
  exists (id, r). split; [done|]. by apply elem_of_map_to_list.
Qed.
End Server.

(** *** Witness: a user who is neither root nor core asks for a roll-back *)

Definition intruder : client := (mkConn true true (Some (1000, 77)), [(store.mkCall false None, 0, RollbackRequest "sysinfo")]).
End controlsock.

(** ** The command line (cmd/weavectl) *)

Module weavectl.
Import controlsock.

(** What a run does: print the usage and exit 2, fail and exit 1, or make a call. *)
Inductive outcome := Usage | Fatal (what : string) | Calls (r : request).

(** The arguments of an install. *)
Definition install_args (abs : string -> option string) (args : list string) : outcome :=
  match args with
  | a0 :: a1 :: _ =>
      if String.eqb a0 "-local"
      then match abs a1 with Some p => Calls (InstallRequest "" "" p) | None => Fatal "resolving path" end
      else Calls (InstallRequest a0 a1 "")
  | [a0] => Calls (InstallRequest a0 "" "")
  | [] => Usage
  end.

(** [main] up to the call; [abs] is [filepath.Abs], [dialled] whether the client could
    be made. *)
Definition run (abs : string -> option string) (dialled : bool) (args : list string) : outcome :=
  let cmd := default "" (args !! 0%nat) in
  if String.eqb cmd "" then Usage
  else if negb dialled then Fatal "connecting"
  else if String.eqb cmd "status" then Calls StatusRequest
  else if String.eqb cmd "modules" then Calls ModulesRequest
  else if String.eqb cmd "surfaces" then Calls SurfacesRequest
  else if String.eqb cmd "install" then install_args abs (tail args)
  else if String.eqb cmd "rollback" then
    if String.eqb (default "" (args !! 1%nat)) "" then Usage else Calls (RollbackRequest (default "" (args !! 1%nat)))
  else Usage.

(** An install request names a directory or a module, never both, and a rollback
    request names a module. *)
Lemma run_requests abs dialled args r : run abs dialled args = Calls r ->
  match r with
  | InstallRequest id ver p => p = "" \/ (id = "" /\ ver = "" /\ exists d, abs d = Some p)
  | RollbackRequest id => id <> ""
  | LogsRequest => False
  | _ => True
  end.
Proof.
  unfold run. destruct (String.eqb _ ""); [done|]. destruct dialled; [|done]. simpl.
  repeat match goal with |- (if String.eqb ?a ?b then _ else _) = _ -> _ => destruct (String.eqb_spec a b) as [?|] end;
    try (intros [= <-]; done); try done.
  unfold install_args. destruct (tail args) as [|a0 [|a1 l]]; [done|intros [= <-]; by left|].
  destruct (String.eqb a0 "-local"); [|intros [= <-]; by left].
  destruct (abs a1) eqn:E; [|done]. intros [= <-]. right. eauto.
Qed.
End weavectl.
