(* ===== verification/Windows.v ===== *)
(** * The Windows build (authenticode_windows.go, spawn_windows.go, dpapi_windows.go,
    platform_windows.go, probe_windows.go, collect_windows.go, ipc_windows.go)

    What the Windows variants do where the unix ones differ: the Authenticode check,
    the launch of a module with a restricted token inside a job object, the DPAPI
    protector of the master key, and what is read from the registry.  The operating
    system is a record of answers; handles are numbers, and the calls that open, use
    and close them are a trace. *)

From stdpp Require Import base list strings gmap.
From Stdlib Require Import ZArith Lia Ascii.
From S2P Require Import Prelude.
From S2P Require Import GoStrings.
From S2P Require Import Handshake.
From S2P Require Import Manifest.
From S2P Require Import Base64.
From S2P Require Import Store.
From S2P Require Import EventBus.
From S2P Require Import HvPeer.
From S2P Require Import Launch.
From S2P Require Import Supervisor.
From S2P Require Import Host.
From S2P Require Import Sysinfo.
From S2P Require Import Control.
Open Scope Z_scope.

Local Infix "+++" := String.append (at level 60, right associativity).

(** ** Authenticode (internal/verify/authenticode_windows.go) *)

Module authenticode.
Import manifest.

(** The leaf certificate: what the two queries for its SHA-1 property answer, and the
    simple display name with the count [CertGetNameString] returns. *)
Record cert := mkCert { sha1_size : option Z; sha1_read : option string; display_count : Z; display_name : string }.

(** What the trust provider's state holds. *)
Inductive chain := NoProviderData | NoSigner | NoLeaf | Leaf (c : cert).

Inductive error :=
| ErrNoSubject (id : string) | ErrRejected (path : string) (status : Z)
| ErrNoProviderData | ErrNoSigner | ErrNoLeaf | ErrSize | ErrRead
| ErrThumbprint (got want : string) | ErrNoName | ErrSubject (got want : string).

(** A Go call that may panic: [None]. *)
Notation may_panic A := (option (result error A)).

Definition to_upper_char (c : ascii) : ascii :=
  let n := byte_val c in if (97 <=? n) && (n <=? 122) then byte_of (n - 32) else c.
Definition to_lower_char (c : ascii) : ascii :=
  let n := byte_val c in if (65 <=? n) && (n <=? 90) then byte_of (n + 32) else c.
Fixpoint map_chars (f : ascii -> ascii) (s : string) : string :=
  match s with EmptyString => "" | String c r => String (f c) (map_chars f r) end.

(** [strings.EqualFold] against a hexadecimal text, whose letters have no other case
    variants than the ASCII ones. *)
Definition EqualFold (a b : string) : bool := String.eqb (map_chars to_lower_char a) (map_chars to_lower_char b).

(** [certThumbprint]; a property of size zero has no first byte to point at. *)
Definition certThumbprint (c : cert) : may_panic string :=
  match sha1_size c with
  | None => Some (Err ErrSize)
  | Some 0 => None
  | Some _ =>
      match sha1_read c with
      | None => Some (Err ErrRead)
      | Some hash => Some (Ok (map_chars to_upper_char (hex_encode hash)))
      end
  end.

(** [pinLeaf] *)
Definition pinLeaf (st : chain) (sg : Signing) : may_panic unit :=
  match st with
  | NoProviderData => Some (Err ErrNoProviderData)
  | NoSigner => Some (Err ErrNoSigner)
  | NoLeaf => Some (Err ErrNoLeaf)
  | Leaf c =>
      let want := AuthenticodeThumbprint sg in
      if negb (String.eqb want "") then
        match certThumbprint c with
        | None => None
        | Some (Err e) => Some (Err e)
        | Some (Ok got) => if negb (EqualFold got want) then Some (Err (ErrThumbprint got want)) else Some (Ok tt)
        end
      else if display_count c <=? 1 then Some (Err ErrNoName)
      else if negb (String.eqb (display_name c) (AuthenticodeSubject sg))
           then Some (Err (ErrSubject (display_name c) (AuthenticodeSubject sg)))
           else Some (Ok tt)
  end.

(** The state actions of [WinVerifyTrustEx]. *)
Inductive action := STATEACTION_VERIFY | STATEACTION_CLOSE.

(** [authenticodeVerify]: [trust] is the status and the state for a path. *)
Definition authenticodeVerify (trust : string -> Z * chain) (path : string) (m : Manifest) :
    may_panic unit * list action :=
  match m_Signing m with
  | None => (Some (Err (ErrNoSubject (m_ID m))), [])
  | Some sg =>
      if String.eqb (AuthenticodeSubject sg) "" then (Some (Err (ErrNoSubject (m_ID m))), [])
      else
        let (status, st) := trust path in
        let verifyErr := if negb (status =? 0) then Some (Err (ErrRejected path status)) else pinLeaf st sg in
        match verifyErr with
        | None => (None, [STATEACTION_VERIFY])
        | Some r => (Some r, [STATEACTION_VERIFY; STATEACTION_CLOSE])
        end
  end.

(** *** Properties *)

Lemma hex_digit_fold n : 0 <= n < 16 -> to_lower_char (to_upper_char (hex_digit n)) = hex_digit n.
Proof.
  intros H. assert (n ∈ seqZ 0 16) as Hin by (apply elem_of_seqZ; lia). revert Hin. clear H.
  change (seqZ 0 16) with [0;1;2;3;4;5;6;7;8;9;10;11;12;13;14;15].
  rewrite !elem_of_cons, elem_of_nil. intros Hin.
  repeat (destruct Hin as [->|Hin]; [reflexivity|]). done.
Qed.

Lemma hex_digit_inj n m : 0 <= n < 16 -> 0 <= m < 16 -> hex_digit n = hex_digit m -> n = m.
Proof.
  intros Hn Hm H. unfold hex_digit in H.
  apply (f_equal byte_val) in H. destruct (Z.ltb_spec n 10), (Z.ltb_spec m 10);
    rewrite !byte_val_of in H by lia; lia.
Qed.

Lemma nibbles c : 0 <= byte_val c / 16 < 16 /\ 0 <= byte_val c mod 16 < 16.
Proof. pose proof (byte_val_range c). Z.to_euclidean_division_equations; lia. Qed.

Lemma fold_thumbprint s : map_chars to_lower_char (map_chars to_upper_char (hex_encode s)) = hex_encode s.
Proof.
  induction s as [|c s IH]; [done|]. cbn [hex_encode map_chars].
  pose proof (nibbles c) as [H1 H2]. by rewrite !hex_digit_fold, IH.
Qed.

Lemma hex_encode_inj s t : hex_encode s = hex_encode t -> s = t.
Proof.
  revert t. induction s as [|c s IH]; intros [|d t] H; try done. cbn [hex_encode] in H.
  injection H as H1 H2 H3. pose proof (nibbles c) as [Hc1 Hc2]. pose proof (nibbles d) as [Hd1 Hd2].
  apply hex_digit_inj in H1, H2; try done. f_equal; [|by apply IH].
  rewrite <-(byte_of_val c), <-(byte_of_val d). f_equal.
  rewrite (Z.div_mod (byte_val c) 16), (Z.div_mod (byte_val d) 16) by done. lia.
Qed.

(** What the manifest pins, on a leaf certificate: the hash spelled by the thumbprint
    when there is one, the display name otherwise. *)
Definition pinned (sg : Signing) (c : cert) : Prop :=
  if String.eqb (AuthenticodeThumbprint sg) ""
  then 1 < display_count c /\ display_name c = AuthenticodeSubject sg
  else exists hash, sha1_read c = Some hash /\
         map_chars to_lower_char (AuthenticodeThumbprint sg) = hex_encode hash.

(** On Windows a binary is accepted only when the trust provider validated it and its
    leaf certificate is the one the manifest pins; whatever the verdict, the trust
    state that was acquired is released, unless the thumbprint property has size zero,
    when the verifier panics. *)
Theorem authenticode_sound trust path m r t :
  authenticodeVerify trust path m = (r, t) ->
  (r = Some (Ok tt) -> exists sg c, m_Signing m = Some sg /\ AuthenticodeSubject sg <> "" /\
     trust path = (0, Leaf c) /\ pinned sg c) /\
  (t = [] \/ t = [STATEACTION_VERIFY; STATEACTION_CLOSE] \/
   r = None /\ exists c, (trust path).2 = Leaf c /\ sha1_size c = Some 0).
Proof.
  unfold authenticodeVerify. destruct (m_Signing m) as [sg|]; [|intros [= <- <-]; split; [done|by left]].
  destruct (String.eqb_spec (AuthenticodeSubject sg) "") as [|Hs]; [intros [= <- <-]; split; [done|by left]|].
  destruct (trust path) as [status st] eqn:Et. destruct (Z.eqb_spec status 0) as [->|Hne]; cbn [negb];
    [|intros [= <- <-]; split; [done|by right; left]].
  destruct st as [| | |c]; cbn [pinLeaf]; try (intros [= <- <-]; split; [done|by right; left]).
  unfold pinned, certThumbprint. destruct (String.eqb_spec (AuthenticodeThumbprint sg) "") as [Hw|Hw]; cbn [negb].
  - destruct (Z.leb_spec (display_count c) 1); [intros [= <- <-]; split; [done|by right; left]|].
    destruct (String.eqb_spec (display_name c) (AuthenticodeSubject sg)) as [Hd|]; cbn [negb];
      intros [= <- <-]; (split; [|by right; left]); [|done].
    intros _. exists sg, c. rewrite (proj2 (String.eqb_eq _ _) Hw). auto.
  - destruct (sha1_size c) as [[|k|k]|] eqn:Ez; try (intros [= <- <-]; split; [done|by right; left]).
    { intros [= <- <-]. split; [done|]. right. right. eauto. }
    all: destruct (sha1_read c) as [hash|] eqn:Er; [|intros [= <- <-]; split; [done|by right; left]].
    all: unfold EqualFold; rewrite fold_thumbprint.
    all: destruct (String.eqb_spec (hex_encode hash) (map_chars to_lower_char (AuthenticodeThumbprint sg))) as [He|];
      cbn [negb]; intros [= <- <-]; (split; [|by right; left]); [|done].
    all: intros _; exists sg, c; rewrite (proj2 (String.eqb_neq _ _) Hw); eauto 6.
Qed.

(** A thumbprint pin admits one hash, however it is spelled. *)
Lemma pinned_hash sg c1 c2 h1 h2 : AuthenticodeThumbprint sg <> "" ->
  pinned sg c1 -> pinned sg c2 -> sha1_read c1 = Some h1 -> sha1_read c2 = Some h2 -> h1 = h2.
Proof.
  intros Hw. unfold pinned. rewrite (proj2 (String.eqb_neq _ _) Hw).
  intros (x & Hx & Ex) (y & Hy & Ey) H1 H2. simplify_eq. apply hex_encode_inj. congruence.
Qed.

Definition signed_manifest (thumb : string) : Manifest :=
  mkManifest 1 "sysinfo" "1.0.0" 1 "guest" "service" "system" [] [] [] (Some (mkSigning "" "Weave" thumb)) [].
Definition demo_cert : cert := mkCert (Some 2) (Some (String (byte_of 10) (String (byte_of 255) ""))) 6 "Other".

Lemma authenticode_sound_witness :
  exists sg c, m_Signing (signed_manifest "0aFF") = Some sg /\ AuthenticodeSubject sg <> "" /\
     (0, Leaf demo_cert) = (0, Leaf c) /\ pinned sg c.
Proof.
  apply (proj1 (authenticode_sound (fun _ => (0, Leaf demo_cert)) "C:\m.exe" (signed_manifest "0aFF") _ _ eq_refl)).
  reflexivity.
Defined.

(** The subject is not looked at when a thumbprint is pinned, and a name pin accepts
    every chain-valid certificate of that display name. *)
Example pins_demo :
  fst (authenticodeVerify (fun _ => (0, Leaf demo_cert)) "m" (signed_manifest "")) = Some (Err (ErrSubject "Other" "Weave")) /\
  fst (authenticodeVerify (fun _ => (0, Leaf (mkCert (Some 0) None 6 "Weave"))) "m" (signed_manifest "AA")) = None.
Proof. by vm_compute. Qed.
End authenticode.

(** ** Launching a module (internal/supervise/spawn_windows.go) *)

Module winproc.
Import manifest launch.

(** The calls on handles and processes. *)
Inductive call :=
| Opened (h : Z) | Closed (h : Z)
| KillOnClose (job : Z)                      (* SetInformationJobObject *)
| Assigned (job pid : Z)
| Terminated (job : Z)
| Started (bin : string) (token : option Z). (* cmd.Start with SysProcAttr.Token *)

(** A step of a launch: a Windows call, or an effect of the platform-independent part. *)
Inductive step := Win (c : call) | Eff (e : effect).

(** What the calls answer; a handle that is returned is never 0. *)
Record win_env := mkWinEnv {
  we_token : option Z;                       (* OpenProcessToken *)
  we_restricted : option Z;                  (* CreateRestrictedToken, DISABLE_MAX_PRIVILEGE *)
  we_job : option Z;                         (* CreateJobObject *)
  we_limit : bool;
  we_process : option Z;                     (* OpenProcess *)
  we_assign : bool }.
(** [applyPrivilege]: the token for the child; closing it is the cleanup. *)
Definition applyPrivilege (we : win_env) (m : Manifest) : result priv_error (option Z) * list step :=
  if negb (String.eqb (m_Session m) SessionSystem) then (Err (ErrSession (m_Session m)), [])
  else if String.eqb (m_Privilege m) PrivilegeSystem then (Ok None, [])
  else if String.eqb (m_Privilege m) PrivilegeService then
    match we_token we with
    | None => (Err ErrOpenToken, [])
    | Some procToken =>
        match we_restricted we with
        | None => (Err ErrRestrict, [Win (Opened procToken); Win (Closed procToken)])
        | Some r => (Ok (Some r), [Win (Opened procToken); Win (Opened r); Win (Closed procToken)])
        end
    end
  else (Err (ErrPrivilege (m_Privilege m)), []).
Definition tokenCleanup (token : option Z) : list step :=
  match token with Some r => [Win (Closed r)] | None => [] end.

(** [postSpawn]: the job handle, or nothing left open. *)
Definition postSpawn (we : win_env) (pid : Z) : option Z * list step :=
  match we_job we with
  | None => (None, [])
  | Some job =>
      let t := [Win (Opened job)] in
      if negb (we_limit we) then (None, t ++ [Win (Closed job)])
      else
      let t := t ++ [Win (KillOnClose job)] in
      match we_process we with
      | None => (None, t ++ [Win (Closed job)])
      | Some p =>
          let t := t ++ [Win (Opened p)] in
          if negb (we_assign we) then (None, t ++ [Win (Closed job); Win (Closed p)])
          else (Some job, t ++ [Win (Assigned job pid); Win (Closed p)])
      end
  end.

(** [killProc] and [closeJob]; the zero handle is the one never assigned. *)
Definition killProc (job : Z) : list step := if negb (job =? 0) then [Win (Terminated job); Eff Kill] else [Eff Kill].
Definition closeJob (job : Z) : list step := if negb (job =? 0) then [Win (Closed job); Eff CloseJob] else [Eff CloseJob].

(** The effects of the platform-independent part, with this job. *)
Definition in_job (job : Z) (e : effect) : list step :=
  match e with
  | Kill => killProc job
  | CloseJob => closeJob job
  | _ => [Eff e]
  end.
Definition with_job (job : Z) (t : list effect) : list step := concat (in_job job <$> t).

(** The host pipe of a launch. *)
Definition hostAddr (id token : string) : string := "\\.\pipe\weave-host-" +++ id +++ "-" +++ String.substring 0 8 token.

(** [launch] on Windows; the answer carries the job handle. *)
Definition launch_windows (l : launcher) (s : Spec) (e : launch_env) (we : win_env) : result error (proc * Z) * list step :=
  match set_up l s e with
  | (Err err, t) => (Err err, Eff <$> t)
  | (Ok (token, _, sockDir), t0) =>
      let (cred, t1) := applyPrivilege we (s_Manifest s) in
      match cred with
      | Err pe => (Err (ErrPriv pe), (Eff <$> t0) ++ t1 ++ [Eff StopHost])
      | Ok tok =>
          match le_exec e with
          | None => (Err ErrExec, (Eff <$> t0) ++ t1 ++ tokenCleanup tok ++ [Eff StopHost])
          | Some pid =>
              let env := env_of l token (hostAddr (m_ID (s_Manifest s)) token) sockDir in
              let t2 := [Win (Started (s_BinPath s) tok); Eff (Exec (s_BinPath s) env None)] ++ tokenCleanup tok in
              let (job, t3) := postSpawn we pid in
              match job with
              | None => (Err ErrContain, (Eff <$> t0) ++ t1 ++ t2 ++ t3 ++ [Eff Kill; Eff StopHost])
              | Some job =>
                  let '(r, t4) := wbind (shake l e) (fun line => wbind (engage l s e line) (fun resp => wret (mkProc pid line resp))) in
                  (match r with Ok p => Ok (p, job) | Err err => Err err end,
                   (Eff <$> t0) ++ t1 ++ t2 ++ t3 ++ with_job job t4)
              end
          end
      end
  end.

(** *** The handle discipline *)

(** How often a handle is open after the trace, counting from [n]; [None] once a
    handle that is not open was closed or used. *)
Definition tally (h : Z) (n : option Z) (st : step) : option Z :=
  n ← n;
  match st with
  | Win (Opened x) => Some (if x =? h then n + 1 else n)
  | Win (Closed x) => if x =? h then (if 0 <? n then Some (n - 1) else None) else Some n
  | Win (KillOnClose x) | Win (Assigned x _) | Win (Terminated x) | Win (Started _ (Some x)) =>
      if (x =? h) && negb (0 <? n) then None else Some n
  | _ => Some n
  end.
Definition open_count (h : Z) (t : list step) : option Z := fold_left (tally h) t (Some 0).

(** The last effects of a launched process, on this platform. *)
Definition ending (job : Z) (in_time killed : bool) : list step :=
  with_job job (if killed then kill else stop in_time).

Lemma tally_effects h t n : fold_left (tally h) (Eff <$> t) n = n.
Proof. induction t as [|e t IH]; [done|]. cbn [fmap list_fmap fold_left]. rewrite <-IH at 2. by destruct n. Qed.

(** Case analysis on the comparisons a tally makes. *)
Ltac tally_cases :=
  repeat match goal with |- context [?x =? ?y] => destruct (Z.eqb_spec x y); subst; simpl end;
  try done; try (f_equal; lia).

Lemma tally_privilege we m r t h : applyPrivilege we m = (r, t) ->
  fold_left (tally h) t (Some 0) = Some (match r with Ok (Some x) => if x =? h then 1 else 0 | _ => 0 end).
Proof.
  unfold applyPrivilege. intros H. split_match H; simplify_eq; [done|]. split_match H; simplify_eq; [done|].
  split_match H; simplify_eq; [|done]. destruct (we_token we); simplify_eq; [|done].
  destruct (we_restricted we); simplify_eq; simpl; tally_cases.
Qed.

Lemma tally_cleanup h bin tok env n : n = Some (match tok with Some x => if x =? h then 1 else 0 | None => 0 end) ->
  fold_left (tally h) ([Win (Started bin tok); Eff (Exec bin env None)] ++ tokenCleanup tok) n = Some 0 /\
  fold_left (tally h) (tokenCleanup tok) n = Some 0.
Proof. intros ->. destruct tok; simpl; [|done]. tally_cases. Qed.

Lemma tally_post h we pid job t : postSpawn we pid = (job, t) ->
  fold_left (tally h) t (Some 0) = Some (match job with Some j => if j =? h then 1 else 0 | None => 0 end).
Proof.
  unfold postSpawn. intros H. destruct (we_job we) as [j|]; simplify_eq; [|done].
  destruct (we_limit we); simpl in H; [|simplify_eq; simpl; tally_cases].
  destruct (we_process we) as [p|]; [|simplify_eq; simpl; tally_cases].
  destruct (we_assign we); simpl in H; simplify_eq; simpl; tally_cases.
Qed.

(** The rest of the launch: the job handle is closed exactly when the launch fails. *)
Lemma tally_engage l s e pid job r t h : job <> 0 ->
  wbind (shake l e) (fun line => wbind (engage l s e line) (fun resp => wret (mkProc pid line resp))) = (r, t) ->
  fold_left (tally h) (with_job job t) (Some (if job =? h then 1 else 0)) =
  Some (match r with Ok _ => if job =? h then 1 else 0 | Err _ => 0 end).
Proof.
  intros Hj H. unfold shake, engage, check, of_opt, wbind, wret, wfail, wdo in H.
  repeat (split_match H; simplify_eq); unfold with_job, in_job, cleanupProc, killProc, closeJob;
    rewrite ?(proj2 (Z.eqb_neq _ _) Hj); simpl; tally_cases.
Qed.

Lemma tally_ending h job in_time killed : job <> 0 ->
  fold_left (tally h) (ending job in_time killed) (Some (if job =? h then 1 else 0)) = Some 0.
Proof.
  intros Hj. unfold ending, with_job, in_job, killProc, closeJob. rewrite ?(proj2 (Z.eqb_neq _ _) Hj).
  destruct killed, in_time; simpl; tally_cases.
Qed.

(** C33. No handle leaks on Windows, and none is used or closed twice: whatever fails, a
    launch that does not succeed leaves every handle it opened closed; one that
    succeeds keeps exactly its job object open, and ending the process closes it. *)
Theorem windows_handles l s e we r t h :
  we_job we <> Some 0 -> launch_windows l s e we = (r, t) ->
  open_count h t = Some (match r with Ok (_, job) => if job =? h then 1 else 0 | Err _ => 0 end) /\
  forall p job in_time killed, r = Ok (p, job) -> open_count h (t ++ ending job in_time killed) = Some 0.
Proof.
  intros Hj H.
  assert (forall job, (postSpawn we 0).1 = Some job -> job <> 0) as Hjob.
  { intros job. unfold postSpawn. destruct (we_job we); [|done]. repeat (case_match; try done); simpl; congruence. }
  enough (open_count h t = Some (match r with Ok (_, job) => if job =? h then 1 else 0 | Err _ => 0 end) /\
          forall p job, r = Ok (p, job) -> job <> 0) as [H1 H2].
  { split; [done|]. intros p job in_time killed ->. unfold open_count in *. rewrite fold_left_app, H1.
    apply tally_ending. by eapply H2. }
  unfold launch_windows in H. unfold open_count.
  destruct (set_up l s e) as [[[[token sa] sockDir]|err] t0]; [|simplify_eq; split; [apply tally_effects|done]].
  destruct (applyPrivilege we (s_Manifest s)) as [cred t1] eqn:Ep.
  pose proof (tally_privilege _ _ _ _ h Ep) as H1.
  destruct cred as [tok|pe]; [|simplify_eq; split; [|done]; by rewrite !fold_left_app, tally_effects, H1].
  destruct (le_exec e) as [pid|].
  2:{ simplify_eq. split; [|done]. rewrite !fold_left_app, tally_effects, H1.
      by rewrite (proj2 (tally_cleanup h "" tok [] _ eq_refl)). }
  destruct (postSpawn we pid) as [job t3] eqn:Eq. pose proof (tally_post h _ _ _ _ Eq) as H3.
  set (env := env_of _ _ _ _) in H.
  set (t2 := [Win (Started (s_BinPath s) tok); Eff (Exec (s_BinPath s) env None)] ++ tokenCleanup tok) in H.
  assert (fold_left (tally h) ((Eff <$> t0) ++ t1 ++ t2 ++ t3) (Some 0) =
    Some (match job with Some j => if j =? h then 1 else 0 | None => 0 end)) as Hpre.
  { pose proof (proj1 (tally_cleanup h (s_BinPath s) tok env _ eq_refl)) as H2. fold t2 in H2.
    by rewrite fold_left_app, tally_effects, fold_left_app, H1, fold_left_app, H2. }
  destruct job as [job|].
  2:{ simplify_eq. split; [|done]. rewrite !app_assoc, fold_left_app, <-!app_assoc, Hpre. done. }
  assert (job <> 0) as Hne.
  { apply Hjob. unfold postSpawn in *. destruct (we_job we); [|done].
    repeat (case_match; try done); simpl; by simplify_eq. }
  destruct (wbind (shake l e) _) as [r' t4] eqn:Ew. simplify_eq.
  split; [|intros p j Hr; by destruct r'; simplify_eq].
  rewrite !app_assoc, fold_left_app, <-!app_assoc, Hpre, (tally_engage _ _ _ _ _ _ _ _ Hne Ew).
  by destruct r'.
Qed.
(** *** Privilege and containment *)

Lemma with_job_no_win job t c : Win c ∈ with_job job t -> c = Terminated job \/ c = Closed job.
Proof.
  unfold with_job. intros H. apply list_elem_of_In, in_concat in H as (l & Hl%list_elem_of_In & Hc%list_elem_of_In).
  apply list_elem_of_fmap in Hl as (e & -> & _). unfold in_job, killProc, closeJob in Hc.
  destruct e; try (destruct (negb (job =? 0))); set_solver.
Qed.

Lemma set_up_verified l s e x t : set_up l s e = (Ok x, t) -> la_verify l (s_BinPath s) (s_Manifest s) = true.
Proof. intros H. unfold set_up, check, of_opt, wbind, wret, wfail, wdo in H. repeat (split_match H; simplify_eq). done. Qed.

Lemma applyPrivilege_Ok we m tok t : applyPrivilege we m = (Ok tok, t) ->
  m_Session m = SessionSystem /\
  (m_Privilege m = PrivilegeSystem /\ tok = None \/
   m_Privilege m = PrivilegeService /\ exists r, tok = Some r /\ we_restricted we = Some r).
Proof.
  unfold applyPrivilege. destruct (String.eqb_spec (m_Session m) SessionSystem); [|done]. simpl. split; [done|].
  destruct (String.eqb_spec (m_Privilege m) PrivilegeSystem); [left; by simplify_eq|].
  destruct (String.eqb_spec (m_Privilege m) PrivilegeService); [right|done].
  destruct (we_token we), (we_restricted we); simplify_eq. eauto.
Qed.

Lemma no_start_privilege we m r t bin tok : applyPrivilege we m = (r, t) -> Win (Started bin tok) ∉ t.
Proof.
  unfold applyPrivilege. repeat case_match; intros; simplify_eq; set_solver.
Qed.

Lemma postSpawn_job we pid job t : postSpawn we pid = (Some job, t) ->
  Win (KillOnClose job) ∈ t /\ Win (Assigned job pid) ∈ t.
Proof.
  unfold postSpawn. intros H. repeat case_match; simplify_eq; set_solver.
Qed.
Lemma no_start_post we pid r t bin tok : postSpawn we pid = (r, t) -> Win (Started bin tok) ∉ t.
Proof. unfold postSpawn. repeat case_match; intros; simplify_eq; set_solver. Qed.

(** A module starts on Windows only as its manifest's verified binary, for the system
    session, with core's own token only when the manifest asks for system privilege
    and with the restricted one when it asks for service privilege; and a module that
    launched is in a job object that dies with core. *)
Theorem windows_contained l s e we r t :
  launch_windows l s e we = (r, t) ->
  (forall bin tok, Win (Started bin tok) ∈ t ->
     bin = s_BinPath s /\ la_verify l bin (s_Manifest s) = true /\ m_Session (s_Manifest s) = SessionSystem /\
     (m_Privilege (s_Manifest s) = PrivilegeSystem /\ tok = None \/
      m_Privilege (s_Manifest s) = PrivilegeService /\ exists h, tok = Some h /\ we_restricted we = Some h)) /\
  (forall p job, r = Ok (p, job) -> Win (KillOnClose job) ∈ t /\ Win (Assigned job (p_pid p)) ∈ t).
Proof.
  intros H. unfold launch_windows in H.
  assert (forall bin tok (t0 : list effect), Win (Started bin tok) ∈ Eff <$> t0 -> False) as Heff
    by (intros bin tok t0 Hin; apply list_elem_of_fmap in Hin as (? & ? & _); done).
  assert (forall bin tok x, Win (Started bin tok) ∈ tokenCleanup x -> False) as Htok
    by (intros bin tok [x|]; simpl; set_solver).
  destruct (set_up l s e) as [[[[token sa] sockDir]|err] t0] eqn:Es;
    [|simplify_eq; split; [intros bin tok Hin; by apply Heff in Hin|done]].
  apply set_up_verified in Es.
  destruct (applyPrivilege we (s_Manifest s)) as [cred t1] eqn:Ep.
  pose proof (fun bin tok => no_start_privilege _ _ _ _ bin tok Ep) as Hp.
  destruct cred as [tok|pe].
  2:{ simplify_eq. split; [|done]. intros bin tk. rewrite 2!elem_of_app.
      intros [Hin|[Hin|Hin]]; [by apply Heff in Hin|by apply Hp in Hin|set_solver]. }
  apply applyPrivilege_Ok in Ep as [Hsess Hpriv].
  destruct (le_exec e) as [pid|].
  2:{ simplify_eq. split; [|done]. intros bin tk. rewrite 3!elem_of_app.
      intros [Hin|[Hin|[Hin|Hin]]]; [by apply Heff in Hin|by apply Hp in Hin|by apply Htok in Hin|set_solver]. }
  set (env := env_of _ _ _ _) in H.
  set (t2 := [Win (Started (s_BinPath s) tok); Eff (Exec (s_BinPath s) env None)] ++ tokenCleanup tok) in H.
  assert (forall bin tk, Win (Started bin tk) ∈ t2 -> bin = s_BinPath s /\ tk = tok) as Hstart.
  { intros bin tk. unfold t2. rewrite elem_of_app, !elem_of_cons, elem_of_nil. intros [[?|[?|[]]]|Hin]; [by simplify_eq|done|by apply Htok in Hin]. }
  clearbody t2. destruct (postSpawn we pid) as [job t3] eqn:Eq. pose proof (fun bin tok => no_start_post _ _ _ _ bin tok Eq) as Hq.
  destruct job as [job|].
  - destruct (wbind (shake l e) _) as [r' t4] eqn:Ew. simplify_eq. split.
    + intros bin tk. rewrite 4!elem_of_app. intros [Hin|[Hin|[Hin|[Hin|Hin]]]]; [by apply Heff in Hin|by apply Hp in Hin| |by apply Hq in Hin|].
      * apply Hstart in Hin as [-> ->]. done.
      * apply with_job_no_win in Hin as [?|?]; done.
    + intros p j Hr. destruct r' as [p'|]; simplify_eq. apply postSpawn_job in Eq as [H1 H2].
      assert (p_pid p = pid) as ->.
      { unfold wbind in Ew. destruct (shake l e) as [[line|] ?]; [|done].
        destruct (engage l s e line) as [[resp|] ?]; unfold wret in Ew; by simplify_eq. }
      rewrite !elem_of_app. tauto.
  - simplify_eq. split; [|done]. intros bin tk. rewrite 4!elem_of_app.
    intros [Hin|[Hin|[Hin|[Hin|Hin]]]]; [by apply Heff in Hin|by apply Hp in Hin| |by apply Hq in Hin|set_solver].
    apply Hstart in Hin as [-> ->]. done.
Qed.

(** A launch of the sample module, with its token, its job and its process handle. *)
Definition demo_win : win_env := mkWinEnv (Some 16) (Some 20) (Some 16) true (Some 24) true.

Lemma windows_handles_witness :
  open_count 16 (launch_windows demo_launcher demo_spec (demo_env true) demo_win).2 = Some 1 /\
  open_count 20 (launch_windows demo_launcher demo_spec (demo_env false) demo_win).2 = Some 0.
Proof.
  split.
  - exact (proj1 (windows_handles demo_launcher demo_spec (demo_env true) demo_win _ _ 16 ltac:(discriminate) (surjective_pairing _))).
  - exact (proj1 (windows_handles demo_launcher demo_spec (demo_env false) demo_win _ _ 20 ltac:(discriminate) (surjective_pairing _))).
Defined.

Lemma windows_contained_witness :
  exists p, (launch_windows demo_launcher demo_spec (demo_env true) demo_win).1 = Ok (p, 16) /\
    Win (Assigned 16 (p_pid p)) ∈ (launch_windows demo_launcher demo_spec (demo_env true) demo_win).2.
Proof.
  eexists. split; [vm_compute; reflexivity|].
  apply (proj2 (windows_contained demo_launcher demo_spec (demo_env true) demo_win _ _ (surjective_pairing _))).
  vm_compute. reflexivity.
Defined.
End winproc.

(** ** The master key (internal/store/keyprotect/dpapi_windows.go) *)

Module dpapi.
Section Dpapi.
(** The MachineGuid value of the registry, and the two DPAPI calls in machine scope:
    data, secondary entropy, result. *)
Context (machineGuid : option string).
Context (CryptProtectData CryptUnprotectData : string -> string -> option string).

Definition machineEntropy : option string := (fun guid => "weave-store-v1:" +++ guid) <$> machineGuid.

(** [dpapi] with [sealOp] or [unsealOp] *)
Definition dpapi (data entropy : string) (op : string -> string -> option string) : option string :=
  if String.eqb data "" then None else op data entropy.
Definition Seal (key : string) : option string := ent ← machineEntropy; dpapi key ent CryptProtectData.
Definition Unseal (sealed : string) : option string := ent ← machineEntropy; dpapi sealed ent CryptUnprotectData.
Definition dpapiProtector : store.Protector := {| store.Seal := Seal; store.Unseal := Unseal |}.

(** What DPAPI documents: a blob is never empty, and the same entropy opens it. *)
Hypothesis protect_nonempty : forall d e x, CryptProtectData d e = Some x -> x <> "".
Hypothesis unprotect_protect : forall d e x, CryptProtectData d e = Some x -> CryptUnprotectData x e = Some d.

(** The protector promises what the key file relies on. *)
Lemma dpapi_laws : @store.ProtectorLaws dpapiProtector.
Proof.
  intros k x. simpl. unfold Seal, Unseal, dpapi. destruct machineEntropy as [ent|]; [|done]. simpl.
  destruct (String.eqb k ""); [done|]. intros H. pose proof (protect_nonempty _ _ _ H) as Hne.
  apply String.eqb_neq in Hne. rewrite Hne. by apply unprotect_protect in H.
Qed.
End Dpapi.

(** A sealed key is bound to the machine: where DPAPI refuses a blob under another
    entropy, the protector of a machine with a different GUID, or with none it can
    read, does not open what this one sealed. *)
Theorem dpapi_bound protect unprotect guid guid' key x :
  (forall d e y e', protect d e = Some y -> e' <> e -> unprotect y e' = None) ->
  Seal (Some guid) protect key = Some x -> guid' <> Some guid ->
  Unseal guid' unprotect x = None.
Proof.
  intros Hb Hs Hne. unfold Seal, Unseal, machineEntropy, dpapi in *. simpl in Hs.
  destruct (String.eqb key ""); [done|]. destruct guid' as [g'|]; [|done]. simpl.
  destruct (String.eqb x ""); [done|]. eapply Hb; [exact Hs|]. intros He. apply Hne. f_equal.
  by injection He.
Qed.

Lemma dpapi_bound_witness : Unseal (Some "B") (fun y e => if String.eqb y ("A" +++ e) then Some "k" else None) "Aweave-store-v1:A" = None.
Proof.
  apply (dpapi_bound (fun d e => Some ("A" +++ e)) _ "A" (Some "B") "k"); [|reflexivity|discriminate].
  intros d e y e' [= <-] Hne. cbv beta.
  replace (String.eqb _ _) with false; [done|]. symmetry. apply String.eqb_neq. intros E. injection E as E. congruence.
Defined.
End dpapi.

(** ** What the host tells (sdk/platform, internal/capability, modules/sysinfo) *)

Module winhost.

(** The registry: whether a key opens, and its values. *)
Record registry := mkRegistry {
  opens : string -> bool; integer : string -> string -> option Z; text : string -> string -> option string }.

(** [itoa]: the digits of [v] from the end of a buffer with [i] places left; [None]
    is an index out of range. *)
Fixpoint itoa_loop (i : nat) (v : Z) (acc : string) : option string :=
  if v =? 0 then Some acc
  else match i with
       | O => None
       | S i' => itoa_loop i' (v / 10) (String (digit_char (v mod 10)) acc)
       end.
Definition itoa (v : Z) : option string := if v =? 0 then Some "0" else itoa_loop 20 v "".

(** [fill] on Windows *)
Definition CurrentVersion : string := "SOFTWARE\Microsoft\Windows NT\CurrentVersion".
Definition fill_windows (reg : registry) (o : machine) (i : platform.Info) : platform.Info :=
  let i := platform.fill_hostname o i in
  if negb (opens reg CurrentVersion) then i
  else match integer reg CurrentVersion "CurrentMajorVersionNumber",
             integer reg CurrentVersion "CurrentMinorVersionNumber",
             text reg CurrentVersion "CurrentBuildNumber" with
       | Some major, Some minor, Some build =>
           platform.set_build build
             (platform.set_version (default "" (itoa major) +++ "." +++ default "" (itoa minor) +++ "." +++ build) i)
       | _, _, _ => i
       end.

(** [probeOS] on Windows *)
Definition probeOS_windows (reg : registry) (o : machine) (set : gmap string (gmap string string)) :
    gmap string (gmap string string) :=
  if opens reg "SOFTWARE\Microsoft\Virtual Machine\Guest\Parameters"
  then <["hypervisor.channel" := {["kind" := "hvsocket"]}]> set else set.

(** What WMI answers: the connection, the BIOS and the computer system. *)
Record wmi := mkWmi { connects : bool; bios_serial : option string; system_model : option string }.

(** [collectOS] and [collectWMI] on Windows *)
Definition collectWMI (w : wmi) (inv : sysinfo.Inventory) : sysinfo.Inventory :=
  if negb (connects w) then inv
  else
    let serial := default (sysinfo.SerialNumber inv) (bios_serial w) in
    let model := match system_model w with
                 | Some m => if String.eqb m "" then sysinfo.HardwareModel inv else m
                 | None => sysinfo.HardwareModel inv
                 end in
    sysinfo.mkInventory (sysinfo.CollectedAt inv) (sysinfo.Hostname inv) (sysinfo.OS inv) (sysinfo.Arch inv)
      (sysinfo.OSVersion inv) (sysinfo.OSBuild inv) model serial (sysinfo.MemoryBytes inv)
      (sysinfo.UptimeSeconds inv) (sysinfo.CPUModel inv) (sysinfo.CPUCores inv).
Definition ProcessorKey : string := "HARDWARE\DESCRIPTION\System\CentralProcessor\0".
Definition BiosKey : string := "HARDWARE\DESCRIPTION\System\BIOS".
Definition read_text (reg : registry) (key name old : string) : string :=
  if opens reg key then default old (text reg key name) else old.
Definition collectOS_windows (reg : registry) (w : wmi) (ncpu uptime_ns : Z) (totalPhys : option Z)
    (inv : sysinfo.Inventory) : sysinfo.Inventory :=
  collectWMI w
    (sysinfo.mkInventory (sysinfo.CollectedAt inv) (sysinfo.Hostname inv) (sysinfo.OS inv) (sysinfo.Arch inv)
       (sysinfo.OSVersion inv) (sysinfo.OSBuild inv)
       (read_text reg BiosKey "SystemProductName" (sysinfo.HardwareModel inv)) (sysinfo.SerialNumber inv)
       (default (sysinfo.MemoryBytes inv) totalPhys) (eventbus.u64 (uptime_ns / retry.second))
       (read_text reg ProcessorKey "ProcessorNameString" (sysinfo.CPUModel inv)) ncpu).

(** *** Properties *)

Lemma itoa_loop_digits i : forall v acc fuel, 0 < v < 10 ^ Z.of_nat i -> v < 2 ^ Z.of_nat fuel ->
  itoa_loop i v acc = Some (digits_n fuel v acc).
Proof.
  induction i as [|i IH]; intros v acc fuel Hv Hf; [change (10 ^ Z.of_nat 0) with 1 in Hv; lia|].
  cbn [itoa_loop]. rewrite (proj2 (Z.eqb_neq v 0)) by lia.
  destruct fuel as [|k]; [change (2 ^ Z.of_nat 0) with 1 in Hf; lia|]. cbn [digits_n].
  rewrite Nat2Z.inj_succ, Z.pow_succ_r in Hv, Hf by lia.
  destruct (Z.ltb_spec v 10).
  - rewrite (Z.div_small v 10) by lia. by destruct i.
  - apply IH; [|apply Z.div_lt_upper_bound; lia].
    split; [apply Z.div_str_pos; lia|apply Z.div_lt_upper_bound; lia].
Qed.

(** C34. The hand-written decimal conversion is [strconv.FormatUint] on every uint64: the
    twenty bytes of its buffer are enough. *)
Theorem itoa_format v : 0 <= v < 2 ^ 64 -> itoa v = Some (format_uint v).
Proof.
  intros Hv. unfold itoa. destruct (Z.eqb_spec v 0) as [->|]; [done|].
  apply itoa_loop_digits; [|apply log2_fuel; lia].
  split; [lia|]. etrans; [apply Hv|]. by vm_compute.
Qed.

Lemma itoa_format_witness : itoa (2 ^ 64 - 1) = Some (format_uint (2 ^ 64 - 1)).
Proof. apply itoa_format. lia. Defined.

(** A Windows guest's inventory claims the hypervisor channel exactly when the guest
    parameters key opens, and records no device: what is opened is then the first of
    the known devices that can be. *)
Theorem windows_channel reg fill o open :
  let s := capability.Probe fill (probeOS_windows reg) o in
  (is_Some (s !! "hypervisor.channel") <-> opens reg "SOFTWARE\Microsoft\Virtual Machine\Guest\Parameters" = true) /\
  forall attrs, s !! "hypervisor.channel" = Some attrs ->
    hvpeer.openDevice_windows open attrs = find_first (fun d => if open d is Some _ then true else false)
                                             hvpeer.windowsHypervisorDevices.
Proof.
  simpl. unfold capability.Probe, probeOS_windows.
  destruct (opens reg _); [rewrite lookup_insert_eq|by rewrite lookup_singleton_ne].
  split; [split; eauto|]. intros attrs [= <-]. unfold hvpeer.openDevice_windows. rewrite lookup_singleton_ne by done. simpl.
  by destruct (open "\\.\Global\org.weave.agent.0"), (open "\\.\COM2").
Qed.
End winhost.

(** ** Local transport (sdk/ipc/ipc_windows.go, peercred_windows.go, authorize_windows.go) *)

Module winipc.
Import ipc.

(** The pipe's security descriptor and the listener a call asks for. *)
Definition pipeSDDL : string := "D:(A;;GA;;;SY)(A;;GA;;;BA)".
Record pipe := mkPipe { pipe_addr : string; pipe_sddl : string }.
Definition ListenPipeSDDL (addr sddl : string) : pipe := mkPipe addr sddl.
Definition listen (addr : string) : pipe := ListenPipeSDDL addr pipeSDDL.
Definition dial (netw : string) (connected : result string unit) : result string unit :=
  if negb (String.eqb netw NetworkPipe) then Err "ipc: network not supported on this platform" else connected.
Definition peerCred (c : conn) : PeerCred := mkCred 0 false 0 false.
Definition controlAuthorizer : Authorizer := fun _ => None.
Definition authorizeModulePeer : Authorizer := fun _ => None.
End winipc.
