(* ===== verification/Commands.v ===== *)
(** * The three programs (cmd/weave-agent, cmd/weaveboot, cmd/weavectl)

    What the command lines make of their arguments, with the [flag] package they use:
    which verifier core gets, which directories weaveboot hands to core, where the
    operator's tool looks for core's socket, and how core ends. *)

From stdpp Require Import base list strings gmap.
From Stdlib Require Import ZArith Lia Ascii.
From S2P Require Import Prelude.
From S2P Require Import GoStrings.
From S2P Require Import Paths.
From S2P Require Import FileSystem.
From S2P Require Import Json.
From S2P Require Import Manifest.
From S2P Require Import Base64.
From S2P Require Import Signing.
From S2P Require Import Verifier.
From S2P Require Import Weaveboot.
From S2P Require Import Launch.
From S2P Require Import Supervisor.
From S2P Require Import Lifecycle.
From S2P Require Import Core.
From S2P Require Import Agent.
From S2P Require Import Control.
From S2P Require Import Windows.
Open Scope Z_scope.

Local Infix "+++" := String.append (at level 60, right associativity).

(** ** Package flag *)

Module flag.

Inductive kind := KString | KBool | KDuration.

(** What an argument is: no flag, the end of the flags, nonsense, or a flag with an
    attached value. *)
Inductive token := NonFlag | Terminator | BadSyntax | Flag (name : string) (value : option string).

(** The name up to the first ['='] and the value behind it. *)
Fixpoint cut_eq (s : string) : string * option string :=
  match s with
  | EmptyString => ("", None)
  | String c r => if Ascii.eqb c "=" then ("", Some r)
                  else let (a, v) := cut_eq r in (String c a, v)
  end.
Definition classify (s : string) : token :=
  match s with
  | String c0 (String c1 r) =>
      if negb (Ascii.eqb c0 "-") then NonFlag
      else if Ascii.eqb c1 "-" && String.eqb r "" then Terminator
      else match (if Ascii.eqb c1 "-" then r else String c1 r) with
           | EmptyString => BadSyntax
           | String c r' =>
               if Ascii.eqb c "-" || Ascii.eqb c "=" then BadSyntax
               else let (a, v) := cut_eq r' in Flag (String c a) v
           end
  | _ => NonFlag
  end.

(** The values set, in order, and the remaining arguments; [-h] and [-help] exit with
    0, a mistake with 2. *)
Inductive parsed := Args (set : list (string * string)) (rest : list string) | Help | Bad.
Definition add (name v : string) (p : parsed) : parsed :=
  match p with Args set rest => Args ((name, v) :: set) rest | _ => p end.

(** [strconv.ParseBool] *)
Definition ParseBool (s : string) : option bool :=
  if existsb (String.eqb s) ["1"; "t"; "T"; "true"; "TRUE"; "True"] then Some true
  else if existsb (String.eqb s) ["0"; "f"; "F"; "false"; "FALSE"; "False"] then Some false
  else None.

(** [flag.Parse] for the declared flags; [duration_ok] is [time.ParseDuration] without
    an error. *)
Section Parse.
Context (formal : string -> option kind) (duration_ok : string -> bool).
Definition valid (k : kind) (v : string) : bool :=
  match k with KString => true | KBool => if ParseBool v is Some _ then true else false | KDuration => duration_ok v end.
Fixpoint Parse (args : list string) : parsed :=
  match args with
  | [] => Args [] []
  | s :: rest =>
      match classify s with
      | NonFlag => Args [] args
      | Terminator => Args [] rest
      | BadSyntax => Bad
      | Flag name v =>
          match formal name with
          | None => if String.eqb name "help" || String.eqb name "h" then Help else Bad
          | Some KBool =>
              let v := default "true" v in if valid KBool v then add name v (Parse rest) else Bad
          | Some k =>
              match v with
              | Some v => if valid k v then add name v (Parse rest) else Bad
              | None => match rest with
                        | [] => Bad
                        | v :: rest' => if valid k v then add name v (Parse rest') else Bad
                        end
              end
          end
      end
  end.
End Parse.

(** The value of a flag: the last one set. *)
Fixpoint value (set : list (string * string)) (name d : string) : string :=
  match set with
  | [] => d
  | (n, v) :: set' => value set' name (if String.eqb n name then v else d)
  end.

Lemma value_unset set name d : Forall (fun nv => nv.1 <> name) set -> value set name d = d.
Proof.
  revert d. induction set as [|[n v] set IH]; intros d H; [done|]. apply Forall_cons in H as [Hn H]. simpl in *.
  rewrite (proj2 (String.eqb_neq _ _) Hn). by apply IH.
Qed.

(** Only declared flags are ever set. *)
Lemma Parse_declared formal ok args set rest : Parse formal ok args = Args set rest ->
  Forall (fun nv => is_Some (formal nv.1)) set.
Proof.
  revert args set rest. fix IH 1. intros [|s args] set rest H; simpl in H; [by simplify_eq|].
  destruct (classify s) as [| | |name v]; simplify_eq; [done..|].
  assert (forall v' tl, is_Some (formal name) -> add name v' (Parse formal ok tl) = Args set rest ->
    (forall set0 rest0, Parse formal ok tl = Args set0 rest0 -> Forall (fun nv => is_Some (formal nv.1)) set0) ->
    Forall (fun nv => is_Some (formal nv.1)) set) as Hadd.
  { intros v' tl Hs Ha Htl. destruct (Parse formal ok tl) as [set0 rest0| |]; simplify_eq/=.
    constructor; [done|]. by eapply Htl. }
  destruct (formal name) as [k|] eqn:Ef; [|by destruct (_ || _)].
  destruct k; try (destruct v as [v|]; [|destruct args as [|v args]; [done|]]);
    try (match type of H with (if ?b then _ else _) = _ => destruct b; [|done] end);
    (eapply Hadd; [by eexists|exact H|apply IH]).
Qed.
End flag.

(** ** Choosing the verifiers (internal/verify: [New], [Core]) *)

Module verifiers.
Import manifest verify.

Section Platform.
Context (dev : bool) (goos : string).
(** What the platform checks ask: ownership and the parent directory on Linux, the
    codesign tool on macOS, the trust provider on Windows. *)
Context (stat : string -> option (Z * Z)) (dir_of : string -> string)
  (codesign_ok : string -> string -> bool) (codesign_display : string -> option string)
  (trust : string -> Z * authenticode.chain).

(** [New], as a verdict; a verifier that panics lets nothing through. *)
Definition New (path : string) (m : Manifest) : bool :=
  if dev then is_ok (newVerifier_dev path (Some m))
  else if String.eqb goos "linux" then is_ok (newVerifier_linux stat dir_of path (Some m))
  else if String.eqb goos "darwin" then is_ok (codesignVerify codesign_ok codesign_display path (Some m))
  else match (authenticode.authenticodeVerify trust path m).1 with Some (Ok _) => true | _ => false end.
End Platform.

(** [Core] *)
Definition Core (dev : bool) (path : string) : bool :=
  is_ok (if dev then coreVerifier_dev path else coreVerifier_release path).
End verifiers.

(** ** Core's program (cmd/weave-agent) *)

Module weaveagent.
Import os manifest.
Open Scope os_scope.

Definition formal (name : string) : option flag.kind :=
  if String.eqb name "version" then Some flag.KBool
  else if String.eqb name "policy-interval" then Some flag.KDuration
  else if existsb (String.eqb name)
            ["state-dir"; "modules-dir"; "gateweave-url"; "manifest-url"; "manifest-root-pub"; "channel-dir"; "channel-pub"]
  then Some flag.KString else None.

(** A directory argument: the cleaned absolute path, [None] when empty. *)
Definition dir_arg (s : string) : option path := if String.eqb s "" then None else Some (clean (split "/" s)).

(** The contents of a file named by an absolute path. *)
Definition read_at (f : fs) (s : string) : option string :=
  match f !! clean (split "/" s) with Some (File c) => Some c | _ => None end.

(** How the program ends: the version printed, an exit code, or what core's run gave. *)
Inductive outcome (A : Type) := Printed (v : string) | Exit (code : Z) | Returned (a : A).
Arguments Printed {A}. Arguments Exit {A}. Arguments Returned {A}.

Section Main.
Context {X A : Type} {JK : JSON signing.PublicKey} {JS : JSON signing.Signature} {JC : JSON ChannelManifest}.
Context (ed_verify : string -> string -> string -> bool) (sha256 : string -> string)
  (getenv : string -> string) (duration_ok : string -> bool) (platform : string -> Manifest -> bool).
Context (b : agent.build_info) (core_Run : agent.Options -> M X A).

(** The flags with their defaults. *)
Definition state_dir set := flag.value set "state-dir" "".
Definition modules_dir set := flag.value set "modules-dir" "".
Definition gateweave_url set := flag.value set "gateweave-url" (getenv "WEAVE_GATEWEAVE_URL").
Definition manifest_url set := flag.value set "manifest-url" (getenv "WEAVE_MANIFEST_URL").
Definition root_pub set := flag.value set "manifest-root-pub" (getenv "WEAVE_MANIFEST_ROOT_PUB").
Definition channel_dir set := flag.value set "channel-dir" (getenv "WEAVE_CHANNEL_DIR").
Definition channel_pub set := flag.value set "channel-pub" (getenv "WEAVE_CHANNEL_PUB").

(** The verifier: the platform's, or the one anchored in the bundle of --channel-dir,
    which is read now, and reads a binary when it is asked about one. *)
Definition from_dir (f0 f : fs) (root dir : string) : result verify.error verify.Verifier :=
  verify.NewChannelFromDir ed_verify sha256 (read_at f) (agent.goos b) (agent.goarch b) (read_at f0) root dir.
Definition pick_verifier (set : list (string * string)) : M X (path -> Manifest -> fs -> bool) :=
  if String.eqb (channel_dir set) "" then ret (fun p m _ => platform (lifecycle.path_string p) m)
  else observe (fun f0 =>
    match from_dir f0 f0 (root_pub set) (channel_dir set) with
    | Err _ => Err (EMsg "channel-anchored verification unavailable")
    | Ok _ => Ok (fun p m f => match from_dir f0 f (root_pub set) (channel_dir set) with
                               | Ok v => is_ok (v (lifecycle.path_string p) (Some m))
                               | Err _ => false
                               end)
    end).

Definition options_of (set : list (string * string)) (v : path -> Manifest -> fs -> bool) : agent.Options :=
  agent.mkOptions (dir_arg (state_dir set)) (dir_arg (modules_dir set)) (gateweave_url set) (manifest_url set)
    (dir_arg (root_pub set)) (channel_pub set) (Some v).

Definition main (args : list string) : M X (outcome A) :=
  match flag.Parse formal duration_ok args with
  | flag.Help => ret (Exit 0)
  | flag.Bad => ret (Exit 2)
  | flag.Args set _ =>
      if bool_decide (flag.ParseBool (flag.value set "version" "false") = Some true) then ret (Printed (agent.version b))
      else
      r <-! attempt (pick_verifier set) ;;
      match r with
      | Err _ => ret (Exit 1)
      | Ok v =>
          r <-! attempt (core_Run (options_of set v)) ;;
          match r with Ok a => ret (Returned a) | Err _ => ret (Exit 1) end
      end
  end.

(** C28. What the verifier core runs with accepts, when it was given by [pick_verifier]: the
    platform's own verdict, or a binary of a channel that verifies under the root key
    read from the file the operator named.  A release build is no exception: the key
    baked into it has no part in this. *)
Theorem agent_verifier_sound set w v w' p m f :
  pick_verifier set w = (Ok v, w') -> v p m f = true ->
  w_fs w' = w_fs w /\
  (channel_dir set = "" /\ platform (lifecycle.path_string p) m = true \/
   channel_dir set <> "" /\ exists bytes key raw bundle channel,
     read_at (w_fs w) (root_pub set) = Some bytes /\ signing.ParsePublicKey bytes = Ok (key, raw) /\
     signing.pk_KeyID key = "root" /\ signing.Verify ed_verify raw bundle = Ok channel /\
     verify.channel_verifier sha256 (read_at f) (agent.goos b) (agent.goarch b) channel
       (lifecycle.path_string p) (Some m) = Ok tt).
Proof.
  unfold pick_verifier. intros H Hv. destruct (String.eqb_spec (channel_dir set) "") as [He|He].
  - unfold ret in H. simplify_eq. split; [done|]. by left.
  - pose proof (touches_none _ w (touches_observe (fun _ => False) (fun f0 =>
      match from_dir f0 f0 (root_pub set) (channel_dir set) with
      | Err _ => Err (EMsg "channel-anchored verification unavailable")
      | Ok _ => Ok (fun p m f => match from_dir f0 f (root_pub set) (channel_dir set) with
                               | Ok v => is_ok (v (lifecycle.path_string p) (Some m))
                               | Err _ => false
                               end)
      end))) as Hfs. rewrite H in Hfs. split; [done|]. right. split; [done|].
    apply observe_Ok in H as [_ H]. destruct (from_dir (w_fs w) (w_fs w) _ _) as [v0|] eqn:E0; [|done].
    injection H as <-. destruct (from_dir (w_fs w) f _ _) as [v1|] eqn:E1; [|done].
    apply verify.NewChannelFromDir_Ok in E1 as (_ & bytes & key & raw & bundle & channel & H1 & H2 & H3 & H4 & ->).
    exists bytes, key, raw, bundle, channel. split_and!; [done..|].
    destruct (verify.channel_verifier _ _ _ _ _ _ _) as [[]|]; done.
Qed.

(** Core never runs without having parsed its flags and obtained a verifier: any other
    way through [main] ends in a printed version or an exit code, with the files as
    they were. *)
Theorem main_gate args w r w' :
  main args w = (r, w') ->
  (exists out, r = Ok out /\ match out with Returned _ => False | _ => True end /\ w_fs w' = w_fs w) \/
  exists set rest v w1, flag.Parse formal duration_ok args = flag.Args set rest /\
    pick_verifier set w = (Ok v, w1) /\ w' = snd (core_Run (options_of set v) w1) /\
    r = Ok (match fst (core_Run (options_of set v) w1) with Ok a => Returned a | Err _ => Exit 1 end).
Proof.
  unfold main. intros H. destruct (flag.Parse formal duration_ok args) as [set rest| |];
    [|left; unfold ret in H; simplify_eq; by eexists..].
  destruct (bool_decide _); [left; unfold ret in H; simplify_eq; by eexists|].
  rewrite bind_attempt in H.
  assert (w_fs (snd (pick_verifier set w)) = w_fs w) as Hfs.
  { unfold pick_verifier. destruct (String.eqb _ ""); [done|]. apply touches_none, touches_observe. }
  destruct (pick_verifier set w) as [[v|e] w1] eqn:Ep; cbn [fst snd] in *;
    [|left; unfold ret in H; simplify_eq; by eexists].
  right. rewrite bind_attempt in H. exists set, rest, v, w1.
  destruct (core_Run (options_of set v) w1) as [[a|e] w2]; cbn [fst snd] in *; unfold ret in H; by simplify_eq.
Qed.
End Main.

(** *** Witness: a release build pointed at an operator's bundle *)

#[local] Instance op_key : JSON signing.PublicKey :=
  signing.const_JSON (signing.mkPublicKey 1 "root" (base64.EncodeToString signing.demo_key)).
#[local] Instance op_sig : JSON signing.Signature := signing.const_JSON (signing.mkSignature 1 "root" (base64.EncodeToString (repeat_char 64 "x"))).
#[local] Instance op_channel : JSON ChannelManifest := signing.const_JSON (sample_channel [verify.empty_digest_entry]).
Definition op_files : fs := list_to_map [
  (["etc"; "op.pub"], File "op.pub"); (["ch"; "channel.json"], File "manifest.json");
  (["ch"; "channel.json.sig"], File "manifest.sig"); (["ch"; "signing.pub"], File "signing.pub");
  (["ch"; "signing.pub.sig"], File "endorsement"); (["opt"; "m"], File "binary")].
Definition op_set : list (string * string) := [("channel-dir", "/ch"); ("manifest-root-pub", "/etc/op.pub")].
Definition release_build : agent.build_info := agent.mkBuild false "embedded" "linux" "amd64" false "1.0.0".
Definition op_pick : result errno (path -> Manifest -> fs -> bool) * world unit :=
  pick_verifier (X := unit) (fun _ _ _ => true) verify.const_sha (fun _ => "") (fun _ _ => false) release_build op_set
    (mkWorld op_files [] true 0 tt).

Lemma op_pick_ok : exists v, op_pick = (Ok v, mkWorld op_files [] true 0 tt) /\ v ["opt"; "m"] sysinfo_manifest op_files = true.
Proof. vm_compute. eexists. split; reflexivity. Qed.

Lemma agent_verifier_sound_witness :
  exists bytes key raw bundle channel,
     read_at op_files "/etc/op.pub" = Some bytes /\ signing.ParsePublicKey bytes = Ok (key, raw) /\
     signing.pk_KeyID key = "root" /\ signing.Verify (fun _ _ _ => true) raw bundle = Ok channel /\
     verify.channel_verifier verify.const_sha (read_at op_files) "linux" "amd64" channel "/opt/m" (Some sysinfo_manifest) = Ok tt.
Proof.
  destruct op_pick_ok as (v & Hp & Hv).
  destruct (agent_verifier_sound (fun _ _ _ => true) verify.const_sha (fun _ => "") (fun _ _ => false) release_build op_set
    _ v _ ["opt"; "m"] sysinfo_manifest op_files Hp Hv) as (_ & [[H _]|[_ H]]); [discriminate H|exact H].
Defined.
End weaveagent.

(** ** weaveboot's program (cmd/weaveboot) and the operator's (cmd/weavectl) *)

Module programs.
Import os.
Import weaveagent.
Open Scope os_scope.

Definition boot_formal (name : string) : option flag.kind :=
  if String.eqb name "state-dir" then Some flag.KString else None.

(** What weaveboot runs with: its own options, and the arguments every core gets. *)
Record boot_config := mkBootConfig { bc_options : weaveboot.Options; bc_args : list string }.

Section Boot.
Context (dev : bool) (env : option path) (paths : layout.PathSet) (windows : bool) (executable : option path).

(** [main] of weaveboot up to [weaveboot.Run]; the exit code otherwise. *)
Definition boot_main (args : list string) : boot_config + Z :=
  match flag.Parse boot_formal (fun _ => false) args with
  | flag.Help => inr 0
  | flag.Bad => inr 2
  | flag.Args set rest =>
      let lay := layout.Resolve (dir_arg (flag.value set "state-dir" "")) env paths in
      let dir := layout.StateDir lay in
      inl (mkBootConfig
        (weaveboot.mkOptions (Join dir ["core"]) 0 0 (Some (fun p _ => verifiers.Core dev (lifecycle.path_string p))) windows executable)
        (["--state-dir"; lifecycle.path_string dir] ++ rest))
  end.

(** [main] of weavectl: the address it dials and the call it makes. *)
Definition ctl_formal (name : string) : option flag.kind :=
  if String.eqb name "socket" then Some flag.KString else None.
Definition ctl_addr (set : list (string * string)) : string :=
  let socket := flag.value set "socket" "" in
  if String.eqb socket "" then lifecycle.path_string (layout.ControlSocket (layout.Resolve None env paths)) else socket.
Definition ctl_main (abs : string -> option string) (dial : string -> bool) (args : list string) : weavectl.outcome :=
  match flag.Parse ctl_formal (fun _ => false) args with
  | flag.Args set rest => weavectl.run abs (dial (ctl_addr set)) rest
  | _ => weavectl.Usage
  end.
End Boot.

(** The layout a core resolves when it is started with these arguments. *)
Definition core_layout (env : option path) (paths : layout.PathSet) (args : list string) : option layout.Layout :=
  match flag.Parse formal (fun _ => true) args with
  | flag.Args set _ => Some (layout.Resolve (dir_arg (state_dir set)) env paths)
  | _ => None
  end.

(** *** Properties *)

(** A cleaned absolute path survives being printed and read back. *)
Lemma dir_arg_path p : safe_path p -> dir_arg (lifecycle.path_string p) = Some p.
Proof.
  intros Hs. unfold dir_arg, lifecycle.path_string. simpl. f_equal.
  unfold clean. cbn [fold_left]. change (clean_step [] "") with (@nil string).
  destruct p as [|c p]; [done|].
  rewrite split_join; [|done|eapply Forall_impl; [exact Hs|]; by intros ? (_ & _ & _ & ? & _)].
  rewrite fold_clean_safe by done. by rewrite app_nil_r, rev_involutive.
Qed.

Lemma parse_state_dir ok s rest :
  flag.Parse formal ok ("--state-dir" :: s :: rest) = flag.add "state-dir" s (flag.Parse formal ok rest).
Proof. reflexivity. Qed.

Section Started.
Context (dev : bool) (env : option path) (paths : layout.PathSet) (windows : bool) (executable : option path).
Context (args : list string) (set : list (string * string)) (rest : list string) (cset : list (string * string)) (crest : list string).
Hypothesis Hargs : flag.Parse boot_formal (fun _ => false) args = flag.Args set rest.
Hypothesis Hrest : flag.Parse formal (fun _ => true) rest = flag.Args cset crest.
Hypothesis Hplain : Forall (fun nv => nv.1 <> "state-dir") cset.
Notation boot_layout := (layout.Resolve (dir_arg (flag.value set "state-dir" "")) env paths).
Notation dir := (layout.StateDir boot_layout).
Hypothesis Hdir : safe_path dir.

Lemma started_layout :
  core_layout env paths (["--state-dir"; lifecycle.path_string dir] ++ rest) = Some (layout.Resolve (Some dir) env paths).
Proof.
  unfold core_layout. cbn [app]. rewrite parse_state_dir, Hrest. cbn [flag.add]. unfold state_dir. cbn [flag.value].
  rewrite String.eqb_refl, flag.value_unset by done. by rewrite dir_arg_path.
Qed.

(** weaveboot and the core it starts agree on the state directory: the versions
    weaveboot keeps are in the [core] directory of the state core opens, apart from
    core's modules and staging areas.  The rest of core's layout lies below that
    directory, wherever weaveboot's own layout has its run and log directories. *)
Theorem boot_core_layout :
  dir <> [] -> exists cfg l, boot_main dev env paths windows executable args = inl cfg /\
    core_layout env paths (bc_args cfg) = Some l /\ layout.StateDir l = dir /\
    weaveboot.CoreDir (bc_options cfg) = layout.StateDir l ++ ["core"] /\
    layout.RunDir l = dir ++ ["run"] /\ layout.LogDir l = dir ++ ["logs"] /\ layout.ModulesDir l = dir ++ ["modules"] /\
    below (layout.ModulesDir l) (weaveboot.CoreDir (bc_options cfg)) = false /\
    below (layout.StagingDir l) (weaveboot.CoreDir (bc_options cfg)) = false.
Proof.
  intros Hne. pose proof started_layout as Hs. revert Hs Hdir Hne. unfold boot_main. rewrite Hargs. cbv zeta.
  generalize dir. intros d Hs Hd Hne. eexists _, (layout.Resolve (Some d) env paths).
  split; [done|]. split; [exact Hs|].
  cbn [bc_options weaveboot.CoreDir layout.Resolve layout.StateDir layout.LogDir layout.RunDir layout.StagingDir layout.ModulesDir].
  rewrite !Join_safe by (done || safe_list). by rewrite !below_cat.
Qed.

(** Where the operator's tool looks for that core: the same socket when the state
    directory comes from the environment both see; but on a machine that uses the
    platform's own directories weavectl, given no socket, dials one that this core does
    not serve. *)
Theorem operator_socket :
  (forall d, env = Some d -> flag.value set "state-dir" "" = "" -> exists l,
     core_layout env paths (["--state-dir"; lifecycle.path_string dir] ++ rest) = Some l /\
     ctl_addr env paths [] = lifecycle.path_string (layout.ControlSocket l)) /\
  (env = None -> flag.value set "state-dir" "" = "" -> paths = layout.Paths_linux \/ paths = layout.Paths_darwin ->
   exists l, core_layout env paths (["--state-dir"; lifecycle.path_string dir] ++ rest) = Some l /\
     ctl_addr env paths [] <> lifecycle.path_string (layout.ControlSocket l)).
Proof.
  rewrite started_layout. split.
  - intros d -> Hv. eexists. split; [done|]. unfold ctl_addr. simpl. f_equal. by rewrite Hv.
  - intros -> Hv Hp. eexists. split; [done|]. rewrite Hv. unfold ctl_addr. simpl.
    destruct Hp as [->| ->]; vm_compute; discriminate.
Qed.
End Started.

(** A release build never replaces core: no core identity is provisioned, so whatever
    is staged, a promotion changes nothing outside the staging area. *)
Theorem release_never_promotes env paths windows executable args cfg w q :
  boot_main false env paths windows executable args = inl cfg ->
  let o := bc_options cfg in safe_path (weaveboot.CoreDir o) -> safe_fs (w_fs w) ->
  below (weaveboot.CoreDir o ++ ["staging"]) q = false ->
  w_fs (snd (weaveboot.promoteStaged o w)) !! q = w_fs w !! q.
Proof.
  intros Hb o Hcore Hsafe Hq.
  assert (weaveboot.VerifyCore o = Some (fun p _ => false)) as Hv.
  { unfold boot_main in Hb. destruct (flag.Parse _ _ args); simplify_eq. done. }
  clearbody o. clear Hb cfg args. unfold weaveboot.promoteStaged. rewrite bind_attempt.
  pose proof (touches_none _ w (touches_ReadDir (fun _ => False) (weaveboot.stagingDir o))) as Hw1.
  destruct (ReadDir _ w) as [[[|e0 entries]|e] w1] eqn:E1; cbn [fst snd] in *; [by rewrite <-Hw1| |by rewrite <-Hw1].
  apply observe_Ok in E1 as [_ Hdir]. go_inv Hdir.
  destruct (weaveboot.pick_best_spec o (e0 :: entries) "" w1) as (best & w2 & E2 & Hw2 & Hbest).
  unfold bind at 1. rewrite E2. rewrite Hw1 in Hw2.
  destruct (String.eqb_spec best "") as [->|Hne]; [by rewrite <-Hw2|]. destruct Hbest as [?|Hbest]; [done|].
  rewrite Hv, bind_attempt.
  rewrite <-Hdir, children_spec, weaveboot.stagingDir_path, <-app_assoc in Hbest by done.
  destruct Hbest as (n & Hn & _). simpl in Hn.
  assert (safe_component best) as Hsb.
  { apply mk_is_Some, Hsafe in Hn. unfold safe_path in Hn. rewrite Forall_app, !Forall_cons in Hn. tauto. }
  pose proof (touches_none (weaveboot.verify_now (fun _ _ => false) (Join (weaveboot.stagingDir o) [best; weaveboot.binaryName o])) w2
                (touches_observe (fun _ => False) _)) as Hw3.
  destruct (weaveboot.verify_now _ _ w2) as [rv w3] eqn:E3. cbn [fst snd] in *. rewrite Hw2 in Hw3.
  assert (forall w4 : weaveboot.W, w_fs w4 = w_fs w ->
    w_fs (snd (ignore (RemoveAll (Join (weaveboot.stagingDir o) [best])) w4)) !! q = w_fs w !! q) as Hrm.
  { intros w4 H4. unfold ignore. simpl. rewrite weaveboot.staged_path by (done || safe_list). rewrite <-H4.
    eapply touches_elim; [apply touches_RemoveAll|]. simpl. intros Hbelow.
    enough (below (weaveboot.CoreDir o ++ ["staging"]) q = true) by congruence.
    apply below_spec in Hbelow as [r ->]. apply below_spec. exists (best :: r). repeat rewrite <-app_assoc. done. }
  destruct rv as [[]|]; [|by apply Hrm..]. apply observe_Ok in E3 as [_ E3]. done.
Qed.

(** *** Witnesses: the packaged service of the Linux build *)

Definition unit_args : list string := ["--"; "--modules-dir"; "/usr/lib/weave/modules"].
Definition unit_config : boot_config + Z := boot_main false None layout.Paths_linux false None unit_args.

Lemma boot_core_layout_witness :
  exists cfg l, unit_config = inl cfg /\
    core_layout None layout.Paths_linux (bc_args cfg) = Some l /\ layout.RunDir l = ["var"; "lib"; "weave"] ++ ["run"].
Proof.
  destruct (boot_core_layout false None layout.Paths_linux false None unit_args [] ["--modules-dir"; "/usr/lib/weave/modules"]
    [("modules-dir", "/usr/lib/weave/modules")] []) as (cfg & l & H1 & H2 & _ & _ & H3 & _).
  - reflexivity.
  - reflexivity.
  - repeat constructor. discriminate.
  - safe_list.
  - discriminate.
  - exists cfg, l. split; [exact H1|]. split; [exact H2|exact H3].
Defined.

Lemma operator_socket_witness :
  exists l, core_layout None layout.Paths_linux
      (["--state-dir"; "/var/lib/weave"] ++ ["--modules-dir"; "/usr/lib/weave/modules"]) = Some l /\
    "/run/weave/control.sock" <> lifecycle.path_string (layout.ControlSocket l).
Proof.
  apply (proj2 (operator_socket None layout.Paths_linux [] ["--modules-dir"; "/usr/lib/weave/modules"]
    [("modules-dir", "/usr/lib/weave/modules")] [] eq_refl ltac:(repeat constructor; discriminate) ltac:(safe_list))).
  - reflexivity.
  - reflexivity.
  - left. reflexivity.
Defined.

Definition staged_fs : fs := list_to_map [
  (["var"; "lib"; "weave"; "core"; "staging"], Dir); (["var"; "lib"; "weave"; "core"; "staging"; "2.0.0"], Dir);
  (["var"; "lib"; "weave"; "core"; "staging"; "2.0.0"; "weave-agent"], File "two")].
Definition staged_world : weaveboot.W := mkWorld staged_fs [] true 0 [].

Lemma release_never_promotes_witness :
  exists cfg, unit_config = inl cfg /\
    w_fs (snd (weaveboot.promoteStaged (bc_options cfg) staged_world)) !! ["var"; "lib"; "weave"; "core"; "current"] = None.
Proof.
  eexists. split; [reflexivity|].
  apply (release_never_promotes None layout.Paths_linux false None unit_args _ staged_world
    ["var"; "lib"; "weave"; "core"; "current"] eq_refl).
  - safe_list.
  - apply safe_fs_forall. vm_compute map_to_list. repeat (apply Forall_cons_2; [safe_list|]). apply Forall_nil_2.
  - reflexivity.
Defined.
End programs.

(** ** What a start finds, and how it ends (internal/core: the ends of [Run]) *)

Module lifetime.
Import os manifest supervise.
Open Scope os_scope.

(** With --modules-dir, what core starts are entries of that directory and nothing
    else, wherever the lifecycle manager of the same core installs modules. *)
Theorem modules_dir_only {X} {JM : JSON manifest.Manifest} windows goos goarch l d (w : world X) specs w' :
  core.start windows goos goarch l (Some d) w = (Ok specs, w') ->
  Forall (core.found windows (w_fs w') d) specs.
Proof.
  unfold core.start. intros H. apply bind_Ok in H as ([] & w1 & _ & H). apply bind_Ok in H as ([] & w2 & _ & H).
  apply bind_Ok in H as (all & w3 & Hd & H). unfold ret in H. simplify_eq.
  apply core.discover_sound in Hd as [F Hall]. rewrite F. apply Forall_forall. intros sp Hsp.
  apply list_elem_of_filter in Hsp as [_ Hsp]. by eapply Forall_forall in Hsp; [|exact Hall].
Qed.

(** So an installed module is forgotten by a restart of a core that is started with
    --modules-dir: the install of the sample module succeeds, a plain restart finds it,
    and the restart of the packaged service finds nothing. *)
Definition package_dir : path := ["usr"; "lib"; "weave"; "modules"].
Definition packaged_restart : result errno (list launch.Spec) * world unit :=
  @core.start unit (binary_JSON manifest.Manifest) false "linux" "amd64" core.demo_layout (Some package_dir) core.demo_disk.

Example packaged_restart_forgets :
  fst core.demo_installed = Ok "1.2.3-rc.1" /\ is_ok (fst core.demo_boot) = true /\ fst core.demo_boot <> Ok [] /\
  fst packaged_restart = Ok [].
Proof. split_and!; [vm_compute; reflexivity..|vm_compute; discriminate|vm_compute; reflexivity]. Qed.

Definition packaged_fs : fs := list_to_map [
  (["usr"; "lib"; "weave"; "modules"], Dir); (["usr"; "lib"; "weave"; "modules"; "sysinfo"], Dir);
  (["usr"; "lib"; "weave"; "modules"; "sysinfo"; "module.manifest.json"], File core.demo_text);
  (["usr"; "lib"; "weave"; "modules"; "sysinfo"; "sysinfo"], File "good")].
Definition packaged_start : result errno (list launch.Spec) * world unit :=
  @core.start unit (binary_JSON manifest.Manifest) false "linux" "amd64" core.demo_layout (Some package_dir)
    (mkWorld packaged_fs [] true 0 tt).

Lemma modules_dir_only_witness :
  exists sp, fst packaged_start = Ok [sp] /\
    Forall (@core.found (binary_JSON manifest.Manifest) false (w_fs (snd packaged_start)) package_dir) [sp].
Proof.
  assert (exists sp, fst packaged_start = Ok [sp]) as [sp Hb] by (vm_compute; eexists; reflexivity).
  exists sp. split; [exact Hb|].
  apply (@modules_dir_only unit (binary_JSON manifest.Manifest) false "linux" "amd64" core.demo_layout package_dir
    (mkWorld packaged_fs [] true 0 tt)). rewrite <-Hb. apply surjective_pairing.
Defined.

(** What ends the wait at the end of [Run]: the context, or the control server
    returning. *)
Inductive wake := CtxEnded (in_time : bool) | CtlReturned (err : option string).

(** A registered module: the launches played so far and the one under way. *)
Record module_run := mkModuleRun { mr_past : list round; mr_now : round; mr_runner : runner }.
Definition under_way (s : Supervisor) (m : module_run) : step * runner * list launch.effect :=
  run s (mr_past m ++ [mr_now m]) (mr_runner m).
Definition wound_down (s : Supervisor) (b : bool) (m : module_run) : step * runner * list launch.effect :=
  run s (mr_past m ++ [cancel b (mr_now m)]) (mr_runner m).

(** [Wait] returns when every supervision loop has. *)
Definition Wait (rs : list (step * runner * list launch.effect)) : bool :=
  forallb (fun x => match x.1.1 with Done => true | _ => false end) rs.

(** The end of [Run]: its error, and what each module's supervision has done by then;
    an error of the control server returns at once. *)
Definition Run_end (s : Supervisor) (w : wake) (ms : list module_run) :
    option string * list (step * runner * list launch.effect) :=
  match w with
  | CtlReturned (Some e) => (Some ("control socket: " +++ e), under_way s <$> ms)
  | CtlReturned None => (None, wound_down s true <$> ms)
  | CtxEnded b => (None, wound_down s b <$> ms)
  end.


Definition demo_modules : list module_run := [mkModuleRun [failing 1] (failing 2) demo_runner].


(** A control server that fails takes core down with its modules still up: nothing has
    stopped them when [Run] returns. *)
Definition running : module_run :=
  mkModuleRun [] (mkRound false (launch.demo_env true) false (Some HEALTHY) [] 1 0 1 (fun d => d) (fun _ => "") false) demo_runner.
Example control_failure_abandons :
  let (err, out) := Run_end demo_sup (CtlReturned (Some "bind")) [running] in
  err = Some "control socket: bind" /\ Wait out = false /\ (fun x => launch.alive x.2) <$> out = [launch.mkLive true true true].
Proof. vm_compute. auto. Qed.
End lifetime.
