(* ===== verification/Operator.v ===== *)
(** * What the operator sees (cmd/weavectl)

    [duration] is [time.Duration.String], which prints the uptime.  [operator] takes a
    run of weavectl from its arguments through core's ControlService to the text it
    prints and the code it exits with. *)

From stdpp Require Import base list strings gmap.
From Stdlib Require Import ZArith Lia Ascii.
From S2P Require Import Prelude.
From S2P Require Import GoStrings.
From S2P Require Import GoText.
From S2P Require Import Paths.
From S2P Require Import FileSystem.
From S2P Require Import Json.
From S2P Require Import Manifest.
From S2P Require Import Handshake.
From S2P Require Import Signing.
From S2P Require Import Store.
From S2P Require Import Supervisor.
From S2P Require Import Lifecycle.
From S2P Require Import Core.
From S2P Require Import HostClient.
From S2P Require Import Control.
From S2P Require Import Commands.
Open Scope Z_scope.

Local Infix "+++" := String.append (at level 60, right associativity).

(** ** Durations *)

Module duration.
Notation second := retry.second.

(** [fmtFrac]: the last [prec] decimal digits without trailing zeros, with the point
    before them; what is left of the number. *)
Fixpoint fmtFrac (prec : nat) (v : Z) (acc : string) (print : bool) : string * Z :=
  match prec with
  | O => (if print then "." +++ acc else acc, v)
  | S k =>
      let print' := print || negb (v mod 10 =? 0) in
      fmtFrac k (v / 10) (if print' then String (digit_char (v mod 10)) acc else acc) print'
  end.

(** [Duration.String] for a duration in nanoseconds *)
Definition small (u : Z) : string :=
  if u =? 0 then "0s"
  else if u <? 1000 then format_uint u +++ "ns"
  else if u <? 1000000 then let (f, n) := fmtFrac 3 u "µs" false in format_uint n +++ f
  else let (f, n) := fmtFrac 6 u "ms" false in format_uint n +++ f.
Definition large (u : Z) : string :=
  let (f, secs) := fmtFrac 9 u "s" false in
  let tail := format_uint (secs mod 60) +++ f in
  let mins := secs / 60 in
  if 0 <? mins then
    let tail' := format_uint (mins mod 60) +++ "m" +++ tail in
    let hours := mins / 60 in
    if 0 <? hours then format_uint hours +++ "h" +++ tail' else tail'
  else tail.
Definition to_string (d : Z) : string :=
  let u := Z.abs d in
  let text := if u <? second then small u else large u in
  if d <? 0 then "-" +++ text else text.

(** [time.Duration(n) * time.Second] for a [uint64]: both steps wrap at 64 bits. *)
Definition i64 (n : Z) : Z := (n + 2 ^ 63) mod 2 ^ 64 - 2 ^ 63.
Definition of_seconds (n : Z) : Z := i64 (i64 n * second).

Example prints :
  to_string 0 = "0s" /\ to_string (of_seconds 59) = "59s" /\ to_string (of_seconds 86400) = "24h0m0s" /\
  to_string 1500000000 = "1.5s" /\ to_string 2300000 = "2.3ms" /\ to_string (- 61000000000) = "-1m1s".
Proof. split_and!; reflexivity. Qed.

(** A reader of such texts: number, unit, number, unit. *)
Fixpoint read (s : string) (num total : Z) : option Z :=
  match s with
  | "" => Some total
  | String c r =>
      if is_digit c then read r (num * 10 + digit_val c) total
      else if Ascii.eqb c "h" then read r 0 (total + num * 3600)
      else if Ascii.eqb c "m" then read r 0 (total + num * 60)
      else if Ascii.eqb c "s" then read r 0 (total + num)
      else None
  end.

Lemma read_digits s r a n t : parse_digits s a = Some n -> read (s +++ r) a t = read r n t.
Proof.
  revert a. induction s as [|c s IH]; intros a H; simpl in *; [by simplify_eq|].
  destruct (is_digit c); [|done]. by apply IH.
Qed.
Lemma read_number n r t : 0 <= n -> read (format_uint n +++ r) 0 t = read r n t.
Proof. intros Hn. apply read_digits. by apply parse_digits_format. Qed.

Lemma fmtFrac_zeros prec v acc : fmtFrac prec (v * 10 ^ Z.of_nat prec) acc false = (acc, v).
Proof.
  revert v. induction prec as [|k IH]; intros v; [by rewrite Z.mul_1_r|]. cbn [fmtFrac].
  rewrite Nat2Z.inj_succ, Z.pow_succ_r by lia.
  replace (v * (10 * 10 ^ Z.of_nat k)) with (v * 10 ^ Z.of_nat k * 10) by lia.
  rewrite Z.mod_mul, Z.div_mul by lia. simpl. apply IH.
Qed.

(** The uptime an operator reads is the one core sent: as long as core has run less
    than 292 years the text is made of hours, minutes and seconds that add up to it,
    and no two uptimes print alike. *)
Theorem uptime_reads_back n : 0 <= n <= 9223372036 -> read (to_string (of_seconds n)) 0 0 = Some n.
Proof.
  intros Hn. assert (of_seconds n = n * second) as ->.
  { unfold of_seconds, i64, retry.second. rewrite (Z.mod_small (n + _)) by lia.
    replace (n + 2 ^ 63 - 2 ^ 63) with n by lia. rewrite Z.mod_small by lia. lia. }
  unfold to_string. rewrite (proj2 (Z.ltb_ge _ _)) by (unfold retry.second; lia). rewrite Z.abs_eq by (unfold retry.second; lia).
  simpl. destruct (Z.ltb_spec (n * second) second) as [Hlt|Hge].
  { assert (n = 0) as -> by (unfold retry.second in Hlt; lia). done. }
  unfold large. change (n * second) with (n * 10 ^ Z.of_nat 9). rewrite fmtFrac_zeros. cbv zeta. cbn [String.append].
  pose proof (Z.div_mod n 60 ltac:(lia)). pose proof (Z.mod_pos_bound n 60 ltac:(lia)). pose proof (Z.div_pos n 60 ltac:(lia) ltac:(lia)).
  destruct (Z.ltb_spec 0 (n / 60)) as [Hm|Hm].
  - set (m := n / 60) in *. pose proof (Z.div_mod m 60 ltac:(lia)). pose proof (Z.mod_pos_bound m 60 ltac:(lia)).
    pose proof (Z.div_pos m 60 ltac:(lia) ltac:(lia)).
    destruct (Z.ltb_spec 0 (m / 60)).
    all: rewrite !read_number by lia; simpl; rewrite !read_number by lia; simpl;
      try (rewrite !read_number by lia; simpl); f_equal; lia.
  - rewrite read_number by lia. simpl. f_equal. lia.
Qed.

(** *** Witness: a day, an hour, a minute and a second *)
Lemma uptime_reads_back_witness : read (to_string (of_seconds 90061)) 0 0 = Some 90061.
Proof. apply uptime_reads_back. lia. Defined.
End duration.

(** ** A run of weavectl *)

Module operator.
Import os controlsock weavectl.
Import (hints) store supervise.
Notation Surface := hostclient.Surface.
Notation Manifest := manifest.Manifest.
Notation ChannelManifest := manifest.ChannelManifest.

Definition nl : string := String (ascii_of_nat 10) "".
Definition tab : string := String (ascii_of_nat 9) "".

(** [Health_Status.String] of the protocol's enum *)
Definition health_name (h : supervise.health_status) : string :=
  match h with
  | supervise.HEALTHY => "STATUS_HEALTHY" | supervise.DEGRADED => "STATUS_DEGRADED"
  | supervise.UNHEALTHY => "STATUS_UNHEALTHY" | supervise.UNSPECIFIED => "STATUS_UNSPECIFIED"
  end.

(** A run: what goes to standard output, which call failed if one did, the exit code. *)
Record exit := mkExit { stdout : string; fatal : option string; code : Z }.

Section Text.
(** [%q] and the alignment of text/tabwriter; the reason that came with a module's
    health and what a surface holds besides its name. *)
Context (quote align : string -> string) (reason : string -> string) (describe : string -> string -> Surface).

Definition show_status (s : StatusResponse) : string :=
  "core      " +++ CoreVersion s +++ nl +++
  "protocol  [" +++ format_uint (Protocol s).1 +++ "," +++ format_uint (Protocol s).2 +++ "]" +++ nl +++
  "device    " +++ DeviceId s +++ nl +++
  "enrolled  " +++ (if Enrolled s then "true" else "false") +++ nl +++
  "uptime    " +++ duration.to_string (duration.of_seconds (UptimeSeconds s)) +++ nl.

Definition show_health (m : ModuleStatus) : string :=
  match ms_Health m with
  | None => "-"
  | Some h => if String.eqb (reason (ms_Id m)) "" then health_name h
              else health_name h +++ " (" +++ reason (ms_Id m) +++ ")"
  end.
Definition row (cells : list string) : string := join tab cells +++ nl.
Definition header : list string := ["MODULE"; "VERSION"; "PROTO"; "STATE"; "PID"; "RESTARTS"; "HEALTH"].
Definition cells (m : ModuleStatus) : list string :=
  [ms_Id m; ms_Version m; format_uint (ms_Protocol m); ms_State m; format_int (ms_Pid m); format_uint (ms_Restarts m); show_health m].
Definition show_modules (l : list ModuleStatus) : string := align (row header +++ String.concat "" (row <$> (cells <$> l))).

Definition show_surface (id : string) (s : Surface) : string :=
  id +++ "/" +++ hostclient.su_ID s +++ "  kind=" +++ hostclient.su_Kind s +++ "  title=" +++ quote (hostclient.su_Title s) +++
  "  (" +++ format_uint (Z.of_nat (String.length (hostclient.su_Data s))) +++ " bytes)" +++ nl.
Definition show_surfaces (l : list (string * list string)) : string :=
  match l with
  | [] => "no surfaces declared" +++ nl
  | _ => String.concat "" (l ≫= fun ms => (fun s => show_surface ms.1 (describe ms.1 s)) <$> ms.2)
  end.

(** What each command prints of its answer. *)
Definition show (r : reply) : option string :=
  match r with
  | RStatus s => Some (show_status s)
  | RModules l => Some (show_modules l)
  | RSurfaces l => Some (show_surfaces l)
  | RInstalled v => Some ("installed " +++ v +++ nl)
  | RRolledBack v => Some ("rolled back to " +++ v +++ nl)
  | RFail _ _ => None
  end.
Definition verb (q : request) : string :=
  match q with
  | StatusRequest => "status" | ModulesRequest => "modules" | SurfacesRequest => "surfaces"
  | InstallRequest _ _ _ => "install" | RollbackRequest _ => "rollback" | LogsRequest => "logs"
  end.

(** *** Against core *)

Context {S : Type} {SB : store.StoreBackend S} {JM : JSON Manifest}.
Context {JK : JSON signing.PublicKey} {JS : JSON signing.Signature} {JC : JSON ChannelManifest}.
Context (ed_verify : string -> string -> string -> bool) (parse_rfc3339 : string -> option Z).
Context (sha256 : string -> string) (http : string -> option (Z * string)).
Context (g : lifecycle.Manager) (window : handshake.Window) (whoami : string * bool * string) (enrolled : bool)
  (StartedAt : Z) (version : string).
Context (env : option path) (paths : layout.PathSet) (abs : string -> option string).
Notation W := (world (lifecycle.sys S)).

(** What becomes of a call: it does not reach core, core's answer does not come back in
    time (ten seconds, five minutes for an install or a roll-back), or it does. *)
Inductive link := Unreached | Late | InTime.

Definition serve_call (c : store.call) (now : Z) (q : request) : W -> reply * W :=
  handle ed_verify parse_rfc3339 sha256 http g window whoami enrolled StartedAt version c now q.

Definition session (c : store.call) (now : Z) (l : link) (args : list string) (w : W) : exit * W :=
  match programs.ctl_main env paths abs (fun _ => true) args with
  | Usage => (mkExit "" None 2, w)
  | Fatal what => (mkExit "" (Some what) 1, w)
  | Calls q =>
      let failed := mkExit "" (Some (verb q)) 1 in
      match l with
      | Unreached => (failed, w)
      | Late => (failed, (serve_call c now q w).2)
      | InTime =>
          let (r, w') := serve_call c now q w in
          (match show r with Some text => mkExit text None 0 | None => failed end, w')
      end
  end.

(** *** Properties *)

Lemma handle_reply c now q w : match (serve_call c now q w).1, q with
  | RStatus _, StatusRequest | RModules _, ModulesRequest | RSurfaces _, SurfacesRequest
  | RInstalled _, InstallRequest _ _ _ | RRolledBack _, RollbackRequest _ | RFail _ _, _ => True
  | _, _ => False end.
Proof.
  unfold serve_call, handle. destruct q; try done; unfold Install, Rollback.
  - by destruct (if negb _ then _ else _) as [[] ?].
  - by destruct (lifecycle.Rollback _ _ _) as [[] ?].
Qed.

(** The exit code tells the truth in one direction: 0 means that core carried out the
    command and its answer is what was printed; the other codes mean that nothing was
    printed, and 2 that core was not asked. *)
Theorem session_exit c now l args w x w' : session c now l args w = (x, w') ->
  match code x with
  | 0 => exists q r, programs.ctl_main env paths abs (fun _ => true) args = Calls q /\ serve_call c now q w = (r, w') /\
           show r = Some (stdout x) /\ fatal x = None
  | 2 => stdout x = "" /\ w' = w
  | _ => stdout x = "" /\ fatal x <> None
  end.
Proof.
  unfold session. destruct (programs.ctl_main _ _ _ _ _) as [|what|q]; intros H; [by simplify_eq..|].
  destruct l; simplify_eq; [done..|]. destruct (serve_call c now q w) as [r w1] eqn:E.
  destruct (show r) as [text|] eqn:Es; simplify_eq; [|done]. simpl. eauto 10.
Qed.

(** An install that exits with 0 names the version core installed, whatever the
    network did; and only an answer in time gets that far. *)
Theorem install_reported c now l args w x w' id ver p :
  programs.ctl_main env paths abs (fun _ => true) args = Calls (InstallRequest id ver p) ->
  session c now l args w = (x, w') -> code x = 0 ->
  l = InTime /\ exists v, stdout x = "installed " +++ v +++ nl /\
    (if negb (String.eqb p "") then lifecycle.InstallLocal g (Join [] [p])
     else lifecycle.Install ed_verify parse_rfc3339 sha256 http g c now id ver) w = (Ok v, w').
Proof.
  intros Hm H Hc. unfold session in H. rewrite Hm in H. destruct l; simplify_eq; [done..|]. split; [done|].
  unfold serve_call, handle, Install in H.
  destruct (negb (String.eqb p "")).
  - destruct (lifecycle.InstallLocal _ _ w) as [[v|e] w1]; simplify_eq; by exists v.
  - destruct (lifecycle.Install _ _ _ _ _ _ _ _ _ w) as [[v|e] w1]; simplify_eq; by exists v.
Qed.
End Text.

(** *** Witnesses *)

Definition demo_session (l : link) (args : list string) (obs : list lifecycle.poll) (f : fs) :=
  @session (fun s => s) (fun s => s) (fun _ => "") (fun _ s => hostclient.mkSurface s "" "" "")
    store.MemStore _ lifecycle.demo_JM signing.demo_pk_JSON signing.demo_sig_JSON lifecycle.demo_JC
    (fun _ _ _ => false) (fun _ => None) (fun x => x) (fun _ => None)
    lifecycle.demo_manager (handshake.mkWindow 1 1) ("d", false, "") true 0 "dev"
    None layout.Paths_linux Some (store.mkCall false None) (90061 * retry.second) l args
    (lifecycle.demo_world obs f).

Example shows_status : (demo_session InTime ["status"] [] lifecycle.demo_again).1 =
  mkExit ("core      dev" +++ nl +++ "protocol  [1,1]" +++ nl +++ "device    d" +++ nl +++ "enrolled  true" +++ nl +++
          "uptime    25h1m1s" +++ nl) None 0.
Proof. vm_compute. reflexivity. Qed.

Definition demo_args : list string := ["install"; "-local"; "/src"].
Definition demo_run := demo_session InTime demo_args lifecycle.demo_obs lifecycle.demo_files.

Lemma session_exit_witness : exists q r,
  programs.ctl_main None layout.Paths_linux Some (fun _ => true) demo_args = Calls q /\
  show (fun s => s) (fun s => s) (fun _ => "") (fun _ s => hostclient.mkSurface s "" "" "") r = Some (stdout demo_run.1).
Proof.
  assert (code demo_run.1 = 0) as Hc by (vm_compute; reflexivity).
  pose proof (session_exit _ _ _ _ _ _ _ _ _ _ _ _ _ _ _ _ _ _ _ _ _ _ _ _ (surjective_pairing demo_run)) as H.
  rewrite Hc in H. destruct H as (q & r & Hq & _ & Hs & _). exists q, r. exact (conj Hq Hs).
Defined.

Lemma install_reported_witness : exists v, stdout demo_run.1 = "installed " +++ v +++ nl.
Proof.
  assert (code demo_run.1 = 0) as Hc by (vm_compute; reflexivity).
  assert (programs.ctl_main None layout.Paths_linux Some (fun _ => true) demo_args = Calls (InstallRequest "" "" "/src")) as Hm
    by (vm_compute; reflexivity).
  destruct (install_reported _ _ _ _ _ _ _ _ _ _ _ _ _ _ _ _ _ _ _ _ _ _ _ _ _ _ _ Hm (surjective_pairing demo_run) Hc)
    as (_ & v & Hv & _). exists v. exact Hv.
Defined.
End operator.
