(* ===== verification/GateWeave.v ===== *)
(** * The management plane core is developed against (test/stubgateweave)

    The in-memory server: policy, the enrolment challenge and its answer, messages,
    artifacts.  Its handlers are functions on its state; random bytes are arguments;
    requests are the ones the clients make, routed by method, path and query.  With it
    the clients can be run end to end: [identity.Enroll] against the enrolment
    handlers, [transport.HTTPPeer] against the message handler.  Ed25519 and the JSON
    codecs are parameters, with what both ends rely on as named hypotheses. *)

From stdpp Require Import base list strings gmap countable.
From Stdlib Require Import ZArith Lia Ascii.
From S2P Require Import Prelude.
From S2P Require Import GoStrings.
From S2P Require Import GoText.
From S2P Require Import Base64.
From S2P Require Import Json.
From S2P Require Import Store.
From S2P Require Import Policy.
From S2P Require Import Transport.
From S2P Require Import Identity.
Open Scope Z_scope.

Local Infix "+++" := String.append (at level 60, right associativity).

(** ** Queries ([net/url]) *)

Module query.

Definition hex_val (c : ascii) : option Z :=
  let n := byte_val c in
  if (48 <=? n) && (n <=? 57) then Some (n - 48)
  else if (65 <=? n) && (n <=? 70) then Some (n - 55)
  else if (97 <=? n) && (n <=? 102) then Some (n - 87)
  else None.

(** [url.QueryUnescape]; [None] on a malformed escape. *)
Fixpoint Unescape (s : string) : option string :=
  match s with
  | "" => Some ""
  | String c r =>
      if Ascii.eqb c "%" then
        match r with
        | String h (String l r') =>
            match hex_val h, hex_val l, Unescape r' with
            | Some a, Some b, Some t => Some (String (byte_of (16 * a + b)) t)
            | _, _, _ => None
            end
        | _ => None
        end
      else String (if Ascii.eqb c "+" then " "%char else c) <$> Unescape r
  end.

(** [strings.Cut] at one byte: the part before, and the part after if there is one. *)
Fixpoint Cut (c : ascii) (s : string) : string * option string :=
  match s with
  | "" => ("", None)
  | String d r => if Ascii.eqb d c then ("", Some r) else let (a, b) := Cut c r in (String d a, b)
  end.

(** The first value of a key among the pairs of a query; malformed pairs are skipped. *)
Fixpoint get_pair (name : string) (pairs : list string) : string :=
  match pairs with
  | [] => ""
  | p :: ps =>
      let (k, v) := Cut "=" p in
      if contains ";" p then get_pair name ps
      else match Unescape k, Unescape (default "" v) with
           | Some k, Some v => if String.eqb k name && negb (String.eqb p "") then v else get_pair name ps
           | _, _ => get_pair name ps
           end
  end.
Definition Get (name q : string) : string := get_pair name (split "&" q).

(** *** A query value survives escaping *)

Lemma hex_val_upper n : 0 <= n < 16 -> hex_val (url.upper_hex n) = Some n.
Proof.
  intros H. unfold url.upper_hex, hex_val. destruct (Z.ltb_spec n 10).
  - rewrite byte_val_of by lia. rewrite (proj2 (Z.leb_le 48 _)), (proj2 (Z.leb_le _ 57)) by lia. simpl. f_equal. lia.
  - rewrite byte_val_of by lia.
    rewrite (proj2 (Z.leb_gt _ 57)) by lia. rewrite andb_false_r.
    rewrite (proj2 (Z.leb_le 65 _)), (proj2 (Z.leb_le _ 70)) by lia. simpl. f_equal. lia.
Qed.

Lemma Unescape_app_char c s : Ascii.eqb c "%" = false -> Ascii.eqb c "+" = false ->
  Unescape (String c s) = String c <$> Unescape s.
Proof. intros H1 H2. cbn [Unescape]. by rewrite H1, H2. Qed.

Definition plain (c : ascii) : bool :=
  url.is_alpha c || is_digit c || Ascii.eqb c "-" || Ascii.eqb c "_" || Ascii.eqb c "." || Ascii.eqb c "~".

Lemma plain_not c : plain c = true ->
  Ascii.eqb c "%" = false /\ Ascii.eqb c "+" = false /\ Ascii.eqb c "&" = false /\ Ascii.eqb c ";" = false.
Proof. destruct c as [[] [] [] [] [] [] [] []]; vm_compute; intros; try discriminate; auto. Qed.

Lemma Unescape_QueryEscape s : Unescape (url.QueryEscape s) = Some s.
Proof.
  induction s as [|c s IH]; [done|]. cbn [url.QueryEscape]. fold (plain c).
  destruct (plain c) eqn:Ep.
  - apply plain_not in Ep as (H1 & H2 & _). change (String c "" +++ url.QueryEscape s) with (String c (url.QueryEscape s)).
    by rewrite Unescape_app_char, IH.
  - destruct (Ascii.eqb_spec c " ") as [->|_].
    + cbn. by rewrite IH.
    + pose proof (byte_val_range c) as Hr. cbn [String.append Unescape]. rewrite Ascii.eqb_refl.
      rewrite !hex_val_upper by (Z.to_euclidean_division_equations; lia). rewrite IH. do 2 f_equal.
      rewrite <-(byte_of_val c) at 3. f_equal. rewrite (Z.div_mod (byte_val c) 16) at 3 by done. done.
Qed.

Lemma QueryEscape_no_sep s : contains "&" (url.QueryEscape s) = false /\ contains ";" (url.QueryEscape s) = false.
Proof.
  induction s as [|c s [IH1 IH2]]; [done|]. cbn [url.QueryEscape]. fold (plain c).
  destruct (plain c) eqn:Ep.
  - apply plain_not in Ep as (_ & _ & H1 & H2). simpl. by rewrite H1, H2.
  - destruct (Ascii.eqb_spec c " "); [done|]. cbn [String.append contains].
    assert (forall n, 0 <= n < 16 -> Ascii.eqb (url.upper_hex n) "&" = false /\ Ascii.eqb (url.upper_hex n) ";" = false) as Hh.
    { intros m Hm. assert (m ∈ seqZ 0 16) as Hin by (apply elem_of_seqZ; lia). revert Hin. clear Hm.
      change (seqZ 0 16) with [0;1;2;3;4;5;6;7;8;9;10;11;12;13;14;15]. rewrite !elem_of_cons, elem_of_nil.
      intros Hin. repeat (destruct Hin as [->|Hin]; [by split|]). done. }
    pose proof (byte_val_range c) as Hr.
    destruct (Hh (byte_val c / 16)) as [A1 A2]; [Z.to_euclidean_division_equations; lia|].
    destruct (Hh (byte_val c mod 16)) as [B1 B2]; [Z.to_euclidean_division_equations; lia|].
    by rewrite A1, A2, B1, B2.
Qed.

(** The server reads back the key the client put into the challenge URL. *)
Lemma Get_escaped name v : contains "=" name = false -> contains "&" name = false -> contains ";" name = false ->
  Unescape name = Some name -> name <> "" -> Get name (name +++ "=" +++ url.QueryEscape v) = v.
Proof.
  intros H1 H2 H3 Hn Hne. unfold Get. destruct (QueryEscape_no_sep v) as [E1 E2].
  assert (forall c, contains c (name +++ "=" +++ url.QueryEscape v) =
    contains c name || (Ascii.eqb "=" c || contains c (url.QueryEscape v))) as Hc.
  { intros c. rewrite contains_app. done. }
  rewrite split_no_sep by (rewrite Hc, H2, E1; done). cbn [get_pair].
  assert (Cut "=" (name +++ "=" +++ url.QueryEscape v) = (name, Some (url.QueryEscape v))) as ->.
  { clear -H1. induction name as [|c name IH]; [done|]. cbn [contains] in H1. apply orb_false_iff in H1 as [Hc H1].
    simpl. simpl in IH. by rewrite Hc, IH. }
  rewrite Hc, H3, E2. simpl. rewrite Hn, Unescape_QueryEscape, String.eqb_refl. by destruct name.
Qed.
End query.

Module gateweave.
Import identity.
Import (hints) store.

(** [Server]; a received message is what the device posted. *)
Record Server := mkServer {
  revision : Z; modules : gmap string string; enrolled : gmap string string; artifacts : gmap string string;
  messages : list transport.post; enrollPriv : string; challenges : gmap string string }.
Definition EnrollPub (s : Server) : string := Public (enrollPriv s).

(** [New] for the key that was generated *)
Definition New (key : string) : Server := mkServer 0 ∅ ∅ ∅ [] key ∅.

Definition SetPolicy (module doc : string) (s : Server) : Server :=
  mkServer ((revision s + 1) mod 2 ^ 64) (<[module := doc]> (modules s)) (enrolled s) (artifacts s) (messages s)
    (enrollPriv s) (challenges s).
Definition SetArtifact (name data : string) (s : Server) : Server :=
  mkServer (revision s) (modules s) (enrolled s) (<[name := data]> (artifacts s)) (messages s) (enrollPriv s) (challenges s).
Definition Messages (s : Server) : list transport.post := messages s.
Definition set_challenges (c : gmap string string) (s : Server) : Server :=
  mkServer (revision s) (modules s) (enrolled s) (artifacts s) (messages s) (enrollPriv s) c.
Definition add_enrolled (id : string) (s : Server) : Server :=
  mkServer (revision s) (modules s) (<[id := id]> (enrolled s)) (artifacts s) (messages s) (enrollPriv s) (challenges s).
Definition add_message (m : transport.post) (s : Server) : Server :=
  mkServer (revision s) (modules s) (enrolled s) (artifacts s) (messages s ++ [m]) (enrollPriv s) (challenges s).

(** [bytesEqual]: the loop accumulates the differences of equally long inputs. *)
Fixpoint diff (a b : string) (v : Z) : Z :=
  match a, b with
  | String x a', String y b' => diff a' b' (Z.lor v (Z.lxor (byte_val x) (byte_val y)))
  | _, _ => v
  end.
Definition bytesEqual (a b : string) : bool :=
  if negb (String.length a =? String.length b)%nat then false else diff a b 0 =? 0.

Lemma diff_zero a : forall b v, 0 <= v -> String.length a = String.length b -> diff a b v = 0 <-> v = 0 /\ a = b.
Proof.
  induction a as [|x a IH]; intros [|y b] v Hv Hl; simpl in *; try done; [tauto|].
  pose proof (byte_val_range x). pose proof (byte_val_range y).
  assert (0 <= Z.lor v (Z.lxor (byte_val x) (byte_val y))) as Hn by (apply Z.lor_nonneg; split; [done|apply Z.lxor_nonneg; lia]).
  rewrite IH by (done || lia). rewrite Z.lor_eq_0_iff, Z.lxor_eq_0_iff. split.
  - intros [[-> Hxy] ->]. split; [done|]. f_equal. by rewrite <-(byte_of_val x), Hxy, byte_of_val.
  - by intros [-> [= -> ->]].
Qed.

(** The comparison is equality. *)
Lemma bytesEqual_spec a b : bytesEqual a b = true <-> a = b.
Proof.
  unfold bytesEqual. destruct (Nat.eqb_spec (String.length a) (String.length b)) as [Hl|Hl]; simpl.
  - rewrite Z.eqb_eq, diff_zero by done. tauto.
  - split; [done|]. by intros ->.
Qed.

(** The enrolment request's body. *)
Record enrol_request := mkEnrolRequest { rq_PublicKey : string; rq_Nonce : string; rq_NonceSig : string }.

Section Server.
Context {JD : JSON policy.Document} {JP : JSON transport.post} {JM : JSON (gmap string string)}.
Context (ed_verify : string -> string -> string -> bool) (ed_sign : string -> string -> string).
(** [json.Decoder.Decode] into the request; the bytes [base64.DecodeString] returns, with
    or without an error; one escaped segment of a path, read back. *)
Context (decode_request : string -> option enrol_request) (lenient : string -> string)
  (segment : string -> string).
(** Where the server listens. *)
Context (base : string).

(** [http.Error]; the text of an error is left out, the clients look at the code. *)
Definition error_reply (code : Z) : response := mkHTTP code "" true.
(** [json.NewEncoder(w).Encode]: a newline follows the document. *)
Definition json_reply (doc : string) : response := mkHTTP 200 (doc +++ newline) true.

Definition get_policy (s : Server) : response := json_reply (marshal (policy.mkDocument (revision s) (modules s))).

(** The challenge: [rnd] is what fills the nonce. *)
Definition nonce_of (rnd : string) : string := store.fill 32 rnd.
Definition challenge_doc (nonce : string) : gmap string string := {["nonce" := base64.EncodeToString nonce]}.
Definition get_challenge (rnd : string) (pubKey : string) (s : Server) : response * Server :=
  if String.eqb pubKey "" then (error_reply 400, s)
  else (json_reply (marshal (challenge_doc (nonce_of rnd))),
        set_challenges (<[pubKey := nonce_of rnd]> (challenges s)) s).

(** The enrolment itself: [rnd] is what the device id is made of. *)
Definition device_id (rnd : string) : string := "device-" +++ hex_encode (store.fill 8 rnd).
Definition assignment_doc (id : string) : gmap string string := <["device_id" := id]> {["tenant" := "stub"]}.
Definition enrol_doc (key id : string) : gmap string string :=
  let a := marshal (assignment_doc id) in
  <["assignment" := base64.EncodeToString a]>
    (<["assignment_sig" := base64.EncodeToString (ed_sign key a)]> (assignment_doc id)).
Definition post_enroll (rnd body : string) (s : Server) : response * Server :=
  match decode_request body with
  | None => (error_reply 400, s)
  | Some req =>
      match base64.DecodeString (rq_PublicKey req) with
      | None => (error_reply 400, s)
      | Some pub =>
          if negb (String.length pub =? 32)%nat then (error_reply 400, s)
          else
            let nonce := lenient (rq_Nonce req) in
            let sig := lenient (rq_NonceSig req) in
            let want := default "" (challenges s !! rq_PublicKey req) in
            let s := set_challenges (delete (rq_PublicKey req) (challenges s)) s in
            if String.eqb want "" || negb (bytesEqual want nonce) || negb (ed_verify pub nonce sig)
            then (error_reply 401, s)
            else (json_reply (marshal (enrol_doc (enrollPriv s) (device_id rnd))), add_enrolled (device_id rnd) s)
      end
  end.

Definition post_message (body : string) (s : Server) : response * Server :=
  match unmarshal body with
  | None => (error_reply 400, s)
  | Some m => (mkHTTP 202 "" true, add_message m s)
  end.

Definition get_artifact (name : string) (s : Server) : response :=
  match artifacts s !! name with Some data => mkHTTP 200 data true | None => error_reply 404 end.

(** [Handler]: the pattern a request matches, by its method, path and query. *)
Inductive route := RPolicy | RChallenge (pubKey : string) | RArtifact (name : string)
| REnroll (body : string) | RMessage (body : string) | RError (code : Z).
Definition artifact_name (path : string) : option string :=
  match cut_prefix "/artifacts/" path with
  | Some name => if String.eqb name "" || contains "/" name then None else Some (segment name)
  | None => None
  end.
Definition route_of (req : request) : route :=
  match cut_prefix base (match req with GET u => u | POST u _ => u end) with
  | None => RError 404
  | Some target =>
      let (path, q) := query.Cut "?" target in
      match req with
      | GET _ =>
          if String.eqb path "/v1/policy" then RPolicy
          else if String.eqb path "/v1/enroll/challenge" then RChallenge (query.Get "public_key" (default "" q))
          else match artifact_name path with
               | Some name => RArtifact name
               | None => RError (if String.eqb path "/v1/enroll" || String.eqb path "/v1/messages" then 405 else 404)
               end
      | POST _ body =>
          if String.eqb path "/v1/enroll" then REnroll body
          else if String.eqb path "/v1/messages" then RMessage body
          else RError (if String.eqb path "/v1/policy" || String.eqb path "/v1/enroll/challenge" ||
                          bool_decide (is_Some (artifact_name path)) then 405 else 404)
      end
  end.

(** The handlers; [rnd] are the random bytes of the request. *)
Definition handle (rnd : string) (req : request) (s : Server) : response * Server :=
  match route_of req with
  | RPolicy => (get_policy s, s)
  | RChallenge k => get_challenge rnd k s
  | RArtifact name => (get_artifact name s, s)
  | REnroll body => post_enroll rnd body s
  | RMessage body => post_message body s
  | RError code => (error_reply code, s)
  end.

(** *** The server's promise *)

(** What an enrolment reply of 200 means: the key was 32 bytes, a challenge was
    outstanding for it, and the request carried that nonce signed under the key; the
    challenge is spent, and the device is recorded. *)
Lemma post_enroll_Ok rnd body s r s' : post_enroll rnd body s = (r, s') ->
  (StatusCode r = 200 <-> exists req pub nonce, decode_request body = Some req /\
     base64.DecodeString (rq_PublicKey req) = Some pub /\ String.length pub = 32%nat /\
     challenges s !! rq_PublicKey req = Some nonce /\ nonce <> "" /\ lenient (rq_Nonce req) = nonce /\
     ed_verify pub nonce (lenient (rq_NonceSig req)) = true) /\
  (StatusCode r = 200 -> exists req, decode_request body = Some req /\
     challenges s' = delete (rq_PublicKey req) (challenges s) /\ is_Some (challenges s !! rq_PublicKey req) /\
     enrolled s' = <[device_id rnd := device_id rnd]> (enrolled s)) /\
  (StatusCode r <> 200 -> enrolled s' = enrolled s /\ challenges s' ⊆ challenges s) /\
  messages s' = messages s /\ enrollPriv s' = enrollPriv s.
Proof.
  unfold post_enroll. destruct (decode_request body) as [req|] eqn:Ed.
  2:{ intros [= <- <-]. split_and!; try done. split; [done|]. by intros (? & ? & ? & ? & _). }
  destruct (base64.DecodeString (rq_PublicKey req)) as [pub|] eqn:Ep.
  2:{ intros [= <- <-]. split_and!; try done. split; [done|]. intros (? & ? & ? & ? & ? & _). by simplify_eq. }
  destruct (Nat.eqb_spec (String.length pub) 32) as [Hl|Hl]; cbn [negb].
  2:{ intros [= <- <-]. split_and!; try done. split; [done|]. intros (? & ? & ? & ? & ? & ? & _). by simplify_eq. }
  set (want := default "" (challenges s !! rq_PublicKey req)).
  assert (String.eqb want "" || negb (bytesEqual want (lenient (rq_Nonce req))) ||
          negb (ed_verify pub (lenient (rq_Nonce req)) (lenient (rq_NonceSig req))) = false <->
    exists nonce, challenges s !! rq_PublicKey req = Some nonce /\ nonce <> "" /\ lenient (rq_Nonce req) = nonce /\
      ed_verify pub nonce (lenient (rq_NonceSig req)) = true) as Hcond.
  { rewrite !orb_false_iff, !negb_false_iff, bytesEqual_spec, String.eqb_neq. unfold want. split.
    - intros [[Hne Hw] Hv]. destruct (challenges s !! rq_PublicKey req) as [n|]; [|done]. simpl in *. subst n. eauto.
    - intros (n & -> & Hne & Hn & Hv). simpl. by rewrite Hn. }
  destruct (_ || _ || _); intros [= <- <-]; simpl.
  - split_and!; try done.
    + split; [done|]. intros (req' & pub' & n & ? & ? & _ & H1 & H2 & H3 & H4). simplify_eq.
      by assert (true = false) by (apply Hcond; eauto).
    + intros _. split; [done|]. apply delete_subseteq.
  - destruct (proj1 Hcond eq_refl) as (n & H1 & H2 & H3 & H4). split_and!; try done.
    + split; [|done]. intros _. eauto 10.
    + intros _. exists req. split_and!; [done..|by eexists|done].
Qed.

(** A run of the server: the requests it gets, each with its random bytes. *)
Fixpoint serve_all (l : list (string * request)) (s : Server) : Server :=
  match l with [] => s | (rnd, req) :: l' => serve_all l' (handle rnd req s).2 end.

(** The challenges a run handed out, and the enrolments it granted, as the ids. *)
Fixpoint issued (l : list (string * request)) (s : Server) : nat :=
  match l with
  | [] => O
  | (rnd, req) :: l' =>
      let (r, s') := handle rnd req s in
      match route_of req with RChallenge _ => if StatusCode r =? 200 then 1 else 0 | _ => 0 end + issued l' s'
  end.
Fixpoint granted (l : list (string * request)) (s : Server) : list string :=
  match l with
  | [] => []
  | (rnd, req) :: l' =>
      let (r, s') := handle rnd req s in
      match route_of req with REnroll _ => if StatusCode r =? 200 then [device_id rnd] else [] | _ => [] end ++ granted l' s'
  end.

(** Every enrolment spends a challenge of its own: whatever the clients send, in any
    order, replays included, a server has granted at most as many enrolments as it
    handed out challenges, those still outstanding set aside; and its table of devices
    holds exactly the ids it granted. *)
Theorem enrolments_bounded key l :
  let s := serve_all l (New key) in
  (length (granted l (New key)) + size (challenges s) <= issued l (New key))%nat /\
  (forall id, is_Some (enrolled s !! id) <-> id ∈ granted l (New key)).
Proof.
  enough (forall s, (length (granted l s) + size (challenges (serve_all l s)) <= issued l s + size (challenges s))%nat /\
    (forall id, is_Some (enrolled (serve_all l s) !! id) <-> id ∈ granted l s \/ is_Some (enrolled s !! id))) as Hgen.
  { destruct (Hgen (New key)) as [H1 H2]. split.
    - change (size (challenges (New key))) with O in H1. lia.
    - intros id. rewrite H2. change (enrolled (New key) !! id) with (@None string). rewrite is_Some_alt. tauto. }
  induction l as [|[rnd req] l IH]; intros s; cbn [serve_all granted issued].
  - split; [simpl; lia|]. intros id. rewrite elem_of_nil. tauto.
  - unfold handle. destruct (route_of req) as [|k|name|body|body|code]; cbn [snd app Nat.add]; try apply IH.
    + unfold get_challenge. destruct (String.eqb k ""); cbn [fst snd app Nat.add StatusCode error_reply json_reply]; [apply IH|].
      destruct (IH (set_challenges (<[k:=nonce_of rnd]> (challenges s)) s)) as [H1 H2]. cbn [set_challenges challenges enrolled] in *.
      change (200 =? 200) with true. cbn iota. split; [|exact H2].
      assert (size (<[k:=nonce_of rnd]> (challenges s)) <= S (size (challenges s)))%nat as Hs
        by (rewrite map_size_insert; destruct (challenges s !! k); simpl; lia).
      lia.
    + destruct (post_enroll rnd body s) as [r s'] eqn:E. apply post_enroll_Ok in E as (_ & Hok & Hno & _). cbn [snd].
      destruct (IH s') as [H1 H2]. destruct (Z.eqb_spec (StatusCode r) 200) as [Hr|Hr]; cbn [app length].
      * destruct (Hok Hr) as (rq & _ & Hc & Hin & He). split.
        -- rewrite Hc in H1. rewrite map_size_delete_Some in H1 by done. destruct Hin as [x Hx].
           assert (size (challenges s) <> 0)%nat by (apply (map_size_ne_0_lookup_2 _ (rq_PublicKey rq)); by eexists). lia.
        -- intros id. rewrite H2, He, elem_of_cons. destruct (decide (id = device_id rnd)) as [->|Hne].
           ++ rewrite lookup_insert_eq. split; [by left; left|]. intros _. right. by eexists.
           ++ rewrite lookup_insert_ne by done. tauto.
      * destruct (Hno Hr) as [He Hc]. rewrite He in H2. split; [|exact H2]. apply map_subseteq_size in Hc. lia.
    + unfold post_message. destruct (unmarshal body); cbn [snd]; [|apply IH].
      exact (IH (add_message _ s)).
Qed.
End Server.

(** ** Enrolment end to end *)

Section EndToEnd.
Context {S : Type} {SB : store.StoreBackend S}.
Context {JD : JSON policy.Document} {JP : JSON transport.post} {JM : JSON (gmap string string)}
  {JS : JSON enrolmentState} {JR : JSON enrol_response} {JA : JSON assignment}.
Context (ed_verify : string -> string -> string -> bool) (ed_sign : string -> string -> string).
Context (decode_request : string -> option enrol_request) (lenient segment : string -> string)
  (decode_challenge : string -> option string) (url_ok : string -> bool) (base : string).

(** Ed25519 accepts what it signed, in 64 bytes. *)
Hypothesis ed_correct : forall key m, String.length key = 64%nat ->
  ed_verify (Public key) m (ed_sign key m) = true /\ String.length (ed_sign key m) = 64%nat.
(** Valid base64 decodes to its bytes. *)
Hypothesis lenient_valid : forall s b, base64.DecodeString s = Some b -> lenient s = b.
(** Decoding an object of strings into a struct gives its fields the values of the
    object, the empty string where there is none; white space may follow. *)
Definition field (m : gmap string string) (k : string) : string := default "" (m !! k).
Hypothesis request_fields : forall m, decode_request (marshal m) =
  Some (mkEnrolRequest (field m "public_key") (field m "nonce") (field m "nonce_sig")).
Hypothesis challenge_field : forall m, decode_challenge (marshal m +++ newline) = Some (field m "nonce").
Hypothesis response_fields : forall m, unmarshal (marshal m +++ newline) =
  Some (mkResponse (field m "device_id") (field m "tenant") (field m "assignment") (field m "assignment_sig")).
Hypothesis assignment_fields : forall m, unmarshal (marshal m) = Some (mkAssignment (field m "device_id") (field m "tenant")).

Notation Handle := (handle ed_verify ed_sign decode_request lenient segment base).

(** The server's answers along an enrolment that starts in [st]: the challenge, and the
    request after it. *)
Definition challenged (rnd1 : string) (p : Provider) (st : Server) : Server := (Handle rnd1 (GET (challenge_url p)) st).2.
Definition answers (rnd1 rnd2 : string) (p : Provider) (st : Server) (req : request) : option response :=
  Some (Handle (match req with GET _ => rnd1 | POST _ _ => rnd2 end) req
          (match req with GET _ => st | POST _ _ => challenged rnd1 p st end)).1.

Lemma limited_short s : Z.of_nat (String.length s) <= 2 ^ 20 -> limited s = s.
Proof.
  intros H. unfold limited. assert (String.length s <= Z.to_nat (2 ^ 20))%nat as Hl by lia. clear H.
  generalize dependent (Z.to_nat (2 ^ 20)). induction s as [|c s IH]; intros [|n] Hl; simpl in *; try done; [lia|].
  by rewrite IH by lia.
Qed.

Lemma cut_base rest : cut_prefix base (base +++ rest) = Some rest.
Proof. induction base as [|c b IH]; [done|]. simpl. by rewrite Ascii.eqb_refl. Qed.

Lemma trim_enroll : trim_suffix "/" (base +++ "/v1/enroll") = base +++ "/v1/enroll".
Proof.
  unfold trim_suffix, cut_suffix. rewrite srev_sapp. done.
Qed.

Section Client.
Context (p : Provider) (st : Server) (rnd1 rnd2 : string).
Hypothesis Hurl : EnrollURL p = base +++ "/v1/enroll".
Hypothesis Hkey : String.length (priv p) = 64%nat.
Notation device_key := (base64.EncodeToString (Public (priv p))).

Lemma challenge_url_is : challenge_url p = base +++ "/v1/enroll/challenge?public_key=" +++ url.QueryEscape device_key.
Proof. unfold challenge_url. rewrite Hurl, trim_enroll. by rewrite sapp_assoc. Qed.

Lemma challenge_route : route_of segment base (GET (challenge_url p)) = RChallenge device_key.
Proof.
  unfold route_of. rewrite challenge_url_is, cut_base.
  change ("/v1/enroll/challenge?public_key=" +++ url.QueryEscape device_key) with
    ("/v1/enroll/challenge?" +++ ("public_key" +++ "=" +++ url.QueryEscape device_key)).
  replace (query.Cut "?" _) with ("/v1/enroll/challenge", Some ("public_key" +++ "=" +++ url.QueryEscape device_key)) by done.
  change (String.eqb "/v1/enroll/challenge" "/v1/policy") with false.
  change (String.eqb "/v1/enroll/challenge" "/v1/enroll/challenge") with true. cbn iota.
  f_equal. exact (query.Get_escaped "public_key" device_key eq_refl eq_refl eq_refl eq_refl ltac:(done)).
Qed.

Lemma enroll_route body : route_of segment base (POST (EnrollURL p) body) = REnroll body.
Proof. unfold route_of. by rewrite Hurl, cut_base. Qed.

Lemma public_length_of key : String.length key = 64%nat -> String.length (Public key) = 32%nat.
Proof.
  intros Hk. unfold Public. assert (forall i n k, (i + n <= String.length k)%nat -> String.length (String.substring i n k) = n) as H.
  { clear. intros i n k. revert i. induction k as [|c k IH]; intros [|i] Hl; simpl in *; [by destruct n; simpl in *; lia| |
      by apply (store.substring_length n (String c k))|by apply IH; lia]. by destruct n; simpl in *; lia. }
  apply H. lia.
Qed.
Lemma public_length : String.length (Public (priv p)) = 32%nat.
Proof. by apply public_length_of. Qed.

(** The server hands out a fresh nonce for the device's key. *)
Lemma challenge_answer :
  Handle rnd1 (GET (challenge_url p)) st =
  (json_reply (marshal (challenge_doc (nonce_of rnd1))), set_challenges (<[device_key := nonce_of rnd1]> (challenges st)) st).
Proof.
  unfold handle. rewrite challenge_route. unfold get_challenge. destruct (String.eqb_spec device_key "") as [He|]; [|done].
  exfalso. pose proof (base64.DecodeString_Encode (Public (priv p))) as Hd. rewrite He in Hd.
  pose proof public_length as Hl. injection Hd as Hd. by rewrite <-Hd in Hl.
Qed.

(** ... and accepts its signed answer. *)
Lemma enrol_answer :
  let nonce := nonce_of rnd1 in
  Handle rnd2 (POST (EnrollURL p) (enrol_body ed_sign (priv p) (base64.EncodeToString nonce) nonce)) (challenged rnd1 p st) =
  (json_reply (marshal (enrol_doc ed_sign (enrollPriv st) (device_id rnd2))),
   add_enrolled (device_id rnd2) (set_challenges (delete device_key (challenges st)) st)).
Proof.
  intros nonce. unfold handle at 1. rewrite enroll_route. unfold challenged. rewrite challenge_answer. cbn [snd].
  unfold post_enroll, enrol_body. rewrite request_fields. cbn [rq_PublicKey rq_Nonce rq_NonceSig].
  unfold field. rewrite lookup_insert_eq. cbn [from_option id]. rewrite base64.DecodeString_Encode, public_length. cbn [negb Nat.eqb].
  rewrite (lookup_insert_ne _ "public_key" "nonce"), lookup_insert_eq by done. cbn [from_option id].
  rewrite (lookup_insert_ne _ "public_key" "nonce_sig"), (lookup_insert_ne _ "nonce" "nonce_sig"), lookup_singleton_eq by done.
  cbn [from_option id set_challenges challenges]. rewrite lookup_insert_eq. cbn [from_option id].
  rewrite !(lenient_valid _ _ (base64.DecodeString_Encode _)).
  rewrite (proj2 (bytesEqual_spec _ _) eq_refl), (proj1 (ed_correct (priv p) nonce Hkey)).
  destruct (String.eqb_spec (nonce_of rnd1) "") as [He|_].
  { pose proof (store.fill_length 32 rnd1) as Hl. unfold nonce_of in He. by rewrite He in Hl. }
  cbn [negb orb]. unfold set_challenges. cbn [challenges revision modules enrolled artifacts messages enrollPriv].
  by rewrite delete_insert_eq.
Qed.

(** The client reads the nonce back. *)
Lemma nonce_read : Z.of_nat (String.length (marshal (challenge_doc (nonce_of rnd1)) +++ newline)) <= 2 ^ 20 ->
  read_nonce decode_challenge (json_reply (marshal (challenge_doc (nonce_of rnd1)))) =
  Ok (base64.EncodeToString (nonce_of rnd1), nonce_of rnd1).
Proof.
  intros Hb. unfold read_nonce, json_reply. cbn [Body]. rewrite limited_short, challenge_field by done. cbn [of_option rbind].
  assert (field (challenge_doc (nonce_of rnd1)) "nonce" = base64.EncodeToString (nonce_of rnd1)) as ->
    by (unfold field, challenge_doc; by rewrite lookup_singleton_eq).
  pose proof (store.fill_length 32 rnd1) as Hn. fold (nonce_of rnd1) in Hn.
  pose proof (base64.DecodeString_Encode (nonce_of rnd1)) as Hdec.
  destruct (String.eqb_spec (base64.EncodeToString (nonce_of rnd1)) "") as [E|_].
  { rewrite E in Hdec. injection Hdec as Hdec. by rewrite <-Hdec in Hn. }
  cbn [guard rbind]. rewrite Hdec. cbn [of_option rbind]. by rewrite Hn.
Qed.

(** The client accepts the assignment the pinned server signed. *)
Lemma assignment_read : ServerPub p = EnrollPub st -> String.length (enrollPriv st) = 64%nat ->
  let id := device_id rnd2 in let a := marshal (assignment_doc id) in
  Z.of_nat (String.length (marshal (enrol_doc ed_sign (enrollPriv st) id) +++ newline)) <= 2 ^ 20 ->
  read_assignment ed_verify p (json_reply (marshal (enrol_doc ed_sign (enrollPriv st) id))) =
  Ok (mkResponse id "stub" (base64.EncodeToString a) (base64.EncodeToString (ed_sign (enrollPriv st) a))).
Proof.
  intros Hpub Hsk id a Hb. unfold read_assignment, json_reply. cbn [complete Body negb andb guard rbind].
  rewrite limited_short, response_fields by done. cbn [of_option rbind].
  assert (field (assignment_doc id) "device_id" = id /\ field (assignment_doc id) "tenant" = "stub") as [Hid Hten]
    by (unfold field, assignment_doc; by rewrite lookup_insert_eq, lookup_insert_ne, lookup_singleton_eq).
  assert (field (enrol_doc ed_sign (enrollPriv st) id) "device_id" = id /\
    field (enrol_doc ed_sign (enrollPriv st) id) "tenant" = "stub" /\
    field (enrol_doc ed_sign (enrollPriv st) id) "assignment" = base64.EncodeToString a /\
    field (enrol_doc ed_sign (enrollPriv st) id) "assignment_sig" = base64.EncodeToString (ed_sign (enrollPriv st) a))
    as (-> & -> & -> & ->).
  { unfold field, enrol_doc in *. fold a. split_and!; by rewrite ?lookup_insert_ne, ?lookup_insert_eq by done. }
  cbn [er_DeviceID er_Tenant er_Assignment er_AssignmentSig]. change (String.eqb id "") with false. cbn [guard rbind].
  destruct (ed_correct (enrollPriv st) a Hsk) as [Hv Hl].
  unfold verifyAssignment. destruct (String.eqb_spec (ServerPub p) "") as [E|_].
  { rewrite Hpub in E. pose proof (public_length_of (enrollPriv st) Hsk) as Hpl. unfold EnrollPub in E. by rewrite E in Hpl. }
  rewrite !base64.DecodeString_Encode. cbn [of_option rbind]. rewrite Hl. cbn [SignatureSize Nat.eqb negb guard rbind].
  rewrite Hpub. unfold EnrollPub. rewrite Hv. cbn [negb guard rbind]. unfold a. rewrite assignment_fields.
  cbn [of_option rbind as_DeviceID as_Tenant]. by rewrite Hid, Hten, !String.eqb_refl.
Qed.

(** Enrolment works: a device that holds its key and pins this server's key, and that
    was not enrolled yet, is enrolled by one challenge and one request, whatever the
    server's state; it takes the id the server recorded for it, which the server signed,
    and its challenge is spent. *)
Theorem stub_enrols c (s : S) :
  deviceID p = "" -> ServerPub p = EnrollPub st -> String.length (enrollPriv st) = 64%nat ->
  checkEnrolTransport url_ok p = Ok tt -> url_Parse url_ok (challenge_url p) <> None ->
  Z.of_nat (String.length (marshal (challenge_doc (nonce_of rnd1)) +++ newline)) <= 2 ^ 20 ->
  Z.of_nat (String.length (marshal (enrol_doc ed_sign (enrollPriv st) (device_id rnd2)) +++ newline)) <= 2 ^ 20 ->
  let p' := set_identity (device_id rnd2) "stub" p in
  let post := POST (EnrollURL p) (enrol_body ed_sign (priv p) (base64.EncodeToString (nonce_of rnd1)) (nonce_of rnd1)) in
  Enroll ed_verify ed_sign decode_challenge url_ok c (answers rnd1 rnd2 p st) p s =
    (let (r, s') := saveLocked c p' s in (r, p', s', [GET (challenge_url p); post])) /\
  let st' := (Handle rnd2 post (challenged rnd1 p st)).2 in
  enrolled st' !! device_id rnd2 = Some (device_id rnd2) /\ challenges st' !! device_key = None.
Proof.
  intros Hd Hpub Hsk Hc Hcu Hb1 Hb2 p' post. pose proof enrol_answer as Hea. cbv zeta in Hea. fold post in Hea. split.
  2:{ rewrite Hea. cbn [snd]. unfold add_enrolled. cbn [enrolled challenges set_challenges].
      by rewrite lookup_insert_eq, lookup_delete_eq. }
  unfold Enroll. rewrite Hd. assert (EnrollURL p <> "") as Hne by (rewrite Hurl; by destruct base).
  rewrite (proj2 (String.eqb_neq _ _) Hne). cbn [String.eqb negb orb].
  enough (enrol ed_verify ed_sign decode_challenge url_ok (answers rnd1 rnd2 p st) p =
    (Ok (mkResponse (device_id rnd2) "stub"
           (base64.EncodeToString (marshal (assignment_doc (device_id rnd2))))
           (base64.EncodeToString (ed_sign (enrollPriv st) (marshal (assignment_doc (device_id rnd2)))))),
     [GET (challenge_url p); post])) as He by (by rewrite He).
  unfold enrol. rewrite Hc. unfold exchange at 1. destruct (url_Parse url_ok (challenge_url p)); [|done].
  unfold answers at 1. rewrite challenge_answer. cbn [fst]. change (StatusCode (json_reply _)) with 200.
  change (200 =? 200) with true. cbn iota. cbn [rbind]. rewrite nonce_read by done. cbn iota. fold post.
  unfold exchange. unfold checkEnrolTransport in Hc. destruct (url_Parse url_ok (EnrollURL p)); [|done].
  change (answers rnd1 rnd2 p st post) with (Some (Handle rnd2 post (challenged rnd1 p st)).1).
  rewrite Hea. cbn [fst]. change (StatusCode (json_reply _)) with 200. change (200 =? 200) with true. cbn iota. cbn [rbind].
  by rewrite (assignment_read Hpub Hsk Hb2).
Qed.
End Client.

(** ** Messages end to end *)

(** The HTTP client of a peer, connected to this server. *)
Definition stub_client : transport.HTTPClient Server :=
  {| transport.Do u b s := let (r, s') := Handle "" (POST u b) s in (Some (StatusCode r), s') |}.

(** A message a device sends arrives: the peer reports success and the server has it,
    last, with the device, module, kind and data it was sent with. *)
Theorem message_arrives {JPL : JSONLaws transport.post} peer_url_ok module kind data (h : transport.HTTPPeer Server) :
  transport.URL h = base +++ "/v1/messages" -> peer_url_ok (transport.URL h) = true ->
  exists h', @transport.HTTPPeer_Send Server stub_client JP peer_url_ok module kind data h = (true, h') /\
    Messages (transport.Client h') = Messages (transport.Client h) ++ [transport.mkPost (transport.Device h) module kind data] /\
    enrolled (transport.Client h') = enrolled (transport.Client h) /\
    transport.URL h' = transport.URL h /\ transport.Device h' = transport.Device h.
Proof.
  intros Hu Hok. unfold transport.HTTPPeer_Send. rewrite Hok. cbn [negb transport.Do stub_client]. unfold handle.
  assert (forall b, route_of segment base (POST (transport.URL h) b) = RMessage b) as ->
    by (intros b; unfold route_of; by rewrite Hu, cut_base).
  unfold post_message. rewrite unmarshal_marshal. eexists. split; [reflexivity|]. done.
Qed.
End EndToEnd.

(** *** Witnesses: toy codecs over maps, and a signature that is the key and the text *)

#[local] Instance toy_maps : JSON (gmap string string) := binary_JSON (gmap string string).
Definition toy_decode {T} (f : gmap string string -> T) (s : string) : option T := f <$> unmarshal s.
#[local] Instance toy_responses : JSON enrol_response := Build_JSON enrol_response (fun _ => "") (fun _ => "")
  (toy_decode (fun m => mkResponse (field m "device_id") (field m "tenant") (field m "assignment") (field m "assignment_sig"))).
#[local] Instance toy_assignments : JSON assignment := Build_JSON assignment (fun _ => "") (fun _ => "")
  (toy_decode (fun m => mkAssignment (field m "device_id") (field m "tenant"))).
#[local] Instance toy_states : JSON enrolmentState := binary_JSON enrolmentState.
#[local] Instance toy_documents : JSON policy.Document := Build_JSON policy.Document (fun _ => "") (fun _ => "") (fun _ => None).
Definition toy_request : string -> option enrol_request :=
  toy_decode (fun m => mkEnrolRequest (field m "public_key") (field m "nonce") (field m "nonce_sig")).
Definition toy_challenge : string -> option string := toy_decode (fun m => field m "nonce").
Definition toy_verify (k m sig : string) : bool := String.eqb sig (store.fill 64 (k +++ m)).
Definition toy_sign (key m : string) : string := store.fill 64 (Public key +++ m).
Definition toy_lenient (s : string) : string := default "" (base64.DecodeString s).
#[local] Instance toy_posts : JSON transport.post := Build_JSON transport.post (fun _ => "") (fun _ => "") (fun _ => None).

Lemma toy_decode_spec {T} (f : gmap string string -> T) m :
  toy_decode f (marshal m) = Some (f m) /\ toy_decode f (marshal m +++ newline) = Some (f m).
Proof.
  pose proof (binary_JSONLaws (gmap string string)) as L. unfold toy_decode. split.
  - exact (f_equal (fmap f) (@unmarshal_marshal _ _ L m)).
  - exact (f_equal (fmap f) (@unmarshal_indent_newline _ _ L m)).
Qed.

Definition toy_server : Server := New (repeat_char 64 "s").
Definition toy_provider : Provider :=
  mkProvider "https://gw/v1/enroll" (repeat_char 32 "s") false (repeat_char 64 "k") "" "" "e".
Definition toy_answers : request -> option response :=
  answers toy_verify toy_sign toy_request toy_lenient id "https://gw" "n" "d" toy_provider toy_server.

Lemma stub_enrols_witness :
  exists s' t, @Enroll store.MemStore _ _ _ _ _ toy_verify toy_sign toy_challenge (fun _ => true) (store.mkCall false None) toy_answers toy_provider
    store.NewMemStore = (Ok tt, set_identity (device_id "d") "stub" toy_provider, s', t) /\ length t = 2%nat.
Proof.
  destruct (@stub_enrols store.MemStore _ _ _ _ _ _ _ toy_verify toy_sign toy_request toy_lenient id toy_challenge (fun _ => true) "https://gw")
    with (p := toy_provider) (st := toy_server) (rnd1 := "n") (rnd2 := "d") (c := store.mkCall false None) (s := store.NewMemStore)
    as [H _].
  - intros key m _. split; [apply String.eqb_refl|apply store.fill_length].
  - intros s b Hd. unfold toy_lenient. by rewrite Hd.
  - intros m. exact (proj1 (toy_decode_spec _ m)).
  - intros m. exact (proj2 (toy_decode_spec _ m)).
  - intros m. exact (proj2 (toy_decode_spec _ m)).
  - intros m. exact (proj1 (toy_decode_spec _ m)).
  - reflexivity.
  - reflexivity.
  - reflexivity.
  - reflexivity.
  - reflexivity.
  - reflexivity.
  - discriminate.
  - vm_compute. discriminate.
  - vm_compute. discriminate.
  - fold toy_answers in H. rewrite H. eexists _, _. split; [reflexivity|reflexivity].
Defined.
End gateweave.
