(* ===== verification/AptRepo.v ===== *)
(** * The package repository tool (packaging/apt/aptrepo)

    [build] turns a directory of .deb files into a flat apt repository, [verifyRepo]
    re-checks one.  The tool runs on the file system of [FileSystem], so any call may
    fail.  The hash functions, gzip, the tar reader and gpg are parameters; reading
    the control file out of the ar container is modelled byte for byte. *)

From stdpp Require Import base list strings gmap.
From stdpp Require sorting.
From Stdlib Require Import ZArith Lia Ascii.
From S2P Require Import Prelude.
From S2P Require Import GoStrings.
From S2P Require Import GoText.
From S2P Require Import StringOrder.
From S2P Require Import Paths.
From S2P Require Import FileSystem.
From S2P Require Import Base64.
Open Scope Z_scope.

Local Infix "+++" := String.append (at level 60, right associativity).

(** Texts glued from pieces, in one normal form. *)
Ltac sapp_norm := repeat (progress (simpl; rewrite ?sapp_assoc)).

Module aptrepo.
Import os.
Open Scope os_scope.

Definition msg (s : string) : errno := EMsg s.

(** [filepath.Ext] *)
Fixpoint ext_rev (acc s : string) : string :=
  match s with
  | "" => ""
  | String c r => if Ascii.eqb c "/" then "" else if Ascii.eqb c "." then String c acc else ext_rev (String c acc) r
  end.
Definition Ext (name : string) : string := ext_rev "" (srev name).

(** [filepath.Base] *)
Definition Base (p : string) : string :=
  if String.eqb p "" then "."
  else let t := trim_right "/" p in
       if String.eqb t "" then "/" else default "" (last (split "/" t)).

(** ** Packages as they are made *)

(** One ar member: name, 32 bytes of times and modes, size, the mark, the data, and
    a byte of padding when its length is odd. *)
Definition ar_member (name data : string) : string :=
  pad 16 name +++ repeat_char 32 "0" +++ pad 10 (format_uint (Z.of_nat (String.length data))) +++ String "`" lf +++
  data +++ (if Nat.odd (String.length data) then lf else "").
Definition ar_archive (ms : list (string * string)) (rest : string) : string :=
  ("!<arch>" +++ lf) +++ foldr (fun m t => ar_member m.1 m.2 +++ t) rest ms.
(** Names and sizes that fit their columns. *)
Definition ar_fits (m : string * string) : Prop :=
  all_chars graphic m.1 = true /\ contains "/" m.1 = false /\ m.1 <> "" /\ (String.length m.1 <= 16)%nat /\
  Z.of_nat (String.length m.2) < 10 ^ 10.

Lemma size_column n : 0 <= n < 10 ^ 10 -> trim_space (pad 10 (format_uint n)) = format_uint n /\ String.length (pad 10 (format_uint n)) = 10%nat.
Proof.
  intros H. pose proof (format_uint_digits n ltac:(lia)) as Hd. split.
  - apply trim_space_pad; [|apply format_uint_not_nil].
    assert (forall s, all_chars is_digit s = true -> all_chars graphic s = true) as Hg; [|by apply Hg].
    induction s as [|c s IH]; simpl; [done|]. intros [Hc Hs]%andb_true_iff. rewrite IH by done. rewrite andb_true_r.
    revert Hc. clear. destruct c as [[] [] [] [] [] [] [] []]; vm_compute; done.
  - apply pad_length, digits_n_length; [exact H|lia].
Qed.

Lemma trim_right_none c s : contains c s = false -> trim_right c s = s.
Proof.
  intros H. unfold trim_right. rewrite <-(srev_involutive s) at 2. f_equal.
  assert (forall x, contains c (srev x) = contains c x) as Hr.
  { induction x as [|d x IH]; [done|]. rewrite srev_cons, contains_app, IH. simpl. by rewrite orb_false_r, orb_comm. }
  rewrite <-Hr in H. destruct (srev s) as [|d r]; [done|]. simpl in *. by apply orb_false_iff in H as [-> _].
Qed.

Lemma padded_size n : Z.of_nat n + Z.rem (Z.of_nat n) 2 = Z.of_nat (n + if Nat.odd n then 1 else 0).
Proof.
  rewrite Z.rem_mod_nonneg by lia. destruct (Nat.odd n) eqn:Eo.
  - apply Nat.odd_spec in Eo as [k ->]. Z.div_mod_to_equations; lia.
  - apply (f_equal negb) in Eo. rewrite Nat.negb_odd in Eo. apply Nat.even_spec in Eo as [k ->]. Z.div_mod_to_equations; lia.
Qed.

Section Tool.
Context {X : Type}.
Context (md5 sha1 sha256 : string -> string).
(** [gzip.NewWriter], and [gzip.NewReader] with what it yields and whether it then
    ends or breaks. *)
Context (gzip : string -> string) (gunzip : string -> option (string * bool)).
(** [tar.Reader] over such a stream: the entries, the result of reading each one, and
    whether the archive ends properly. *)
Context (untar : string * bool -> list (string * result errno string) * bool).
(** gpg: a signature or an exported key, if it succeeds, and the check of one. *)
Context (clearsign detach : string -> string -> option string) (export : string -> option string)
  (gpg_verify : string -> bool).
(** The formatted time of the run. *)
Context (date : string).

(** ** Reading the control file *)

(** [controlFromPlainTar] *)
Fixpoint find_control (entries : list (string * result errno string)) (proper : bool) : result errno string :=
  match entries with
  | [] => Err (if proper then msg "no ./control in control archive" else msg "tar")
  | (name, body) :: es =>
      if negb (String.eqb (trim_prefix "./" name) "control") then find_control es proper
      else match body with Ok b => Ok (stake (Z.to_nat (2 ^ 20)) b) | Err e => Err e end
  end.
Definition controlFromPlainTar (r : string * bool) : result errno string :=
  let (entries, proper) := untar r in find_control entries proper.

Definition controlFromTar (name r : string) : result errno string :=
  let e := Ext name in
  if String.eqb e ".gz" then
    match gunzip r with None => Err (msg "gzip") | Some z => controlFromPlainTar z end
  else if String.eqb e ".tar" || String.eqb e "" then controlFromPlainTar (r, true)
  else Err (msg "control member uses an unsupported compression").

(** The loop of [readControl] on what is left of the file; [None] is no answer.  A
    negative size skips nothing, and a size above the rest of the file is an error. *)
Fixpoint members (fuel : nat) (f : string) : option (result errno string) :=
  match fuel with
  | O => None
  | S n =>
      if String.eqb f "" then Some (Err (msg "no control member in .deb"))
      else if (String.length f <? 60)%nat then Some (Err (msg "unexpected EOF"))
      else
        let name := trim_right "/" (trim_space (stake 16 f)) in
        match parse_int (trim_space (stake 10 (sdrop 48 f))) with
        | None => Some (Err (msg "bad ar member size"))
        | Some size =>
            let rest := sdrop 60 f in
            if has_prefix "control.tar" name then Some (controlFromTar name (stake (Z.to_nat size) rest))
            else
              let skip := size + Z.rem size 2 in
              if (Z.of_nat (String.length rest) <? skip) then Some (Err (msg "EOF"))
              else members n (sdrop (Z.to_nat skip) rest)
        end
  end.
Definition control_of (c : string) : option (result errno string) :=
  if (String.length c <? 8)%nat then Some (Err (msg "unexpected EOF"))
  else if negb (String.eqb (stake 8 c) ("!<arch>" +++ lf)) then Some (Err (msg "not an ar archive"))
  else members (S (String.length c)) (sdrop 8 c).

Definition readControl (p : path) : M X string :=
  c <-! ReadFile p ;;
  match control_of c with Some r => lift r | None => fail (msg "loop") end.

(** ** Building *)

Record sums := mkSums { s_md5 : string; s_sha1 : string; s_sha256 : string }.
Definition sums_of (c : string) : sums :=
  mkSums (hex_encode (md5 c)) (hex_encode (sha1 c)) (hex_encode (sha256 c)).
Definition digests (p : path) : M X sums := c <-! ReadFile p ;; ret (sums_of c).

(** [os.Stat(path).Size()]; the tool asks it of regular files. *)
Definition StatSize (p : path) : M X Z := observe (fun f =>
  match f !! p with
  | Some (File c) => Ok (Z.of_nat (String.length c))
  | Some Dir => Ok 0
  | None => Err ENOENT
  end).

(** The stanza for a file called [name], given its control text and contents. *)
Definition stanza_text (control name : string) (size : Z) (s : sums) : string :=
  trim_right nl control +++ lf +++
  "Filename: ./" +++ name +++ lf +++
  "Size: " +++ format_int size +++ lf +++
  "MD5sum: " +++ s_md5 s +++ lf +++
  "SHA1: " +++ s_sha1 s +++ lf +++
  "SHA256: " +++ s_sha256 s +++ lf.
Definition packageStanza (p : path) : M X string :=
  control <-! readControl p ;;
  size <-! StatSize p ;;
  s <-! digests p ;;
  ret (stanza_text control (default "" (last p)) size s).

Definition copyFile (src dst : path) : M X unit :=
  if bool_decide (src = dst) then ret tt
  else data <-! ReadFile src ;; WriteFile dst data.

Definition writeGzip (p : path) (data : string) : M X unit := WriteFile p (gzip data).

(** The lines of one digest section of [releaseFile]. *)
Definition index_line (digest : sums -> string) (dir : path) (name : string) : M X string :=
  size <-! StatSize (Join dir [name]) ;;
  s <-! digests (Join dir [name]) ;;
  ret (" " +++ digest s +++ " " +++ format_int size +++ " " +++ name +++ lf).
Definition section (field : string) (digest : sums -> string) (dir : path) : M X string :=
  l1 <-! index_line digest dir "Packages" ;;
  l2 <-! index_line digest dir "Packages.gz" ;;
  ret (field +++ ":" +++ lf +++ l1 +++ l2).
Definition release_head (origin : string) : string :=
  "Origin: " +++ origin +++ lf +++ "Label: " +++ origin +++ lf +++
  "Suite: stable" +++ lf +++ "Codename: stable" +++ lf +++
  "Date: " +++ date +++ lf +++ "Acquire-By-Hash: no" +++ lf.
Definition releaseFile (dir : path) (origin : string) : M X string :=
  a <-! section "MD5Sum" s_md5 dir ;;
  b <-! section "SHA1" s_sha1 dir ;;
  c <-! section "SHA256" s_sha256 dir ;;
  ret (release_head origin +++ a +++ b +++ c).

(** One run of gpg that writes [out]. *)
Definition gpg_run (out : path) (content : option string) : M X unit :=
  match content with None => fail (msg "gpg") | Some c => WriteFile out c end.
Definition sign (dir : path) (key : string) : M X unit :=
  r1 <-! ReadFile (Join dir ["Release"]) ;;
  do! gpg_run (Join dir ["InRelease"]) (clearsign key r1) ;;
  r2 <-! ReadFile (Join dir ["Release"]) ;;
  do! gpg_run (Join dir ["Release.gpg"]) (detach key r2) ;;
  gpg_run (Join dir ["weave-archive-keyring.asc"]) (export key).

(** [filepath.Glob(in/*.deb)] in name order: an unreadable directory matches nothing. *)
Definition is_deb (n : string) : bool := match cut_suffix ".deb" n with Some _ => true | None => false end.
Definition glob_debs (dir : path) : M X (list string) :=
  r <-! attempt (ReadDir dir) ;;
  ret (match r with Ok es => List.filter is_deb es.*1 | Err _ => [] end).

(** The loop of [build] over the packages. *)
Fixpoint add_debs (src out : path) (debs : list string) (packages : string) : M X string :=
  match debs with
  | [] => ret packages
  | deb :: ds =>
      stanza <-! packageStanza (Join src [deb]) ;;
      do! copyFile (Join src [deb]) (Join out [deb]) ;;
      add_debs src out ds (packages +++ stanza +++ lf)
  end.

Definition build (src out : path) (key origin : string) : M X unit :=
  debs <-! glob_debs src ;;
  if bool_decide (debs = []) then fail (msg "no .deb files")
  else
    do! MkdirAll out ;;
    packages <-! add_debs src out debs "" ;;
    do! WriteFile (Join out ["Packages"]) packages ;;
    do! writeGzip (Join out ["Packages.gz"]) packages ;;
    release <-! releaseFile out origin ;;
    do! WriteFile (Join out ["Release"]) release ;;
    if String.eqb key "" then ret tt else sign out key.

(** ** Verifying *)

(** The loop over the lines of Release; [n] counts the digests checked. *)
Fixpoint check_release (dir : path) (lines : list string) (n : nat) : M X nat :=
  match lines with
  | [] => ret n
  | line :: ls =>
      if negb (has_prefix " " line) then check_release dir ls n
      else match fields line with
      | [h; _; name] =>
          if negb (String.length h =? 64)%nat then check_release dir ls n
          else
            s <-! digests (Join dir [name]) ;;
            if negb (String.eqb (s_sha256 s) h) then fail (msg "SHA256 in Release does not match the file")
            else check_release dir ls (S n)
      | _ => check_release dir ls n
      end
  end.

(** The [Filename] and [SHA256] of a stanza: the last line of each wins. *)
Definition stanza_field (acc : string * string) (line : string) : string * string :=
  match cut_prefix "Filename: " line with
  | Some n => (n, acc.2)
  | None => match cut_prefix "SHA256: " line with Some h => (acc.1, h) | None => acc end
  end.
Definition stanza_fields (stanza : string) : string * string :=
  fold_left stanza_field (split nl stanza) ("", "").

Fixpoint check_packages (dir : path) (stanzas : list string) (n : nat) : M X nat :=
  match stanzas with
  | [] => ret n
  | st :: ss =>
      let (name, want) := stanza_fields st in
      if String.eqb name "" || String.eqb want "" then check_packages dir ss n
      else
        s <-! digests (Join dir [Base name]) ;;
        if negb (String.eqb (s_sha256 s) want) then fail (msg "SHA256 in Packages does not match the file")
        else check_packages dir ss (S n)
  end.

Definition verifyRepo (dir : path) : M X unit :=
  st <-! attempt (Stat (Join dir ["InRelease"])) ;;
  do! match st with
      | Ok _ => sig <-! ReadFile (Join dir ["InRelease"]) ;;
                if gpg_verify sig then ret tt else fail (msg "InRelease signature")
      | Err _ => ret tt
      end ;;
  release <-! ReadFile (Join dir ["Release"]) ;;
  checked <-! check_release dir (split nl release) 0 ;;
  if (checked =? 0)%nat then fail (msg "Release lists no SHA256 digests")
  else
    packages <-! ReadFile (Join dir ["Packages"]) ;;
    pkgs <-! check_packages dir (split_on (lf +++ lf) packages) 0 ;;
    if (pkgs =? 0)%nat then fail (msg "Packages lists no packages") else ret tt.

(** ** The ar reader always answers *)

Lemma members_total n f : (String.length f < n)%nat -> is_Some (members n f).
Proof using gunzip untar.
  revert f. induction n as [|n IH]; intros f Hf; [lia|]. cbn [members].
  destruct (String.eqb f ""); [by eexists|]. destruct (Nat.ltb_spec (String.length f) 60); [by eexists|].
  destruct (parse_int _) as [size|]; [|by eexists]. destruct (has_prefix _ _); [by eexists|].
  destruct (Z.ltb _ _); [by eexists|]. apply IH. rewrite !sdrop_length. lia.
Qed.

(** Reading the control file of a package ends with an answer on every input, a
    corrupt or hostile one too: a member header always moves the reader forward, even
    when the size it states is negative. *)
Theorem control_of_total c : is_Some (control_of c).
Proof using gunzip untar.
  unfold control_of. destruct (_ <? _)%nat; [by eexists|]. destruct (negb _); [by eexists|].
  apply members_total. rewrite sdrop_length. lia.
Qed.

(** What the reader's loop makes of one member. *)
Lemma members_step n name data rest : ar_fits (name, data) ->
  members (S n) (ar_member name data +++ rest) =
    if has_prefix "control.tar" name then Some (controlFromTar name data) else members n rest.
Proof using gunzip untar.
  intros (Hg & Hs & Hne & Hl & Hd). cbn [fst snd] in Hg, Hs, Hne, Hl, Hd. unfold ar_member.
  pose proof (size_column (Z.of_nat (String.length data)) ltac:(lia)) as [Ht Hp].
  set (size := format_uint (Z.of_nat (String.length data))) in Ht, Hp |- *.
  set (padding := if Nat.odd (String.length data) then lf else "").
  assert (String.length (pad 16 name) = 16%nat) as Hn by (by apply pad_length).
  assert (Hnil : trim_space (pad 16 name) = name) by (by apply trim_space_pad).
  set (A := pad 16 name) in Hn, Hnil |- *. set (C := pad 10 size) in Ht, Hp |- *. rewrite !sapp_assoc. cbn [members].
  set (f := A +++ _). assert (String.length f = 60 + (String.length data + (String.length padding + String.length rest)))%nat as Hf.
  { unfold f. rewrite !slength_app, Hn, Hp, repeat_char_length. simpl. lia. }
  destruct (String.eqb_spec f "") as [E|_]; [rewrite E in Hf; simpl in Hf; lia|].
  rewrite (proj2 (Nat.ltb_ge _ _)) by lia.
  assert (stake 16 f = A) as -> by (unfold f; rewrite <-Hn; apply stake_app).
  assert (sdrop 48 f = C +++ (String "`" lf +++ data +++ padding +++ rest)) as ->.
  { unfold f. change 48%nat with (16 + 32)%nat. rewrite <-Hn at 1. rewrite sdrop_app_more.
    rewrite <-(repeat_char_length 32 "0") at 1. apply sdrop_app. }
  assert (stake 10 (C +++ String "`" lf +++ data +++ padding +++ rest) = C) as -> by (rewrite <-Hp at 1; apply stake_app).
  assert (sdrop 60 f = data +++ padding +++ rest) as ->.
  { unfold f. change 60%nat with (16 + (32 + (10 + 2)))%nat. rewrite <-Hn at 1. rewrite sdrop_app_more.
    rewrite <-(repeat_char_length 32 "0") at 1. rewrite sdrop_app_more. rewrite <-Hp at 1. by rewrite sdrop_app_more. }
  rewrite Ht, Hnil, trim_right_none by done. unfold size. rewrite parse_int_format by lia.
  destruct (has_prefix "control.tar" name); [rewrite Nat2Z.id; by rewrite stake_app|].
  assert (Z.of_nat (String.length data) + Z.rem (Z.of_nat (String.length data)) 2 =
          Z.of_nat (String.length (data +++ padding))) as ->.
  { rewrite padded_size, slength_app. unfold padding. by destruct (Nat.odd (String.length data)). }
  rewrite <-sapp_assoc. rewrite slength_app, (proj2 (Z.ltb_ge _ _)) by lia. by rewrite Nat2Z.id, sdrop_app.
Qed.

(** The control file of a package is found: in an archive whose members fit their
    columns, whatever comes before and after, the reader opens exactly the data of the
    first member called control.tar-something. *)
Theorem control_of_archive pre name data rest :
  Forall (fun m => ar_fits m /\ has_prefix "control.tar" m.1 = false) pre ->
  ar_fits (name, data) -> has_prefix "control.tar" name = true ->
  control_of (ar_archive (pre ++ [(name, data)]) rest) = Some (controlFromTar name data).
Proof using gunzip untar.
  intros Hpre Hm Hc. unfold control_of, ar_archive.
  set (body := foldr _ rest _). change 8%nat with (String.length ("!<arch>" +++ lf)). rewrite stake_app, sdrop_app, String.eqb_refl, slength_app.
  rewrite (proj2 (Nat.ltb_ge _ _)) by lia. cbn [negb].
  assert (forall n, (length pre < n)%nat -> members n body = Some (controlFromTar name data)) as H.
  { unfold body. clear body. induction Hpre as [|[x d] pre [Hx Hnc] _ IH]; intros n Hn; (destruct n as [|n]; [simpl in Hn; lia|]).
    - cbn [app foldr fst snd]. rewrite members_step by done. by rewrite Hc.
    - cbn [app foldr fst snd]. rewrite members_step by done. simpl in Hnc. rewrite Hnc. apply IH. simpl in Hn. lia. }
  apply H. apply Nat.lt_succ_r. transitivity (String.length body); [|simpl; lia].
  unfold body. clear. induction pre as [|[x d] pre IH]; [simpl; lia|]. cbn [app foldr fst snd length].
  rewrite slength_app. assert (1 <= String.length (ar_member x d))%nat; [|lia].
  unfold ar_member. rewrite !slength_app. change (String.length (String "`" lf)) with 2%nat. lia.
Qed.

(** ** Calls *)

Section Calls.
Implicit Types (p q dir : path) (w : world X).

Lemma ReadFile_Ok p w c w' : ReadFile p w = (Ok c, w') -> w_fs w' = w_fs w /\ w_fs w !! p = Some (File c).
Proof. intros [E H]%observe_Ok. split; [done|]. destruct (w_fs w !! p) as [[]|]; by simplify_eq. Qed.

Lemma digests_calm p w c : calm w -> w_fs w !! p = Some (File c) -> digests p w = (Ok (sums_of c), w).
Proof. intros Hc H. unfold digests, bind. by rewrite (ReadFile_file _ _ c). Qed.

Lemma digests_Ok p w s w' : digests p w = (Ok s, w') -> w_fs w' = w_fs w /\ exists c, w_fs w !! p = Some (File c) /\ s = sums_of c.
Proof.
  unfold digests. intros (c & w1 & H & H')%bind_Ok. unfold ret in H'. simplify_eq.
  apply ReadFile_Ok in H as [-> ?]. eauto.
Qed.

Lemma WriteFile_Ok p s w u w' : WriteFile p s w = (Ok u, w') ->
  w_fs w' !! p = Some (File s) /\ forall q, q <> p -> w_fs w' !! q = w_fs w !! q.
Proof.
  intros H. split.
  - unfold WriteFile in H. apply bind_Ok in H as (u1 & w1 & H1 & H2). by eapply Create_Write_Ok.
  - intros q Hq. change w' with (snd (@Ok errno unit u, w')). rewrite <-H.
    apply (touches_elim (eq p)); [|done]. unfold WriteFile. apply touches_bind; [apply touches_Create|].
    intros ?. apply touches_Write.
Qed.

Lemma StatSize_Ok p w n w' c : StatSize p w = (Ok n, w') -> w_fs w !! p = Some (File c) ->
  w_fs w' = w_fs w /\ n = Z.of_nat (String.length c).
Proof. intros [E H]%observe_Ok Hc. rewrite Hc in H. by simplify_eq. Qed.

Lemma packageStanza_Ok p w st w' : packageStanza p w = (Ok st, w') ->
  w_fs w' = w_fs w /\ exists c control, w_fs w !! p = Some (File c) /\ control_of c = Some (Ok control) /\
    st = stanza_text control (default "" (last p)) (Z.of_nat (String.length c)) (sums_of c).
Proof.
  unfold packageStanza, readControl. intros (control & w1 & H1 & H)%bind_Ok.
  apply bind_Ok in H1 as (c & w0 & H0 & H1). apply ReadFile_Ok in H0 as [E0 Hc].
  destruct (control_of c) as [[x|]|] eqn:Ec; unfold lift, fail in H1; simplify_eq.
  apply bind_Ok in H as (n & w2 & H2 & H). apply bind_Ok in H as (s & w3 & H3 & H). unfold ret in H. simplify_eq.
  rewrite <-E0 in Hc. apply (StatSize_Ok _ _ _ _ c) in H2 as [E2 ->]; [|done].
  apply digests_Ok in H3 as [E3 (c' & Hc' & ->)]. rewrite E2, Hc in Hc'. simplify_eq.
  split; [congruence|]. exists c', control. split_and!; congruence.
Qed.

Lemma copy_deb_Ok src dst w u w' c : copyFile src dst w = (Ok u, w') -> w_fs w !! src = Some (File c) ->
  w_fs w' !! dst = Some (File c) /\ forall q, q <> dst -> w_fs w' !! q = w_fs w !! q.
Proof.
  unfold copyFile. intros H Hc. case_bool_decide as E; [unfold ret in H; by simplify_eq|].
  apply bind_Ok in H as (data & w1 & H1 & H). apply ReadFile_Ok in H1 as [E1 Hd]. rewrite Hc in Hd. simplify_eq.
  rewrite <-E1. by eapply WriteFile_Ok.
Qed.
End Calls.

(** ** What a build leaves *)

(** A package of the repository: its name, its bytes, its control text. *)
Record package := mkPackage { k_name : string; k_bytes : string; k_control : string }.

Definition stanza_lines (k : package) : list string :=
  let s := sums_of (k_bytes k) in
  ["Filename: ./" +++ k_name k; "Size: " +++ format_int (Z.of_nat (String.length (k_bytes k)));
   "MD5sum: " +++ s_md5 s; "SHA1: " +++ s_sha1 s; "SHA256: " +++ s_sha256 s].
(** A stanza without its last newline. *)
Definition body (k : package) : string := trim_right nl (k_control k) +++ more_lines (stanza_lines k).
Definition packages_text (ks : list package) : string := foldr (fun b t => b +++ lf +++ lf +++ t) "" (body <$> ks).

Lemma stanza_text_body k :
  stanza_text (k_control k) (k_name k) (Z.of_nat (String.length (k_bytes k))) (sums_of (k_bytes k)) = body k +++ lf.
Proof. unfold stanza_text, body, more_lines, stanza_lines. sapp_norm. reflexivity. Qed.

(** The package is in the directory, as [readControl] reads it. *)
Definition holds (dir : path) (f : fs) (k : package) : Prop :=
  f !! (dir ++ [k_name k]) = Some (File (k_bytes k)) /\ control_of (k_bytes k) = Some (Ok (k_control k)).

Lemma snoc_ne (d d' : path) (x y : string) : x <> y -> d ++ [x] <> d' ++ [y].
Proof. intros H E. apply app_inj_tail in E as [_ E]. done. Qed.

Lemma add_debs_Ok src out debs : safe_path src -> safe_path out -> Forall safe_component debs -> NoDup debs ->
  forall acc w pk w', add_debs src out debs acc w = (Ok pk, w') ->
  (forall q, (forall n, n ∈ debs -> q <> out ++ [n]) -> w_fs w' !! q = w_fs w !! q) /\
  exists ks, k_name <$> ks = debs /\ Forall (holds out (w_fs w')) ks /\
    Forall (fun k => w_fs w !! (src ++ [k_name k]) = Some (File (k_bytes k))) ks /\ pk = acc +++ packages_text ks.
Proof.
  intros Hs Ho Hd. induction Hd as [|n ds Hn Hd IH]; intros Hnd acc w pk w' H; cbn [add_debs] in H.
  { unfold ret in H. simplify_eq. split; [done|]. exists []. by rewrite sapp_nil_r. }
  apply NoDup_cons in Hnd as [Hnin Hnd].
  rewrite !Join_safe in H by (done || by apply Forall_singleton).
  apply bind_Ok in H as (st & w1 & H1 & H). apply packageStanza_Ok in H1 as [E1 (c & control & Hc & Hctl & ->)].
  apply bind_Ok in H as (u & w2 & H2 & H). rewrite <-E1 in Hc. apply (copy_deb_Ok _ _ _ _ _ c) in H2 as [Hdst Hframe]; [|done].
  destruct (IH Hnd _ _ _ _ H) as (Hf & ks & <- & Hks & Hsrc & ->).
  split.
  - intros q Hq. rewrite Hf, Hframe, E1; [done|set_solver|]. intros m Hm. apply Hq. by right.
  - exists (mkPackage n c control :: ks). split; [done|]. split_and!.
    + constructor; [|done]. split; [|done]. cbn [k_name k_bytes]. rewrite Hf; [done|].
      intros m Hm. apply snoc_ne. by intros <-.
    + rewrite E1 in Hc. constructor; [done|]. rewrite list.Forall_forall in Hsrc |- *. intros k Hk. specialize (Hsrc k Hk).
      rewrite <-E1, <-Hframe; [done|]. apply snoc_ne. intros E. apply Hnin. rewrite <-E. by apply list_elem_of_fmap_2.
    + rewrite last_snoc. pose proof (stanza_text_body (mkPackage n c control)) as E. simpl in E |- *. rewrite E.
      unfold packages_text. rewrite fmap_cons. cbn [foldr]. by rewrite !sapp_assoc.
Qed.

(** ** The Release file *)

Definition index_entry (digest : sums -> string) (name content : string) : string :=
  " " +++ digest (sums_of content) +++ " " +++ format_int (Z.of_nat (String.length content)) +++ " " +++ name.
Definition section_lines (field : string) (digest : sums -> string) (pk gz : string) : list string :=
  [field +++ ":"; index_entry digest "Packages" pk; index_entry digest "Packages.gz" gz].
Definition release_lines (origin pk gz : string) : list string :=
  ["Origin: " +++ origin; "Label: " +++ origin; "Suite: stable"; "Codename: stable"; "Date: " +++ date; "Acquire-By-Hash: no"]
  ++ section_lines "MD5Sum" s_md5 pk gz ++ section_lines "SHA1" s_sha1 pk gz ++ section_lines "SHA256" s_sha256 pk gz.

Lemma index_line_Ok digest dir name w l w' c : safe_path dir -> safe_component name ->
  index_line digest dir name w = (Ok l, w') -> w_fs w !! (dir ++ [name]) = Some (File c) ->
  w_fs w' = w_fs w /\ l = index_entry digest name c +++ lf.
Proof.
  intros Hd Hn H Hc. unfold index_line in H. rewrite Join_safe in H by (done || by apply Forall_singleton).
  apply bind_Ok in H as (n & w1 & H1 & H). apply (StatSize_Ok _ _ _ _ c) in H1 as [E1 ->]; [|done].
  apply bind_Ok in H as (s & w2 & H2 & H). apply digests_Ok in H2 as [E2 (c' & Hc' & ->)].
  rewrite E1, Hc in Hc'. unfold ret in H. simplify_eq. split; [congruence|]. unfold index_entry. sapp_norm. reflexivity.
Qed.

Lemma section_Ok field digest dir w l w' pk gz : safe_path dir -> section field digest dir w = (Ok l, w') ->
  w_fs w !! (dir ++ ["Packages"]) = Some (File pk) -> w_fs w !! (dir ++ ["Packages.gz"]) = Some (File gz) ->
  w_fs w' = w_fs w /\ l = text_of (section_lines field digest pk gz).
Proof.
  intros Hd H Hp Hg. unfold section in H. apply bind_Ok in H as (l1 & w1 & H1 & H).
  destruct (index_line_Ok _ _ "Packages" _ _ _ _ Hd ltac:(by repeat split) H1 Hp) as [E1 ->].
  apply bind_Ok in H as (l2 & w2 & H2 & H). rewrite <-E1 in Hg. destruct (index_line_Ok _ _ "Packages.gz" _ _ _ _ Hd ltac:(by repeat split) H2 Hg) as [E2 ->].
  unfold ret in H. simplify_eq. split; [congruence|]. unfold text_of, section_lines. sapp_norm. reflexivity.
Qed.

Lemma text_of_app l1 l2 : text_of (l1 ++ l2) = text_of l1 +++ text_of l2.
Proof. induction l1 as [|l l1 IH]; [done|]. simpl. rewrite IH. by rewrite !sapp_assoc. Qed.

Lemma releaseFile_Ok dir origin w r w' pk gz : safe_path dir -> releaseFile dir origin w = (Ok r, w') ->
  w_fs w !! (dir ++ ["Packages"]) = Some (File pk) -> w_fs w !! (dir ++ ["Packages.gz"]) = Some (File gz) ->
  w_fs w' = w_fs w /\ r = text_of (release_lines origin pk gz).
Proof.
  intros Hd H Hp Hg. unfold releaseFile in H.
  apply bind_Ok in H as (a & w1 & H1 & H). destruct (section_Ok _ _ _ _ _ _ _ _ Hd H1 Hp Hg) as [E1 ->].
  apply bind_Ok in H as (b & w2 & H2 & H). rewrite <-E1 in Hp, Hg. destruct (section_Ok _ _ _ _ _ _ _ _ Hd H2 Hp Hg) as [E2 ->].
  apply bind_Ok in H as (c & w3 & H3 & H). rewrite <-E2 in Hp, Hg. destruct (section_Ok _ _ _ _ _ _ _ _ Hd H3 Hp Hg) as [E3 ->].
  unfold ret in H. simplify_eq. split; [congruence|]. unfold release_lines. rewrite !text_of_app.
  by f_equal.
Qed.

(** ** The whole build *)

Lemma children_nodup (f : fs) d : NoDup (children f d).*1.
Proof.
  unfold children. rewrite (sorting.merge_sort_Permutation entry_le).
  assert (forall l : list (path * node), NoDup l.*1 -> NoDup (omap (child_of d) l).*1) as H; [|apply H, NoDup_fst_map_to_list].
  induction l as [|[p n] l IH]; intros Hl; [constructor|]. apply NoDup_cons in Hl as [Hp Hl].
  cbn [omap list_omap]. destruct (child_of d (p, n)) as [[c b]|] eqn:E; [|by apply IH].
  rewrite fmap_cons. apply NoDup_cons. split; [|by apply IH].
  intros Hin. apply Hp. apply list_elem_of_fmap in Hin as ([c' b'] & E' & Hin). simpl in E'. subst c'.
  apply list_elem_of_omap in Hin as ([p' n'] & Hin & E').
  assert (forall q m x b0, child_of d (q, m) = Some (x, b0) -> q = d ++ [x]) as Hq.
  { intros q m x b0 Hc. unfold child_of in Hc. simpl in Hc. go_inv Hc. apply below_split in E1. congruence. }
  rewrite (Hq _ _ _ _ E). rewrite <-(Hq _ _ _ _ E'). by apply (list_elem_of_fmap_2 fst) in Hin.
Qed.

(** A repository as a successful build leaves it. *)
Record repository (dir : path) (key origin : string) (f : fs) (ks : list package) : Prop := {
  re_some : ks <> [];
  re_debs : Forall (fun k => safe_component (k_name k) /\ is_deb (k_name k) = true) ks;
  re_holds : Forall (holds dir f) ks;
  re_packages : f !! (dir ++ ["Packages"]) = Some (File (packages_text ks));
  re_gz : f !! (dir ++ ["Packages.gz"]) = Some (File (gzip (packages_text ks)));
  re_release : f !! (dir ++ ["Release"]) =
    Some (File (text_of (release_lines origin (packages_text ks) (gzip (packages_text ks)))));
  re_signed : key <> "" -> exists sig, f !! (dir ++ ["InRelease"]) = Some (File sig) /\
    clearsign key (text_of (release_lines origin (packages_text ks) (gzip (packages_text ks)))) = Some sig }.

Lemma glob_debs_Ok src w debs w' : safe_fs (w_fs w) -> glob_debs src w = (Ok debs, w') ->
  w_fs w' = w_fs w /\ Forall (fun n => safe_component n /\ is_deb n = true) debs /\ NoDup debs.
Proof.
  intros Hsafe H. unfold glob_debs, bind, attempt in H.
  assert (w_fs (snd (ReadDir src w)) = w_fs w) as Ew by (apply touches_none, touches_ReadDir).
  destruct (ReadDir src w) as [[es|e] w1] eqn:E; unfold ret in H; simpl in Ew; simplify_eq; [|by split_and!; [|constructor|constructor]].
  split; [done|]. apply observe_Ok in E as [_ E]. assert (es = children (w_fs w) src) as ->
    by (destruct (is_dir _ _); [by simplify_eq|by destruct (w_fs w !! src)]).
  split; [|apply NoDup_ListNoDup, List.NoDup_filter, NoDup_ListNoDup, children_nodup].
  apply list.Forall_forall. intros n Hin. apply list_elem_of_In, filter_In in Hin as [Hin Hn]. split; [|done].
  apply list_elem_of_In, list_elem_of_fmap in Hin as ([c b] & -> & Hin). apply children_spec in Hin as (x & Hx & _).
  assert (safe_path (src ++ [c])) as Hp by (apply Hsafe; eauto). apply Forall_app in Hp as [_ Hp]. by inversion Hp.
Qed.

Lemma gpg_run_Ok p content w u w' : gpg_run p content w = (Ok u, w') ->
  exists c, content = Some c /\ w_fs w' !! p = Some (File c) /\ forall q, q <> p -> w_fs w' !! q = w_fs w !! q.
Proof. unfold gpg_run. destruct content as [c|]; [|done]. intros H%WriteFile_Ok. exists c. tauto. Qed.

Lemma sign_Ok dir key w u w' r : safe_path dir -> sign dir key w = (Ok u, w') ->
  w_fs w !! (dir ++ ["Release"]) = Some (File r) ->
  (exists sig, w_fs w' !! (dir ++ ["InRelease"]) = Some (File sig) /\ clearsign key r = Some sig) /\
  forall n, n ∉ ["InRelease"; "Release.gpg"; "weave-archive-keyring.asc"] -> w_fs w' !! (dir ++ [n]) = w_fs w !! (dir ++ [n]).
Proof.
  intros Hd H Hr. unfold sign in H. rewrite !Join_safe in H by (done || (apply Forall_singleton; by repeat split)).
  apply bind_Ok in H as (r1 & w1 & H1 & H). apply ReadFile_Ok in H1 as [E1 Hr1]. rewrite Hr in Hr1. simplify_eq.
  apply bind_Ok in H as ([] & w2 & H2 & H). apply gpg_run_Ok in H2 as (sig & Hsig & H2 & F2).
  apply bind_Ok in H as (r2 & w3 & H3 & H). apply ReadFile_Ok in H3 as [E3 _].
  apply bind_Ok in H as ([] & w4 & H4 & H). apply gpg_run_Ok in H4 as (s4 & _ & _ & F4).
  apply gpg_run_Ok in H as (s5 & _ & _ & F5). split.
  - exists sig. split; [|done]. rewrite F5, F4, E3 by (by apply snoc_ne). done.
  - intros n Hn. rewrite F5, F4, E3, F2, E1 by (apply snoc_ne; set_solver). done.
Qed.

Lemma holds_frame dir f f' k : f' !! (dir ++ [k_name k]) = f !! (dir ++ [k_name k]) -> holds dir f k -> holds dir f' k.
Proof. unfold holds. intros ->. done. Qed.

(** The names the tool writes besides the packages. *)
Definition own_names : list string :=
  ["Packages"; "Packages.gz"; "Release"; "InRelease"; "Release.gpg"; "weave-archive-keyring.asc"].
Lemma deb_not_own n m : is_deb n = true -> m ∈ own_names -> n <> m.
Proof.
  intros Hn Hm ->. unfold own_names in Hm. rewrite !elem_of_cons, elem_of_nil in Hm.
  destruct_or! Hm; subst; done.
Qed.

Lemma MkdirAll_files p (w : world X) u w' q c : MkdirAll p w = (Ok u, w') -> w_fs w' !! q = Some (File c) -> w_fs w !! q = Some (File c).
Proof.
  intros [_ H]%gradual_Ok Hq. go_inv H. destruct (mkdirs_lookup _ _ _ _ q E) as [H|[_ H]]; congruence.
Qed.

Lemma build_Ok src out key origin w u w' : safe_path src -> safe_path out -> safe_fs (w_fs w) ->
  build src out key origin w = (Ok u, w') ->
  exists ks, repository out key origin (w_fs w') ks /\
    Forall (fun k => w_fs w !! (src ++ [k_name k]) = Some (File (k_bytes k))) ks /\
    (key = "" -> w_fs w' !! (out ++ ["InRelease"]) = w_fs w !! (out ++ ["InRelease"])).
Proof.
  intros Hs Ho Hsafe H. unfold build, writeGzip in H. rewrite !Join_safe in H by (done || (apply Forall_singleton; by repeat split)).
  apply bind_Ok in H as (debs & w1 & H1 & H). apply glob_debs_Ok in H1 as (E1 & Hdebs & Hnd); [|done].
  case_bool_decide as Hne; [done|].
  apply bind_Ok in H as ([] & w2 & H2 & H). apply bind_Ok in H as (pk & w3 & H3 & H).
  apply add_debs_Ok in H3 as (F3 & ks & Hnames & Hks & Hsrc & Hpk); [|done|done| |done];
    [|eapply list.Forall_impl; [exact Hdebs|]; by intros ? [? ?]].
  simpl in Hpk. subst pk.
  apply bind_Ok in H as ([] & w4 & H4 & H). apply WriteFile_Ok in H4 as [P4 F4].
  apply bind_Ok in H as ([] & w5 & H5 & H). apply WriteFile_Ok in H5 as [P5 F5].
  apply bind_Ok in H as (r & w6 & H6 & H).
  assert (w_fs w5 !! (out ++ ["Packages"]) = Some (File (packages_text ks))) as P5' by (rewrite F5; [done|by apply snoc_ne]).
  destruct (releaseFile_Ok _ _ _ _ _ _ _ Ho H6 P5' P5) as [E6 ->].
  apply bind_Ok in H as ([] & w7 & H7 & H). apply WriteFile_Ok in H7 as [P7 F7].
  assert (exists S, (forall n, n ∉ S -> w_fs w' !! (out ++ [n]) = w_fs w7 !! (out ++ [n])) /\
    S ⊆ own_names /\ ("Packages" ∉ S) /\ ("Packages.gz" ∉ S) /\ ("Release" ∉ S) /\ (key = "" -> "InRelease" ∉ S) /\
    (key <> "" -> exists sig, w_fs w' !! (out ++ ["InRelease"]) = Some (File sig) /\
       clearsign key (text_of (release_lines origin (packages_text ks) (gzip (packages_text ks)))) = Some sig)) as
    (S & F & HS & N1 & N2 & N3 & N4 & Hsig).
  { destruct (String.eqb_spec key "") as [->|Hkey].
    - unfold ret in H. simplify_eq. exists []. split_and!; [done|by intros ? ?%not_elem_of_nil|decide_now..|intros _; decide_now|done].
    - destruct (sign_Ok _ _ _ _ _ _ Ho H P7) as [Hsig F]. exists ["InRelease"; "Release.gpg"; "weave-archive-keyring.asc"].
      split_and!; [done| |decide_now..|done|done]. unfold own_names. intros x. rewrite !elem_of_cons. tauto. }
  assert (Forall (fun k => safe_component (k_name k) /\ is_deb (k_name k) = true) ks) as Hall
    by (rewrite <-Hnames in Hdebs; by apply list.Forall_fmap in Hdebs).
  exists ks. split_and!; [|eapply list.Forall_impl; [exact Hsrc|]; intros k Hk; rewrite <-E1; by eapply MkdirAll_files|].
  2: { intros Hk. rewrite F by auto. rewrite F7, E6, F5, F4, F3; [|intros n Hn; rewrite list.Forall_forall in Hdebs;
         apply snoc_ne; intros <-; by destruct (Hdebs _ Hn)|by apply snoc_ne..]. rewrite <-E1.
       change w2 with (snd (@Ok errno unit tt, w2)). rewrite <-H2. apply (touches_elim _ _ _ _ (touches_MkdirAll out)).
       rewrite below_shorter; [done|]. rewrite length_app. simpl. lia. }
  split; [|done| | | | |exact Hsig].
  - intros ->. by rewrite <-Hnames in Hne.
  - rewrite list.Forall_forall in Hks, Hall |- *. intros k Hk. destruct (Hall k Hk) as [_ Hdeb].
    assert (forall m, m ∈ own_names -> k_name k <> m) as Hm by (intros; by apply deb_not_own).
    eapply holds_frame; [|by apply Hks]. rewrite F by (intros Hin%HS; by eapply Hm).
    rewrite F7, E6, F5, F4 by (apply snoc_ne, Hm; decide_now). done.
  - rewrite F by done. rewrite F7, E6 by (by apply snoc_ne). done.
  - rewrite F by done. rewrite F7, E6 by (by apply snoc_ne). done.
  - by rewrite F.
Qed.

(** ** Verification of what is there *)

(** The digest and file a line of Release asks to check, if it does. *)
Definition claim_of (line : string) : option (string * string) :=
  if negb (has_prefix " " line) then None
  else match fields line with
  | [h; _; name] => if (String.length h =? 64)%nat then Some (h, name) else None
  | _ => None
  end.
Definition stanza_claim (st : string) : option (string * string) :=
  let (name, want) := stanza_fields st in
  if String.eqb name "" || String.eqb want "" then None else Some (want, Base name).

(** The file has the digest. *)
Definition matches (dir : path) (f : fs) (x : string * string) : Prop :=
  exists c, f !! Join dir [x.2] = Some (File c) /\ hex_encode (sha256 c) = x.1.

Lemma check_release_eq dir line ls n : check_release dir (line :: ls) n =
  match claim_of line with
  | Some (h, name) => s <-! digests (Join dir [name]) ;;
      if negb (String.eqb (s_sha256 s) h) then fail (msg "SHA256 in Release does not match the file") else check_release dir ls (S n)
  | None => check_release dir ls n
  end.
Proof.
  cbn [check_release]. unfold claim_of. destruct (negb (has_prefix " " line)); [done|].
  destruct (fields line) as [|h [|x [|name [|]]]]; try done. by destruct (String.length h =? 64)%nat.
Qed.

Lemma check_packages_eq dir st ss n : check_packages dir (st :: ss) n =
  match stanza_claim st with
  | Some (want, base) => s <-! digests (Join dir [base]) ;;
      if negb (String.eqb (s_sha256 s) want) then fail (msg "SHA256 in Packages does not match the file") else check_packages dir ss (S n)
  | None => check_packages dir ss n
  end.
Proof.
  cbn [check_packages]. unfold stanza_claim. destruct (stanza_fields st) as [name want].
  by destruct (String.eqb name "" || String.eqb want "").
Qed.

(** On a calm machine whose files match, both loops count their claims. *)
Lemma check_calm (check : list string -> nat -> M X nat) (claim : string -> option (string * string)) fm dir w :
  calm w -> (forall n, check [] n = ret n) ->
  (forall l ls n, check (l :: ls) n = match claim l with
     | Some (h, name) => s <-! digests (Join dir [name]) ;;
         if negb (String.eqb (s_sha256 s) h) then fail (msg fm) else check ls (S n)
     | None => check ls n
     end) ->
  forall ls n, Forall (matches dir (w_fs w)) (omap claim ls) -> check ls n w = (Ok (n + length (omap claim ls))%nat, w).
Proof.
  intros Hc H0 H1 ls. induction ls as [|l ls IH]; intros n Hm.
  - rewrite H0. unfold ret. simpl. by rewrite Nat.add_0_r.
  - rewrite H1. cbn [omap list_omap] in *. destruct (claim l) as [[h name]|]; [|by apply IH].
    apply list.Forall_cons_1 in Hm as [(c & Hf & Hh) Hm]. unfold bind. rewrite (digests_calm _ _ c) by done.
    simpl in *. rewrite Hh, String.eqb_refl. simpl. rewrite IH by done. f_equal. f_equal. simpl. lia.
Qed.

(** When a loop succeeds, whatever the machine did, every claim held. *)
Lemma check_sound (check : list string -> nat -> M X nat) (claim : string -> option (string * string)) fm dir :
  (forall n, check [] n = ret n) ->
  (forall l ls n, check (l :: ls) n = match claim l with
     | Some (h, name) => s <-! digests (Join dir [name]) ;;
         if negb (String.eqb (s_sha256 s) h) then fail (msg fm) else check ls (S n)
     | None => check ls n
     end) ->
  forall ls n w m w', check ls n w = (Ok m, w') ->
    w_fs w' = w_fs w /\ Forall (matches dir (w_fs w)) (omap claim ls) /\ m = (n + length (omap claim ls))%nat.
Proof.
  intros H0 H1 ls. induction ls as [|l ls IH]; intros n w m w' H.
  - rewrite H0 in H. unfold ret in H. simplify_eq. split_and!; [done|constructor|simpl; lia].
  - rewrite H1 in H. cbn [omap list_omap]. destruct (claim l) as [[h name]|]; [|by apply IH].
    apply bind_Ok in H as (s & w1 & Hd & H). apply digests_Ok in Hd as [E (c & Hc & ->)].
    destruct (String.eqb_spec (s_sha256 (sums_of c)) h) as [Hh|]; [|done]. simpl in H.
    apply IH in H as (E' & Hm & ->). split_and!; [congruence| |simpl; lia].
    constructor; [by exists c|]. by rewrite <-E.
Qed.

(** What [verifyRepo] accepts is consistent: every index Release lists with a
    SHA-256 digest, at least one, is present and has it, every stanza of Packages that
    names a file and a SHA-256 digest, at least one, is about a present file with that
    digest, and an InRelease that could be seen carries a good signature. *)
Theorem verifyRepo_sound dir w w' :
  verifyRepo dir w = (Ok tt, w') ->
  exists rel pk, w_fs w !! Join dir ["Release"] = Some (File rel) /\ w_fs w !! Join dir ["Packages"] = Some (File pk) /\
    let idx := omap claim_of (split nl rel) in let pkgs := omap stanza_claim (split_on (lf +++ lf) pk) in
    idx <> [] /\ Forall (matches dir (w_fs w)) idx /\ pkgs <> [] /\ Forall (matches dir (w_fs w)) pkgs /\
    (calm w -> forall sig, w_fs w !! Join dir ["InRelease"] = Some (File sig) -> gpg_verify sig = true).
Proof.
  unfold verifyRepo. intros H. unfold bind at 1, attempt in H.
  assert (w_fs (snd (Stat (Join dir ["InRelease"]) w)) = w_fs w) as E0 by (apply touches_none, touches_Stat).
  destruct (Stat (Join dir ["InRelease"]) w) as [st w1] eqn:Est. cbn [snd] in E0.
  apply bind_Ok in H as ([] & w2 & H2 & H).
  assert (w_fs w2 = w_fs w /\ (calm w -> forall sig, w_fs w !! Join dir ["InRelease"] = Some (File sig) -> gpg_verify sig = true))
    as [E2 Hsig].
  { destruct st as [b|e].
    - apply bind_Ok in H2 as (sig & w3 & H3 & H4). apply ReadFile_Ok in H3 as [E3 Hs].
      destruct (gpg_verify sig) eqn:Eg; [|done]. unfold ret in H4. simplify_eq. split; [congruence|].
      intros _ sig' Hs'. rewrite E0, Hs' in Hs. by simplify_eq.
    - unfold ret in H2. simplify_eq. split; [done|]. intros Hc sig Hs. unfold Stat in Est. rewrite observe_calm in Est by done.
      rewrite Hs in Est. by destruct (is_dir _ _). }
  apply bind_Ok in H as (rel & w3 & H3 & H). apply ReadFile_Ok in H3 as [E3 Hrel].
  apply bind_Ok in H as (n & w4 & H4 & H).
  apply (check_sound (check_release dir) claim_of "SHA256 in Release does not match the file" dir) in H4 as (E4 & Hm & ->); [|done|apply check_release_eq].
  destruct (Nat.eqb_spec (0 + length (omap claim_of (split nl rel))) 0) as [|Hn]; [done|].
  apply bind_Ok in H as (pk & w5 & H5 & H). apply ReadFile_Ok in H5 as [E5 Hpk].
  apply bind_Ok in H as (m & w6 & H6 & H).
  apply (check_sound (check_packages dir) stanza_claim "SHA256 in Packages does not match the file" dir) in H6 as (E6 & Hm' & ->); [|done|apply check_packages_eq].
  destruct (Nat.eqb_spec (0 + length (omap stanza_claim (split_on (lf +++ lf) pk))) 0) as [|Hn']; [done|].
  rewrite E4, E3, E2 in Hpk. rewrite E5, E4, E3, E2 in Hm'. rewrite E3, E2 in Hm. rewrite E2 in Hrel.
  exists rel, pk. cbv zeta. split_and!; [done|done| |done| |done|done]; intros E; rewrite E in *; done.
Qed.

(** ** Round trip *)

(** Hexadecimal and decimal digits. *)
Definition plain (c : ascii) : bool := is_digit c || in_range "a" "f" c.

Lemma plain_not_space c : plain c = true ->
  forallb (fun e => match e with String d _ => negb (Ascii.eqb d c) | "" => true end) space_encodings = true /\ Ascii.eqb c nl = false.
Proof. destruct c as [[] [] [] [] [] [] [] []]; vm_compute; intros; (split; reflexivity) || discriminate. Qed.

Lemma plain_solid s : all_chars plain s = true -> solid s = true /\ contains nl s = false.
Proof.
  unfold solid. induction s as [|c s IH]; [done|]. cbn [all_chars contains]. intros [Hc Hs]%andb_true_iff.
  apply plain_not_space in Hc as [-> ->]. destruct (IH Hs) as [-> ->]. done.
Qed.

Lemma hex_plain s : all_chars plain (hex_encode s) = true.
Proof.
  induction s as [|c s IH]; [done|]. cbn [hex_encode all_chars]. rewrite IH, andb_true_r.
  destruct c as [[] [] [] [] [] [] [] []]; reflexivity.
Qed.

Lemma digits_plain s : all_chars is_digit s = true -> all_chars plain s = true.
Proof.
  induction s as [|c s IH]; [done|]. simpl. intros [Hc Hs]%andb_true_iff. unfold plain at 1. by rewrite Hc, IH.
Qed.

Lemma size_plain (c : string) : let t := format_int (Z.of_nat (String.length c)) in
  all_chars plain t = true /\ t <> "".
Proof.
  cbv zeta. unfold format_int. rewrite (proj2 (Z.ltb_ge _ _)) by lia. split.
  - apply digits_plain, format_uint_digits. lia.
  - apply format_uint_not_nil.
Qed.

Section RoundTrip.
(** The sizes of the digests, the shape of the date, and that gpg accepts what it
    signs. *)
Hypothesis md5_size : forall c, String.length (md5 c) = 16%nat.
Hypothesis sha1_size : forall c, String.length (sha1 c) = 20%nat.
Hypothesis sha256_size : forall c, String.length (sha256 c) = 32%nat.
Hypothesis date_line : contains nl date = false.
Hypothesis gpg_accepts : forall key r sig, clearsign key r = Some sig -> gpg_verify sig = true.

Lemma index_entry_claim (digest : sums -> string) (raw : string -> string) name c :
  (forall x, digest (sums_of x) = hex_encode (raw x)) -> raw c <> "" -> solid name = true -> name <> "" -> contains nl name = false ->
  claim_of (index_entry digest name c) =
    (if (2 * String.length (raw c) =? 64)%nat then Some (hex_encode (raw c), name) else None) /\
  contains nl (index_entry digest name c) = false.
Proof.
  intros Hd Hne Hs Hn Hnl. unfold claim_of, index_entry. rewrite Hd.
  destruct (plain_solid _ (hex_plain (raw c))) as [H1 H1']. destruct (size_plain c) as [H2 H2n].
  destruct (plain_solid _ H2) as [H3 H3'].
  assert (hex_encode (raw c) <> "") as Hh by (by destruct (raw c)).
  split; [|by rewrite !contains_app, H1', H3', Hnl].
  change (has_prefix " " (" " +++ ?x)) with true. cbn [negb].
  rewrite fields_three by done. by rewrite hex_encode_length.
Qed.

Lemma omap_cons_eq {A B} (g : A -> option B) x l :
  omap g (x :: l) = match g x with Some y => y :: omap g l | None => omap g l end.
Proof. done. Qed.

Lemma release_claims origin pk gz : contains nl origin = false ->
  omap claim_of (split nl (text_of (release_lines origin pk gz))) =
    [(hex_encode (sha256 pk), "Packages"); (hex_encode (sha256 gz), "Packages.gz")].
Proof.
  intros Ho.
  assert (forall (raw : string -> string) c n, String.length (raw c) = S n -> raw c <> "") as Hraw by (by intros raw c n H E; rewrite E in H).
  assert (forall name c, solid name = true -> name <> "" -> contains nl name = false ->
    claim_of (index_entry s_md5 name c) = None /\ contains nl (index_entry s_md5 name c) = false) as M.
  { intros name c ? ? ?. destruct (index_entry_claim s_md5 md5 name c) as [-> ->]; try done; [by eapply Hraw|]. by rewrite md5_size. }
  assert (forall name c, solid name = true -> name <> "" -> contains nl name = false ->
    claim_of (index_entry s_sha1 name c) = None /\ contains nl (index_entry s_sha1 name c) = false) as S1.
  { intros name c ? ? ?. destruct (index_entry_claim s_sha1 sha1 name c) as [-> ->]; try done; [by eapply Hraw|]. by rewrite sha1_size. }
  assert (forall name c, solid name = true -> name <> "" -> contains nl name = false ->
    claim_of (index_entry s_sha256 name c) = Some (hex_encode (sha256 c), name) /\ contains nl (index_entry s_sha256 name c) = false) as S2.
  { intros name c ? ? ?. destruct (index_entry_claim s_sha256 sha256 name c) as [-> ->]; try done; [by eapply Hraw|]. by rewrite sha256_size. }
  destruct (M "Packages" pk eq_refl ltac:(done) eq_refl) as [M1 M1'], (M "Packages.gz" gz eq_refl ltac:(done) eq_refl) as [M2 M2'].
  destruct (S1 "Packages" pk eq_refl ltac:(done) eq_refl) as [A1 A1'], (S1 "Packages.gz" gz eq_refl ltac:(done) eq_refl) as [A2 A2'].
  destruct (S2 "Packages" pk eq_refl ltac:(done) eq_refl) as [B1 B1'], (S2 "Packages.gz" gz eq_refl ltac:(done) eq_refl) as [B2 B2'].
  rewrite split_text_of.
  - assert (forall l ls, has_prefix " " l = false -> omap claim_of (l :: ls) = omap claim_of ls) as Hskip
      by (intros l ls Hl; rewrite omap_cons_eq; unfold claim_of at 1; by rewrite Hl).
    unfold release_lines, section_lines. cbn [app].
    do 6 (rewrite Hskip by reflexivity). rewrite Hskip by reflexivity. rewrite !omap_cons_eq, M1, M2, A1, A2, B1, B2. reflexivity.
  - unfold release_lines, section_lines. repeat constructor; try done; by rewrite contains_app, ?Ho, ?date_line.
Qed.

Lemma Base_dot n : safe_component n -> Base ("./" +++ n) = n.
Proof.
  intros (H1 & _ & _ & Hs & _). unfold Base.
  assert (trim_right "/" ("./" +++ n) = "./" +++ n) as ->.
  { unfold trim_right. assert (exists c r, srev n = String c r /\ Ascii.eqb c "/" = false) as (c & r & E & Hc).
    { destruct (srev n) as [|c r] eqn:E; [apply (f_equal srev) in E; rewrite srev_involutive in E; done|].
      exists c, r. split; [done|]. assert (contains "/" (srev r +++ String c "") = false) as Hn.
      { rewrite <-srev_cons, <-E, srev_involutive. done. }
      rewrite contains_app in Hn. apply orb_false_iff in Hn as [_ Hn]. simpl in Hn. by rewrite orb_false_r in Hn. }
    rewrite srev_sapp, E. cbn [String.append drop_char]. rewrite Hc. change (String c (r +++ srev "./")) with (String c r +++ srev "./").
    rewrite <-E, <-srev_sapp. apply srev_involutive. }
  simpl. by rewrite split_no_sep.
Qed.

Lemma body_claim k : safe_component (k_name k) -> contains nl (k_name k) = false ->
  stanza_claim (body k) = Some (hex_encode (sha256 (k_bytes k)), k_name k).
Proof.
  intros Hs Hn. unfold stanza_claim, stanza_fields, body.
  destruct (plain_solid _ (hex_plain (md5 (k_bytes k)))) as [_ H1], (plain_solid _ (hex_plain (sha1 (k_bytes k)))) as [_ H2].
  destruct (plain_solid _ (hex_plain (sha256 (k_bytes k)))) as [_ H3], (size_plain (k_bytes k)) as [H4 _].
  apply plain_solid in H4 as [_ H4].
  rewrite split_more_lines by (unfold stanza_lines; repeat constructor; by rewrite contains_app, ?Hn, ?H1, ?H2, ?H3, ?H4).
  rewrite fold_left_app. destruct (fold_left stanza_field (split nl _) _) as [x y]. cbn [stanza_lines fold_left].
  unfold stanza_field. pose proof (Base_dot _ Hs) as Hb. simpl in Hb |- *. rewrite Hb.
  destruct (hex_encode (sha256 (k_bytes k))) eqn:E; [|done].
  apply (f_equal String.length) in E. rewrite hex_encode_length, sha256_size in E. done.
Qed.

Lemma packages_claims ks :
  Forall (fun k => safe_component (k_name k) /\ contains nl (k_name k) = false /\ no_gap (trim_right nl (k_control k)) = true) ks ->
  omap stanza_claim (split_on (lf +++ lf) (packages_text ks)) = (fun k => (hex_encode (sha256 (k_bytes k)), k_name k)) <$> ks.
Proof.
  intros H. unfold packages_text. rewrite split_paragraphs.
  - rewrite omap_app. simpl. rewrite app_nil_r. induction H as [|k ks (Hs & Hn & _) _ IH]; [done|].
    rewrite !fmap_cons. cbn [omap list_omap]. rewrite body_claim by done. by f_equal.
  - apply list.Forall_fmap. eapply list.Forall_impl; [exact H|]. intros k (Hs & Hn & Hg). unfold compose, body.
    apply no_gap_more; [done|].
    destruct (plain_solid _ (hex_plain (md5 (k_bytes k)))) as [_ H1], (plain_solid _ (hex_plain (sha1 (k_bytes k)))) as [_ H2].
    destruct (plain_solid _ (hex_plain (sha256 (k_bytes k)))) as [_ H3], (size_plain (k_bytes k)) as [H4 _].
    apply plain_solid in H4 as [_ H4].
    unfold stanza_lines. repeat constructor; try done; by rewrite contains_app, ?Hn, ?H1, ?H2, ?H3, ?H4.
Qed.

Lemma repository_verifies dir key origin w ks :
  calm w -> safe_path dir -> contains nl origin = false -> repository dir key origin (w_fs w) ks ->
  Forall (fun k => contains nl (k_name k) = false /\ no_gap (trim_right nl (k_control k)) = true) ks ->
  match w_fs w !! (dir ++ ["InRelease"]) with None => True | Some (File sig) => gpg_verify sig = true | Some Dir => False end ->
  verifyRepo dir w = (Ok tt, w).
Proof.
  intros Hc Hd Ho [R1 R2 R3 R4 R5 R6 _] Hok Hsig. unfold verifyRepo.
  rewrite !Join_safe by (done || (apply Forall_singleton; by repeat split)).
  assert (matches_in : forall n c, safe_component n -> w_fs w !! (dir ++ [n]) = Some (File c) ->
    matches dir (w_fs w) (hex_encode (sha256 c), n)).
  { intros n c Hn Hf. exists c. split; [|done]. cbn [snd]. by rewrite Join_safe by (done || by apply Forall_singleton). }
  rewrite bind_attempt. unfold Stat. rewrite observe_calm by done. cbn [fst snd].
  assert (is_dir (w_fs w) (dir ++ ["InRelease"]) = bool_decide (w_fs w !! (dir ++ ["InRelease"]) = Some Dir)) as -> by (by destruct dir).
  match goal with |- bind ?c _ _ = _ => assert (c w = (Ok tt, w)) as Hin end.
  { destruct (w_fs w !! (dir ++ ["InRelease"])) as [[sig|]|] eqn:Ei; [|done|done]. rewrite bool_decide_false by done.
    unfold bind. rewrite (ReadFile_file _ _ sig) by done. by rewrite Hsig. }
  unfold bind at 1. rewrite Hin. clear Hin. unfold bind at 1. rewrite (ReadFile_file _ _ _ Hc R6).
  unfold bind at 1. rewrite (check_calm (check_release dir) claim_of _ dir w Hc ltac:(done) (check_release_eq dir)); rewrite release_claims by done.
  2: { repeat constructor; apply matches_in; done || by repeat split. }
  cbn [length Nat.add Nat.eqb]. unfold bind at 1. rewrite (ReadFile_file _ _ _ Hc R4).
  assert (Forall (fun k => safe_component (k_name k) /\ contains nl (k_name k) = false /\ no_gap (trim_right nl (k_control k)) = true) ks) as Hall.
  { rewrite list.Forall_forall in *. intros k Hk. destruct (R2 k Hk), (Hok k Hk). done. }
  unfold bind at 1. rewrite (check_calm (check_packages dir) stanza_claim _ dir w Hc ltac:(done) (check_packages_eq dir)); rewrite packages_claims by done.
  - rewrite length_fmap. by destruct ks.
  - apply list.Forall_fmap. rewrite list.Forall_forall in *. intros k Hk. apply matches_in; [by apply R2|]. by apply R3.
Qed.

(** The packages of a source directory that the format can carry: their names are
    single lines, their control files single paragraphs. *)
Definition presentable (src : path) (f : fs) : Prop :=
  forall n c, f !! (src ++ [n]) = Some (File c) -> contains nl n = false /\
    forall ctl, control_of c = Some (Ok ctl) -> no_gap (trim_right nl ctl) = true.

Lemma built_presentable src f out key origin f' ks : presentable src f -> repository out key origin f' ks ->
  Forall (fun k => f !! (src ++ [k_name k]) = Some (File (k_bytes k))) ks ->
  Forall (fun k => contains nl (k_name k) = false /\ no_gap (trim_right nl (k_control k)) = true) ks.
Proof.
  intros Hsrc Hrepo Hks. pose proof (re_holds _ _ _ _ _ Hrepo) as Hh. rewrite list.Forall_forall in *. intros k Hk.
  destruct (Hsrc _ _ (Hks k Hk)) as [Hn Hctl]. split; [done|]. apply Hctl. by apply Hh.
Qed.

(** C35. Round trip: a repository the tool has built passes its own verification, for
    every way the build's calls could have gone as long as it reported success and the
    packages are presentable; an unsigned build must not find an old InRelease in its
    way. *)
Theorem build_verifies src out key origin w u w' w2 :
  safe_path src -> safe_path out -> safe_fs (w_fs w) -> contains nl origin = false -> presentable src (w_fs w) ->
  build src out key origin w = (Ok u, w') -> calm w2 -> w_fs w2 = w_fs w' ->
  (key = "" -> w_fs w !! (out ++ ["InRelease"]) = None) ->
  verifyRepo out w2 = (Ok tt, w2).
Proof.
  intros Hs Ho Hsafe Hor Hsrc Hb Hc Hf Hun. destruct (build_Ok _ _ _ _ _ _ _ Hs Ho Hsafe Hb) as (ks & Hrepo & Hks & Hin).
  pose proof (built_presentable _ _ _ _ _ _ _ Hsrc Hrepo Hks) as Hok. rewrite <-Hf in Hrepo, Hin.
  eapply repository_verifies; [done..|]. destruct (String.eqb_spec key "") as [Hk|Hk].
  - by rewrite (Hin Hk), (Hun Hk).
  - destruct (re_signed _ _ _ _ _ Hrepo Hk) as (sig & -> & Hcs). by eapply gpg_accepts.
Qed.

(** The verification does not tie the signature to the index: an unsigned build
    into a directory that still holds the InRelease of an earlier one succeeds and
    passes, although the text that was signed is not the Release that was checked, and
    apt, which trusts InRelease, would refuse the repository. *)
Theorem stale_signature_accepted src out origin w u w' w2 old :
  safe_path src -> safe_path out -> safe_fs (w_fs w) -> contains nl origin = false -> presentable src (w_fs w) ->
  build src out "" origin w = (Ok u, w') -> calm w2 -> w_fs w2 = w_fs w' ->
  w_fs w !! (out ++ ["InRelease"]) = Some (File old) -> gpg_verify old = true ->
  verifyRepo out w2 = (Ok tt, w2) /\ w_fs w2 !! (out ++ ["InRelease"]) = Some (File old).
Proof.
  intros Hs Ho Hsafe Hor Hsrc Hb Hc Hf Hold Hg. destruct (build_Ok _ _ _ _ _ _ _ Hs Ho Hsafe Hb) as (ks & Hrepo & Hks & Hin).
  pose proof (built_presentable _ _ _ _ _ _ _ Hsrc Hrepo Hks) as Hok. rewrite <-Hf in Hrepo, Hin.
  specialize (Hin eq_refl). rewrite Hold in Hin. split; [|done].
  eapply repository_verifies; [done..|]. by rewrite Hin.
Qed.
End RoundTrip.
End Tool.

(** ** Witnesses: one package, signed with a toy key *)

Definition toy_md5 (_ : string) : string := repeat_char 16 "m".
Definition toy_sha1 (_ : string) : string := repeat_char 20 "s".
Definition toy_sha256 (c : string) : string := stake 32 (c +++ repeat_char 32 "x").
Definition toy_gzip (c : string) : string := "gz" +++ c.
Definition toy_untar (x : string * bool) : list (string * result errno string) * bool := ([("./control", Ok x.1)], true).
Definition toy_sign (_ r : string) : option string := Some ("signed:" +++ r).
Definition toy_verify (s : string) : bool := has_prefix "signed:" s.
Definition toy_control : string := "Package: weave" +++ lf +++ "Version: 1" +++ lf.
Definition toy_deb : string := ar_archive [("debian-binary", "2.0" +++ lf); ("control.tar", toy_control)] "data".
Definition toy_source (extra : fs) : fs := <[["in"] := Dir]> (<[["in"; "w.deb"] := File toy_deb]> (<[["out"] := Dir]> extra)).
Definition toy_world (f : fs) : world unit := mkWorld f [] true 0 tt.
Definition toy_build (key : string) (f : fs) : result errno unit * world unit :=
  build toy_md5 toy_sha1 toy_sha256 toy_gzip (fun _ => None) toy_untar toy_sign toy_sign (fun k => Some k) "Mon"
    ["in"] ["out"] key "weave" (toy_world f).
Definition toy_verifyRepo (w : world unit) : result errno unit * world unit :=
  verifyRepo toy_md5 toy_sha1 toy_sha256 toy_verify ["out"] w.

Example toy_builds : is_ok (fst (toy_build "K" (toy_source ∅))) = true.
Proof. by vm_compute. Qed.

Lemma control_of_archive_witness :
  control_of (fun _ => None) toy_untar toy_deb = Some (controlFromTar (fun _ => None) toy_untar "control.tar" toy_control).
Proof.
  apply (control_of_archive (fun _ => None) toy_untar [("debian-binary", "2.0" +++ lf)] "control.tar" toy_control "data").
  - repeat constructor; try done; simpl; lia.
  - repeat constructor; try done; simpl; lia.
  - reflexivity.
Defined.

Lemma toy_presentable extra : (forall n, extra !! ["in"; n] = None) ->
  presentable (fun _ => None) toy_untar ["in"] (toy_source extra).
Proof.
  intros He n c H. unfold toy_source in H. simpl in H.
  apply lookup_insert_Some in H as [[E _]|[_ H]]; [done|]. apply lookup_insert_Some in H as [[E H]|[_ H]].
  2: { apply lookup_insert_Some in H as [[E _]|[_ H]]; [done|]. by rewrite He in H. }
  injection E as <-. injection H as <-. split; [reflexivity|]. intros ctl Hctl.
  assert (control_of (fun _ => None) toy_untar toy_deb = Some (Ok toy_control)) as Hd by (vm_compute; reflexivity).
  rewrite Hd in Hctl. injection Hctl as <-. reflexivity.
Qed.

Lemma toy_sizes : (forall c, String.length (toy_md5 c) = 16%nat) /\ (forall c, String.length (toy_sha1 c) = 20%nat) /\
  (forall c, String.length (toy_sha256 c) = 32%nat).
Proof. split_and!; intros c; [done|done|]. apply stake_length. rewrite slength_app, repeat_char_length. lia. Qed.

Lemma toy_safe extra : safe_fs extra -> safe_fs (toy_source extra).
Proof.
  intros He p [n Hn]. unfold toy_source in Hn.
  apply lookup_insert_Some in Hn as [[<- _]|[_ Hn]]; [safe_list|].
  apply lookup_insert_Some in Hn as [[<- _]|[_ Hn]]; [safe_list|].
  apply lookup_insert_Some in Hn as [[<- _]|[_ Hn]]; [safe_list|]. apply He. eauto.
Qed.

Definition toy_built : world unit := snd (toy_build "K" (toy_source ∅)).

Lemma build_verifies_witness :
  is_ok (fst (toy_build "K" (toy_source ∅))) = true /\ toy_verifyRepo toy_built = (Ok tt, toy_built).
Proof.
  split; [by vm_compute|]. destruct toy_sizes as (S1 & S2 & S3).
  apply (build_verifies toy_md5 toy_sha1 toy_sha256 toy_gzip (fun _ => None) toy_untar toy_sign toy_sign (fun k => Some k) toy_verify
    "Mon" S1 S2 S3 eq_refl) with (src := ["in"]) (key := "K") (origin := "weave") (w := toy_world (toy_source ∅)) (u := tt) (w' := toy_built).
  - intros key r sig [= <-]. reflexivity.
  - safe_list.
  - safe_list.
  - apply toy_safe. by intros p [n ?].
  - reflexivity.
  - by apply toy_presentable.
  - unfold toy_built. transitivity (fst (toy_build "K" (toy_source ∅)), snd (toy_build "K" (toy_source ∅)));
      [apply surjective_pairing|]. apply f_equal2; [by vm_compute|done].
  - split; vm_compute; reflexivity.
  - reflexivity.
  - discriminate.
Defined.

Lemma verifyRepo_sound_witness :
  exists rel pk, w_fs toy_built !! ["out"; "Release"] = Some (File rel) /\ w_fs toy_built !! ["out"; "Packages"] = Some (File pk) /\
    omap claim_of (split nl rel) <> [] /\
    Forall (matches toy_sha256 ["out"] (w_fs toy_built)) (omap stanza_claim (split_on (lf +++ lf) pk)).
Proof.
  destruct (verifyRepo_sound toy_md5 toy_sha1 toy_sha256 toy_verify ["out"] toy_built toy_built) as (rel & pk & H1 & H2 & H3 & _ & _ & H4 & _).
  - vm_compute. reflexivity.
  - exists rel, pk. split_and!; [exact H1|exact H2|exact H3|exact H4].
Defined.

(** The signature of last year's index is still there. *)
Definition toy_stale : fs := toy_source {[ ["out"; "InRelease"] := File "signed:last year" ]}.
Definition toy_rebuilt : world unit := snd (toy_build "" toy_stale).

Lemma stale_signature_accepted_witness :
  toy_verifyRepo toy_rebuilt = (Ok tt, toy_rebuilt) /\
  w_fs toy_rebuilt !! ["out"; "InRelease"] = Some (File "signed:last year") /\
  w_fs toy_rebuilt !! ["out"; "Release"] <> Some (File "last year").
Proof.
  destruct toy_sizes as (S1 & S2 & S3).
  destruct (stale_signature_accepted toy_md5 toy_sha1 toy_sha256 toy_gzip (fun _ => None) toy_untar toy_sign toy_sign (fun k => Some k) toy_verify
    "Mon" S1 S2 S3 eq_refl ["in"] ["out"] "weave" (toy_world toy_stale) tt toy_rebuilt toy_rebuilt "signed:last year") as [H1 H2].
  - safe_list.
  - safe_list.
  - apply toy_safe. intros p [n [<- _]%lookup_singleton_Some]. safe_list.
  - reflexivity.
  - apply toy_presentable. intros n. by rewrite lookup_singleton_ne.
  - unfold toy_rebuilt. transitivity (fst (toy_build "" toy_stale), snd (toy_build "" toy_stale));
      [apply surjective_pairing|]. apply f_equal2; [by vm_compute|done].
  - split; vm_compute; reflexivity.
  - reflexivity.
  - reflexivity.
  - reflexivity.
  - split_and!; [exact H1|exact H2|]. vm_compute. discriminate.
Defined.
End aptrepo.
