(* ===== verification/Tools.v ===== *)
(** * Health across the process boundary, and the remaining programs

    [health]: a module's [Health] on its way to the supervisor (sdk/modulesdk/module.go,
    lifecycle.go and internal/supervise).  [policyfeed]: the policy stream up to the
    module's channel.  [tools]: the [main] functions of cmd/weavemanifest and
    packaging/apt/aptrepo over what [Signing] and [AptRepo] model, and the two small
    platform-dependent look-ups that remain. *)

From stdpp Require Import base list strings gmap.
From Stdlib Require Import ZArith Lia Ascii.
From S2P Require Import Prelude.
From S2P Require Import GoStrings.
From S2P Require Import Paths.
From S2P Require Import FileSystem.
From S2P Require Import Json.
From S2P Require Import Manifest.
From S2P Require Import Signing.
From S2P Require Import Policy.
From S2P Require Import Supervisor.
From S2P Require Import HostClient.
From S2P Require Import Streams.
From S2P Require Import Control.
From S2P Require Import Commands.
From S2P Require Import AptRepo.
Open Scope go_scope.
Open Scope Z_scope.

Local Infix "+++" := String.append (at level 60, right associativity).

(** ** Health *)

Module health.
Import supervise.

(** [HealthStatus] is an int; the SDK names four values. *)
Definition HealthUnknown : Z := 0.
Definition HealthHealthy : Z := 1.
Definition HealthDegraded : Z := 2.
Definition HealthUnhealthy : Z := 3.
Record Health := mkHealth { Status : Z; Reason : string; Details : gmap string string }.

(** [moduleServer.Health]: the status becomes an enum of 32 bits on the wire. *)
Definition moduleServer_Health (h : Health) : Z * string * gmap string string :=
  (controlsock.i32 (Status h), Reason h, Details h).
(** The values [pollHealth] tells apart. *)
Definition status_of (n : Z) : health_status :=
  if n =? 1 then HEALTHY else if n =? 2 then DEGRADED else if n =? 3 then UNHEALTHY else UNSPECIFIED.
(** A poll: it fails, or brings what the module answers. *)
Definition poll (p : option Health) : option health_status := (fun h => status_of (moduleServer_Health h).1.1) <$> p.

Definition failing (p : option Health) : Prop :=
  match p with None => True | Some h => controlsock.i32 (Status h) = HealthUnhealthy end.

Lemma bad_poll p : bad (poll p) <-> failing p.
Proof.
  unfold bad, poll, failing, status_of, moduleServer_Health, HealthUnhealthy. destruct p as [h|]; simpl; [|by split; [|left]].
  destruct (Z.eqb_spec (controlsock.i32 (Status h)) 1); [split; [intros [?|?]; done|lia]|].
  destruct (Z.eqb_spec (controlsock.i32 (Status h)) 2); [split; [intros [?|?]; done|lia]|].
  destruct (Z.eqb_spec (controlsock.i32 (Status h)) 3); [by split; [|right]|split; [intros [?|?]; done|done]].
Qed.

(** A streak survives a map that preserves what it is a streak of. *)
Lemma bad_streak_polls n l :
  bad_streak n (poll <$> l) <->
  exists pre streak post, l = pre ++ streak ++ post /\ Forall failing streak /\ Z.of_nat (length streak) = n.
Proof.
  split.
  - intros (pre & st & post & E & Hb & Hl).
    apply fmap_app_inv in E as (l1 & l2 & -> & E & ->). symmetry in E.
    apply fmap_app_inv in E as (l3 & l4 & -> & -> & ->). exists l1, l3, l4.
    rewrite length_fmap in Hl. split_and!; [done| |done]. rewrite Forall_fmap in Hb.
    eapply Forall_impl; [exact Hb|]. intros p. apply bad_poll.
  - intros (pre & st & post & -> & Hf & Hl). exists (poll <$> pre), (poll <$> st), (poll <$> post).
    rewrite !fmap_app, length_fmap. split_and!; [done| |done]. apply Forall_fmap.
    eapply Forall_impl; [exact Hf|]. intros p. apply bad_poll.
Qed.

(** C31. Degraded is not unhealthy, from one process to the other: when nothing but polls
    happens, core restarts a module exactly when as many polls in a row as configured
    (three by default) failed or found it unhealthy.  So a module that always answers,
    and never with a status whose low 32 bits are three, is left alone however long
    it stays degraded. *)
Theorem health_end_to_end s started first l r :
  ((monitor s started (poll first) (HealthTick <$> (poll <$> l)) r).1.1 = Crashed <->
   exists pre streak post, first :: l = pre ++ streak ++ post /\ Forall failing streak /\
     Z.of_nat (length streak) = healthStrikes s) /\
  (Forall (fun p => exists h, p = Some h /\ controlsock.i32 (Status h) <> HealthUnhealthy) (first :: l) ->
   (monitor s started (poll first) (HealthTick <$> (poll <$> l)) r).1.1 <> Crashed).
Proof.
  assert ((monitor s started (poll first) (HealthTick <$> (poll <$> l)) r).1.1 = Crashed <->
   exists pre streak post, first :: l = pre ++ streak ++ post /\ Forall failing streak /\
     Z.of_nat (length streak) = healthStrikes s) as H.
  { rewrite health_strikes_exact. change (poll first :: (poll <$> l)) with (poll <$> (first :: l)). apply bad_streak_polls. }
  split; [exact H|]. intros Hall Hc. apply H in Hc as (pre & st & post & E & Hf & Hl).
  pose proof (strikes_pos s). destruct st as [|p st]; [simpl in Hl; lia|].
  rewrite E in Hall. apply Forall_app in Hall as [_ Hall]. apply Forall_cons in Hall as [(h & -> & Hn) _].
  apply Forall_cons in Hf as [Hp _]. done.
Qed.

(** *** Witness: degraded for four polls *)
Definition degraded : Health := mkHealth HealthDegraded "no display session" ∅.
Lemma health_end_to_end_witness :
  (monitor demo_sup 0 (poll (Some degraded)) (HealthTick <$> (poll <$> [Some degraded; Some degraded; Some degraded])) demo_runner).1.1
  <> Crashed.
Proof.
  apply (health_end_to_end demo_sup 0 (Some degraded) [Some degraded; Some degraded; Some degraded] demo_runner).
  repeat (apply Forall_cons_2; [exists degraded; split; [reflexivity|vm_compute; discriminate]|]). apply Forall_nil_2.
Defined.
End health.

(** ** Policy, up to the module's channel *)

Module policyfeed.
Import watching hostclient.

(** [policyClient.Watch] on what the stream carries: the documents, then its end. *)
Definition policyClient_Watch (docs : list (Z * string)) (hand : list bool) : list PolicyDocument * bool :=
  pump ((Some <$> ((fun d => policyDoc d.1 d.2) <$> docs)) ++ [None]) hand.

Section Feed.
Context {B : Type} {PB : PolicyBackend B} {PL : PolicyLaws B}.

(** Consecutive documents on a stream differ. *)
Fixpoint no_repeat (l : list (Z * string)) : Prop :=
  match l with
  | a :: (b :: _) as l' => a.2 <> b.2 /\ no_repeat l'
  | _ => True
  end.
Lemma no_repeat_snoc l d : no_repeat l -> (forall a, last l = Some a -> a.2 <> d.2) -> no_repeat (l ++ [d]).
Proof.
  induction l as [|a [|b l] IH]; intros Hn Hl; simpl in *; [done|by split; [apply Hl|]|].
  destruct Hn as [Hne Hn]. split; [done|]. by apply IH.
Qed.

Record sent_inv (x : stream B) : Prop := {
  se_last : s_last x = snd <$> last (s_sent x);
  se_fresh : no_repeat (s_sent x) }.

Lemma sent_inv_step x x' : sent_inv x -> step x x' -> sent_inv x'.
Proof.
  intros [Hl Hf] Hs. destruct Hs as [x ok|x|x b' Ho]; [|unfold context_done; by case_decide; constructor|by constructor].
  unfold turn. destruct (s_at x); [|destruct (P_signalled _ _); by constructor|by constructor].
  destruct (P_Get (backend x) (s_module x)) as [rev data]. rewrite Hl.
  destruct (last (s_sent x)) as [[r0 d0]|] eqn:E; simpl; [destruct (String.eqb_spec data d0) as [|Hne]; simpl|];
    [constructor; simpl; [by rewrite E|done]|destruct ok; constructor; simpl..]; rewrite ?last_snoc, ?E; try done.
  - apply no_repeat_snoc; [done|]. intros a Ha. simplify_eq. simpl. congruence.
  - apply no_repeat_snoc; [done|]. intros a Ha. congruence.
Qed.

End Feed.

Import (hints) memory.

(** Two documents set at once: the module reads the first stream state and the last. *)
Definition settled : stream memory.MemPolicy := turn true (turn true memory.late).

End policyfeed.

(** ** The remaining programs *)

Module tools.

(** [main] of weavemanifest: the arguments after the program's name; [None] prints the
    usage.  Every failure exits with 1. *)
Section Weavemanifest.
Import signing.
Context {JP : JSON PublicKey} {JS : JSON Signature} {JK : JSON privateKeyFile} {JC : JSON manifest.ChannelManifest}.
Context (ed_verify : string -> string -> string -> bool) (ed_sign : string -> string -> string) (write_ok : string -> bool).
Notation files := (gmap string string).

Inductive verdict := Usage | NotLocal (verb : string) | Failed (e : error) | Succeeded (fs : files).
Definition of_files (r : result error files) : verdict := match r with Ok f => Succeeded f | Err e => Failed e end.
Definition weavemanifest_main (args : list string) (gen : option (string * string)) (fs : files) : verdict :=
  match args with
  | [] => Usage
  | verb :: rest =>
      if String.eqb verb "keygen" then of_files (keygen write_ok rest gen fs)
      else if String.eqb verb "endorse" then of_files (signFile ed_sign write_ok rest true fs)
      else if String.eqb verb "sign" then of_files (signFile ed_sign write_ok rest false fs)
      else if String.eqb verb "verify" then
        match verify ed_verify rest fs with Ok _ => Succeeded fs | Err e => Failed e end
      else if existsb (String.eqb verb) ["generate"; "promote"; "pin"] then NotLocal verb
      else Usage
  end.
Definition exit_code (v : verdict) : Z := match v with Succeeded _ => 0 | _ => 1 end.

(** The exit status can be trusted: 0 means that the verb did its work, and for verify
    that the chain from the root key to the manifest holds and no file changed. *)
Theorem weavemanifest_exit args gen fs :
  exit_code (weavemanifest_main args gen fs) = 0 <->
  match args with
  | "keygen" :: rest => is_ok (keygen write_ok rest gen fs) = true
  | "endorse" :: rest => is_ok (signFile ed_sign write_ok rest true fs) = true
  | "sign" :: rest => is_ok (signFile ed_sign write_ok rest false fs) = true
  | "verify" :: rest => is_ok (verify ed_verify rest fs) = true /\ weavemanifest_main args gen fs = Succeeded fs
  | _ => False
  end.
Proof.
  destruct args as [|verb rest]; [done|]. unfold weavemanifest_main.
  destruct (String.eqb_spec verb "keygen") as [->|H1]; [by destruct (keygen _ _ _ _)|].
  destruct (String.eqb_spec verb "endorse") as [->|H2]; [by destruct (signFile _ _ _ _ _)|].
  destruct (String.eqb_spec verb "sign") as [->|H3]; [by destruct (signFile _ _ _ _ _)|].
  destruct (String.eqb_spec verb "verify") as [->|H4]; [destruct (verify _ _ _); by split; [|intros []]|].
  destruct (existsb _ _); simpl; split; try done; intros H;
    repeat match type of H with context [match ?x with _ => _ end] => destruct x; try done end.
Qed.
End Weavemanifest.

(** [main] of aptrepo: its exit code. *)
Section Aptrepo.
Import os.
Context {X : Type}.
Context (build : path -> path -> string -> string -> M X unit) (verifyRepo : path -> M X unit).
Definition apt_formal (name : string) : option flag.kind :=
  if existsb (String.eqb name) ["in"; "out"; "key"; "origin"; "verify"] then Some flag.KString else None.
Definition to_path (s : string) : path := clean (split "/" s).
Definition apt_main (args : list string) : M X Z :=
  match flag.Parse apt_formal (fun _ => false) args with
  | flag.Help => ret 0
  | flag.Bad => ret 2
  | flag.Args set _ =>
      let get name d := flag.value set name d in
      if negb (String.eqb (get "verify" "") "") then
        r <-! attempt (verifyRepo (to_path (get "verify" ""))) ;; ret (if is_ok r then 0 else 1)
      else if String.eqb (get "out" "") "" then ret 2
      else r <-! attempt (build (to_path (get "in" "dist")) (to_path (get "out" "")) (get "key" "") (get "origin" "weave")) ;;
           ret (if is_ok r then 0 else 1)
  end.

(** Exit status 0 means that the repository was checked or built, except when help was
    asked for. *)
Lemma apt_exit args w w' : apt_main args w = (Ok 0, w') ->
  flag.Parse apt_formal (fun _ => false) args = flag.Help \/
  exists set rest, flag.Parse apt_formal (fun _ => false) args = flag.Args set rest /\
    (verifyRepo (to_path (flag.value set "verify" "")) w = (Ok tt, w') /\ flag.value set "verify" "" <> "" \/
     build (to_path (flag.value set "in" "dist")) (to_path (flag.value set "out" "")) (flag.value set "key" "")
       (flag.value set "origin" "weave") w = (Ok tt, w') /\ flag.value set "verify" "" = "" /\ flag.value set "out" "" <> "").
Proof.
  unfold apt_main, bind, attempt, ret.
  destruct (flag.Parse _ _ _) as [set rest| |]; [|by left|done]. intros H. right. exists set, rest. split; [done|].
  destruct (String.eqb_spec (flag.value set "verify" "") "") as [E|E]; simpl in H.
  - destruct (String.eqb_spec (flag.value set "out" "") "") as [Eo|Eo]; [done|]. right.
    destruct (build _ _ _ _ w) as [[[]|e] w1]; simpl in H; by simplify_eq.
  - left. destruct (verifyRepo _ w) as [[[]|e] w1]; simpl in H; by simplify_eq.
Qed.
End Aptrepo.

(** [DefaultChannelKeyPath] *)
Definition DefaultChannelKeyPath (windows : bool) (programData : string) : string :=
  if windows then (if String.eqb programData "" then "C:\ProgramData" else programData) +++ "\weave\channel.pub"
  else "/etc/weave/channel.pub".

(** [peerCred] on macOS: LOCAL_PEERCRED has no pid. *)
Definition peerCred_darwin (c : ipc.conn) : ipc.PeerCred :=
  if negb (ipc.is_unix c) then ipc.mkCred 0 false 0 false
  else if negb (ipc.raw_ok c) then ipc.mkCred 0 false 0 false
  else match ipc.ucred c with
       | None => ipc.mkCred 0 false 0 false
       | Some (uid, _) => ipc.mkCred uid true 0 false
       end.

(** The gate of the control socket decides alike on both systems: only the uid counts. *)
Lemma darwin_gate self c : controlsock.controlAuthorizer self (peerCred_darwin c) = controlsock.controlAuthorizer self (ipc.peerCred c).
Proof. unfold peerCred_darwin, ipc.peerCred. destruct (negb _); [done|]. destruct (negb _); [done|]. by destruct (ipc.ucred c) as [[]|]. Qed.
End tools.
