(* ===== verification/Fixtures.v ===== *)
(** * The modules the tests run (testdata of sdk/modulesdk/testkit and internal/supervise)

    Two small modules written against the SDK.  [toymodule] exercises the host services:
    it runs on the test kit and on core's services alike, and what the kit's test
    observes is what core ends up with.  [testmodule] crashes on demand: it drives the
    supervisor's restart path and breaker. *)

From stdpp Require Import base list strings gmap.
From Stdlib Require Import ZArith Lia Ascii.
From S2P Require Import Prelude.
From S2P Require Import GoStrings.
From S2P Require Import GoText.
From S2P Require Import Json.
From S2P Require Import Store.
From S2P Require Import EventBus.
From S2P Require Import Policy.
From S2P Require Import HostServ.
From S2P Require Import ModuleSdk.
From S2P Require Import Launch.
From S2P Require Import TestKit.
From S2P Require Import Supervisor.
From S2P Require Import HostClient.
From S2P Require Import Tools.
Open Scope Z_scope.

Local Infix "+++" := String.append (at level 60, right associativity).

(** ** The toy module *)

Module toymodule.
Import (hints) store hostserv.

Definition ID : string := "toy".
Definition Requires : list string := ["test.cap"].
Definition toy_card : hostclient.Surface := hostclient.mkSurface "toy-card" "Toy" "card" "".

Section Toy.
(** A call of a host service, whoever answers it. *)
Context {X : Type} (call : hostserv.request -> X -> result werror.error hostserv.reply * X).

Definition Init (h : hostclient.hostClient) (x : X) : result string unit * hostclient.hostClient * X :=
  match call (hostserv.StorePut (modulesdk.ns_prefix "" +++ "init-key") "init-value") x with
  | (Err e, x') => (Err (werror.msg e), h, x')
  | (Ok _, x') => let (r, h') := hostclient.uiBroker_Declare [toy_card] h in (r, h', x')
  end.
Definition Start (x : X) : result string unit * X :=
  match call (hostserv.PublishEvent "started" "hello") x with
  | (Err e, x') => (Err (werror.msg e), x')
  | (Ok _, x') =>
      match call (hostserv.TransportSend hostclient.PeerGateWeave "heartbeat" "beat" false) x' with
      | (Err e, x'') => (Err (werror.msg e), x'')
      | (Ok _, x'') => (Ok tt, x'')
      end
  end.
End Toy.
Definition Stop : result string unit := Ok tt.
Definition Health : health.Health := health.mkHealth health.HealthHealthy "" ∅.

(** The two hosts. *)
Section Hosts.
Context {S T : Type} {SB : store.StoreBackend S} {SL : store.StoreLaws S} {TB : hostserv.TransportBackend T}.
Context (token : string) (allow : list string).
Definition on_kit (now : Z) : hostserv.request -> testkit.HostData -> _ := testkit.serve ID token [token] now.
Definition on_core (c : store.call) (now : Z) : hostserv.request -> hostserv.Services S T -> _ :=
  modulesdk.invoke_at ID token allow now c.

(** On the kit nothing fails: the test finds the key, the surface, one event under the
    module's name and one message. *)
Theorem toy_on_kit now1 now2 d h : hostclient.started h = false ->
  exists h1 d1 d2, Init (on_kit now1) h d = (Ok tt, h1, d1) /\ Start (on_kit now2) d1 = (Ok tt, d2) /\
    hostclient.declaredSurfaces h1 = hostclient.declaredSurfaces h ++ [toy_card] /\
    testkit.StoreGet "init-key" d2 = Some "init-value" /\
    testkit.events d2 = testkit.events d ++ [testkit.mkPublished "toy.started" "hello" now2] /\
    testkit.sends d2 = testkit.sends d ++ [testkit.mkSent 1 "heartbeat" "beat" false].
Proof.
  intros Hh. unfold Init, Start, on_kit, testkit.serve, testkit.token_ok, hostclient.uiBroker_Declare.
  rewrite String.eqb_refl, Hh. simpl. eexists _, _, _. split_and!; try reflexivity.
  unfold testkit.StoreGet. simpl. by rewrite lookup_insert_eq.
Qed.

Lemma on_core_ok c now q v a v' : on_core c now q v = (Ok a, v') -> hostserv.dispatch ID allow c now q v = (Ok a, v').
Proof.
  unfold on_core, modulesdk.invoke_at, hostserv.serve, hostserv.token_ok. rewrite String.eqb_refl.
  destruct (hostserv.dispatch _ _ _ _ _ _) as [[x|e] w]; intros H; [by simplify_eq|].
  destruct (werror.sentinelErr _); simplify_eq.
Qed.
Lemma on_kit_dispatch now q d : on_kit now q d = testkit.dispatch ID now q d.
Proof. unfold on_kit, testkit.serve, testkit.token_ok. by rewrite String.eqb_refl. Qed.

(** A send leaves everything but the transport alone. *)
Lemma agree_transport ids d (v : hostserv.Services S T) t m :
  testkit.agree ID ids d v -> testkit.agree ID ids (testkit.RecordSend m d) (hostserv.with_transport t v).
Proof. intros [? ? ? ? ?]. by constructor. Qed.

(** One covered call, on both hosts. *)
Lemma step_both ids d (v : hostserv.Services S T) c now q a v' :
  testkit.agree ID ids d v -> on_core c now q v = (Ok a, v') -> testkit.covered q = true ->
  exists b d' ids', on_kit now q d = (Ok b, d') /\ testkit.agree ID ids' d' v' /\
    testkit.sends d' = testkit.sends d /\ (forall k x, q = hostserv.StorePut k x \/ q = hostserv.PublishEvent k x ->
      hostserv.Transport v' = hostserv.Transport v).
Proof.
  intros Ha H Hq. apply on_core_ok in H.
  destruct (testkit.agree_step _ _ _ _ _ _ _ _ _ _ Ha Hq H) as (b & ids' & Hb & _ & Ha').
  rewrite on_kit_dispatch. destruct (testkit.dispatch ID now q d) as [o d'] eqn:E. simpl in Hb, Ha'. subst o.
  exists b, d', ids'. split_and!; [done..| |].
  - destruct q; try (vm_compute in Hq; discriminate); apply (f_equal snd) in E; cbn [snd] in E; rewrite <-E; reflexivity.
  - intros k x [-> | ->]; simpl in H; [unfold hostserv.storeServer_Put in H|unfold hostserv.eventsServer_Publish in H; by simplify_eq].
    destruct (store.Put _ _ _ _ _) as [[] s']; by simplify_eq.
Qed.

(** Tested, then deployed: from a core and a kit that agree, if core accepts what the
    module does in Init and Start, the kit accepts it too and declares the same
    surfaces; core and kit agree afterwards on the module's store, events and policy,
    and the message the kit recorded is the one core's transport was given, under the
    module's name. *)
Theorem toy_deployed ids d (v : hostserv.Services S T) h c1 c2 now1 now2 h1 v1 v2 :
  testkit.agree ID ids d v ->
  Init (on_core c1 now1) h v = (Ok tt, h1, v1) -> Start (on_core c2 now2) v1 = (Ok tt, v2) ->
  exists d1 d2 ids', Init (on_kit now1) h d = (Ok tt, h1, d1) /\ Start (on_kit now2) d1 = (Ok tt, d2) /\
    testkit.agree ID ids' d2 v2 /\
    testkit.sends d2 = testkit.sends d ++ [testkit.mkSent 1 "heartbeat" "beat" false] /\
    exists delivered, hostserv.T_Send ID 1 "heartbeat" "beat" false (hostserv.Transport v) = (Ok delivered, hostserv.Transport v2).
Proof.
  intros Ha Hi Hs. unfold Init in Hi |- *.
  destruct (on_core c1 now1 _ v) as [[a|e] va] eqn:E1; [|by simplify_eq].
  destruct (hostclient.uiBroker_Declare [toy_card] h) as [r0 h0]. simplify_eq.
  destruct (step_both _ _ _ _ _ _ _ _ Ha E1 eq_refl) as (b1 & d1 & ids1 & -> & Ha1 & Hs1 & Ht1).
  specialize (Ht1 _ _ (or_introl eq_refl)). unfold Start in Hs |- *.
  destruct (on_core c2 now2 (hostserv.PublishEvent _ _) v1) as [[a2|e] vb] eqn:E2; [|by simplify_eq].
  destruct (step_both _ _ _ _ _ _ _ _ Ha1 E2 eq_refl) as (b2 & d2 & ids2 & Hk2 & Ha2 & Hs2 & Ht2).
  specialize (Ht2 _ _ (or_intror eq_refl)).
  destruct (on_core c2 now2 (hostserv.TransportSend _ _ _ _) vb) as [[a3|e] vc] eqn:E3; [|by simplify_eq].
  apply on_core_ok in E3. simplify_eq. cbn [hostserv.dispatch] in E3. unfold hostserv.transportServer_Send in E3.
  rewrite Ht2, Ht1 in E3. destruct (hostserv.T_Send _ _ _ _ _ _) as [[dl|] t'] eqn:Et; simplify_eq.
  eexists d1, _, ids2. split; [done|]. rewrite Hk2, on_kit_dispatch. cbn [testkit.dispatch]. unfold testkit.transportServer_Send.
  split; [done|]. split; [by apply agree_transport|]. split; [by cbn; rewrite Hs2, Hs1|]. by exists dl.
Qed.
End Hosts.

(** *** Witnesses: a kit and a core that have just started *)

Lemma toy_on_kit_witness :
  exists h1 d1 d2, Init (on_kit "tok" 1) hostclient.newHostClient testkit.NewHostData = (Ok tt, h1, d1) /\
    Start (on_kit "tok" 2) d1 = (Ok tt, d2) /\ hostclient.declaredSurfaces h1 = [toy_card].
Proof.
  destruct (toy_on_kit "tok" 1 2 testkit.NewHostData hostclient.newHostClient eq_refl) as (h1 & d1 & d2 & H1 & H2 & H3 & _).
  exists h1, d1, d2. exact (conj H1 (conj H2 H3)).
Defined.

Definition core_inited :=
  Init (on_core "tok" [] store.a_call 1) hostclient.newHostClient testkit.kit_services.
Definition core_started := Start (on_core "tok" [] store.a_call 2) core_inited.2.

Lemma toy_deployed_witness : exists d1 d2,
  Init (on_kit "tok" 1) hostclient.newHostClient testkit.NewHostData = (Ok tt, core_inited.1.2, d1) /\
  Start (on_kit "tok" 2) d1 = (Ok tt, d2) /\ testkit.sends d2 = [testkit.mkSent 1 "heartbeat" "beat" false].
Proof.
  assert (core_inited = (Ok tt, core_inited.1.2, core_inited.2)) as Hi by (vm_compute; reflexivity).
  assert (core_started = (Ok tt, core_started.2)) as Hs by (vm_compute; reflexivity).
  destruct (toy_deployed "tok" [] [] testkit.NewHostData testkit.kit_services hostclient.newHostClient store.a_call store.a_call 1 2
              core_inited.1.2 core_inited.2 core_started.2 ltac:(by constructor) Hi Hs) as (d1 & d2 & ids' & H1 & H2 & _ & H3 & _).
  exists d1, d2. exact (conj H1 (conj H2 H3)).
Defined.
End toymodule.

(** ** The module that crashes on demand *)

Module testmodule.
Import launch supervise.

Definition ID : string := "testmod".
Definition Requires : list string := ["platform.osinfo"].
Definition ms : Z := 10 ^ 6.
Definition i64 (n : Z) : Z := (n + 2 ^ 63) mod 2 ^ 64 - 2 ^ 63.

(** [SetConfig]: the document's crash_after_ms, 0 without a document. *)
Definition SetConfig {J : JSON Z} (doc : string) : option Z := if String.eqb doc "" then Some 0 else unmarshal doc.

(** [Start]: when the process exits with 1, counted from the start; a sleep that is not
    positive returns at once.  [env] is TESTMOD_EXIT_AFTER_MS. *)
Definition Start (crashAfterMS : Z) (env : string) : option Z :=
  let crash := match parse_int env with Some ms => if 0 <? ms then ms else crashAfterMS | None => crashAfterMS end in
  if 0 <? crash then Some (Z.max 0 (i64 (crash * ms))) else None.
Definition Health : health.Health := health.mkHealth health.HealthHealthy "" ∅.

(** What a supervisor's monitor sees of it: health polls, all answered, and pings, until
    it exits if it does. *)
Definition answered (e : event) : Prop := e = HealthTick (health.poll (Some Health)) \/ exists t, e = Ping t.
Definition seen (crash : option Z) (quiet : list event) : list event :=
  quiet ++ match crash with Some _ => [Exited] | None => [] end.

Lemma watch_answered s quiet evs r : Forall answered quiet ->
  exists r', watch s (quiet ++ evs) r 0 = watch s evs r' 0.
Proof.
  intros H. revert r. induction H as [|e quiet He _ IH]; intros r; [by exists r|].
  destruct He as [-> | [t ->]]; simpl; [|apply IH].
  rewrite (proj2 (Z.leb_gt _ _)) by apply strikes_pos. apply IH.
Qed.

(** Left alone it runs for good; told to crash it is a crash of the supervisor's, never
    a clean stop and never a kill. *)
Lemma testmod_monitored s t crash quiet r : Forall answered quiet ->
  (monitor s t (health.poll (Some Health)) (seen crash quiet) r).1.1 = if crash is Some _ then Crashed else Watching.
Proof.
  intros Hq. unfold monitor, pollHealth. change (health.poll (Some Health)) with (Some HEALTHY). cbv beta iota zeta.
  rewrite (proj2 (Z.leb_gt _ _)) by apply strikes_pos. unfold seen.
  edestruct (watch_answered s quiet) as [r' ->]; [exact Hq|]. by destruct crash.
Qed.

(** A round of the supervisor on this module: nothing is cancelled, the launch works,
    and it is up for as long as its own timer says. *)
Definition plays (s : Supervisor) (sp : Spec) (crash : option Z) (rd : round) : Prop :=
  rd_cancelled rd = false /\ rd_wait_cancelled rd = false /\ is_ok (launch (sup_launcher s) sp (rd_launch rd)).1 = true /\
  rd_first rd = health.poll (Some Health) /\ (exists quiet, Forall answered quiet /\ rd_events rd = seen crash quiet) /\
  forall d, crash = Some d -> rd_uptime rd < d + retry.second.

(** The breaker test: configured to crash a second or more before the supervisor would
    call it stable, and crashing over and over inside one window, the module is
    launched as often as the limit allows and then left start-limited. *)
Theorem testmod_breaker s rds r cfg env d :
  Start cfg env = Some d -> d + retry.second <= stableAfter s ->
  Forall (plays s (spec r) (Start cfg env)) rds ->
  (forall rd rd', rd ∈ rds -> rd' ∈ rds -> rd_now rd - rd_now rd' <= startLimitWindow s) ->
  startLimitBurst s <= Z.of_nat (length rds) ->
  exists r' t, run s rds r = (Done, r', t) /\ state r' = StateStartLimited /\
    Z.of_nat (length (List.filter is_verify t)) = startLimitBurst s.
Proof.
  intros Hst Hd Hp Hw Hlen. rewrite Hst in Hp. pose proof (burst_pos s).
  apply (run_quick s rds [] O r); [|intros rd t Hrd (rd' & -> & Hrd')%list_elem_of_fmap; by apply Hw|simpl; lia].
  eapply Forall_impl; [exact Hp|]. intros rd (H1 & H2 & Hl & Hf & (quiet & Hq & He) & Hu).
  split; [done|]. split; [done|]. destruct (launch _ _ _).1 as [p|e]; [|done].
  split; [|specialize (Hu d eq_refl); lia]. intros r0. rewrite Hf, He. by apply testmod_monitored.
Qed.

(** The variable overrides the configuration, and a delay that does not fit is no
    delay at all. *)
Lemma Start_env cfg n : 0 < n < 2 ^ 63 -> Start cfg (format_uint n) = Some (Z.max 0 (i64 (n * ms))).
Proof. intros Hn. unfold Start. rewrite parse_int_format by lia. rewrite (proj2 (Z.ltb_lt 0 n)) by lia. by rewrite (proj2 (Z.ltb_lt 0 n)) by lia. Qed.
Example overlong : Start 9223372036855 "" = Some 0.
Proof. reflexivity. Qed.

(** *** Witness: two crashes a second after the start *)

Definition crash_round (now : Z) : round :=
  mkRound false (demo_env true) false (health.poll (Some Health)) (seen (Some 0) [HealthTick (health.poll (Some Health))])
    now 0 now (fun d => d / 2) (fun _ => "1s") false.
Lemma testmod_breaker_witness :
  exists r' t, run demo_sup [crash_round 1; crash_round 2] demo_runner = (Done, r', t) /\ state r' = StateStartLimited /\
    Z.of_nat (length (List.filter is_verify t)) = startLimitBurst demo_sup.
Proof.
  apply (testmod_breaker demo_sup [crash_round 1; crash_round 2] demo_runner 0 "1" ms); [reflexivity|vm_compute; discriminate| | |discriminate].
  - repeat constructor; try (vm_compute; reflexivity);
      try (exists [HealthTick (health.poll (Some Health))]; split; [by constructor; [left|]|reflexivity]); intros d [= <-]; reflexivity.
  - assert (Forall (fun rd => 1 <= rd_now rd <= 2) [crash_round 1; crash_round 2]) as H by (repeat constructor; simpl; lia).
    rewrite Forall_forall in H. intros rd rd' H1%H H2%H. assert (startLimitWindow demo_sup = 600 * retry.second) as -> by reflexivity.
    unfold retry.second. lia.
Defined.
End testmodule.
